(** * eyehike-link-checker: a shallow embedding of the link-verification pipeline

    The two scripts [sitewide_link_checker.py] and [webcam_link_checker.py]
    are embedded as monadic Rocq programs over a small model of the Python
    run time they use:
    - dict objects live in a heap and are passed by reference, so that
      copies, aliasing and in-place updates are visible;
    - exceptions carry their class, with the class hierarchy of the
      [requests] package, and are caught by [try_except];
    - the network answers each request, possibly depending on the requests
      made before, and every request is recorded in a trace;
    - [print] writes lines to standard output;
    - a thread pool runs its tasks in the order an arbitrary scheduler
      completes them.

    Characters are modelled by [ascii] and a [str] by [string]; a dict is a
    finite map from keys to values (the order of insertion is not modelled).
    The HTML report is the text the templates of the scripts give; the
    text of the JSON snapshot is left to the host.

    The file has three parts: the run time and the two scripts; the
    vocabulary of the statements and the concrete runs used as examples; the
    properties, component by component. *)

From Stdlib Require Import ZArith Lia Permutation Ascii String.
From stdpp Require Import base option list strings gmap pretty sorting.

Local Open Scope string_scope.
Local Open Scope Z_scope.

(** ** Python values and dict objects *)

(** The values stored in the dicts of the program: text and integers
    ([status_code] holds an [int] on the HTTP path and a [str] otherwise). *)
Inductive value :=
  | VStr (s : string)
  | VInt (n : Z).

Global Instance value_eq_dec : EqDecision value.
Proof. solve_decision. Defined.

Definition value_to_sum (v : value) : string + Z :=
  match v with VStr s => inl s | VInt n => inr n end.

Definition value_of_sum (x : string + Z) : value :=
  match x with inl s => VStr s | inr n => VInt n end.

Global Instance value_countable : Countable value.
Proof.
  apply (inj_countable' value_to_sum value_of_sum).
  intros []; reflexivity.
Defined.

(** [str(v)], as an f-string renders a value. *)
Definition str_value (v : value) : string :=
  match v with VStr s => s | VInt n => pretty n end.

(** A reference to a dict object: its address in the heap. *)
Definition loc := nat.

(** ** Strings *)

(** [s[:n]] *)
Definition slice_to (n : nat) (s : string) : string := String.substring 0 n s.

(** [a or b] on strings: the first operand unless it is empty. *)
Definition str_or (a b : string) : string :=
  match a with "" => b | _ => a end.

(** [s.startswith(p)] *)
Definition startswith (s p : string) : bool := String.prefix p s.

(** [f in s] (substring test). *)
Fixpoint str_contains (f s : string) : bool :=
  String.prefix f s ||
  match s with
  | "" => false
  | String _ s' => str_contains f s'
  end.

(** [s.rstrip(c)] for a one-character set: every trailing [c] is removed. *)
Fixpoint rstrip (c : ascii) (s : string) : string :=
  match s with
  | "" => ""
  | String a s' =>
      match rstrip c s' with
      | "" => if Ascii.eqb a c then "" else String a ""
      | r => String a r
      end
  end.

(** [s.lstrip(c)] for a predicate on characters. *)
Fixpoint lstrip_if (p : ascii -> bool) (s : string) : string :=
  match s with
  | "" => ""
  | String a s' => if p a then lstrip_if p s' else s
  end.

Fixpoint rstrip_if (p : ascii -> bool) (s : string) : string :=
  match s with
  | "" => ""
  | String a s' =>
      match rstrip_if p s' with
      | "" => if p a then "" else String a ""
      | r => String a r
      end
  end.

(** [str.isspace] on the characters below 256. *)
Definition isspace (a : ascii) : bool :=
  let n := nat_of_ascii a in
  ((9 <=? n) && (n <=? 13) || (28 <=? n) && (n <=? 32)
   || (n =? 133) || (n =? 160))%nat.

(** [s.strip()] *)
Definition strip (s : string) : string := rstrip_if isspace (lstrip_if isspace s).

(** [s.lower()] on the characters below 256: the letters A-Z, and the
    accented capitals of Latin-1. *)
Definition lower_ascii (a : ascii) : ascii :=
  let n := nat_of_ascii a in
  if ((65 <=? n) && (n <=? 90)
      || (192 <=? n) && (n <=? 222) && negb (n =? 215))%nat
  then ascii_of_nat (n + 32) else a.

Fixpoint lower (s : string) : string :=
  match s with
  | "" => ""
  | String a s' => String (lower_ascii a) (lower s')
  end.

(** [c * n] for a string [c]. *)
Fixpoint str_repeat (c : string) (n : nat) : string :=
  match n with
  | O => ""
  | S n' => c ++ str_repeat c n'
  end.

(** ** Exceptions *)

(** The exception classes the program can meet. Those of
    [requests.exceptions] keep the hierarchy of that package: a
    [ConnectTimeout] is both a [ConnectionError] and a [Timeout].
    [ParserRejectedMarkup] is the exception of [bs4] for a document that the
    HTML parser gives up on. Every class derives from [Exception]. *)
Inductive exn_class :=
  | KeyError
  | TypeError
  | ValueError
  | ParseError
  | RequestException
  | HTTPError
  | ConnectionError
  | ProxyError
  | SSLError
  | Timeout
  | ConnectTimeout
  | ReadTimeout
  | TooManyRedirects
  | MissingSchema
  | InvalidSchema
  | InvalidURL
  | ParserRejectedMarkup.

Global Instance exn_class_eq_dec : EqDecision exn_class.
Proof. solve_decision. Defined.

(** The strict ancestors of a class below [Exception]. *)
Definition ancestors (c : exn_class) : list exn_class :=
  match c with
  | KeyError | TypeError | ValueError | ParseError | RequestException
  | ParserRejectedMarkup => []
  | HTTPError | ConnectionError | Timeout | TooManyRedirects => [RequestException]
  | ProxyError | SSLError => [ConnectionError; RequestException]
  | ConnectTimeout => [ConnectionError; Timeout; RequestException]
  | ReadTimeout => [Timeout; RequestException]
  | MissingSchema | InvalidSchema | InvalidURL => [RequestException; ValueError]
  end.

Definition issubclass (c d : exn_class) : bool :=
  bool_decide (c = d) || bool_decide (d ∈ ancestors c).

(** An exception object: its class and [str(e)]. *)
Record exn := Exn { exn_class_of : exn_class; exn_str : string }.

Definition isinstance (e : exn) (d : exn_class) : bool :=
  issubclass (exn_class_of e) d.

Inductive result (A : Type) :=
  | Ok (a : A)
  | Raise (e : exn).
Arguments Ok {A} a.
Arguments Raise {A} e.

(** ** The network *)

Inductive http_method := HEAD | GET.

Record request := Request {
  rq_method : http_method;
  rq_url : string;
  rq_headers : list (string * string);
  rq_timeout : Z;
  rq_allow_redirects : bool;
  rq_stream : bool
}.

(** A [requests.Response]: the final status, the reason phrase, the URL after
    redirects and the body. *)
Record response := Response {
  r_status_code : Z;
  r_reason : string;
  r_url : string;
  r_text : string
}.

(** ** Parsed documents *)

(** An [<a href=...>] element as BeautifulSoup exposes it to the program:
    the raw attribute, [get_text(strip=True)] and the text of the nearest
    enclosing [<h3>], if any. *)
Record a_tag := ATag {
  tag_href : string;
  tag_text : string;
  tag_parent_h3 : option string
}.

(** A parsed page: the text of its [<title>], if any, and
    [find_all("a", href=True)] in document order. *)
Record soup := Soup {
  soup_title : option string;
  soup_find_all_a : list a_tag
}.

(** An [xml.etree.ElementTree.Element]: qualified tag, text, children. *)
#[local] Unset Elimination Schemes.
Inductive element :=
  | Element (tag : string) (txt : option string) (children : list element).

#[local] Set Elimination Schemes.

Definition element_tag (e : element) : string :=
  match e with Element t _ _ => t end.
Definition element_text (e : element) : option string :=
  match e with Element _ t _ => t end.
Definition element_children (e : element) : list element :=
  match e with Element _ _ c => c end.

(** [e.findall(path)] for a one-step path: the direct children with that tag. *)
Definition findall (e : element) (qtag : string) : list element :=
  filter (fun c => element_tag c = qtag) (element_children e).

(** [e.findtext(path)]: the text of the first such child ([""] when it has no
    text), [None] when there is none. *)
Definition findtext (e : element) (qtag : string) : option string :=
  match findall e qtag with
  | [] => None
  | c :: _ => Some (default "" (element_text c))
  end.

(** ** The environment of a run

    What the program does not decide itself: how the network answers (which
    may depend on the requests issued so far), the clock, the order in which
    the futures of a thread pool complete, and the parsers of the libraries
    it calls, each of which returns a value or raises. *)
Record environment := Environment {
  send : list request -> request -> result response;
  utcnow_isoformat : list request -> string;
  as_completed : forall A : Type, list A -> list A;
  BeautifulSoup : string -> result soup;
  ET_fromstring : string -> result element;
  urlparse_netloc : string -> result string
}.

(** ** The state of a run and the monad of effects *)

Record world := World {
  heap : list (gmap string value);
  trace : list request
}.

(** A computation reads and updates the world, prints lines, and returns a
    value or raises. The effects made before an exception are kept. *)
Definition M (A : Type) : Type := world -> result A * world * list string.

Definition ret {A} (a : A) : M A := fun w => (Ok a, w, []).

Definition raise {A} (e : exn) : M A := fun w => (Raise e, w, []).

Definition bind {A B} (m : M A) (k : A -> M B) : M B := fun w =>
  match m w with
  | (Ok a, w1, out1) =>
      match k a w1 with
      | (r, w2, out2) => (r, w2, (out1 ++ out2)%list)
      end
  | (Raise e, w1, out1) => (Raise e, w1, out1)
  end.

(** [try: m except Exception as e: h e] *)
Definition try_except {A} (m : M A) (h : exn -> M A) : M A := fun w =>
  match m w with
  | (Ok a, w1, out1) => (Ok a, w1, out1)
  | (Raise e, w1, out1) =>
      match h e w1 with
      | (r, w2, out2) => (r, w2, (out1 ++ out2)%list)
      end
  end.

Declare Scope py_scope.
Delimit Scope py_scope with py.
Notation "x <- m ;; k" := (bind m (fun x => k))
  (at level 100, m at next level, right associativity) : py_scope.
Notation "m ;; k" := (bind m (fun _ => k))
  (at level 100, right associativity) : py_scope.
Local Open Scope py_scope.

Definition print (line : string) : M unit := fun w => (Ok tt, w, [line]).

Definition lift {A} (r : result A) : M A := fun w => (r, w, []).

(** [for x in xs: acc = body acc x] *)
Fixpoint for_each {A B} (xs : list A) (acc : B) (body : B -> A -> M B) : M B :=
  match xs with
  | [] => ret acc
  | x :: xs' => acc' <- body acc x ;; for_each xs' acc' body
  end.

(** *** Dict objects *)

(** A fresh dict object holding [d]. *)
Definition new_dict (d : gmap string value) : M loc := fun w =>
  (Ok (length (heap w)), World (heap w ++ [d])%list (trace w), []).

(** Reading through a reference. A reference the program holds is always
    allocated; the error case is never reached from a valid world. *)
Definition deref (l : loc) : M (gmap string value) := fun w =>
  match heap w !! l with
  | Some d => (Ok d, w, [])
  | None => (Raise (Exn TypeError "invalid reference"), w, [])
  end.

(** [d[k]] *)
Definition getitem (l : loc) (k : string) : M value :=
  d <- deref l ;;
  match d !! k with
  | Some v => ret v
  | None => raise (Exn KeyError k)
  end.

(** [d.get(k, dflt)] *)
Definition dict_get (l : loc) (k : string) (dflt : value) : M value :=
  d <- deref l ;; ret (default dflt (d !! k)).

(** [d[k] = v] *)
Definition setitem (l : loc) (k : string) (v : value) : M unit := fun w =>
  match heap w !! l with
  | Some d => (Ok tt, World (<[l := <[k := v]> d]> (heap w)) (trace w), [])
  | None => (Raise (Exn TypeError "invalid reference"), w, [])
  end.

(** [d.copy()] *)
Definition dict_copy (l : loc) : M loc :=
  d <- deref l ;; new_dict d.

(** The text of a value used as a [str]; the fields of a link are strings. *)
Definition as_str (v : value) : M string :=
  match v with
  | VStr s => ret s
  | VInt _ => raise (Exn TypeError "expected str")
  end.

(** *** Requests *)

Section Runtime.
Context (E : environment).

(** One request: it is recorded, and the network answers. *)
Definition requests_request (rq : request) : M response := fun w =>
  (send E (trace w) rq, World (heap w) (trace w ++ [rq])%list, []).

(** [datetime.utcnow().isoformat()] *)
Definition utcnow : M string := fun w => (Ok (utcnow_isoformat E (trace w)), w, []).

(** A [ThreadPoolExecutor]: every submitted task runs to its end, and
    [as_completed] yields the futures in the order the tasks completed.
    The tasks are run one after the other in that order; a future holds the
    value its task returned or the exception it raised. *)
Fixpoint run_tasks {A B} (f : A -> M B) (xs : list A) : M (list (result B)) :=
  match xs with
  | [] => ret []
  | x :: xs' =>
      fun w =>
        match f x w with
        | (r, w1, out1) =>
            match run_tasks f xs' w1 with
            | (rs, w2, out2) =>
                (match rs with Ok l => Ok (r :: l) | Raise e => Raise e end,
                 w2, (out1 ++ out2)%list)
            end
        end
  end.

Definition pool_as_completed {A B} (f : A -> M B) (xs : list A)
  : M (list (result B)) :=
  run_tasks f (as_completed E A xs).

(** [future.result()] *)
Definition future_result {B} (fut : result B) : M B := lift fut.
End Runtime.

(** [r.raise_for_status()] *)
Definition raise_for_status (r : response) : M unit :=
  if (400 <=? r_status_code r) && (r_status_code r <? 500) then
    raise (Exn HTTPError (pretty (r_status_code r) ++ " Client Error: " ++ r_reason r
                          ++ " for url: " ++ r_url r))
  else if (500 <=? r_status_code r) && (r_status_code r <? 600) then
    raise (Exn HTTPError (pretty (r_status_code r) ++ " Server Error: " ++ r_reason r
                          ++ " for url: " ++ r_url r))
  else ret tt.

(** [r.close()] releases the connection; nothing the program observes. *)
Definition response_close (r : response) : M unit := ret tt.

(** [m.get(k, dflt)] for a dict literal with string keys, at any value [k]. *)
Definition lookup_value {X} (m : gmap string X) (k : value) : option X :=
  match k with
  | VStr s => m !! s
  | VInt _ => None
  end.

Definition nl : string := String "010"%char "".

(** ** Sorting

    [list.sort(key=...)] is a stable sort: the keys are computed once, and
    elements with equal keys keep their order. The result of a stable sort is
    determined by the list and the keys ([stable_sort_unique] below);
    insertion from the right computes it. *)
Section Sort.
Context {A K : Type} (lt : K -> K -> bool) (key : A -> K).

Fixpoint insert_sorted (x : A) (l : list A) : list A :=
  match l with
  | [] => [x]
  | y :: l' => if lt (key y) (key x) then y :: insert_sorted x l' else x :: l
  end.

Fixpoint stable_sort (l : list A) : list A :=
  match l with
  | [] => []
  | x :: l' => insert_sorted x (stable_sort l')
  end.
End Sort.

(** The order of Python on the tuples [(str, int)]. *)
Definition key_lt (a b : string * Z) : bool :=
  String.ltb a.1 b.1 || (String.eqb a.1 b.1 && (a.2 <? b.2)).

(** ** The process: local time, files, standard error, exit

    The report stage of each script reads the local clock, writes files and,
    in the webcam script, ends the process. *)

(** What the host of a run decides: the local time as [strftime] renders
    it, the directory of the script, whether a file can be opened for
    writing, and the text that [json.dumps(..., indent=2)] gives for a list
    of dicts (the order of the keys in that text is the order of insertion,
    which the model of a dict does not keep). *)
Record host := Host {
  now_strftime : list request -> string -> string;
  script_dir : string;
  open_w : gmap string string -> string -> result unit;
  json_dumps : list (gmap string value) -> string
}.

(** The files written, by path, and the lines on standard error. *)
Record process := Process {
  files : gmap string string;
  stderr : list string
}.

(** A step of the process returns, raises an exception, or leaves through
    [sys.exit], which no [except Exception] catches. *)
Inductive outcome (A : Type) :=
  | Returned (a : A)
  | Raised (e : exn)
  | Exited (code : Z).
Arguments Returned {A} a.
Arguments Raised {A} e.
Arguments Exited {A} code.

Definition MP (A : Type) : Type :=
  process -> world -> outcome A * process * world * list string.

Definition retP {A} (a : A) : MP A := fun p w => (Returned a, p, w, []).

Definition bindP {A B} (m : MP A) (k : A -> MP B) : MP B := fun p w =>
  match m p w with
  | (Returned a, p1, w1, out1) =>
      match k a p1 w1 with
      | (r, p2, w2, out2) => (r, p2, w2, (out1 ++ out2)%list)
      end
  | (Raised e, p1, w1, out1) => (Raised e, p1, w1, out1)
  | (Exited c, p1, w1, out1) => (Exited c, p1, w1, out1)
  end.

(** [try: m except Exception as e: h e] *)
Definition try_exceptP {A} (m : MP A) (h : exn -> MP A) : MP A := fun p w =>
  match m p w with
  | (Raised e, p1, w1, out1) =>
      match h e p1 w1 with
      | (r, p2, w2, out2) => (r, p2, w2, (out1 ++ out2)%list)
      end
  | run => run
  end.

(** A computation on the heap and the network, as a step of the process. *)
Definition liftM {A} (m : M A) : MP A := fun p w =>
  match m w with
  | (Ok a, w1, out) => (Returned a, p, w1, out)
  | (Raise e, w1, out) => (Raised e, p, w1, out)
  end.

Declare Scope proc_scope.
Delimit Scope proc_scope with proc.
Notation "x <- m ;; k" := (bindP m (fun x => k))
  (at level 100, m at next level, right associativity) : proc_scope.
Notation "m ;; k" := (bindP m (fun _ => k))
  (at level 100, right associativity) : proc_scope.

(** [print(line, file=sys.stderr)] *)
Definition print_stderr (line : string) : MP unit := fun p w =>
  (Returned tt, Process (files p) (stderr p ++ [line])%list, w, []).

(** [sys.exit(code)] *)
Definition sys_exit {A} (code : Z) : MP A := fun p w => (Exited code, p, w, []).

(** [with open(path, "w", encoding="utf-8") as f:] followed by the writes of
    the body, whose text [content] computes. Opening truncates the file. *)
Definition with_open_w (Ho : host) (path : string) (content : M string) : MP unit :=
  fun p w =>
    match open_w Ho (files p) path with
    | Raise e => (Raised e, p, w, [])
    | Ok _ =>
        match content w with
        | (Ok text, w1, out) =>
            (Returned tt, Process (<[path := text]> (files p)) (stderr p), w1, out)
        | (Raise e, w1, out) =>
            (Raised e, Process (<[path := ""]> (files p)) (stderr p), w1, out)
        end
    end.

(** [datetime.now().strftime(fmt)] *)
Definition strftime_now (Ho : host) (fmt : string) : M string := fun w =>
  (Ok (now_strftime Ho (trace w) fmt), w, []).

(** [s.endswith(suffix)] *)
Definition endswith (s suffix : string) : bool :=
  (String.length suffix <=? String.length s)%nat &&
  String.eqb
    (String.substring (String.length s - String.length suffix) (String.length suffix) s)
    suffix.

(** [os.path.join(a, b)] on a POSIX system. *)
Definition path_join (a b : string) : string :=
  if startswith b "/" then b
  else if bool_decide (a = "") || endswith a "/" then a ++ b
  else a ++ "/" ++ b.

(** [d.get(k)] *)
Definition dict_get_opt (l : loc) (k : string) : M (option value) :=
  d <- deref l ;; ret (d !! k).

(** The truth value of [d.get(k)]: [None], [""] and [0] are false. *)
Definition truthy (v : option value) : bool :=
  match v with
  | None => false
  | Some (VStr s) => negb (String.eqb s "")
  | Some (VInt n) => negb (n =? 0)
  end.

(** [v[:n]] for a value: only a [str] can be sliced. *)
Definition slice_value (n : nat) (v : value) : M string :=
  s <- as_str v ;; ret (slice_to n s).

(** [sum(1 for r in results if cond(r))] *)
Definition count_if (results : list loc) (cond : loc -> M bool) : M nat :=
  for_each results 0%nat (fun n r => b <- cond r ;; ret (if b then S n else n)).

(** [[r for r in results if cond(r)]] *)
Definition filter_if (results : list loc) (cond : loc -> M bool) : M (list loc) :=
  for_each results [] (fun kept r => b <- cond r ;; ret (if b then kept ++ [r] else kept)%list).

(** [r["status"] == st] and [r["status"] in sts] *)
Definition status_is (st : string) (r : loc) : M bool :=
  v <- getitem r "status" ;; ret (bool_decide (v = VStr st)).

Definition status_in (sts : list string) (r : loc) : M bool :=
  v <- getitem r "status" ;; ret (bool_decide (v ∈ VStr <$> sts)).

(** [list(dict.fromkeys(vs))]: the values in the order of their first
    occurrence. *)
Definition dict_fromkeys (vs : list value) : list value :=
  fold_left (fun keys v => if bool_decide (v ∈ keys) then keys else keys ++ [v])%list vs [].

(** The double quote, which a string of the templates cannot hold. *)
Definition dq : string := String "034"%char "".

(** * sitewide_link_checker.py *)
Module Sitewide.

Record site_config := SiteConfig {
  name : string;
  base_url : string;
  sitemap_url : string;
  sitemap_filter : list string;
  skip_domains : gset string
}.

Definition SITES : list site_config :=
  [ SiteConfig "Eyehike" "https://www.eyehike.com"
      "https://www.eyehike.com/2016/sitemap_index.xml"
      ["post-sitemap.xml"; "page-sitemap.xml"]
      {[ "www.eyehike.com"; "eyehike.com" ]};
    SiteConfig "Unscripted6160" "https://www.unscripted6160.com"
      "https://www.unscripted6160.com/wp-sitemap.xml"
      ["wp-sitemap-posts-post-1.xml"; "wp-sitemap-posts-page-1.xml"]
      {[ "www.unscripted6160.com"; "unscripted6160.com" ]} ].

Definition TIMEOUT : Z := 15.
Definition MAX_WORKERS : Z := 12.
Definition PAGE_WORKERS : Z := 5.

Definition GLOBAL_SKIP_DOMAINS : gset string :=
  {[ "wordpress.org"; "www.elegantthemes.com"; "elegantthemes.com";
     "schema.org"; "www.w3.org"; "fonts.googleapis.com"; "fonts.gstatic.com" ]}.

Definition HEADERS : list (string * string) :=
  [("User-Agent",
    "Mozilla/5.0 (compatible; SitewideL inkChecker/1.0; " ++
    "contact: your@email.com)")].

Definition sm_ns : string := "http://www.sitemaps.org/schemas/sitemap/0.9".
Definition sm (tag : string) : string := "{" ++ sm_ns ++ "}" ++ tag.

Definition rule60 : string := str_repeat "═" 60.

Section WithEnvironment.
Context (E : environment).

(** [requests.get(url, headers=HEADERS, timeout=TIMEOUT)] *)
Definition requests_get (url : string) : M response :=
  requests_request E (Request GET url HEADERS TIMEOUT true false).

(** [requests.get(url, ..., allow_redirects=True, stream=True)] *)
Definition requests_get_stream (url : string) : M response :=
  requests_request E (Request GET url HEADERS TIMEOUT true true).

(** [requests.head(url, ..., allow_redirects=True)] *)
Definition requests_head (url : string) : M response :=
  requests_request E (Request HEAD url HEADERS TIMEOUT true false).

(** STEP 1: the page URLs of the matching sub-sitemaps. *)
Definition parse_sitemap_index (sitemap_url : string) (filter_list : list string)
  : M (list string) :=
  print ("  [sitemap] Fetching index: " ++ sitemap_url) ;;
  fetched <-
    try_except
      (r <- requests_get sitemap_url ;;
       raise_for_status r ;;
       ret (Some r))
      (fun e =>
         print ("  [ERROR] Could not fetch sitemap: " ++ exn_str e) ;;
         ret None) ;;
  match fetched with
  | None => ret []
  | Some r =>
      root <- lift (ET_fromstring E (r_text r)) ;;
      let sub_sitemaps :=
        fold_left
          (fun sub_sitemaps sitemap =>
             let loc := str_or (default "" (findtext sitemap (sm "loc"))) "" in
             if existsb (fun f => str_contains f loc) filter_list
             then (sub_sitemaps ++ [loc])%list
             else sub_sitemaps)
          (findall root (sm "sitemap")) [] in
      print ("  [sitemap] Found " ++ pretty (length sub_sitemaps)
             ++ " matching sub-sitemaps") ;;
      page_urls <-
        for_each sub_sitemaps []
          (fun page_urls sub_url =>
             print ("  [sitemap] Fetching: " ++ sub_url) ;;
             try_except
               (r2 <- requests_get sub_url ;;
                raise_for_status r2 ;;
                root2 <- lift (ET_fromstring E (r_text r2)) ;;
                ret (fold_left
                       (fun page_urls url_el =>
                          match findtext url_el (sm "loc") with
                          | Some loc =>
                              if bool_decide (loc = "") then page_urls
                              else (page_urls ++ [loc])%list
                          | None => page_urls
                          end)
                       (findall root2 (sm "url")) page_urls))
               (fun e =>
                  print ("  [ERROR] Could not fetch sub-sitemap " ++ sub_url
                         ++ ": " ++ exn_str e) ;;
                  ret page_urls)) ;;
      print ("  [sitemap] Total pages to crawl: " ++ pretty (length page_urls)) ;;
      ret page_urls
  end.

(** STEP 2: the external links of one page. *)
Definition extract_links_from_page (page_url : string) (skip_domains : gset string)
  : M (list loc) :=
  let all_skip := skip_domains ∪ GLOBAL_SKIP_DOMAINS in
  fetched <-
    try_except
      (r <- requests_get page_url ;;
       raise_for_status r ;;
       ret (Some r))
      (fun e =>
         print ("  [SKIP] Could not fetch page " ++ slice_to 70 page_url
                ++ ": " ++ exn_str e) ;;
         ret None) ;;
  match fetched with
  | None => ret []
  | Some r =>
      soup <- lift (BeautifulSoup E (r_text r)) ;;
      let page_title :=
        match soup_title soup with
        | Some t => slice_to 80 t
        | None => page_url
        end in
      st <-
        for_each (soup_find_all_a soup) ([], ∅)
          (fun '(links, seen) tag =>
             let href := strip (tag_href tag) in
             let label := str_or (slice_to 80 (tag_text tag)) (slice_to 80 href) in
             if negb (startswith href "http") then ret (links, seen)
             else
               netloc <- lift (urlparse_netloc E href) ;;
               let domain := lower netloc in
               if bool_decide (domain ∈ all_skip) then ret (links, seen)
               else if bool_decide (href ∈ (seen : gset string)) then ret (links, seen)
               else
                 link <- new_dict
                   (<["url" := VStr href]>
                    (<["label" := VStr label]>
                     (<["page_url" := VStr page_url]>
                      (<["page_title" := VStr page_title]> ∅)))) ;;
                 ret ((links ++ [link])%list, seen ∪ {[ href ]})) ;;
      ret st.1
  end.

(** STEP 3: the external links of all the pages of a site. *)
Definition crawl_site (site : site_config) : M (list loc) :=
  print (nl ++ rule60) ;;
  print ("  📍 Crawling: " ++ name site) ;;
  print rule60 ;;
  page_urls <- parse_sitemap_index (sitemap_url site) (sitemap_filter site) ;;
  match page_urls with
  | [] =>
      print ("  [WARN] No pages found for " ++ name site) ;;
      ret []
  | _ =>
      print (nl ++ "  [crawl] Crawling " ++ pretty (length page_urls)
             ++ " pages for external links…") ;;
      futures <- pool_as_completed E
        (fun url => extract_links_from_page url (skip_domains site)) page_urls ;;
      st <-
        for_each (zip (seq 1 (length futures)) futures) ([], ∅)
          (fun '(all_links, seen_urls) '(i, future) =>
             page_links <- future_result future ;;
             st <-
               for_each page_links (all_links, seen_urls)
                 (fun '(all_links, seen_urls) link =>
                    u <- getitem link "url" ;;
                    if bool_decide (u ∈ (seen_urls : gset value))
                    then ret (all_links, seen_urls)
                    else
                      setitem link "site" (VStr (name site)) ;;
                      ret ((all_links ++ [link])%list, seen_urls ∪ {[ u ]})) ;;
             (if bool_decide (i `mod` 10 = 0)%nat || bool_decide (i = length page_urls)
              then print ("  [crawl] " ++ pretty i ++ "/" ++ pretty (length page_urls)
                          ++ " pages done, " ++ pretty (length st.1)
                          ++ " unique links so far")
              else ret tt) ;;
             ret st) ;;
      print (nl ++ "  [crawl] ✅ " ++ name site ++ ": " ++ pretty (length st.1)
             ++ " unique external links to check") ;;
      ret st.1
  end.

Definition icon : gmap string string :=
  <["OK" := "✅"]> (<["REDIRECT" := "↪️"]> (<["BROKEN" := "❌"]>
  (<["TIMEOUT" := "⏱️"]> (<["ERROR" := "⚠️"]> ∅)))).

(** STEP 4: the check of one link. The [url] of an entry is a string: it is
    passed to [requests.head] and sliced in the final [print]. *)
Definition check_link (entry : loc) : M loc :=
  url_value <- getitem entry "url" ;;
  url <- as_str url_value ;;
  result <- dict_copy entry ;;
  now <- utcnow E ;;
  setitem result "checked_at" (VStr (now ++ "Z")) ;;
  try_except
    (r <- requests_head url ;;
     r <- (if bool_decide (r_status_code r ∈ [405; 403; 501])
           then r <- requests_get_stream url ;;
                response_close r ;;
                ret r
           else ret r) ;;
     let final_url := r_url r in
     let status_code := r_status_code r in
     let redirected :=
       negb (String.eqb (rstrip "/" final_url) (rstrip "/" url)) in
     if (200 <=? status_code) && (status_code <? 400) then
       setitem result "status" (VStr (if negb redirected then "OK" else "REDIRECT")) ;;
       setitem result "status_code" (VInt status_code) ;;
       setitem result "final_url" (VStr (if redirected then final_url else ""))
     else
       setitem result "status" (VStr "BROKEN") ;;
       setitem result "status_code" (VInt status_code) ;;
       setitem result "final_url" (VStr ""))
    (fun e =>
       if isinstance e ConnectionError then
         setitem result "status" (VStr "BROKEN") ;;
         setitem result "status_code" (VStr "Connection Error") ;;
         setitem result "final_url" (VStr "")
       else if isinstance e Timeout then
         setitem result "status" (VStr "TIMEOUT") ;;
         setitem result "status_code" (VStr "Timeout") ;;
         setitem result "final_url" (VStr "")
       else
         setitem result "status" (VStr "ERROR") ;;
         setitem result "status_code" (VStr (slice_to 60 (exn_str e))) ;;
         setitem result "final_url" (VStr "")) ;;
  status <- getitem result "status" ;;
  code <- getitem result "status_code" ;;
  print ("  " ++ default "?" (lookup_value icon status) ++ " ["
         ++ str_value code ++ "] " ++ slice_to 75 url) ;;
  ret result.

Definition order : gmap string Z :=
  <["BROKEN" := 0]> (<["TIMEOUT" := 1]> (<["ERROR" := 2]>
  (<["REDIRECT" := 3]> (<["OK" := 4]> ∅)))).

(** The key of the final sort: [(r.get("site", ""), order.get(r["status"], 5))].
    Site names are strings. *)
Definition sort_key (r : loc) : M (string * Z) :=
  site_value <- dict_get r "site" (VStr "") ;;
  status <- getitem r "status" ;;
  site <- as_str site_value ;;
  ret (site, default 5 (lookup_value order status)).

(** STEP 5: the check of all links, and the final order. *)
Definition check_all_links (links : list loc) : M (list loc) :=
  print (nl ++ rule60) ;;
  print ("  🔍 Checking " ++ pretty (length links) ++ " unique external links…") ;;
  print (rule60 ++ nl) ;;
  futures <- pool_as_completed E check_link links ;;
  results <-
    for_each futures []
      (fun results future =>
         r <- future_result future ;;
         ret (results ++ [r])%list) ;;
  keyed <-
    for_each results []
      (fun keyed r =>
         k <- sort_key r ;;
         ret (keyed ++ [(k, r)])%list) ;;
  ret (map snd (stable_sort key_lt fst keyed)).
End WithEnvironment.
Section WithHost.
Context (E : environment) (Ho : host).

(** [REPORT_DIR]: the directory of the script. *)
Definition REPORT_DIR : string := script_dir Ho.

Definition status_colors : gmap string (string * string) :=
  <["OK" := ("#d4edda", "#155724")]>
  (<["REDIRECT" := ("#fff3cd", "#856404")]>
   (<["BROKEN" := ("#f8d7da", "#721c24")]>
    (<["TIMEOUT" := ("#fde8cc", "#7d4e00")]>
     (<["ERROR" := ("#e2e3e5", "#383d41")]> ∅)))).

(** The templates of the report: the text of the f-strings of
    [generate_html_report], with the fields as parameters. *)

(** The summary card of a site (lines 288-297). *)
Definition site_card_html (sname s_ok s_redir s_broke s_total : string) : string :=
  "
        <div class=" ++ dq ++ "site-card" ++ dq ++ ">
          <h3>🌐 " ++ sname ++ "</h3>
          <div class=" ++ dq ++ "mini-stats" ++ dq ++ ">
            <span class=" ++ dq ++ "stat ok" ++ dq ++ ">✅ " ++ s_ok ++ " Working</span>
            <span class=" ++ dq ++ "stat redir" ++ dq ++ ">↪️ " ++ s_redir ++ " Redirected</span>
            <span class=" ++ dq ++ "stat broke" ++ dq ++ ">❌ " ++ s_broke ++ " Broken</span>
            <span class=" ++ dq ++ "stat total" ++ dq ++ ">📊 " ++ s_total ++ " Total</span>
          </div>
        </div>".

(** The header row of a site in the table (lines 306-312). *)
Definition site_header_html (site : string) : string :=
  "
            <tr class=" ++ dq ++ "site-header" ++ dq ++ ">
              <td colspan=" ++ dq ++ "5" ++ dq ++ " style=" ++ dq ++ "background:#1a4a7a; color:#fff; padding:10px 16px;
                  font-size:1rem; font-weight:700; letter-spacing:.5px" ++ dq ++ ">
                🌐 " ++ site ++ "
              </td>
            </tr>".

(** The link to the final address of a redirect (line 315). *)
Definition final_html (final_url final_url_70 : string) : string :=
  "<br><small>→ <a href=" ++ dq ++ final_url ++ dq ++ " target=" ++ dq ++ "_blank" ++ dq ++
  " style=" ++ dq ++ "color:inherit" ++ dq ++ ">" ++ final_url_70 ++ "</a></small>".

(** The link to the page on which a link was found (line 317). *)
Definition pg_link_html (page_url page_title_55 : string) : string :=
  "<a href=" ++ dq ++ page_url ++ dq ++ " target=" ++ dq ++ "_blank" ++ dq ++ " style=" ++
  dq ++ "color:inherit; font-size:.8rem" ++ dq ++ ">" ++ page_title_55 ++ "</a>".

(** One row of the table (lines 319-328). *)
Definition row_html (bg fg status status_code pg_link label_50 url final : string) : string :=
  "
        <tr style=" ++ dq ++ "background:" ++ bg ++ "; color:" ++ fg ++ dq ++ ">
          <td style=" ++ dq ++ "padding:7px 12px; font-weight:700; white-space:nowrap" ++
  dq ++ ">" ++ status ++ "</td>
          <td style=" ++ dq ++ "padding:7px 12px; white-space:nowrap" ++ dq ++ ">" ++
  status_code ++ "</td>
          <td style=" ++ dq ++ "padding:7px 12px" ++ dq ++ ">" ++ pg_link ++ "</td>
          <td style=" ++ dq ++ "padding:7px 12px; font-size:.85rem" ++ dq ++ ">" ++
  label_50 ++ "</td>
          <td style=" ++ dq ++
  "padding:7px 12px; word-break:break-all; font-size:.85rem" ++ dq ++ ">
            <a href=" ++ dq ++ url ++ dq ++ " target=" ++ dq ++ "_blank" ++ dq ++
  " style=" ++ dq ++ "color:inherit" ++ dq ++ ">" ++ url ++ "</a>" ++ final ++ "
          </td>
        </tr>".

(** One entry of the site filter (line 417). *)
Definition option_html (s : string) : string :=
  "<option value=" ++ dq ++ s ++ dq ++ ">" ++ s ++ "</option>".

(** The page of the report (lines 330-455). *)
Definition page_html (now ok redir broke total site_summaries options rows : string) : string :=
  "<!DOCTYPE html>
<html lang=" ++ dq ++ "en" ++ dq ++ ">
<head>
<meta charset=" ++ dq ++ "UTF-8" ++ dq ++ ">
<meta name=" ++ dq ++ "viewport" ++ dq ++ " content=" ++ dq ++
  "width=device-width, initial-scale=1" ++ dq ++ ">
<title>Sitewide Link Report – " ++ now ++ "</title>
<style>
  * { box-sizing: border-box; }
  body  { font-family: system-ui, -apple-system, sans-serif; margin:0; padding:2rem; color:#222; background:#f5f7fa; }
  .wrap { max-width:1400px; margin:0 auto; }
  h1    { color:#1a4a7a; margin-bottom:.25rem; }
  .sub  { color:#666; margin-bottom:1.5rem; font-size:.95rem; }
  .top-summary { display:flex; gap:1rem; margin:1.5rem 0; flex-wrap:wrap; }
  .big-card { background:#fff; border-radius:10px; padding:1.2rem 1.8rem;
               box-shadow:0 1px 4px rgba(0,0,0,.1); text-align:center; min-width:130px; }
  .big-card .num { font-size:2.4rem; font-weight:800; }
  .big-card .lbl { font-size:.8rem; color:#666; margin-top:.2rem; text-transform:uppercase; letter-spacing:.5px; }
  .sites { display:flex; gap:1rem; margin:1.5rem 0; flex-wrap:wrap; }
  .site-card { background:#fff; border-radius:10px; padding:1.2rem 1.5rem;
                box-shadow:0 1px 4px rgba(0,0,0,.1); flex:1; min-width:280px; }
  .site-card h3 { margin:0 0 .75rem; color:#1a4a7a; }
  .mini-stats { display:flex; flex-wrap:wrap; gap:.5rem; }
  .stat { padding:.3rem .7rem; border-radius:20px; font-size:.85rem; font-weight:600; }
  .stat.ok    { background:#d4edda; color:#155724; }
  .stat.redir { background:#fff3cd; color:#856404; }
  .stat.broke { background:#f8d7da; color:#721c24; }
  .stat.total { background:#e9ecef; color:#333; }
  .filter-bar { background:#fff; padding:1rem; border-radius:8px;
                 box-shadow:0 1px 4px rgba(0,0,0,.08); margin-bottom:1rem;
                 display:flex; gap:.75rem; flex-wrap:wrap; align-items:center; }
  .filter-bar label { font-size:.85rem; font-weight:600; color:#555; }
  .filter-bar input, .filter-bar select {
    padding:.4rem .8rem; border:1px solid #ccc; border-radius:6px; font-size:.9rem; }
  .filter-bar input { width:280px; }
  table  { border-collapse:collapse; width:100%; background:#fff;
            border-radius:10px; overflow:hidden;
            box-shadow:0 1px 4px rgba(0,0,0,.08); font-size:.875rem; }
  th     { background:#2c5f9e; color:#fff; padding:10px 12px; text-align:left;
            font-size:.8rem; text-transform:uppercase; letter-spacing:.5px; }
  tr:not(.site-header):hover td { filter:brightness(.96); }
  .ts    { color:#999; font-size:.75rem; margin-top:2rem; }
</style>
</head>
<body>
<div class=" ++ dq ++ "wrap" ++ dq ++ ">

<h1>🔗 Sitewide Link Report</h1>
<p class=" ++ dq ++ "sub" ++ dq ++ ">Generated: <strong>" ++ now ++ "</strong></p>

<div class=" ++ dq ++ "top-summary" ++ dq ++ ">
  <div class=" ++ dq ++ "big-card" ++ dq ++ ">
    <div class=" ++ dq ++ "num" ++ dq ++ " style=" ++ dq ++ "color:#155724" ++ dq ++ ">" ++
  ok ++ "</div>
    <div class=" ++ dq ++ "lbl" ++ dq ++ ">Working</div>
  </div>
  <div class=" ++ dq ++ "big-card" ++ dq ++ ">
    <div class=" ++ dq ++ "num" ++ dq ++ " style=" ++ dq ++ "color:#856404" ++ dq ++ ">" ++
  redir ++ "</div>
    <div class=" ++ dq ++ "lbl" ++ dq ++ ">Redirected</div>
  </div>
  <div class=" ++ dq ++ "big-card" ++ dq ++ ">
    <div class=" ++ dq ++ "num" ++ dq ++ " style=" ++ dq ++ "color:#721c24" ++ dq ++ ">" ++
  broke ++ "</div>
    <div class=" ++ dq ++ "lbl" ++ dq ++ ">Broken</div>
  </div>
  <div class=" ++ dq ++ "big-card" ++ dq ++ ">
    <div class=" ++ dq ++ "num" ++ dq ++ ">" ++ total ++ "</div>
    <div class=" ++ dq ++ "lbl" ++ dq ++ ">Total Links</div>
  </div>
</div>

<div class=" ++ dq ++ "sites" ++ dq ++ ">
  " ++ site_summaries ++ "
</div>

<div class=" ++ dq ++ "filter-bar" ++ dq ++ ">
  <label>Filter:</label>
  <input type=" ++ dq ++ "text" ++ dq ++ " id=" ++ dq ++ "filterInput" ++ dq ++
  " onkeyup=" ++ dq ++ "applyFilters()" ++ dq ++ " placeholder=" ++ dq ++
  "Search URL, page title, label…" ++ dq ++ ">
  <label>Status:</label>
  <select id=" ++ dq ++ "statusFilter" ++ dq ++ " onchange=" ++ dq ++ "applyFilters()" ++
  dq ++ ">
    <option value=" ++ dq ++ dq ++ ">All</option>
    <option value=" ++ dq ++ "BROKEN" ++ dq ++ ">❌ Broken</option>
    <option value=" ++ dq ++ "TIMEOUT" ++ dq ++ ">⏱️ Timeout</option>
    <option value=" ++ dq ++ "ERROR" ++ dq ++ ">⚠️ Error</option>
    <option value=" ++ dq ++ "REDIRECT" ++ dq ++ ">↪️ Redirect</option>
    <option value=" ++ dq ++ "OK" ++ dq ++ ">✅ OK</option>
  </select>
  <label>Site:</label>
  <select id=" ++ dq ++ "siteFilter" ++ dq ++ " onchange=" ++ dq ++ "applyFilters()" ++
  dq ++ ">
    <option value=" ++ dq ++ dq ++ ">All Sites</option>
    " ++ options ++ "
  </select>
</div>

<table id=" ++ dq ++ "linkTable" ++ dq ++ ">
  <thead>
    <tr>
      <th>Status</th>
      <th>HTTP</th>
      <th>Found On Page</th>
      <th>Link Label</th>
      <th>URL</th>
    </tr>
  </thead>
  <tbody>
    " ++ rows ++ "
  </tbody>
</table>

<p class=" ++ dq ++ "ts" ++ dq ++ ">Report generated by sitewide_link_checker.py</p>

</div>
<script>
function applyFilters() {
  var text   = document.getElementById(" ++ dq ++ "filterInput" ++ dq ++ ").value.toLowerCase();
  var status = document.getElementById(" ++ dq ++ "statusFilter" ++ dq ++ ").value.toLowerCase();
  var site   = document.getElementById(" ++ dq ++ "siteFilter" ++ dq ++ ").value.toLowerCase();
  var rows   = document.querySelectorAll(" ++ dq ++
  "#linkTable tbody tr:not(.site-header)" ++ dq ++ ");
  rows.forEach(function(row) {
    var rowText = row.textContent.toLowerCase();
    var matchText   = !text   || rowText.includes(text);
    var matchStatus = !status || rowText.includes(status);
    var matchSite   = !site   || rowText.includes(site);
    row.style.display = (matchText && matchStatus && matchSite) ? " ++ dq ++ dq ++ " : " ++
  dq ++ "none" ++ dq ++ ";
  });
}
</script>
</body>
</html>".

(** [r.get("site") == sname] *)
Definition site_is (sname : value) (r : loc) : M bool :=
  site <- dict_get_opt r "site" ;; ret (bool_decide (site = Some sname)).

(** STEP 6: the HTML report. *)
Definition generate_html_report (results : list loc) (report_path : string) : MP unit :=
  (html <- liftM
     (now <- strftime_now Ho "%B %d, %Y at %I:%M %p" ;;
      let total := length results in
      ok <- count_if results (status_is "OK") ;;
      redir <- count_if results (status_is "REDIRECT") ;;
      broke <- count_if results (status_in ["BROKEN"; "TIMEOUT"; "ERROR"]) ;;
      sites <-
        for_each results []
          (fun sites r =>
             site <- dict_get r "site" (VStr "Unknown") ;;
             ret (sites ++ [site])%list) ;;
      let site_names := dict_fromkeys sites in
      site_summaries <-
        for_each site_names ""
          (fun site_summaries sname =>
             site_results <- filter_if results (site_is sname) ;;
             s_ok <- count_if site_results (status_is "OK") ;;
             s_redir <- count_if site_results (status_is "REDIRECT") ;;
             s_broke <- count_if site_results (status_in ["BROKEN"; "TIMEOUT"; "ERROR"]) ;;
             ret (site_summaries
                  ++ site_card_html (str_value sname) (pretty s_ok) (pretty s_redir)
                       (pretty s_broke) (pretty (length site_results)))) ;;
      st <-
        for_each results ("", None)
          (fun '(rows, current_site) r =>
             site <- dict_get r "site" (VStr "") ;;
             let '(rows, current_site) :=
               if bool_decide (Some site = current_site) then (rows, current_site)
               else (rows ++ site_header_html (str_value site), Some site) in
             status <- getitem r "status" ;;
             let colors := default ("#fff", "#000") (lookup_value status_colors status) in
             final_url <- dict_get_opt r "final_url" ;;
             final <-
               (if truthy final_url then
                  u <- getitem r "final_url" ;;
                  u70 <- slice_value 70 u ;;
                  ret (final_html (str_value u) u70)
                else ret "") ;;
             page_url <- getitem r "page_url" ;;
             page_title <- dict_get r "page_title" (VStr "") ;;
             page_title_55 <- slice_value 55 page_title ;;
             let pg_link := pg_link_html (str_value page_url) page_title_55 in
             status <- getitem r "status" ;;
             status_code <- getitem r "status_code" ;;
             label <- dict_get r "label" (VStr "") ;;
             label_50 <- slice_value 50 label ;;
             url <- getitem r "url" ;;
             ret (rows ++ row_html colors.1 colors.2 (str_value status)
                            (str_value status_code) pg_link label_50 (str_value url) final,
                  current_site)) ;;
      let rows := st.1 in
      let options := String.concat "" ((fun s => option_html (str_value s)) <$> site_names) in
      ret (page_html now (pretty ok) (pretty redir) (pretty broke) (pretty total)
             site_summaries options rows))%py ;;
   with_open_w Ho report_path (ret html) ;;
   liftM (print (nl ++ "[+] HTML report saved → " ++ report_path)))%proc.

(** MAIN: the sites are crawled one after the other, and their links are
    checked together. *)
Definition main : MP unit :=
  (timestamp <- liftM (strftime_now Ho "%Y-%m-%d") ;;
   let report_path := path_join REPORT_DIR ("sitewide_report_" ++ timestamp ++ ".html") in
   let json_path := path_join REPORT_DIR ("sitewide_report_" ++ timestamp ++ ".json") in
   results <- liftM
     (print (nl ++ rule60) ;;
      print "  🔗 Sitewide Link Checker" ;;
      now <- strftime_now Ho "%B %d, %Y at %I:%M %p" ;;
      print ("  " ++ now) ;;
      print rule60 ;;
      all_links <-
        for_each SITES []
          (fun all_links site =>
             links <- crawl_site E site ;;
             ret (all_links ++ links)%list) ;;
      check_all_links E all_links)%py ;;
   generate_html_report results report_path ;;
   with_open_w Ho json_path
     (dicts <- for_each results [] (fun dicts r => d <- deref r ;; ret (dicts ++ [d])%list) ;;
      ret (json_dumps Ho dicts))%py ;;
   liftM
     (print ("[+] JSON data saved  → " ++ json_path) ;;
      ok <- count_if results (status_is "OK") ;;
      redir <- count_if results (status_is "REDIRECT") ;;
      broke <- count_if results (status_in ["BROKEN"; "TIMEOUT"; "ERROR"]) ;;
      print (nl ++ rule60) ;;
      print "  FINAL SUMMARY" ;;
      print (str_repeat "─" 60) ;;
      for_each SITES tt
        (fun _ site =>
           s <- filter_if results (site_is (VStr (name site))) ;;
           s_broke <- count_if s (status_in ["BROKEN"; "TIMEOUT"; "ERROR"]) ;;
           print ("  " ++ name site ++ ": " ++ pretty (length s) ++ " links, "
                  ++ pretty s_broke ++ " broken")) ;;
      print (str_repeat "─" 60) ;;
      print ("  Total : " ++ pretty (length results) ++ "  ✅ " ++ pretty ok
             ++ "  ↪️ " ++ pretty redir ++ "  ❌ " ++ pretty broke) ;;
      print (rule60 ++ nl))%py)%proc.
End WithHost.
End Sitewide.

(** * webcam_link_checker.py *)
Module Webcam.

Definition TARGET_URL : string := "https://www.eyehike.com/2016/webcams/".
Definition TIMEOUT : Z := 15.
Definition MAX_WORKERS : Z := 10.

Definition SKIP_DOMAINS : gset string :=
  {[ "www.eyehike.com"; "eyehike.com"; "wordpress.org"; "www.elegantthemes.com" ]}.

Definition HEADERS : list (string * string) :=
  [("User-Agent",
    "Mozilla/5.0 (compatible; EyehikeLinkChecker/1.0; " ++
    "+https://www.eyehike.com/)")].

Section WithEnvironment.
Context (E : environment).

Definition requests_get (url : string) : M response :=
  requests_request E (Request GET url HEADERS TIMEOUT true false).

Definition requests_get_stream (url : string) : M response :=
  requests_request E (Request GET url HEADERS TIMEOUT true true).

Definition requests_head (url : string) : M response :=
  requests_request E (Request HEAD url HEADERS TIMEOUT true false).

(** STEP 1: the external links of the webcam page. *)
Definition scrape_links (url : string) : M (list loc) :=
  print ("[+] Fetching page: " ++ url) ;;
  resp <- requests_get url ;;
  raise_for_status resp ;;
  soup <- lift (BeautifulSoup E (r_text resp)) ;;
  st <-
    for_each (soup_find_all_a soup) ([], ∅)
      (fun '(links, seen) tag =>
         let href := strip (tag_href tag) in
         let label := str_or (tag_text tag) href in
         if negb (startswith href "http") then ret (links, seen)
         else
           netloc <- lift (urlparse_netloc E href) ;;
           let domain := lower netloc in
           if bool_decide (domain ∈ SKIP_DOMAINS) then ret (links, seen)
           else if bool_decide (href ∈ (seen : gset string)) then ret (links, seen)
           else
             let section :=
               match tag_parent_h3 tag with
               | Some h3 => slice_to 80 h3
               | None => slice_to 80 label
               end in
             link <- new_dict
               (<["url" := VStr href]>
                (<["label" := VStr label]>
                 (<["section" := VStr section]> ∅))) ;;
             ret ((links ++ [link])%list, seen ∪ {[ href ]})) ;;
  print ("[+] Found " ++ pretty (length st.1) ++ " unique external links to check.") ;;
  ret st.1.

Definition icon : gmap string string :=
  <["OK" := "✅"]> (<["REDIRECT" := "↪️"]> (<["BROKEN" := "❌"]>
  (<["TIMEOUT" := "⏱️"]> (<["ERROR" := "⚠️"]> ∅)))).

(** STEP 2: the check of one link. The [url] of an entry is a string: it is
    passed to [requests.head] and sliced in the final [print]. *)
Definition check_link (entry : loc) : M loc :=
  url_value <- getitem entry "url" ;;
  url <- as_str url_value ;;
  result <- dict_copy entry ;;
  now <- utcnow E ;;
  setitem result "checked_at" (VStr (now ++ "Z")) ;;
  try_except
    (r <- requests_head url ;;
     r <- (if bool_decide (r_status_code r ∈ [405; 403; 501])
           then r <- requests_get_stream url ;;
                response_close r ;;
                ret r
           else ret r) ;;
     let final_url := r_url r in
     let status_code := r_status_code r in
     let redirected :=
       negb (String.eqb (rstrip "/" final_url) (rstrip "/" url)) in
     if (200 <=? status_code) && (status_code <? 400) then
       setitem result "status" (VStr (if negb redirected then "OK" else "REDIRECT")) ;;
       setitem result "status_code" (VInt status_code) ;;
       setitem result "final_url" (VStr (if redirected then final_url else ""))
     else
       setitem result "status" (VStr "BROKEN") ;;
       setitem result "status_code" (VInt status_code) ;;
       setitem result "final_url" (VStr ""))
    (fun e =>
       if isinstance e ConnectionError then
         setitem result "status" (VStr "BROKEN") ;;
         setitem result "status_code" (VStr "Connection Error") ;;
         setitem result "final_url" (VStr "")
       else if isinstance e Timeout then
         setitem result "status" (VStr "TIMEOUT") ;;
         setitem result "status_code" (VStr "Timeout") ;;
         setitem result "final_url" (VStr "")
       else
         setitem result "status" (VStr "ERROR") ;;
         setitem result "status_code" (VStr (slice_to 60 (exn_str e))) ;;
         setitem result "final_url" (VStr "")) ;;
  status <- getitem result "status" ;;
  code <- getitem result "status_code" ;;
  print ("  " ++ default "?" (lookup_value icon status) ++ "  ["
         ++ str_value code ++ "]  " ++ slice_to 80 url) ;;
  ret result.

Definition order : gmap string Z :=
  <["BROKEN" := 0]> (<["TIMEOUT" := 1]> (<["ERROR" := 2]>
  (<["REDIRECT" := 3]> (<["OK" := 4]> ∅)))).

(** The key of the final sort: [order.get(r["status"], 5)]. *)
Definition sort_key (r : loc) : M Z :=
  status <- getitem r "status" ;;
  ret (default 5 (lookup_value order status)).

(** STEP 3: the check of all links; broken first, then redirects, then ok. *)
Definition check_all_links (links : list loc) : M (list loc) :=
  print (nl ++ "[+] Checking " ++ pretty (length links) ++ " links with "
         ++ pretty MAX_WORKERS ++ " threads …" ++ nl) ;;
  futures <- pool_as_completed E check_link links ;;
  results <-
    for_each futures []
      (fun results future =>
         r <- future_result future ;;
         ret (results ++ [r])%list) ;;
  keyed <-
    for_each results []
      (fun keyed r =>
         k <- sort_key r ;;
         ret (keyed ++ [(k, r)])%list) ;;
  ret (map snd (stable_sort Z.ltb fst keyed)).
End WithEnvironment.
Section WithHost.
Context (E : environment) (Ho : host).

(** [REPORT_DIR]: the directory of the script. *)
Definition REPORT_DIR : string := script_dir Ho.

Definition status_colors : gmap string (string * string) :=
  <["OK" := ("#d4edda", "#155724")]>
  (<["REDIRECT" := ("#fff3cd", "#856404")]>
   (<["BROKEN" := ("#f8d7da", "#721c24")]>
    (<["TIMEOUT" := ("#fde8cc", "#7d4e00")]>
     (<["ERROR" := ("#e2e3e5", "#383d41")]> ∅)))).

(** The templates of the report: the text of the f-strings of
    [generate_html_report], with the fields as parameters. *)

(** The link to the final address of a redirect (line 184). *)
Definition final_html (final_url final_url_80 : string) : string :=
  "<br><small>→ <a href=" ++ dq ++ final_url ++ dq ++ " target=" ++ dq ++ "_blank" ++ dq ++
  ">" ++ final_url_80 ++ "</a></small>".

(** One row of the table (lines 185-193). *)
Definition row_html (bg fg status status_code section_70 url final : string) : string :=
  "
        <tr style=" ++ dq ++ "background:" ++ bg ++ "; color:" ++ fg ++ dq ++ ">
          <td style=" ++ dq ++ "padding:8px 12px; font-weight:600" ++ dq ++ ">" ++
  status ++ "</td>
          <td style=" ++ dq ++ "padding:8px 12px" ++ dq ++ ">" ++ status_code ++ "</td>
          <td style=" ++ dq ++ "padding:8px 12px" ++ dq ++ ">" ++ section_70 ++ "</td>
          <td style=" ++ dq ++ "padding:8px 12px; word-break:break-all" ++ dq ++ ">
            <a href=" ++ dq ++ url ++ dq ++ " target=" ++ dq ++ "_blank" ++ dq ++
  " style=" ++ dq ++ "color:inherit" ++ dq ++ ">" ++ url ++ "</a>" ++ final ++ "
          </td>
        </tr>".

(** The page of the report (lines 195-265). *)
Definition page_html (now ok redir broke total rows : string) : string :=
  "<!DOCTYPE html>
<html lang=" ++ dq ++ "en" ++ dq ++ ">
<head>
<meta charset=" ++ dq ++ "UTF-8" ++ dq ++ ">
<title>Webcam Link Report – " ++ now ++ "</title>
<style>
  body  { font-family: system-ui, sans-serif; margin:2rem; color:#222; }
  h1    { color:#1a4a7a; }
  .summary { display:flex; gap:1.5rem; margin:1.5rem 0; flex-wrap:wrap; }
  .card { padding:1rem 1.5rem; border-radius:8px; min-width:120px; text-align:center; }
  .card .num  { font-size:2.2rem; font-weight:700; }
  .card .lbl  { font-size:.85rem; margin-top:.25rem; opacity:.8; }
  table { border-collapse:collapse; width:100%; margin-top:1rem; font-size:.9rem; }
  th    { background:#1a4a7a; color:#fff; padding:10px 12px; text-align:left; }
  tr:hover td { filter:brightness(.97); }
  .filter-bar { margin:1rem 0; }
  input { padding:.4rem .8rem; border:1px solid #ccc; border-radius:4px; width:300px; }
</style>
</head>
<body>
<h1>🏔️ Eyehike Webcam Link Report</h1>
<p>Generated: <strong>" ++ now ++ "</strong> &nbsp;|&nbsp; Source: <a href=" ++ dq ++
  TARGET_URL ++ dq ++ ">" ++ TARGET_URL ++ "</a></p>

<div class=" ++ dq ++ "summary" ++ dq ++ ">
  <div class=" ++ dq ++ "card" ++ dq ++ " style=" ++ dq ++ "background:#d4edda" ++ dq ++ ">
    <div class=" ++ dq ++ "num" ++ dq ++ " style=" ++ dq ++ "color:#155724" ++ dq ++ ">" ++
  ok ++ "</div>
    <div class=" ++ dq ++ "lbl" ++ dq ++ ">Working</div>
  </div>
  <div class=" ++ dq ++ "card" ++ dq ++ " style=" ++ dq ++ "background:#fff3cd" ++ dq ++ ">
    <div class=" ++ dq ++ "num" ++ dq ++ " style=" ++ dq ++ "color:#856404" ++ dq ++ ">" ++
  redir ++ "</div>
    <div class=" ++ dq ++ "lbl" ++ dq ++ ">Redirected</div>
  </div>
  <div class=" ++ dq ++ "card" ++ dq ++ " style=" ++ dq ++ "background:#f8d7da" ++ dq ++ ">
    <div class=" ++ dq ++ "num" ++ dq ++ " style=" ++ dq ++ "color:#721c24" ++ dq ++ ">" ++
  broke ++ "</div>
    <div class=" ++ dq ++ "lbl" ++ dq ++ ">Broken / Timeout</div>
  </div>
  <div class=" ++ dq ++ "card" ++ dq ++ " style=" ++ dq ++ "background:#e9ecef" ++ dq ++ ">
    <div class=" ++ dq ++ "num" ++ dq ++ ">" ++ total ++ "</div>
    <div class=" ++ dq ++ "lbl" ++ dq ++ ">Total Links</div>
  </div>
</div>

<div class=" ++ dq ++ "filter-bar" ++ dq ++ ">
  <input type=" ++ dq ++ "text" ++ dq ++ " id=" ++ dq ++ "filterInput" ++ dq ++
  " onkeyup=" ++ dq ++ "filterTable()" ++ dq ++ " placeholder=" ++ dq ++
  "Filter by status, URL, or section…" ++ dq ++ ">
</div>

<table id=" ++ dq ++ "linkTable" ++ dq ++ ">
  <thead>
    <tr>
      <th>Status</th>
      <th>HTTP Code</th>
      <th>Section / Label</th>
      <th>URL</th>
    </tr>
  </thead>
  <tbody>
    " ++ rows ++ "
  </tbody>
</table>

<script>
function filterTable() {
  var input = document.getElementById(" ++ dq ++ "filterInput" ++ dq ++ ").value.toLowerCase();
  var rows  = document.querySelectorAll(" ++ dq ++ "#linkTable tbody tr" ++ dq ++ ");
  rows.forEach(function(row) {
    row.style.display = row.textContent.toLowerCase().includes(input) ? " ++ dq ++ dq ++
  " : " ++ dq ++ "none" ++ dq ++ ";
  });
}
</script>
</body>
</html>".

(** STEP 4: the HTML report. *)
Definition generate_html_report (results : list loc) (report_path : string) : MP unit :=
  (html <- liftM
     (now <- strftime_now Ho "%B %d, %Y at %I:%M %p" ;;
      let total := length results in
      ok <- count_if results (status_is "OK") ;;
      redir <- count_if results (status_is "REDIRECT") ;;
      broke <- count_if results (status_in ["BROKEN"; "TIMEOUT"; "ERROR"]) ;;
      rows <-
        for_each results ""
          (fun rows r =>
             status <- getitem r "status" ;;
             let colors := default ("#fff", "#000") (lookup_value status_colors status) in
             final_url <- dict_get_opt r "final_url" ;;
             final <-
               (if truthy final_url then
                  u <- getitem r "final_url" ;;
                  u80 <- slice_value 80 u ;;
                  ret (final_html (str_value u) u80)
                else ret "") ;;
             status <- getitem r "status" ;;
             status_code <- getitem r "status_code" ;;
             section <- getitem r "section" ;;
             section_70 <- slice_value 70 section ;;
             url <- getitem r "url" ;;
             ret (rows ++ row_html colors.1 colors.2 (str_value status)
                            (str_value status_code) section_70 (str_value url) final)) ;;
      ret (page_html now (pretty ok) (pretty redir) (pretty broke) (pretty total) rows))%py ;;
   with_open_w Ho report_path (ret html) ;;
   liftM (print (nl ++ "[+] HTML report saved → " ++ report_path)))%proc.

(** STEP 5: the JSON snapshot. *)
Definition save_json (results : list loc) (json_path : string) : MP unit :=
  (with_open_w Ho json_path
     (dicts <- for_each results [] (fun dicts r => d <- deref r ;; ret (dicts ++ [d])%list) ;;
      ret (json_dumps Ho dicts))%py ;;
   liftM (print ("[+] JSON data saved  → " ++ json_path)))%proc.

(** MAIN: any exception ends the process with status 1. *)
Definition main : MP unit :=
  (timestamp <- liftM (strftime_now Ho "%Y-%m-%d") ;;
   let report_path := path_join REPORT_DIR ("webcam_report_" ++ timestamp ++ ".html") in
   let json_path := path_join REPORT_DIR ("webcam_report_" ++ timestamp ++ ".json") in
   try_exceptP
     (links <- liftM (scrape_links E TARGET_URL) ;;
      results <- liftM (check_all_links E links) ;;
      generate_html_report results report_path ;;
      save_json results json_path ;;
      liftM
        (ok <- count_if results (status_is "OK") ;;
         redir <- count_if results (status_is "REDIRECT") ;;
         broke <- count_if results (status_in ["BROKEN"; "TIMEOUT"; "ERROR"]) ;;
         print (nl ++ str_repeat "─" 50) ;;
         print ("  Total links checked : " ++ pretty (length results)) ;;
         print ("  ✅  Working          : " ++ pretty ok) ;;
         print ("  ↪️  Redirected       : " ++ pretty redir) ;;
         print ("  ❌  Broken / Timeout : " ++ pretty broke) ;;
         print (str_repeat "─" 50 ++ nl))%py)
     (fun e =>
        print_stderr ("[ERROR] " ++ exn_str e) ;;
        sys_exit 1))%proc.
End WithHost.
End Webcam.

(** * Vocabulary of the statements *)

(** The two scripts share the link verifier; they differ in the headers they
    send and in what they print. *)
Inductive script := sitewide | webcam.

Definition HEADERS_of (s : script) : list (string * string) :=
  match s with sitewide => Sitewide.HEADERS | webcam => Webcam.HEADERS end.

Definition TIMEOUT_of (s : script) : Z :=
  match s with sitewide => Sitewide.TIMEOUT | webcam => Webcam.TIMEOUT end.

Definition check_link_of (s : script) : environment -> loc -> M loc :=
  match s with sitewide => Sitewide.check_link | webcam => Webcam.check_link end.

(** The lightweight existence check and the body-capable fallback, as
    [check_link] issues them. *)
Definition head_request (s : script) (u : string) : request :=
  Request HEAD u (HEADERS_of s) (TIMEOUT_of s) true false.

Definition get_request (s : script) (u : string) : request :=
  Request GET u (HEADERS_of s) (TIMEOUT_of s) true true.

Definition check_all_links_of (s : script) : environment -> list loc -> M (list loc) :=
  match s with
  | sitewide => Sitewide.check_all_links
  | webcam => Webcam.check_all_links
  end.

(** The field [k] of the dict object [l]. *)
Definition field (w : world) (l : loc) (k : string) : option value :=
  heap w !! l ≫= (fun d => d !! k).

(** The outcome fields of the result of a run of [check_link]. *)
Definition outcome_of (run : result loc * world * list string)
  : option value * option value * option value :=
  match run.1.1 with
  | Ok l => (field run.1.2 l "status", field run.1.2 l "status_code",
             field run.1.2 l "final_url")
  | Raise _ => (None, None, None)
  end.

Definition statuses : list string := ["OK"; "REDIRECT"; "BROKEN"; "TIMEOUT"; "ERROR"].

Definition outcome_keys : list string :=
  ["checked_at"; "status"; "status_code"; "final_url"].

(** The severity rank of the specification:
    BROKEN < TIMEOUT < ERROR < REDIRECT < OK. *)
Definition severity (st : string) : Z :=
  if decide (st = "BROKEN") then 0
  else if decide (st = "TIMEOUT") then 1
  else if decide (st = "ERROR") then 2
  else if decide (st = "REDIRECT") then 3
  else if decide (st = "OK") then 4
  else 5.

(** The site name of a result ([""] when it has none) and its rank. *)
Definition site_of (w : world) (l : loc) : string :=
  match field w l "site" with
  | Some (VStr n) => n
  | _ => ""
  end.

Definition rank_of (w : world) (l : loc) : Z :=
  match field w l "status" with
  | Some (VStr st) => severity st
  | _ => 5
  end.

(** The [site] of a link: a string where there is one; the links of the
    webcam page have none. *)
Definition site_ok (s : script) (d : gmap string value) : Prop :=
  match s with
  | sitewide => forall v, d !! "site" = Some v -> exists n, v = VStr n
  | webcam => d !! "site" = None
  end.

(** A link that [check_all_links] can be given. *)
Definition valid_entry (s : script) (l : loc) (w : world) : Prop :=
  exists d u, heap w !! l = Some d /\ d !! "url" = Some (VStr u) /\ site_ok s d.

(** The future [fut] holds the result of checking [entry]. *)
Definition check_of (s : script) (entry : loc) (fut : result loc) (w : world) : Prop :=
  exists l d r st,
    fut = Ok l /\ heap w !! entry = Some d /\ heap w !! l = Some r /\
    r !! "status" = Some (VStr st) /\ st ∈ statuses /\ site_ok s r /\
    forall k, k ∉ outcome_keys -> r !! k = d !! k.

(** The classification of the outcome of the last request, as the body of
    [try] and the handlers of [check_link] compute it: the values of
    [status], [status_code] and [final_url]. *)
Definition classify (u : string) (o : result response) : value * value * value :=
  match o with
  | Ok r =>
      if (200 <=? r_status_code r) && (r_status_code r <? 400) then
        if String.eqb (rstrip "/" (r_url r)) (rstrip "/" u)
        then (VStr "OK", VInt (r_status_code r), VStr "")
        else (VStr "REDIRECT", VInt (r_status_code r), VStr (r_url r))
      else (VStr "BROKEN", VInt (r_status_code r), VStr "")
  | Raise e =>
      if isinstance e ConnectionError
      then (VStr "BROKEN", VStr "Connection Error", VStr "")
      else if isinstance e Timeout
      then (VStr "TIMEOUT", VStr "Timeout", VStr "")
      else (VStr "ERROR", VStr (slice_to 60 (exn_str e)), VStr "")
  end.

(** The requests of one check and the outcome that is classified: the
    answer to HEAD, or the answer to GET when HEAD was rejected. *)
Definition exchange (E : environment) (tr : list request) (rq_head rq_get : request)
  : result response * list request :=
  match send E tr rq_head with
  | Ok r =>
      if bool_decide (r_status_code r ∈ [405; 403; 501])
      then (send E (tr ++ [rq_head]) rq_get, (tr ++ [rq_head]) ++ [rq_get])
      else (Ok r, tr ++ [rq_head])
  | Raise e => (Raise e, tr ++ [rq_head])
  end%list.

(** The dict of a result: the entry with the four outcome fields. *)
Definition checked (d : gmap string value) (now : string) (c : value * value * value)
  : gmap string value :=
  <["final_url" := c.2]> (<["status_code" := c.1.2]> (<["status" := c.1.1]>
    (<["checked_at" := VStr (now ++ "Z")]> d))).

(** ** Specifications of computations *)

(** Every run of [m] from [w] ends in an outcome and a world that satisfy
    [Q]. A computation always ends, so this is total correctness. *)
Definition wp {A} (m : M A) (Q : result A -> world -> Prop) (w : world) : Prop :=
  forall r w' out, m w = (r, w', out) -> Q r w'.

(** Objects are only ever added at the end of the heap. *)
Definition grows (w w' : world) : Prop := heap w `prefix_of` heap w'.

(** [l] is a link dict whose target starts with "http". *)
Definition http_link (w : world) (l : loc) : Prop :=
  exists d href,
    heap w !! l = Some d /\ d !! "url" = Some (VStr href) /\
    startswith href "http" = true.

(** [l] is such a link dict, found on page [p]. *)
Definition link_found_on (w : world) (p : string) (l : loc) : Prop :=
  exists d href,
    heap w !! l = Some d /\ d !! "url" = Some (VStr href) /\
    startswith href "http" = true /\ d !! "page_url" = Some (VStr p).

(** The merge of [crawl_site] on a sequence of links with the keys [key]:
    a link is kept when its key was not seen before. *)
Definition merge_step (key : loc -> value) (st : list loc * gset value) (l : loc)
  : list loc * gset value :=
  if bool_decide (key l ∈ st.2) then st else ((st.1 ++ [l])%list, st.2 ∪ {[ key l ]}).

Definition merge_links (key : loc -> value) (ls : list loc) : list loc * gset value :=
  fold_left (merge_step key) ls ([], ∅).

(** The links a future holds. *)
Definition future_links (fut : result (list loc)) : list loc :=
  match fut with Ok pg => pg | Raise _ => [] end.

(** The key of the merge: the [url] a link had when the pages were fetched. *)
Definition url_key (w : world) (l : loc) : value :=
  default (VStr "") (field w l "url").

(** The state of the merge loop of [crawl_site] after the links [processed],
    started in the world [w0]: the links kept and the URLs seen are those of
    the merge, and the only change to the heap is the [site] of the links
    kept. *)
Definition merged (w0 : world) (site_name : string) (processed : list loc)
    (st : list loc * gset value) (w : world) : Prop :=
  st = fold_left (merge_step (url_key w0)) processed ([], ∅) /\
  trace w = trace w0 /\
  length (heap w) = length (heap w0) /\
  (forall l k, k <> "site" -> field w l k = field w0 l k) /\
  (forall l, l ∈ st.1 -> field w l "site" = Some (VStr site_name)).

(** [a] occurs before [b] in [l]. *)
Definition before {A} (l : list A) (a b : A) : Prop :=
  exists l1 l2 l3, l = (l1 ++ a :: l2 ++ b :: l3)%list.

(** "Ignoring a single trailing slash", in the words of the specification. *)
Fixpoint without_one_trailing_slash (s : string) : string :=
  match s with
  | "" => ""
  | String a s' =>
      match s' with
      | "" => if Ascii.eqb a "/" then "" else s
      | _ => String a (without_one_trailing_slash s')
      end
  end.

(** ** Concrete runs *)

Definition no_soup : string -> result soup := fun _ => Ok (Soup None []).
Definition no_xml : string -> result element :=
  fun _ => Raise (Exn ParseError "syntax error: line 1, column 0").
Definition netloc_none : string -> result string := fun _ => Ok "".

(** A network where every URL answers 200 to HEAD at the same address. *)
Definition env_ok : environment :=
  Environment (fun _ rq => Ok (Response 200 "OK" (rq_url rq) ""))
    (fun _ => "2024-05-01T08:00:00") (fun _ l => l) no_soup no_xml netloc_none.

(** A server that refuses HEAD with 403 and accepts GET. *)
Definition env_head_forbidden : environment :=
  Environment
    (fun _ rq =>
       match rq_method rq with
       | HEAD => Ok (Response 403 "Forbidden" (rq_url rq) "")
       | GET => Ok (Response 200 "OK" (rq_url rq) "")
       end)
    (fun _ => "2024-05-01T08:00:00") (fun _ l => l) no_soup no_xml netloc_none.

(** A host that never completes the connection. *)
Definition env_connect_timeout : environment :=
  Environment
    (fun _ rq =>
       Raise (Exn ConnectTimeout
                ("HTTPSConnectionPool(host='example.com', port=443): Max retries "
                 ++ "exceeded (Caused by ConnectTimeoutError)")))
    (fun _ => "2024-05-01T08:00:00") (fun _ l => l) no_soup no_xml netloc_none.

(** Every address has moved: the redirects end at one final URL. *)
Definition env_moved : environment :=
  Environment (fun _ rq => Ok (Response 200 "OK" "https://example.com/moved2" ""))
    (fun _ => "2024-05-01T08:00:00") (fun _ l => l) no_soup no_xml netloc_none.

(** A server that redirects to the same address with two slashes appended. *)
Definition env_two_slashes : environment :=
  Environment (fun _ rq => Ok (Response 200 "OK" (rq_url rq ++ "//") ""))
    (fun _ => "2024-05-01T08:00:00") (fun _ l => l) no_soup no_xml netloc_none.

(** The sitemap index answers 200 with a maintenance page instead of XML. *)
Definition env_maintenance : environment :=
  Environment (fun _ rq => Ok (Response 200 "OK" (rq_url rq) "Down for maintenance"))
    (fun _ => "2024-05-01T08:00:00") (fun _ l => l) no_soup no_xml netloc_none.

Definition site_eyehike : Sitewide.site_config :=
  Sitewide.SiteConfig "Eyehike" "https://www.eyehike.com"
    "https://www.eyehike.com/2016/sitemap_index.xml"
    ["post-sitemap.xml"; "page-sitemap.xml"]
    {[ "www.eyehike.com"; "eyehike.com" ]}.

(** A page with an anchor, a mail address, a relative target whose name
    starts with "http", and an external link. *)
Definition soup_hikes : soup :=
  Soup (Some "Hikes")
    [ ATag "#top" "Back to top" None;
      ATag "mailto:drew@example.com" "Mail" None;
      ATag "http-status-codes.html" "HTTP status codes" None;
      ATag "https://example.com/a" "Example" (Some "Webcams") ].

Definition env_hikes : environment :=
  Environment (fun _ rq => Ok (Response 200 "OK" (rq_url rq) "<html>"))
    (fun _ => "2024-05-01T08:00:00") (fun _ l => l)
    (fun _ => Ok soup_hikes) no_xml
    (fun href => Ok (if String.eqb href "https://example.com/a"
                     then "example.com" else "")).

(** A site with one matching sub-sitemap of two pages; both pages link to
    the same address, and the second page is fetched first. *)
Definition url_index : string := "https://www.eyehike.com/2016/sitemap_index.xml".
Definition url_posts : string := "https://www.eyehike.com/2016/post-sitemap.xml".
Definition url_categories : string := "https://www.eyehike.com/2016/category-sitemap.xml".
Definition url_hike_one : string := "https://www.eyehike.com/2016/hike-one/".
Definition url_hike_two : string := "https://www.eyehike.com/2016/hike-two/".

Definition xml_loc (u : string) : element :=
  Element (Sitewide.sm "loc") (Some u) [].

Definition env_two_pages : environment :=
  Environment
    (fun _ rq => Ok (Response 200 "OK" (rq_url rq) (rq_url rq)))
    (fun _ => "2024-05-01T08:00:00")
    (fun _ l => rev l)
    (fun body =>
       Ok
       (if String.eqb body url_hike_one then
         Soup (Some "Hike one") [ATag "https://example.com/a" "Example" None]
       else if String.eqb body url_hike_two then
         Soup (Some "Hike two")
           [ATag "https://example.com/a" "Example again" None;
            ATag "https://example.org/b" "Other" None]
       else Soup None []))
    (fun body =>
       if String.eqb body url_index then
         Ok (Element (Sitewide.sm "sitemapindex") None
               [Element (Sitewide.sm "sitemap") None [xml_loc url_posts];
                Element (Sitewide.sm "sitemap") None [xml_loc url_categories]])
       else if String.eqb body url_posts then
         Ok (Element (Sitewide.sm "urlset") None
               [Element (Sitewide.sm "url") None [xml_loc url_hike_one];
                Element (Sitewide.sm "url") None [xml_loc url_hike_two]])
       else Raise (Exn ParseError "syntax error: line 1, column 0"))
    (fun href =>
       Ok (if String.eqb href "https://example.com/a" then "example.com"
           else if String.eqb href "https://example.org/b" then "example.org"
           else "")).

(** The run of the two stages of [crawl_site] before the merge. *)
Definition two_pages_index : result (list string) * world * list string :=
  Sitewide.parse_sitemap_index env_two_pages url_index
    ["post-sitemap.xml"; "page-sitemap.xml"] (World [] []).

Definition two_pages_pool : result (list (result (list loc))) * world * list string :=
  pool_as_completed env_two_pages
    (fun u => Sitewide.extract_links_from_page env_two_pages u
                {[ "www.eyehike.com"; "eyehike.com" ]})
    [url_hike_one; url_hike_two] two_pages_index.1.2.

(** Three addresses: one is gone, one has moved, one is fine; the checks
    complete in the reverse order of submission. *)
Definition env_three_links : environment :=
  Environment
    (fun _ rq =>
       if String.eqb (rq_url rq) "https://example.com/gone" then
         Ok (Response 404 "Not Found" (rq_url rq) "")
       else if String.eqb (rq_url rq) "https://example.com/moved" then
         Ok (Response 200 "OK" "https://example.com/moved2" "")
       else Ok (Response 200 "OK" (rq_url rq) ""))
    (fun _ => "2024-05-01T08:00:00") (fun _ l => rev l) no_soup no_xml netloc_none.

Definition link_of (site u : string) : gmap string value :=
  <["url" := VStr u]> (<["site" := VStr site]> ∅).

Definition world_three_links : world :=
  World [ link_of "Unscripted6160" "https://example.com/ok";
          link_of "Eyehike" "https://example.com/moved";
          link_of "Eyehike" "https://example.com/gone";
          link_of "Eyehike" "https://example.com/fine" ] [].

(** The first sub-sitemap of the index answers 500, the second one lists a
    page. *)
Definition url_pages : string := "https://www.eyehike.com/2016/page-sitemap.xml".

Definition env_posts_down : environment :=
  Environment
    (fun _ rq =>
       if String.eqb (rq_url rq) url_posts
       then Ok (Response 500 "Internal Server Error" (rq_url rq) "")
       else Ok (Response 200 "OK" (rq_url rq) (rq_url rq)))
    (fun _ => "2024-05-01T08:00:00") (fun _ l => l) no_soup
    (fun body =>
       if String.eqb body url_index then
         Ok (Element (Sitewide.sm "sitemapindex") None
               [Element (Sitewide.sm "sitemap") None [xml_loc url_posts];
                Element (Sitewide.sm "sitemap") None [xml_loc url_pages]])
       else if String.eqb body url_pages then
         Ok (Element (Sitewide.sm "urlset") None
               [Element (Sitewide.sm "url") None [xml_loc url_hike_one]])
       else Raise (Exn ParseError "syntax error: line 1, column 0"))
    netloc_none.

(** The sitemap index itself answers 503. *)
Definition env_index_down : environment :=
  Environment
    (fun _ rq => Ok (Response 503 "Service Unavailable" (rq_url rq) ""))
    (fun _ => "2024-05-01T08:00:00") (fun _ l => l) no_soup no_xml netloc_none.

(** A read timeout: the server accepts the connection and never answers. *)
Definition env_read_timeout : environment :=
  Environment
    (fun _ rq =>
       Raise (Exn ReadTimeout
                "HTTPSConnectionPool(host='example.com', port=443): Read timed out."))
    (fun _ => "2024-05-01T08:00:00") (fun _ l => l) no_soup no_xml netloc_none.

Definition entry_a : gmap string value :=
  <["url" := VStr "https://example.com/a"]>
  (<["label" := VStr "Example"]>
   (<["page_url" := VStr "https://www.eyehike.com/2016/hikes/"]>
    (<["page_title" := VStr "Hikes"]>
     (<["site" := VStr "Eyehike"]> ∅)))).

Definition world_a : world := World [entry_a] [].

(** ** The link extractors *)

(** The target of an [<a>] element as the extractors read it:
    [tag["href"].strip()]. *)
Definition href_of (tag : a_tag) : string := strip (tag_href tag).

(** The element passes the two filters of an extractor: its target starts
    with "http", and the lower-cased network location of the target is not
    in the skip set. *)
Definition external (E : environment) (skip : gset string) (tag : a_tag) : Prop :=
  startswith (href_of tag) "http" = true /\
  exists netloc, urlparse_netloc E (href_of tag) = Ok netloc /\ lower netloc ∉ skip.

(** [urlparse] accepts the target of the element, where it is called. *)
Definition parses (E : environment) (tag : a_tag) : Prop :=
  startswith (href_of tag) "http" = true ->
  exists netloc, urlparse_netloc E (href_of tag) = Ok netloc.

(** The state of the loop of an extractor after the elements [done], started
    in the world [w]: a link was made for the elements [kept], with the dict
    [mk tag] for the element [tag]. *)
Definition extracted (E : environment) (skip : gset string)
    (mk : a_tag -> gmap string value) (done kept : list a_tag)
    (st : list loc * gset string) (w w' : world) : Prop :=
  kept `sublist_of` done /\
  Forall (external E skip) kept /\
  Forall (parses E) done /\
  NoDup (href_of <$> kept) /\
  st.2 = list_to_set (href_of <$> kept) /\
  (forall tag, tag ∈ done -> external E skip tag -> href_of tag ∈ st.2) /\
  st.1 = seq (length (heap w)) (length kept) /\
  heap w' = (heap w ++ (mk <$> kept))%list /\
  trace w' = trace w.

(** The dicts of the two extractors. *)
Definition sitewide_link (page_url : string) (title : option string) (tag : a_tag)
  : gmap string value :=
  <["url" := VStr (href_of tag)]>
  (<["label" := VStr (str_or (slice_to 80 (tag_text tag)) (slice_to 80 (href_of tag)))]>
   (<["page_url" := VStr page_url]>
    (<["page_title" := VStr match title with
                            | Some t => slice_to 80 t
                            | None => page_url
                            end]> ∅))).

Definition webcam_link (tag : a_tag) : gmap string value :=
  <["url" := VStr (href_of tag)]>
  (<["label" := VStr (str_or (tag_text tag) (href_of tag))]>
   (<["section" := VStr match tag_parent_h3 tag with
                        | Some h3 => slice_to 80 h3
                        | None => slice_to 80 (str_or (tag_text tag) (href_of tag))
                        end]> ∅)).

(** A page with a link whose network location [urlparse] rejects. *)
Definition env_bad_link : environment :=
  Environment (fun _ rq => Ok (Response 200 "OK" (rq_url rq) "<html>"))
    (fun _ => "2024-05-01T08:00:00") (fun _ l => l)
    (fun _ => Ok (Soup (Some "Hikes")
                    [ ATag "https://example.com/a" "Example" None;
                      ATag "http://[oops" "Broken" None ]))
    no_xml
    (fun href => if String.eqb href "http://[oops"
                 then Raise (Exn ValueError "Invalid IPv6 URL")
                 else Ok "example.com").

(** ** The seed resolver *)

(** The addresses of the sub-sitemaps that a sitemap index lists, in
    document order: the text of the [loc] child of each [sitemap] element,
    [""] when it has none. *)
Definition index_locs (root : element) : list string :=
  (fun sitemap => default "" (findtext sitemap (Sitewide.sm "loc")))
    <$> findall root (Sitewide.sm "sitemap").

(** [any(f in loc for f in filter_list)] *)
Definition matches (filter_list : list string) (loc : string) : bool :=
  existsb (fun f => str_contains f loc) filter_list.

(** The request of [requests.get(url, headers=HEADERS, timeout=TIMEOUT)] in
    the sitewide script. *)
Definition page_request (url : string) : request :=
  Request GET url Sitewide.HEADERS Sitewide.TIMEOUT true false.

(** ** Specifications of the steps of the process *)

(** Every run of [m] from the process state [p] and the world [w] ends in
    an outcome, a state, a world and an output that satisfy [Q]. *)
Definition wpP {A} (m : MP A)
    (Q : outcome A -> process -> world -> list string -> Prop)
    (p : process) (w : world) : Prop :=
  forall r p' w' out, m p w = (r, p', w', out) -> Q r p' w' out.

(** The same for a computation on the heap and the network, with its
    output. *)
Definition wpo {A} (m : M A) (Q : result A -> world -> list string -> Prop)
    (w : world) : Prop :=
  forall r w' out, m w = (r, w', out) -> Q r w' out.

(** The outcome of a lifted computation. *)
Definition outcome_of_result {A} (r : result A) : outcome A :=
  match r with Ok a => Returned a | Raise e => Raised e end.

(** A computation that only reads: it leaves the world as it is. *)
Definition readonly {A} (m : M A) : Prop := forall w, (m w).1.2 = w.

(** A host whose clock stands still and whose files can always be written. *)
Definition host_ok : host :=
  Host (fun _ fmt => if String.eqb fmt "%Y-%m-%d" then "2024-05-01"
                     else "May 01, 2024 at 08:00 AM")
    "/home/drew/linkcheck" (fun _ _ => Ok tt) (fun _ => "[]").

(** A step of the process that neither exits nor writes to standard error. *)
Definition no_exit {A} (m : MP A) : Prop :=
  forall p w r p' w' out, m p w = (r, p', w', out) ->
    (forall c, r <> Exited c) /\ stderr p' = stderr p.

(** The dict [l] has a status, one of the five. *)
Definition has_status (w : world) (l : loc) : Prop :=
  exists st, field w l "status" = Some (VStr st) /\ st ∈ statuses.

(** The number of the results whose status is one of [sts]. *)
Definition count_status (w : world) (sts : list string) (results : list loc) : nat :=
  length (List.filter
            (fun l => bool_decide (field w l "status" ∈ (fun st => Some (VStr st)) <$> sts))
            results).

(** The first site of [SITES]. *)
Definition eyehike_index : string := "https://www.eyehike.com/2016/sitemap_index.xml".

(** The last step of a program leaves the files of the two reports, and
    has printed [lines] last. *)
Definition reports_written (Ho : host) (prefix : string) (p : process) (tr : list request)
    (lines : list string) (p' : process) (out : list string) : Prop :=
  exists html json,
    let timestamp := now_strftime Ho tr "%Y-%m-%d" in
    files p' = <[path_join (script_dir Ho) (prefix ++ timestamp ++ ".json") := json]>
                 (<[path_join (script_dir Ho) (prefix ++ timestamp ++ ".html") := html]>
                    (files p)) /\
    stderr p' = stderr p /\
    lines `suffix_of` out.

(** The run of the webcam program on the page [soup_hikes]. *)
Definition webcam_run_hikes : outcome unit * process * world * list string :=
  Webcam.main env_hikes host_ok (Process ∅ []) (World [] []).

(** Two sites, each with one sub-sitemap of posts. The first site has two
    pages and the second one has one; the address [example.com/a] is linked
    from all three pages, and [example.org/b] answers 404. *)
Definition url_index2 : string := "https://www.unscripted6160.com/wp-sitemap.xml".
Definition url_posts2 : string :=
  "https://www.unscripted6160.com/wp-sitemap-posts-post-1.xml".
Definition url_post_one : string := "https://www.unscripted6160.com/first-post/".

Definition env_two_sites : environment :=
  Environment
    (fun _ rq =>
       if String.eqb (rq_url rq) "https://example.org/b"
       then Ok (Response 404 "Not Found" (rq_url rq) "")
       else Ok (Response 200 "OK" (rq_url rq) (rq_url rq)))
    (fun _ => "2024-05-01T08:00:00")
    (fun _ l => rev l)
    (fun body =>
       Ok
       (if String.eqb body url_hike_one then
         Soup (Some "Hike one") [ATag "https://example.com/a" "Example" None]
       else if String.eqb body url_hike_two then
         Soup (Some "Hike two")
           [ATag "https://example.com/a" "Example again" None;
            ATag "https://example.org/b" "Other" None]
       else if String.eqb body url_post_one then
         Soup (Some "First post")
           [ATag "https://example.com/a" "Example" None;
            ATag "https://example.com/c" "More" None]
       else Soup None []))
    (fun body =>
       if String.eqb body url_index then
         Ok (Element (Sitewide.sm "sitemapindex") None
               [Element (Sitewide.sm "sitemap") None [xml_loc url_posts];
                Element (Sitewide.sm "sitemap") None [xml_loc url_categories]])
       else if String.eqb body url_posts then
         Ok (Element (Sitewide.sm "urlset") None
               [Element (Sitewide.sm "url") None [xml_loc url_hike_one];
                Element (Sitewide.sm "url") None [xml_loc url_hike_two]])
       else if String.eqb body url_index2 then
         Ok (Element (Sitewide.sm "sitemapindex") None
               [Element (Sitewide.sm "sitemap") None [xml_loc url_posts2]])
       else if String.eqb body url_posts2 then
         Ok (Element (Sitewide.sm "urlset") None
               [Element (Sitewide.sm "url") None [xml_loc url_post_one]])
       else Raise (Exn ParseError "syntax error: line 1, column 0"))
    (fun href =>
       Ok (if String.eqb href "https://example.org/b" then "example.org"
           else "example.com")).

(** The run of the sitewide program on the two sites. *)
Definition sitewide_run_two_sites : outcome unit * process * world * list string :=
  Sitewide.main env_two_sites host_ok (Process ∅ []) (World [] []).

(** ** What the reports show *)

(** The link to a checked address, as a row of either report has it: the
    address is put between the quotes and between the tags as it is. *)
Definition url_anchor (url : string) : string :=
  "<a href=" ++ dq ++ url ++ dq ++ " target=" ++ dq ++ "_blank" ++ dq ++
  " style=" ++ dq ++ "color:inherit" ++ dq ++ ">" ++ url ++ "</a>".

(** The results of a run that returned a list. *)
Definition results_of (run : result (list loc) * world * list string) : list loc :=
  match run.1.1 with Ok results => results | Raise _ => [] end.

(** The links of the page [soup_hikes], scraped and checked. *)
Definition checked_hikes : result (list loc) * world * list string :=
  (links <- Webcam.scrape_links env_hikes Webcam.TARGET_URL ;;
   Webcam.check_all_links env_hikes links) (World [] []).

(** The links of the two sites of [env_two_sites], crawled and checked. *)
Definition checked_two_sites : result (list loc) * world * list string :=
  (all_links <-
     for_each Sitewide.SITES []
       (fun all_links site =>
          links <- Sitewide.crawl_site env_two_sites site ;;
          ret (all_links ++ links)%list) ;;
   Sitewide.check_all_links env_two_sites all_links) (World [] []).

(** ** Runs that reach their end *)

(** The keys that the extractor and the crawler of a script give a link;
    the values they give them are strings. *)
Definition link_keys (s : script) : list string :=
  match s with
  | sitewide => ["url"; "label"; "page_url"; "page_title"; "site"]
  | webcam => ["url"; "label"; "section"]
  end.

(** The dict [l] is a link of the script [s]. *)
Definition is_link (s : script) (l : loc) (w : world) : Prop :=
  exists d,
    heap w !! l = Some d /\ site_ok s d /\
    forall k, k ∈ link_keys s -> exists v, d !! k = Some (VStr v).

(** The dict [l] is the result of the check of such a link. *)
Definition is_result (s : script) (l : loc) (w : world) : Prop :=
  exists r st code f,
    heap w !! l = Some r /\ site_ok s r /\
    r !! "status" = Some (VStr st) /\ st ∈ statuses /\
    r !! "status_code" = Some code /\ r !! "final_url" = Some (VStr f) /\
    forall k, k ∈ link_keys s -> exists v, r !! k = Some (VStr v).

(** The computation [m] only reads, and returns a value that satisfies
    [P]. *)
Definition gives {A} (m : M A) (P : A -> Prop) (w : world) : Prop :=
  wp m (fun r w' => w' = w /\ exists a, r = Ok a /\ P a) w.

(** The fields [keys] of the dict [l] are strings. *)
Definition has_str_fields (keys : list string) (l : loc) (w : world) : Prop :=
  forall k, k ∈ keys -> exists v, field w l k = Some (VStr v).

(** From [w] to [w'], nothing has changed in a dict but its [site], which
    is as it was or the name [n]. *)
Definition site_marks (n : string) (w w' : world) : Prop :=
  forall l,
    (forall k, k <> "site" -> field w' l k = field w l k) /\
    (field w' l "site" = field w l "site" \/ field w' l "site" = Some (VStr n)).

(** The [site] of the dict [l] is one of [names]. *)
Definition site_in (names : list string) (l : loc) (w : world) : Prop :=
  exists n, n ∈ names /\ field w l "site" = Some (VStr n).


(** ** The requests of the verification *)



(** ** The lines of the sites in the final summary *)

(** The tests of the counts, as functions of the heap. *)
Definition has_site (w : world) (n : string) (l : loc) : bool :=
  bool_decide (field w l "site" = Some (VStr n)).

Definition has_status_in (w : world) (sts : list string) (l : loc) : bool :=
  bool_decide (field w l "status" ∈ (fun st => Some (VStr st)) <$> sts).

(** ** The two extractors, side by side *)

(** The extractor of a script: [extract_links_from_page] with the skip set
    of a site, or [scrape_links]. *)
Definition extract_of (s : script) (E : environment) (url : string)
    (skip_domains : gset string) : M (list loc) :=
  match s with
  | sitewide => Sitewide.extract_links_from_page E url skip_domains
  | webcam => Webcam.scrape_links E url
  end.

(** The request with which the extractor fetches its page. *)
Definition fetch_request (s : script) (url : string) : request :=
  Request GET url (HEADERS_of s) (TIMEOUT_of s) true false.

(** The network locations that the extractor skips. *)
Definition skipped_of (s : script) (skip_domains : gset string) : gset string :=
  match s with
  | sitewide => skip_domains ∪ Sitewide.GLOBAL_SKIP_DOMAINS
  | webcam => Webcam.SKIP_DOMAINS
  end.

(** A page whose markup the HTML parser rejects. *)
Definition env_rejected_markup : environment :=
  Environment (fun _ rq => Ok (Response 200 "OK" (rq_url rq) "<![sidebar]>"))
    (fun _ => "2024-05-01T08:00:00") (fun _ l => l)
    (fun _ =>
       Raise (Exn ParserRejectedMarkup
                "The markup you provided was rejected by the parser."))
    no_xml netloc_none.

(** * Running programs *)

Lemma bind_run {A B} (m : M A) (k : A -> M B) w a w1 o1 r w2 o2 :
  m w = (Ok a, w1, o1) -> k a w1 = (r, w2, o2) ->
  bind m k w = (r, w2, (o1 ++ o2)%list).
Proof. intros Hm Hk. unfold bind. rewrite Hm, Hk. reflexivity. Qed.

Lemma bind_raise {A B} (m : M A) (k : A -> M B) w e w1 o1 :
  m w = (Raise e, w1, o1) -> bind m k w = (Raise e, w1, o1).
Proof. intros Hm. unfold bind. rewrite Hm. reflexivity. Qed.

Lemma try_ok {A} (m : M A) h w a w1 o1 :
  m w = (Ok a, w1, o1) -> try_except m h w = (Ok a, w1, o1).
Proof. intros Hm. unfold try_except. rewrite Hm. reflexivity. Qed.

Lemma try_raise {A} (m : M A) h w e w1 o1 r w2 o2 :
  m w = (Raise e, w1, o1) -> h e w1 = (r, w2, o2) ->
  try_except m h w = (r, w2, (o1 ++ o2)%list).
Proof. intros Hm Hh. unfold try_except. rewrite Hm, Hh. reflexivity. Qed.

Lemma deref_run h tr l d :
  h !! l = Some d -> deref l (World h tr) = (Ok d, World h tr, []).
Proof. intros Hd. unfold deref; simpl. rewrite Hd. reflexivity. Qed.

Lemma getitem_run h tr l d k v :
  h !! l = Some d -> d !! k = Some v ->
  getitem l k (World h tr) = (Ok v, World h tr, []).
Proof.
  intros Hd Hk. unfold getitem.
  eapply (bind_run _ _ _ _ _ []); [apply deref_run, Hd|]. rewrite Hk. reflexivity.
Qed.

Lemma setitem_run h tr l d k v :
  h !! l = Some d ->
  setitem l k v (World h tr) = (Ok tt, World (<[l := <[k := v]> d]> h) tr, []).
Proof. intros Hd. unfold setitem; simpl. rewrite Hd. reflexivity. Qed.

Lemma lookup_last {X} (h : list X) d : (h ++ [d])%list !! length h = Some d.
Proof. rewrite lookup_app_r by lia. rewrite Nat.sub_diag. reflexivity. Qed.

Lemma insert_last {X} (h : list X) d d' :
  <[length h := d']> (h ++ [d])%list = (h ++ [d'])%list.
Proof. rewrite insert_app_r_alt by lia. rewrite Nat.sub_diag. reflexivity. Qed.

Lemma setitem_last h tr d k v :
  setitem (length h) k v (World (h ++ [d]) tr)
  = (Ok tt, World (h ++ [<[k := v]> d]) tr, []).
Proof. erewrite setitem_run by apply lookup_last. rewrite insert_last. reflexivity. Qed.

Lemma getitem_last h tr d k v :
  d !! k = Some v ->
  getitem (length h) k (World (h ++ [d]) tr) = (Ok v, World (h ++ [d]) tr, []).
Proof. intros. eapply getitem_run; [apply lookup_last | done]. Qed.

Lemma dict_copy_run h tr l d :
  h !! l = Some d ->
  dict_copy l (World h tr) = (Ok (length h), World (h ++ [d]) tr, []).
Proof.
  intros Hd. unfold dict_copy.
  eapply (bind_run _ _ _ _ _ []); [apply deref_run, Hd|]. reflexivity.
Qed.

Lemma requests_request_run E rq h tr r :
  send E tr rq = r ->
  requests_request E rq (World h tr) = (r, World h (tr ++ [rq]), []).
Proof. intros <-. reflexivity. Qed.

(** The three outcome fields, as the body of [try] and each handler set them. *)
Lemma set_outcome_run h tr d s c f :
  (setitem (length h) "status" s ;;
   setitem (length h) "status_code" c ;;
   setitem (length h) "final_url" f) (World (h ++ [d]) tr)
  = (Ok tt,
     World (h ++ [<["final_url" := f]> (<["status_code" := c]> (<["status" := s]> d))]) tr,
     []).
Proof.
  eapply (bind_run _ _ _ _ _ [] _ _ []); [apply setitem_last|].
  eapply (bind_run _ _ _ _ _ [] _ _ []); [apply setitem_last|].
  apply setitem_last.
Qed.

Ltac run_if :=
  match goal with
  | H : ?c = true |- context [?c] => rewrite H; cbn [negb]
  | H : ?c = false |- context [?c] => rewrite H; cbn [negb]
  | H : ?P |- context [bool_decide ?P] => rewrite (bool_decide_true P H)
  | H : ~ ?P |- context [bool_decide ?P] => rewrite (bool_decide_false P H)
  end.

Ltac run :=
  repeat first
    [ progress cbv beta
    | reflexivity
    | apply set_outcome_run
    | apply setitem_last
    | eapply getitem_last; simplify_map_eq; reflexivity
    | eapply requests_request_run; eassumption
    | eapply try_ok; solve [run]
    | eapply try_raise; [solve [run] | ]
    | eapply bind_run; [solve [run] | ]
    | eapply bind_raise; solve [run]
    | run_if ].


(** * Reasoning about computations *)

Lemma wp_run {A} (m : M A) Q w r w' out :
  wp m Q w -> m w = (r, w', out) -> Q r w'.
Proof. intros H. apply H. Qed.

Lemma wp_conseq {A} (m : M A) (Q Q' : result A -> world -> Prop) w :
  wp m Q w -> (forall r w', Q r w' -> Q' r w') -> wp m Q' w.
Proof. intros H HQ r w' out Hm. eapply HQ, H, Hm. Qed.

Lemma wp_ret {A} (a : A) (Q : result A -> world -> Prop) w :
  Q (Ok a) w -> wp (ret a) Q w.
Proof. intros H r w' out [= <- <- _]. exact H. Qed.

Lemma wp_raise {A} e (Q : result A -> world -> Prop) w :
  Q (Raise e) w -> wp (raise e) Q w.
Proof. intros H r w' out [= <- <- _]. exact H. Qed.

Lemma wp_lift {A} (x : result A) (Q : result A -> world -> Prop) w :
  Q x w -> wp (lift x) Q w.
Proof. intros H r w' out [= <- <- _]. exact H. Qed.

Lemma wp_print line (Q : result unit -> world -> Prop) w :
  Q (Ok tt) w -> wp (print line) Q w.
Proof. intros H r w' out [= <- <- _]. exact H. Qed.

Lemma wp_bind {A B} (m : M A) (k : A -> M B) (Q : result B -> world -> Prop) w :
  wp m (fun r w1 => match r with
                    | Ok a => wp (k a) Q w1
                    | Raise e => Q (Raise e) w1
                    end) w ->
  wp (bind m k) Q w.
Proof.
  intros H r w' out. unfold bind.
  destruct (m w) as [[[a|e] w1] o1] eqn:Hm.
  - specialize (H _ _ _ Hm). simpl in H.
    destruct (k a w1) as [[r2 w2] o2] eqn:Hk. intros [= <- <- _]. eapply H, Hk.
  - specialize (H _ _ _ Hm). intros [= <- <- _]. exact H.
Qed.

Lemma wp_try {A} (m : M A) (h : exn -> M A) (Q : result A -> world -> Prop) w :
  wp m (fun r w1 => match r with
                    | Ok a => Q (Ok a) w1
                    | Raise e => wp (h e) Q w1
                    end) w ->
  wp (try_except m h) Q w.
Proof.
  intros H r w' out. unfold try_except.
  destruct (m w) as [[[a|e] w1] o1] eqn:Hm.
  - specialize (H _ _ _ Hm). intros [= <- <- _]. exact H.
  - specialize (H _ _ _ Hm). simpl in H.
    destruct (h e w1) as [[r2 w2] o2] eqn:Hh. intros [= <- <- _]. eapply H, Hh.
Qed.

Lemma wp_exact {A} (m : M A) (Q : result A -> world -> Prop) w r w' out :
  m w = (r, w', out) -> Q r w' -> wp m Q w.
Proof. intros Hm HQ r2 w2 out2 Hm2. rewrite Hm in Hm2. by injection Hm2 as <- <- _. Qed.

Lemma wp_total {A} (m : M A) (Q : result A -> world -> Prop) w :
  wp m Q w -> exists r w' out, m w = (r, w', out) /\ Q r w'.
Proof.
  intros H. destruct (m w) as [[r w'] out] eqn:Hm.
  exists r, w', out. split; [reflexivity|]. eapply H, Hm.
Qed.

(** A loop with an invariant [I] on the elements done so far, and a
    condition [R] that holds whenever the body raises. *)
Lemma wp_for_each {A B} (I : list A -> B -> world -> Prop) (R : exn -> world -> Prop)
    (xs : list A) (body : B -> A -> M B) (Q : result B -> world -> Prop) acc w :
  I [] acc w ->
  (forall done x rest acc w,
     xs = (done ++ x :: rest)%list -> I done acc w ->
     wp (body acc x) (fun r w' => match r with
                                 | Ok acc' => I (done ++ [x])%list acc' w'
                                 | Raise e => R e w'
                                 end) w) ->
  (forall acc w', I xs acc w' -> Q (Ok acc) w') ->
  (forall e w', R e w' -> Q (Raise e) w') ->
  wp (for_each xs acc body) Q w.
Proof.
  intros Hinit Hbody Hok Hraise.
  assert (Hgen : forall rest done acc w,
             xs = (done ++ rest)%list -> I done acc w ->
             wp (for_each rest acc body) Q w).
  { induction rest as [|x rest IH]; intros done acc0 w0 Hxs HI.
    - rewrite app_nil_r in Hxs. subst done. simpl. apply wp_ret, Hok, HI.
    - simpl. apply wp_bind.
      eapply wp_conseq; [eapply Hbody; eassumption|].
      intros [acc'|e] w1 H1; [|apply Hraise, H1].
      eapply IH; [|exact H1]. rewrite <- app_assoc. exact Hxs. }
  eapply (Hgen xs []); [reflexivity | exact Hinit].
Qed.

Lemma wp_new_dict d (Q : result loc -> world -> Prop) w :
  Q (Ok (length (heap w))) (World (heap w ++ [d]) (trace w)) -> wp (new_dict d) Q w.
Proof. intros H r w' out [= <- <- _]. exact H. Qed.

Lemma wp_requests_request E rq (Q : result response -> world -> Prop) w :
  Q (send E (trace w) rq) (World (heap w) (trace w ++ [rq])) ->
  wp (requests_request E rq) Q w.
Proof. intros H r w' out [= <- <- _]. exact H. Qed.

Lemma wp_raise_for_status r (Q : result unit -> world -> Prop) w :
  (forall x, Q x w) -> wp (raise_for_status r) Q w.
Proof.
  intros H. unfold raise_for_status.
  repeat case_match; first [apply wp_raise | apply wp_ret]; apply H.
Qed.

Lemma wp_getitem l k (Q : result value -> world -> Prop) w d v :
  heap w !! l = Some d -> d !! k = Some v -> Q (Ok v) w -> wp (getitem l k) Q w.
Proof.
  intros Hd Hk H r w' out. destruct w as [h tr].
  erewrite getitem_run by eassumption. intros [= <- <- _]. exact H.
Qed.

Lemma wp_setitem l k v (Q : result unit -> world -> Prop) w d :
  heap w !! l = Some d ->
  Q (Ok tt) (World (<[l := <[k := v]> d]> (heap w)) (trace w)) ->
  wp (setitem l k v) Q w.
Proof.
  intros Hd H r w' out. destruct w as [h tr].
  erewrite setitem_run by eassumption. intros [= <- <- _]. exact H.
Qed.

(** ** Growth of the heap *)

Lemma grows_refl w : grows w w.
Proof. unfold grows. reflexivity. Qed.

Lemma grows_trans w1 w2 w3 : grows w1 w2 -> grows w2 w3 -> grows w1 w3.
Proof. unfold grows. intros. by etrans. Qed.

Lemma grows_lookup w w' l d : grows w w' -> heap w !! l = Some d -> heap w' !! l = Some d.
Proof. intros [k ->] Hd. apply lookup_app_l_Some, Hd. Qed.

Lemma grows_alloc w d : grows w (World (heap w ++ [d]) (trace w)).
Proof. exists [d]. reflexivity. Qed.

Lemma grows_request w rq : grows w (World (heap w) (trace w ++ [rq])).
Proof. exists []. simpl. by rewrite app_nil_r. Qed.

Lemma http_link_grows w w' l : grows w w' -> http_link w l -> http_link w' l.
Proof. intros Hg (d & href & Hd & H). exists d, href. eauto using grows_lookup. Qed.

Lemma link_found_on_grows w w' p l :
  grows w w' -> link_found_on w p l -> link_found_on w' p l.
Proof. intros Hg (d & href & Hd & H). exists d, href. eauto using grows_lookup. Qed.

Lemma link_found_on_http w p l : link_found_on w p l -> http_link w l.
Proof. intros (d & href & Hd & Hu & Hh & _). by exists d, href. Qed.


(** * The link verifier *)

(** ** The verifier in one step *)

Ltac check_link_cases E tr :=
  unfold exchange, classify, checked;
  destruct (send E tr _) as [?r|?e] eqn:?;
    [ case_bool_decide;
      [ destruct (send E (tr ++ _) _) as [?r|?e] eqn:? |] |];
  cbn [fst snd];
  repeat match goal with
    | |- context [if ?c then _ else _] => destruct c eqn:?
    end.

(** A check allocates the result after the existing objects, fills it from
    the entry and the classification of the last answer, and touches nothing
    else. *)
Lemma check_link_run (s : script) E w entry d u :
  heap w !! entry = Some d ->
  d !! "url" = Some (VStr u) ->
  exists out,
    check_link_of s E entry w =
    (Ok (length (heap w)),
     World (heap w ++
            [checked d (utcnow_isoformat E (trace w))
               (classify u (exchange E (trace w) (head_request s u) (get_request s u)).1)])
           (exchange E (trace w) (head_request s u) (get_request s u)).2,
     out).
Proof.
  intros Hd Hu. destruct w as [h tr]. simpl in *.
  unfold head_request, get_request.
  destruct s; cbn [check_link_of HEADERS_of TIMEOUT_of].
  - check_link_cases E tr; eexists;
      unfold Sitewide.check_link, Sitewide.requests_head, Sitewide.requests_get_stream;
      (eapply bind_run; [eapply getitem_run; eassumption|]);
      (eapply bind_run; [reflexivity|]);
      (eapply bind_run; [eapply dict_copy_run; eassumption|]);
      run.
  - check_link_cases E tr; eexists;
      unfold Webcam.check_link, Webcam.requests_head, Webcam.requests_get_stream;
      (eapply bind_run; [eapply getitem_run; eassumption|]);
      (eapply bind_run; [reflexivity|]);
      (eapply bind_run; [eapply dict_copy_run; eassumption|]);
      run.
Qed.

Lemma field_last h tr d k :
  field (World (h ++ [d]) tr) (length h) k = d !! k.
Proof. unfold field; simpl. rewrite lookup_last. reflexivity. Qed.

Lemma field_checked_status d now c :
  checked d now c !! "status" = Some c.1.1.
Proof. unfold checked. by simplify_map_eq. Qed.

Lemma field_checked_status_code d now c :
  checked d now c !! "status_code" = Some c.1.2.
Proof. unfold checked. by simplify_map_eq. Qed.

Lemma field_checked_final_url d now c :
  checked d now c !! "final_url" = Some c.2.
Proof. unfold checked. by simplify_map_eq. Qed.

Lemma field_checked_other d now c k :
  k ∉ outcome_keys -> checked d now c !! k = d !! k.
Proof.
  unfold outcome_keys, checked. intros Hk.
  rewrite !lookup_insert_ne; [done|..]; intros <-; apply Hk; set_solver.
Qed.

Lemma classify_status u o :
  exists st, (classify u o).1.1 = VStr st /\ st ∈ statuses.
Proof.
  unfold classify, statuses.
  destruct o as [r|e]; repeat case_match; simpl; eexists; split; try reflexivity; set_solver.
Qed.

(** ** Outcomes *)

(** C1. Given an entry with a [url], [check_link] returns a result dict and
    raises nothing, whatever the network does: the answer or the exception
    of the HTTP check ends as one of the statuses OK, REDIRECT, BROKEN,
    TIMEOUT, ERROR. *)
Theorem check_link_never_raises (s : script) E w entry d u :
  heap w !! entry = Some d ->
  d !! "url" = Some (VStr u) ->
  exists result w' out status,
    check_link_of s E entry w = (Ok result, w', out) /\
    field w' result "status" = Some (VStr status) /\
    status ∈ statuses.
Proof.
  intros Hd Hu.
  destruct (check_link_run s E w entry d u Hd Hu) as [out Hrun].
  destruct (classify_status u
              (exchange E (trace w) (head_request s u) (get_request s u)).1)
    as (st & Hst & Hin).
  eexists _, _, out, st. split; [exact Hrun|]. split; [|exact Hin].
  rewrite field_last, field_checked_status. by rewrite Hst.
Qed.

Lemma check_link_never_raises_witness :
  exists result w' out status,
    check_link_of sitewide env_ok 0%nat world_a = (Ok result, w', out) /\
    field w' result "status" = Some (VStr status) /\
    status ∈ statuses.
Proof.
  eapply (check_link_never_raises sitewide env_ok world_a 0%nat entry_a
            "https://example.com/a"); vm_compute; reflexivity.
Defined.

(** C2 (evaluation at the failing input). A connect timeout is an instance
    of both [Timeout] and [ConnectionError]; the handler of
    [ConnectionError] comes first, so the link is reported BROKEN with the
    code "Connection Error", not TIMEOUT. *)
Theorem check_link_connect_timeout_is_broken (s : script) E w entry d u e :
  heap w !! entry = Some d ->
  d !! "url" = Some (VStr u) ->
  send E (trace w) (head_request s u) = Raise e ->
  exn_class_of e = ConnectTimeout ->
  isinstance e Timeout = true /\
  exists result w' out,
    check_link_of s E entry w = (Ok result, w', out) /\
    field w' result "status" = Some (VStr "BROKEN") /\
    field w' result "status_code" = Some (VStr "Connection Error").
Proof.
  intros Hd Hu Hsend Hclass.
  split; [unfold isinstance; by rewrite Hclass|].
  destruct (check_link_run s E w entry d u Hd Hu) as [out Hrun].
  eexists _, _, out. split; [exact Hrun|].
  rewrite !field_last, field_checked_status, field_checked_status_code.
  unfold exchange. rewrite Hsend. cbn [fst classify].
  unfold isinstance. rewrite Hclass. done.
Qed.

Lemma check_link_connect_timeout_is_broken_witness :
  isinstance (Exn ConnectTimeout
                ("HTTPSConnectionPool(host='example.com', port=443): Max retries "
                 ++ "exceeded (Caused by ConnectTimeoutError)")) Timeout = true /\
  exists result w' out,
    check_link_of sitewide env_connect_timeout 0%nat world_a = (Ok result, w', out) /\
    field w' result "status" = Some (VStr "BROKEN") /\
    field w' result "status_code" = Some (VStr "Connection Error").
Proof.
  eapply (check_link_connect_timeout_is_broken sitewide env_connect_timeout world_a
            0%nat entry_a "https://example.com/a"); vm_compute; reflexivity.
Defined.

(** The answer that [check_link] classifies is [r]: the answer to HEAD when
    it is not rejected, else the answer to the fallback GET. *)
Lemma exchange_final_response s E tr u r :
  (send E tr (head_request s u) = Ok r /\ r_status_code r ∉ [405; 403; 501]) \/
  (exists r0, send E tr (head_request s u) = Ok r0 /\
              r_status_code r0 ∈ [405; 403; 501] /\
              send E (tr ++ [head_request s u]) (get_request s u) = Ok r) ->
  (exchange E tr (head_request s u) (get_request s u)).1 = Ok r.
Proof.
  unfold exchange. intros [[-> Hn]|(r0 & -> & Hr0 & Hget)].
  - by rewrite bool_decide_false.
  - by rewrite bool_decide_true.
Qed.

(** C3 (amended). When the final status code lies in [200, 400), the result
    is REDIRECT exactly when the final URL and the original URL differ after
    all their trailing slashes are removed, and OK otherwise; [final_url]
    holds the final URL in the REDIRECT case and is empty in the OK case. *)
Theorem check_link_redirect_iff_urls_differ (s : script) E w entry d u r :
  heap w !! entry = Some d ->
  d !! "url" = Some (VStr u) ->
  (send E (trace w) (head_request s u) = Ok r /\ r_status_code r ∉ [405; 403; 501]) \/
  (exists r0, send E (trace w) (head_request s u) = Ok r0 /\
              r_status_code r0 ∈ [405; 403; 501] /\
              send E (trace w ++ [head_request s u]) (get_request s u) = Ok r) ->
  200 <= r_status_code r < 400 ->
  exists result w' out status final_url,
    check_link_of s E entry w = (Ok result, w', out) /\
    field w' result "status" = Some (VStr status) /\
    field w' result "status_code" = Some (VInt (r_status_code r)) /\
    field w' result "final_url" = Some (VStr final_url) /\
    (status = "REDIRECT" <-> rstrip "/" (r_url r) <> rstrip "/" u) /\
    (status = "OK" <-> rstrip "/" (r_url r) = rstrip "/" u) /\
    (status = "REDIRECT" -> final_url = r_url r) /\
    (status = "OK" -> final_url = "") /\
    (final_url <> "" -> status = "REDIRECT").
Proof.
  intros Hd Hu Hfinal Hrange.
  destruct (check_link_run s E w entry d u Hd Hu) as [out Hrun].
  rewrite (exchange_final_response s E (trace w) u r Hfinal) in Hrun.
  unfold classify in Hrun.
  replace ((200 <=? r_status_code r) && (r_status_code r <? 400)) with true in Hrun
    by (symmetry; apply andb_true_iff; split; [apply Z.leb_le | apply Z.ltb_lt]; lia).
  destruct (String.eqb_spec (rstrip "/" (r_url r)) (rstrip "/" u)) as [Heq|Hne].
  - eexists _, _, out, "OK", "". split; [exact Hrun|].
    rewrite !field_last, field_checked_status, field_checked_status_code,
      field_checked_final_url.
    repeat split; try done.
  - eexists _, _, out, "REDIRECT", (r_url r). split; [exact Hrun|].
    rewrite !field_last, field_checked_status, field_checked_status_code,
      field_checked_final_url.
    repeat split; try done.
Qed.

Lemma check_link_redirect_iff_urls_differ_witness :
  exists result w' out status final_url,
    check_link_of sitewide env_ok 0%nat world_a = (Ok result, w', out) /\
    field w' result "status" = Some (VStr status) /\
    field w' result "status_code" = Some (VInt 200) /\
    field w' result "final_url" = Some (VStr final_url) /\
    (status = "REDIRECT" <->
       rstrip "/" "https://example.com/a" <> rstrip "/" "https://example.com/a") /\
    (status = "OK" <->
       rstrip "/" "https://example.com/a" = rstrip "/" "https://example.com/a") /\
    (status = "REDIRECT" -> final_url = "https://example.com/a") /\
    (status = "OK" -> final_url = "") /\
    (final_url <> "" -> status = "REDIRECT").
Proof.
  eapply (check_link_redirect_iff_urls_differ sitewide env_ok world_a 0%nat entry_a
            "https://example.com/a" (Response 200 "OK" "https://example.com/a" "")).
  - vm_compute; reflexivity.
  - vm_compute; reflexivity.
  - left. split; [reflexivity|]. vm_compute. intros H. by repeat (apply elem_of_cons in H as [H|H]; [discriminate H|]); apply elem_of_nil in H.
  - simpl. lia.
Defined.

(** C3 (counterexample). The address answers 200 at the same URL followed
    by two slashes. With one trailing slash ignored the two URLs differ, so
    the claim asks for REDIRECT; the code removes every trailing slash and
    reports OK. *)
Lemma check_link_single_slash_counterexample :
  exists result w' out,
    check_link_of sitewide env_two_slashes 0%nat world_a = (Ok result, w', out) /\
    send env_two_slashes [] (head_request sitewide "https://example.com/a")
      = Ok (Response 200 "OK" "https://example.com/a//" "") /\
    without_one_trailing_slash "https://example.com/a//"
      <> without_one_trailing_slash "https://example.com/a" /\
    field w' result "status" = Some (VStr "OK") /\
    field w' result "final_url" = Some (VStr "").
Proof.
  eexists _, _, _. split; [vm_compute; reflexivity|].
  repeat split; try (vm_compute; reflexivity).
  vm_compute. discriminate.
Qed.

(** C4. The status of a result is one of the five, and [final_url] is
    non-empty exactly when the status is REDIRECT. A response carries the
    URL of the request that produced it, which is never empty. *)
Theorem check_link_final_url_iff_redirect (s : script) E w entry d u :
  heap w !! entry = Some d ->
  d !! "url" = Some (VStr u) ->
  (forall tr rq r, send E tr rq = Ok r -> r_url r <> "") ->
  exists result w' out status final_url,
    check_link_of s E entry w = (Ok result, w', out) /\
    field w' result "status" = Some (VStr status) /\
    status ∈ statuses /\
    field w' result "final_url" = Some (VStr final_url) /\
    (final_url <> "" <-> status = "REDIRECT").
Proof.
  intros Hd Hu Hurl.
  destruct (check_link_run s E w entry d u Hd Hu) as [out Hrun].
  assert (Hresp : forall r,
             (exchange E (trace w) (head_request s u) (get_request s u)).1 = Ok r ->
             r_url r <> "").
  { unfold exchange. intros r.
    destruct (send E (trace w) _) as [r0|e0] eqn:Hhead; [|discriminate].
    case_bool_decide; cbn [fst].
    - apply Hurl.
    - intros [= <-]. eapply Hurl, Hhead. }
  destruct (exchange E (trace w) (head_request s u) (get_request s u)).1
    as [r|e] eqn:Hlast; unfold classify in Hrun.
  - specialize (Hresp r eq_refl).
    destruct ((200 <=? r_status_code r) && (r_status_code r <? 400));
      [destruct (String.eqb (rstrip "/" (r_url r)) (rstrip "/" u))|].
    + eexists _, _, out, "OK", "". split; [exact Hrun|].
      rewrite !field_last, field_checked_status, field_checked_final_url.
      unfold statuses. repeat split; try done; set_solver.
    + eexists _, _, out, "REDIRECT", (r_url r). split; [exact Hrun|].
      rewrite !field_last, field_checked_status, field_checked_final_url.
      unfold statuses. repeat split; try done; set_solver.
    + eexists _, _, out, "BROKEN", "". split; [exact Hrun|].
      rewrite !field_last, field_checked_status, field_checked_final_url.
      unfold statuses. repeat split; try done; set_solver.
  - destruct (isinstance e ConnectionError); [|destruct (isinstance e Timeout)].
    + eexists _, _, out, "BROKEN", "". split; [exact Hrun|].
      rewrite !field_last, field_checked_status, field_checked_final_url.
      unfold statuses. repeat split; try done; set_solver.
    + eexists _, _, out, "TIMEOUT", "". split; [exact Hrun|].
      rewrite !field_last, field_checked_status, field_checked_final_url.
      unfold statuses. repeat split; try done; set_solver.
    + eexists _, _, out, "ERROR", "". split; [exact Hrun|].
      rewrite !field_last, field_checked_status, field_checked_final_url.
      unfold statuses. repeat split; try done; set_solver.
Qed.

Lemma check_link_final_url_iff_redirect_witness :
  exists result w' out status final_url,
    check_link_of sitewide env_moved 0%nat world_a = (Ok result, w', out) /\
    field w' result "status" = Some (VStr status) /\
    status ∈ statuses /\
    field w' result "final_url" = Some (VStr final_url) /\
    (final_url <> "" <-> status = "REDIRECT").
Proof.
  eapply (check_link_final_url_iff_redirect sitewide env_moved world_a 0%nat entry_a
            "https://example.com/a").
  - vm_compute; reflexivity.
  - vm_compute; reflexivity.
  - intros tr rq r [= <-]. discriminate.
Defined.

(** The three outcome fields of a result. *)
Lemma outcome_fields_run h tr d now c :
  let w' := World (h ++ [checked d now c]) tr in
  field w' (length h) "status" = Some c.1.1 /\
  field w' (length h) "status_code" = Some c.1.2 /\
  field w' (length h) "final_url" = Some c.2.
Proof.
  cbv zeta. rewrite !field_last.
  by rewrite field_checked_status, field_checked_status_code, field_checked_final_url.
Qed.

(** C5. When HEAD is answered 405, 403 or 501, [check_link] issues exactly
    one more request, a GET of the same URL that follows redirects with the
    same timeout, and the result is the classification of what that GET
    gave; a link that answers 403 to HEAD and 200 to GET is OK. *)
Theorem check_link_fallback_on_rejected_head (s : script) E w entry d u r0 :
  heap w !! entry = Some d ->
  d !! "url" = Some (VStr u) ->
  send E (trace w) (head_request s u) = Ok r0 ->
  r_status_code r0 ∈ [405; 403; 501] ->
  let retry := Request GET u (HEADERS_of s) (rq_timeout (head_request s u)) true true in
  let answer := send E (trace w ++ [head_request s u]) retry in
  exists result w' out,
    check_link_of s E entry w = (Ok result, w', out) /\
    trace w' = (trace w ++ [head_request s u; retry])%list /\
    field w' result "status" = Some (classify u answer).1.1 /\
    field w' result "status_code" = Some (classify u answer).1.2 /\
    field w' result "final_url" = Some (classify u answer).2 /\
    (forall r1, answer = Ok r1 ->
       field w' result "status_code" = Some (VInt (r_status_code r1))) /\
    (forall r1, answer = Ok r1 -> r_status_code r1 = 200 -> r_url r1 = u ->
       field w' result "status" = Some (VStr "OK")).
Proof.
  intros Hd Hu Hhead Hrej retry answer.
  destruct (check_link_run s E w entry d u Hd Hu) as [out Hrun].
  unfold exchange in Hrun. rewrite Hhead, bool_decide_true in Hrun by done.
  cbn [fst snd] in Hrun.
  change (get_request s u) with retry in Hrun.
  change (send E (trace w ++ [head_request s u]) retry) with answer in Hrun.
  eexists _, _, out. split; [exact Hrun|].
  destruct (outcome_fields_run (heap w) ((trace w ++ [head_request s u]) ++ [retry]) d
              (utcnow_isoformat E (trace w)) (classify u answer)) as (Hs & Hc & Hf).
  split; [cbn [trace]; by rewrite <- app_assoc|].
  split; [exact Hs|]. split; [exact Hc|]. split; [exact Hf|]. split.
  - intros r1 Hr1. rewrite Hc, Hr1. unfold classify. by repeat case_match.
  - intros r1 Hr1 Hcode Hsame. rewrite Hs, Hr1. unfold classify.
    rewrite Hcode, Hsame, String.eqb_refl. reflexivity.
Qed.

Lemma check_link_fallback_on_rejected_head_witness :
  let retry := Request GET "https://example.com/a" (HEADERS_of sitewide)
                 (rq_timeout (head_request sitewide "https://example.com/a")) true true in
  let answer := send env_head_forbidden
                  (trace world_a ++ [head_request sitewide "https://example.com/a"])
                  retry in
  exists result w' out,
    check_link_of sitewide env_head_forbidden 0%nat world_a = (Ok result, w', out) /\
    trace w' = (trace world_a ++ [head_request sitewide "https://example.com/a"; retry])%list /\
    field w' result "status" = Some (classify "https://example.com/a" answer).1.1 /\
    field w' result "status_code" = Some (classify "https://example.com/a" answer).1.2 /\
    field w' result "final_url" = Some (classify "https://example.com/a" answer).2 /\
    (forall r1, answer = Ok r1 ->
       field w' result "status_code" = Some (VInt (r_status_code r1))) /\
    (forall r1, answer = Ok r1 -> r_status_code r1 = 200 ->
       r_url r1 = "https://example.com/a" ->
       field w' result "status" = Some (VStr "OK")).
Proof.
  eapply (check_link_fallback_on_rejected_head sitewide env_head_forbidden world_a
            0%nat entry_a "https://example.com/a" (Response 403 "Forbidden" "https://example.com/a" "")).
  - vm_compute; reflexivity.
  - vm_compute; reflexivity.
  - reflexivity.
  - simpl. set_solver.
Defined.

(** C10. [check_link] works on a copy: the entry and every other object
    that existed before the call are unchanged, the result is a new object,
    every field of the entry other than the four outcome fields has the same
    value in the result, and the result has no further field. *)
Theorem check_link_preserves_entry (s : script) E w entry d u :
  heap w !! entry = Some d ->
  d !! "url" = Some (VStr u) ->
  exists result w' out r,
    check_link_of s E entry w = (Ok result, w', out) /\
    heap w' !! entry = Some d /\
    result <> entry /\
    (forall l, (l < length (heap w))%nat -> heap w' !! l = heap w !! l) /\
    heap w' !! result = Some r /\
    (forall k v, d !! k = Some v -> k ∉ outcome_keys -> r !! k = Some v) /\
    (forall k, k ∈ outcome_keys -> is_Some (r !! k)) /\
    (forall k, is_Some (r !! k) -> is_Some (d !! k) \/ k ∈ outcome_keys).
Proof.
  intros Hd Hu.
  destruct (check_link_run s E w entry d u Hd Hu) as [out Hrun].
  pose proof (lookup_lt_Some _ _ _ Hd) as Hlt.
  eexists _, _, out, _. split; [exact Hrun|]. cbn [heap].
  split; [by rewrite lookup_app_l|].
  split; [lia|].
  split; [intros l Hl; by rewrite lookup_app_l|].
  split; [apply lookup_last|].
  split; [intros k v Hk Hout; by rewrite field_checked_other|].
  split.
  - intros k Hk. unfold outcome_keys in Hk. unfold checked.
    repeat (apply elem_of_cons in Hk as [->|Hk]; [by simplify_map_eq|]).
    by apply elem_of_nil in Hk.
  - intros k Hk. destruct (decide (k ∈ outcome_keys)) as [|Hout]; [by right|left].
    by rewrite field_checked_other in Hk.
Qed.

Lemma check_link_preserves_entry_witness :
  exists result w' out r,
    check_link_of sitewide env_ok 0%nat world_a = (Ok result, w', out) /\
    heap w' !! 0%nat = Some entry_a /\
    result <> 0%nat /\
    (forall l, (l < length (heap world_a))%nat -> heap w' !! l = heap world_a !! l) /\
    heap w' !! result = Some r /\
    (forall k v, entry_a !! k = Some v -> k ∉ outcome_keys -> r !! k = Some v) /\
    (forall k, k ∈ outcome_keys -> is_Some (r !! k)) /\
    (forall k, is_Some (r !! k) -> is_Some (entry_a !! k) \/ k ∈ outcome_keys).
Proof.
  eapply (check_link_preserves_entry sitewide env_ok world_a 0%nat entry_a
            "https://example.com/a"); vm_compute; reflexivity.
Defined.

(** ** The scenarios of the specification, evaluated *)

(** Scenario A: 200 with no redirect. *)
Example scenario_ok :
  outcome_of (Sitewide.check_link env_ok 0%nat world_a)
  = (Some (VStr "OK"), Some (VInt 200), Some (VStr "")).
Proof. vm_compute. reflexivity. Qed.

(** Scenario B: the link has moved. *)
Example scenario_redirect :
  outcome_of (Sitewide.check_link env_moved 0%nat world_a)
  = (Some (VStr "REDIRECT"), Some (VInt 200), Some (VStr "https://example.com/moved2")).
Proof. vm_compute. reflexivity. Qed.

(** Scenario C: HEAD is refused with 403, GET answers 200. *)
Example scenario_fallback :
  outcome_of (Sitewide.check_link env_head_forbidden 0%nat world_a)
  = (Some (VStr "OK"), Some (VInt 200), Some (VStr "")).
Proof. vm_compute. reflexivity. Qed.

(** Scenario D, when the server accepts the connection and does not answer. *)
Example scenario_read_timeout :
  outcome_of (Sitewide.check_link env_read_timeout 0%nat world_a)
  = (Some (VStr "TIMEOUT"), Some (VStr "Timeout"), Some (VStr "")).
Proof. vm_compute. reflexivity. Qed.

(** Scenario D, when the connection itself times out. *)
Example scenario_connect_timeout :
  outcome_of (Sitewide.check_link env_connect_timeout 0%nat world_a)
  = (Some (VStr "BROKEN"), Some (VStr "Connection Error"), Some (VStr "")).
Proof. vm_compute. reflexivity. Qed.

(** * The seed resolver *)

Lemma raise_for_status_ok r w :
  ~ (400 <= r_status_code r < 600) -> raise_for_status r w = (Ok tt, w, []).
Proof.
  intros Hr. unfold raise_for_status.
  destruct ((400 <=? r_status_code r) && (r_status_code r <? 500)) eqn:H4.
  { apply andb_true_iff in H4 as [?%Z.leb_le ?%Z.ltb_lt]. lia. }
  destruct ((500 <=? r_status_code r) && (r_status_code r <? 600)) eqn:H5.
  { apply andb_true_iff in H5 as [?%Z.leb_le ?%Z.ltb_lt]. lia. }
  reflexivity.
Qed.

(** C9 (evaluation at the failing input). The index is fetched with a
    status that [raise_for_status] accepts, but its body is not XML: the
    parse happens after the [try] block, so the exception of the parser
    leaves [parse_sitemap_index], and [crawl_site] with it. *)
Theorem parse_sitemap_index_malformed_index_raises E w (site : Sitewide.site_config) r e :
  send E (trace w)
    (Request GET (Sitewide.sitemap_url site) Sitewide.HEADERS Sitewide.TIMEOUT true false)
    = Ok r ->
  ~ (400 <= r_status_code r < 600) ->
  ET_fromstring E (r_text r) = Raise e ->
  (exists w' out,
     Sitewide.parse_sitemap_index E (Sitewide.sitemap_url site)
       (Sitewide.sitemap_filter site) w = (Raise e, w', out)) /\
  (exists w' out, Sitewide.crawl_site E site w = (Raise e, w', out)).
Proof.
  intros Hsend Hstatus Hparse. destruct w as [h tr]. simpl in Hsend.
  assert (Hindex : exists w' out,
     Sitewide.parse_sitemap_index E (Sitewide.sitemap_url site)
       (Sitewide.sitemap_filter site) (World h tr) = (Raise e, w', out)).
  { eexists _, _. unfold Sitewide.parse_sitemap_index, Sitewide.requests_get.
    eapply bind_run; [reflexivity|].
    eapply bind_run.
    { eapply try_ok. eapply bind_run; [eapply requests_request_run; exact Hsend|].
      eapply bind_run; [apply raise_for_status_ok, Hstatus|]. reflexivity. }
    cbv beta iota. eapply bind_raise. unfold lift. rewrite Hparse. reflexivity. }
  split; [exact Hindex|].
  destruct Hindex as (w' & out & Hindex).
  eexists _, _. unfold Sitewide.crawl_site.
  eapply bind_run; [reflexivity|].
  eapply bind_run; [reflexivity|].
  eapply bind_run; [reflexivity|].
  eapply bind_raise. exact Hindex.
Qed.

Lemma parse_sitemap_index_malformed_index_raises_witness :
  (exists w' out,
     Sitewide.parse_sitemap_index env_maintenance (Sitewide.sitemap_url site_eyehike)
       (Sitewide.sitemap_filter site_eyehike) (World [] [])
     = (Raise (Exn ParseError "syntax error: line 1, column 0"), w', out)) /\
  (exists w' out,
     Sitewide.crawl_site env_maintenance site_eyehike (World [] [])
     = (Raise (Exn ParseError "syntax error: line 1, column 0"), w', out)).
Proof.
  eapply (parse_sitemap_index_malformed_index_raises env_maintenance (World [] [])
            site_eyehike
            (Response 200 "OK" "https://www.eyehike.com/2016/sitemap_index.xml"
               "Down for maintenance")).
  - reflexivity.
  - simpl. lia.
  - reflexivity.
Defined.

(** * The link extractor *)

(** The fetch at the head of [extract_links_from_page] leaves the heap as
    it is. *)
Lemma wp_fetch E (rq : request) (line : exn -> string)
    (Q : result (option response) -> world -> Prop) w :
  (forall x tr, Q (Ok x) (World (heap w) tr)) ->
  wp (try_except
        (r <- requests_request E rq ;; raise_for_status r ;; ret (Some r))
        (fun e => print (line e) ;; ret None)) Q w.
Proof.
  intros H. apply wp_try, wp_bind, wp_requests_request.
  destruct (send E (trace w) rq) as [r|e].
  - apply wp_bind, wp_raise_for_status. intros [[]|e].
    + apply wp_ret, H.
    + apply wp_bind, wp_print, wp_ret, H.
  - apply wp_bind, wp_print, wp_ret, H.
Qed.

Lemma extract_links_from_page_spec E p skip w :
  wp (Sitewide.extract_links_from_page E p skip)
    (fun r w' => grows w w' /\
                 forall links, r = Ok links -> Forall (link_found_on w' p) links) w.
Proof.
  unfold Sitewide.extract_links_from_page, Sitewide.requests_get.
  apply wp_bind, wp_fetch. intros [r|] tr.
  2:{ apply wp_ret. split; [exists []; simpl; by rewrite app_nil_r|].
      intros links [= <-]. constructor. }
  apply wp_bind, wp_lift. destruct (BeautifulSoup E (r_text r)) as [soup|e].
  2:{ split; [exists []; simpl; by rewrite app_nil_r | intros ? [=]]. }
  apply wp_bind.
  eapply (wp_for_each
            (fun _ st w' => grows w w' /\ Forall (link_found_on w' p) st.1)
            (fun _ w' => grows w w')).
  - split; [exists []; simpl; by rewrite app_nil_r | constructor].
  - intros done tag rest [links seen] w1 _ [Hg Hlinks]. cbn [fst] in Hlinks.
    destruct (startswith (strip (tag_href tag)) "http") eqn:Hhttp; cbn [negb].
    2:{ by apply wp_ret. }
    apply wp_bind, wp_lift.
    destruct (urlparse_netloc E (strip (tag_href tag))) as [netloc|e]; [|exact Hg].
    case_bool_decide; [by apply wp_ret|].
    case_bool_decide; [by apply wp_ret|].
    apply wp_bind, wp_new_dict, wp_ret.
    pose proof (grows_alloc w1
      (<["url":=VStr (strip (tag_href tag))]>
         (<["label":=VStr (str_or (slice_to 80 (tag_text tag))
                            (slice_to 80 (strip (tag_href tag))))]>
            (<["page_url":=VStr p]>
               (<["page_title":=VStr match soup_title soup with
                                     | Some t => slice_to 80 t
                                     | None => p
                                     end]> ∅))))) as Hg1.
    split; [eapply grows_trans; eassumption|]. cbn [fst].
    apply Forall_app. split.
    + eapply Forall_impl; [exact Hlinks|]. intros l. by apply link_found_on_grows.
    + constructor; [|constructor].
      eexists _, _. cbn [heap]. split; [apply lookup_last|].
      split; [by simplify_map_eq|]. split; [exact Hhttp|]. by simplify_map_eq.
  - intros [links seen] w' [Hg Hlinks]. apply wp_ret. split; [exact Hg|].
    by intros ? [= <-].
  - intros e w' Hg. split; [exact Hg | intros ? [=]].
Qed.

Lemma scrape_links_spec E u w :
  wp (Webcam.scrape_links E u)
    (fun r w' => forall links, r = Ok links -> Forall (http_link w') links) w.
Proof.
  unfold Webcam.scrape_links, Webcam.requests_get.
  apply wp_bind, wp_print, wp_bind, wp_requests_request.
  destruct (send E (trace w) _) as [resp|e]; [|intros ? [=]].
  apply wp_bind, wp_raise_for_status. intros [[]|e]; [|intros ? [=]].
  apply wp_bind, wp_lift. destruct (BeautifulSoup E (r_text resp)) as [soup|e];
    [|intros ? [=]].
  apply wp_bind.
  eapply (wp_for_each (fun _ st w' => Forall (http_link w') st.1) (fun _ _ => True)).
  - constructor.
  - intros done tag rest [links seen] w1 _ Hlinks. cbn [fst] in Hlinks.
    destruct (startswith (strip (tag_href tag)) "http") eqn:Hhttp; cbn [negb].
    2:{ by apply wp_ret. }
    apply wp_bind, wp_lift.
    destruct (urlparse_netloc E (strip (tag_href tag))) as [netloc|e]; [|exact I].
    case_bool_decide; [by apply wp_ret|].
    case_bool_decide; [by apply wp_ret|].
    apply wp_bind, wp_new_dict, wp_ret. cbn [fst].
    apply Forall_app. split.
    + eapply Forall_impl; [exact Hlinks|]. intros l.
      apply http_link_grows. eexists [_]. reflexivity.
    + constructor; [|constructor].
      eexists _, _. cbn [heap]. split; [apply lookup_last|].
      split; [by simplify_map_eq|]. exact Hhttp.
  - intros [links seen] w' Hlinks. apply wp_bind, wp_print, wp_ret.
    by intros ? [= <-].
  - intros e w' _ ? [=].
Qed.

Lemma startswith_http_excludes href :
  startswith href "http" = true ->
  startswith href "#" = false /\
  startswith href "mailto:" = false /\
  startswith href "javascript:" = false.
Proof.
  unfold startswith. destruct href as [|a href]; [discriminate|].
  cbn [String.prefix]. intros H.
  destruct (ascii_dec "h" a) as [<-|]; [|discriminate H].
  repeat split; reflexivity.
Qed.

(** X29. What the guard of the extractors does ensure: the [url] of every
    link that the extractor of either script returns starts with "http"; in
    particular it is no anchor, no [mailto:] and no [javascript:] target. *)
Theorem extracted_urls_start_with_http E w links w' out :
  (exists page_url skip_domains,
     Sitewide.extract_links_from_page E page_url skip_domains w = (Ok links, w', out)) \/
  (exists u, Webcam.scrape_links E u w = (Ok links, w', out)) ->
  forall l, l ∈ links ->
    exists d href,
      heap w' !! l = Some d /\ d !! "url" = Some (VStr href) /\
      startswith href "http" = true /\
      startswith href "#" = false /\
      startswith href "mailto:" = false /\
      startswith href "javascript:" = false.
Proof.
  intros Hrun l Hl.
  assert (Hlink : http_link w' l).
  { destruct Hrun as [(p & skip & Hrun)|(u & Hrun)].
    - destruct (wp_run _ _ _ _ _ _ (extract_links_from_page_spec E p skip w) Hrun)
        as [_ Hall].
      eapply link_found_on_http. eapply Forall_forall in Hl; [exact Hl|]. by apply Hall.
    - pose proof (wp_run _ _ _ _ _ _ (scrape_links_spec E u w) Hrun) as Hall.
      eapply Forall_forall in Hl; [exact Hl|]. by apply Hall. }
  destruct Hlink as (d & href & Hd & Hu & Hh).
  exists d, href. split; [exact Hd|]. split; [exact Hu|]. split; [exact Hh|].
  by apply startswith_http_excludes.
Qed.

Lemma extracted_urls_start_with_http_witness :
  exists d href,
    heap (Sitewide.extract_links_from_page env_hikes
            "https://www.eyehike.com/2016/hikes/"
            {[ "www.eyehike.com"; "eyehike.com" ]} (World [] [])).1.2 !! 1%nat = Some d /\
    d !! "url" = Some (VStr href) /\
    startswith href "http" = true /\
    startswith href "#" = false /\
    startswith href "mailto:" = false /\
    startswith href "javascript:" = false.
Proof.
  eapply (extracted_urls_start_with_http env_hikes (World [] []) [0%nat; 1%nat]).
  - left. exists "https://www.eyehike.com/2016/hikes/", {[ "www.eyehike.com"; "eyehike.com" ]}.
    vm_compute. reflexivity.
  - right. left.
Defined.

(** A page links to the relative target "http-status-codes.html": it passes
    the test on the prefix "http" and is returned as a link, although it
    starts with neither "http://" nor "https://". *)
Example extract_relative_target_returned :
  exists links w' out l d,
    Sitewide.extract_links_from_page env_hikes "https://www.eyehike.com/2016/hikes/"
      {[ "www.eyehike.com"; "eyehike.com" ]} (World [] []) = (Ok links, w', out) /\
    l ∈ links /\
    heap w' !! l = Some d /\
    d !! "url" = Some (VStr "http-status-codes.html") /\
    startswith "http-status-codes.html" "http://" = false /\
    startswith "http-status-codes.html" "https://" = false.
Proof.
  eexists _, _, _, 0%nat, _. split; [vm_compute; reflexivity|].
  split; [set_solver|]. split; [reflexivity|]. split; [by vm_compute|].
  split; reflexivity.
Qed.

(** * The page crawler *)

(** The futures of a pool: every task runs; what holds of the outcome of
    each task of a list of admissible tasks, and survives the growth of the
    heap, holds of every future at the end. *)
Lemma run_tasks_spec {A B} (f : A -> M B)
    (V : A -> world -> Prop) (R : A -> result B -> world -> Prop) :
  (forall x w, V x w -> wp (f x) (fun r w' => grows w w' /\ R x r w') w) ->
  (forall x w w', grows w w' -> V x w -> V x w') ->
  (forall x r w w', grows w w' -> R x r w -> R x r w') ->
  forall xs w,
    Forall (fun x => V x w) xs ->
    wp (run_tasks f xs)
      (fun r w' => grows w w' /\
         exists futs, r = Ok futs /\ Forall2 (fun x fut => R x fut w') xs futs) w.
Proof.
  intros Hf HV HR. induction xs as [|x xs IH]; intros w Hxs.
  - apply wp_ret. split; [apply grows_refl|]. exists []. split; [done|constructor].
  - intros r w' out. cbn [run_tasks].
    destruct (f x w) as [[r1 w1] o1] eqn:Hx.
    destruct (run_tasks f xs w1) as [[rs w2] o2] eqn:Htasks.
    apply Forall_cons in Hxs as [Hvx Hvxs].
    destruct (Hf x w Hvx _ _ _ Hx) as [Hg1 HR1].
    assert (Hvxs1 : Forall (fun y => V y w1) xs).
    { eapply Forall_impl; [exact Hvxs|]. intros y. by apply HV. }
    destruct (IH w1 Hvxs1 _ _ _ Htasks) as (Hg2 & futs & -> & Hall).
    intros [= <- <- _]. split; [by eapply grows_trans|].
    exists (r1 :: futs). split; [done|]. constructor; [|exact Hall].
    by eapply HR.
Qed.

(** ** The merge, as a function on lists *)

Section Merge.
Context (key : loc -> value).

Lemma fold_merge_step ls : forall st,
  st.2 = list_to_set (key <$> st.1) ->
  NoDup (key <$> st.1) ->
  let st' := fold_left (merge_step key) ls st in
  st'.2 = list_to_set (key <$> st'.1) /\
  NoDup (key <$> st'.1) /\
  (forall l, l ∈ st.1 -> l ∈ st'.1) /\
  (forall l, l ∈ ls -> key l ∈ st'.2) /\
  (forall l, l ∈ st'.1 ->
     l ∈ st.1 \/
     exists pre post, ls = (pre ++ l :: post)%list /\ (key l ∉ st.2) /\
                      forall l', l' ∈ pre -> key l' <> key l).
Proof.
  induction ls as [|x ls IH]; intros st Hset Hnd; cbn [fold_left].
  - cbv zeta. split; [done|]. split; [done|]. split; [done|]. split.
    + intros l Hl. by apply elem_of_nil in Hl.
    + intros l Hl. by left.
  - destruct (decide (key x ∈ st.2)) as [Hseen|Hseen].
    + replace (merge_step key st x) with st
        by (unfold merge_step; by rewrite bool_decide_true).
      destruct (IH st Hset Hnd) as (Hset' & Hnd' & Hsub & Hall & Hfirst).
      cbv zeta. split; [exact Hset'|]. split; [exact Hnd'|]. split; [exact Hsub|].
      split.
      * intros l [->|Hl]%elem_of_cons; [|by apply Hall].
        rewrite Hset in Hseen. rewrite Hset'.
        apply elem_of_list_to_set, list_elem_of_fmap in Hseen as (l0 & Hk & Hl0).
        apply elem_of_list_to_set, list_elem_of_fmap. exists l0. split; [done|].
        by apply Hsub.
      * intros l Hl. destruct (Hfirst l Hl) as [?|(pre & post & -> & Hnew & Hpre)];
          [by left|right].
        exists (x :: pre), post. repeat split; try done.
        intros l' [->|Hl']%elem_of_cons; [congruence|by apply Hpre].
    + replace (merge_step key st x) with ((st.1 ++ [x])%list, st.2 ∪ {[ key x ]})
        by (unfold merge_step; by rewrite bool_decide_false).
      assert (Hkx : key x ∉ key <$> st.1).
      { intros Hin. apply Hseen. rewrite Hset. by apply elem_of_list_to_set. }
      destruct (IH ((st.1 ++ [x])%list, st.2 ∪ {[ key x ]})) as
        (Hset' & Hnd' & Hsub & Hall & Hfirst); cbn [fst snd].
      { rewrite fmap_app, list_to_set_app_L, <- Hset. f_equal. cbn.
        by rewrite (right_id_L ∅ (∪)). }
      { rewrite fmap_app. apply NoDup_app. repeat split; [done| |apply NoDup_singleton].
        intros k Hk [->|[]%elem_of_nil]%elem_of_cons. done. }
      cbv zeta. cbn [fst snd] in *.
      split; [exact Hset'|]. split; [exact Hnd'|]. split; [|split].
      * intros l Hl. apply Hsub, elem_of_app. by left.
      * intros l [->|Hl]%elem_of_cons; [|by apply Hall].
        rewrite Hset'. apply elem_of_list_to_set, list_elem_of_fmap.
        exists x. split; [done|]. apply Hsub, elem_of_app. right. by left.
      * intros l Hl.
        destruct (Hfirst l Hl) as [[?|Hx]%elem_of_app|(pre & post & -> & Hnew & Hpre)].
        -- by left.
        -- apply list_elem_of_singleton in Hx as ->. right.
           exists [], ls. repeat split; try done. intros l' []%elem_of_nil.
        -- right. exists (x :: pre), post. split; [done|]. split.
           ++ intros Hin. apply Hnew, elem_of_union. by left.
           ++ intros l' [->|Hl']%elem_of_cons; [|by apply Hpre].
              intros Heq. apply Hnew, elem_of_union. right.
              by apply elem_of_singleton.
Qed.

Lemma merge_links_spec ls :
  NoDup (key <$> (merge_links key ls).1) /\
  (forall l, l ∈ ls -> exists l', l' ∈ (merge_links key ls).1 /\ key l' = key l) /\
  (forall l, l ∈ (merge_links key ls).1 ->
     exists pre post, ls = (pre ++ l :: post)%list /\
                      forall l', l' ∈ pre -> key l' <> key l).
Proof.
  destruct (fold_merge_step ls ([], ∅)) as (Hset & Hnd & _ & Hall & Hfirst);
    [done | constructor |].
  fold (merge_links key ls) in *. cbn [fst snd] in *.
  split; [exact Hnd|]. split.
  - intros l Hl. specialize (Hall l Hl). rewrite Hset in Hall.
    apply elem_of_list_to_set, list_elem_of_fmap in Hall as (l' & Hk & Hl'). eauto.
  - intros l Hl. destruct (Hfirst l Hl) as [[]%elem_of_nil|(pre & post & ? & _ & ?)].
    eauto.
Qed.
End Merge.

Lemma elem_of_concat {A} (x : A) (ls : list (list A)) :
  x ∈ concat ls <-> exists l, l ∈ ls /\ x ∈ l.
Proof.
  induction ls as [|l0 ls IH]; cbn [concat].
  - split; [by intros ?%elem_of_nil | by intros (l & ?%elem_of_nil & _)].
  - rewrite elem_of_app, IH. split.
    + intros [Hx|(l & Hl & Hx)]; [exists l0|exists l]; split; try done; by constructor.
    + intros (l & [->|Hl]%elem_of_cons & Hx); [by left|right; eauto].
Qed.

(** An occurrence in a concatenation lies in one of the lists, after all
    the elements of the lists before it. *)
Lemma concat_split {A} (pages : list (list A)) : forall pre x post,
  concat pages = (pre ++ x :: post)%list ->
  exists i pg,
    pages !! i = Some pg /\ x ∈ pg /\
    forall j pg' y, (j < i)%nat -> pages !! j = Some pg' -> y ∈ pg' -> y ∈ pre.
Proof.
  induction pages as [|pg0 pages IH]; intros pre x post Hcat; cbn [concat] in Hcat.
  - by destruct pre.
  - apply app_eq_inv in Hcat as [(k & Hpg0 & Hk)|(k & Hpre & Hrest)].
    + destruct k as [|y k].
      * rewrite app_nil_r in Hpg0. subst pg0. cbn in Hk.
        destruct (IH [] x post) as (i & pg & Hi & Hx & Hbefore); [done|].
        exists (S i), pg. split; [done|]. split; [done|].
        intros [|j] pg' y Hj Hpg' Hy; cbn in Hpg'.
        -- by injection Hpg' as <-.
        -- exfalso. eapply elem_of_nil, (Hbefore j pg' y); [lia|done..].
      * injection Hk as <- _. exists 0%nat, pg0. split; [done|].
        split; [subst pg0; set_solver|]. intros j ? ? Hj. lia.
    + destruct (IH k x post Hrest) as (i & pg & Hi & Hx & Hbefore).
      exists (S i), pg. split; [done|]. split; [done|].
      intros [|j] pg' y Hj Hpg' Hy; cbn in Hpg'; subst pre.
      * injection Hpg' as <-. set_solver.
      * apply elem_of_app. right. eapply (Hbefore j); [lia|done..].
Qed.

(** ** The merge loop of [crawl_site] *)

Lemma field_Some w l k v :
  field w l k = Some v -> exists d, heap w !! l = Some d /\ d !! k = Some v.
Proof.
  unfold field. destruct (heap w !! l) as [d|]; [|discriminate]. cbn. eauto.
Qed.

Lemma link_found_on_fields w p l :
  link_found_on w p l ->
  (exists href, field w l "url" = Some (VStr href)) /\
  field w l "page_url" = Some (VStr p).
Proof.
  intros (d & href & Hd & Hu & _ & Hp). unfold field. rewrite Hd. cbn. eauto.
Qed.

(** One link of one page: its URL is read; the link is kept, and marked with
    the site, exactly when the URL was not seen before. *)
Lemma merge_body_spec w0 site_name processed all_links (seen : gset value) w link v :
  merged w0 site_name processed (all_links, seen) w ->
  field w0 link "url" = Some v ->
  wp (u <- getitem link "url" ;;
      if bool_decide (u ∈ seen) then ret (all_links, seen)
      else setitem link "site" (VStr site_name) ;;
           ret ((all_links ++ [link])%list, seen ∪ {[ u ]}))
    (fun r w' => match r with
                 | Ok st' => merged w0 site_name (processed ++ [link]) st' w'
                 | Raise _ => False
                 end) w.
Proof.
  intros (Hst & Htr & Hlen & Hsame & Hsite) Hv.
  assert (Hcur : field w link "url" = Some v) by (by rewrite Hsame).
  destruct (field_Some _ _ _ _ Hcur) as (d & Hd & Hdv).
  assert (Hkey : url_key w0 link = v) by (unfold url_key; by rewrite Hv).
  assert (Hlt : (link < length (heap w))%nat) by (eapply lookup_lt_Some; eauto).
  apply wp_bind. eapply wp_getitem; [exact Hd | exact Hdv |].
  case_bool_decide as Hseen.
  - apply wp_ret. unfold merged. rewrite fold_left_app. cbn [fold_left].
    rewrite <- Hst. unfold merge_step. rewrite Hkey. cbn [snd].
    rewrite bool_decide_true by done. done.
  - apply wp_bind. eapply wp_setitem; [exact Hd|]. apply wp_ret.
    unfold merged. cbn [heap trace fst snd].
    split.
    { rewrite fold_left_app. cbn [fold_left]. rewrite <- Hst.
      unfold merge_step. rewrite Hkey. cbn [fst snd].
      by rewrite bool_decide_false. }
    split; [done|]. split; [by rewrite length_insert|]. split.
    + intros l k Hk. unfold field at 1. cbn [heap].
      destruct (decide (l = link)) as [->|Hne].
      * rewrite list_lookup_insert_eq by done. cbn.
        rewrite lookup_insert_ne by done. rewrite <- Hsame by done.
        unfold field. by rewrite Hd.
      * rewrite list_lookup_insert_ne by done. by apply Hsame.
    + intros l Hl. unfold field. cbn [heap].
      destruct (decide (l = link)) as [->|Hne].
      * rewrite list_lookup_insert_eq by done. cbn. by rewrite lookup_insert_eq.
      * rewrite list_lookup_insert_ne by done. apply Hsite.
        apply elem_of_app in Hl as [Hl|Hl]; [done|].
        by apply list_elem_of_singleton in Hl.
Qed.

Lemma future_links_zip (pages : list (list loc)) : forall k,
  (fun x : nat * result (list loc) => future_links x.2)
    <$> zip (seq k (length (Ok <$> pages))) (Ok <$> pages) = pages.
Proof.
  induction pages as [|pg pages IH]; intros k; [done|].
  cbn. f_equal. apply IH.
Qed.

(** The whole loop: from the world [w0] in which the pages were fetched to
    the merge of all their links. *)
Lemma crawl_merge_spec w0 site_name n (pages : list (list loc)) :
  (forall pg l, pg ∈ pages -> l ∈ pg -> exists v, field w0 l "url" = Some v) ->
  wp (for_each (zip (seq 1 (length (Ok <$> pages))) (Ok <$> pages)) ([], ∅)
        (fun '(all_links, seen_urls) '(i, future) =>
           page_links <- future_result future ;;
           st <-
             for_each page_links (all_links, seen_urls)
               (fun '(all_links, seen_urls) link =>
                  u <- getitem link "url" ;;
                  if bool_decide (u ∈ (seen_urls : gset value))
                  then ret (all_links, seen_urls)
                  else
                    setitem link "site" (VStr site_name) ;;
                    ret ((all_links ++ [link])%list, seen_urls ∪ {[ u ]})) ;;
           (if bool_decide (i `mod` 10 = 0)%nat || bool_decide (i = n)
            then print ("  [crawl] " ++ pretty i ++ "/" ++ pretty n
                        ++ " pages done, " ++ pretty (length st.1)
                        ++ " unique links so far")
            else ret tt) ;;
           ret st))
    (fun r w' => match r with
                 | Ok st => merged w0 site_name (concat pages) st w'
                 | Raise _ => False
                 end) w0.
Proof.
  intros Hvalid.
  eapply (wp_for_each
            (fun done st w' =>
               merged w0 site_name
                 (concat ((fun x : nat * result (list loc) => future_links x.2) <$> done))
                 st w')
            (fun _ _ => False)).
  - unfold merged. cbn. split_and!; try done. by intros l ?%elem_of_nil.
  - intros done [i future] rest [all_links seen] w Hxs Hinv.
    assert (Hfut : future ∈ Ok <$> pages).
    { eapply (elem_of_zip_r i). rewrite Hxs. apply elem_of_app. right. by left. }
    apply list_elem_of_fmap in Hfut as (pg & -> & Hpg).
    apply wp_bind, wp_lift, wp_bind.
    eapply (wp_for_each
              (fun done' st w' =>
                 merged w0 site_name
                   (concat ((fun x : nat * result (list loc) => future_links x.2) <$> done)
                    ++ done') st w')
              (fun _ _ => False)).
    + by rewrite app_nil_r.
    + intros done' link rest' [all_links' seen'] w' Hpg' Hinv'.
      destruct (Hvalid pg link Hpg) as [v Hv].
      { rewrite Hpg'. apply elem_of_app. right. by left. }
      rewrite app_assoc. by eapply merge_body_spec.
    + intros st w' Hinv'. apply wp_bind.
      assert (Hdone : merged w0 site_name
                (concat ((fun x : nat * result (list loc) => future_links x.2)
                           <$> (done ++ [(i, Ok pg)])%list))
                st w').
      { rewrite fmap_app, concat_app. cbn. by rewrite app_nil_r. }
      destruct (bool_decide (i `mod` 10 = 0)%nat || bool_decide (i = n));
        [apply wp_print|apply wp_ret]; by apply wp_ret.
    + by intros e w' [].
  - intros st w' Hinv. by rewrite future_links_zip in Hinv.
  - by intros e w' [].
Qed.

(** C7. In the links that [crawl_site] returns no URL occurs twice, and
    every URL found on some page is there once. The link kept for a URL is
    the one of the first page, in the order in which the page fetches
    completed, that has the URL: it carries the URL of that page, all its
    fields are as the extractor set them on that page, and only the site
    name is added. *)
Theorem crawl_site_first_page_wins E (site : Sitewide.site_config) w
    page_urls w1 out1 pages w2 out2 :
  Sitewide.parse_sitemap_index E (Sitewide.sitemap_url site)
    (Sitewide.sitemap_filter site) w = (Ok page_urls, w1, out1) ->
  page_urls <> [] ->
  pool_as_completed E
    (fun u => Sitewide.extract_links_from_page E u (Sitewide.skip_domains site))
    page_urls w1 = (Ok (Ok <$> pages), w2, out2) ->
  exists all_links w3 out,
    Sitewide.crawl_site E site w = (Ok all_links, w3, out) /\
    NoDup ((fun l => field w3 l "url") <$> all_links) /\
    (forall l, l ∈ concat pages ->
       exists l', l' ∈ all_links /\ field w3 l' "url" = field w3 l "url") /\
    (forall l, l ∈ all_links ->
       exists i p pg,
         as_completed E string page_urls !! i = Some p /\
         pages !! i = Some pg /\
         l ∈ pg /\
         field w3 l "page_url" = Some (VStr p) /\
         field w3 l "site" = Some (VStr (Sitewide.name site)) /\
         (forall k, k <> "site" -> field w3 l k = field w2 l k) /\
         (forall j pg' l', (j < i)%nat -> pages !! j = Some pg' -> l' ∈ pg' ->
            field w3 l' "url" <> field w3 l "url")).
Proof.
  intros Hindex Hne Hpool.
  assert (Hextract : forall u w0, True ->
            wp (Sitewide.extract_links_from_page E u (Sitewide.skip_domains site))
              (fun r w' => grows w0 w' /\
                 forall pg, r = Ok pg -> Forall (link_found_on w' u) pg) w0).
  { intros u w0 _. apply extract_links_from_page_spec. }
  assert (Hmono : forall (p : string) (fut : result (list loc)) w0 w0',
            grows w0 w0' ->
            (forall pg, fut = Ok pg -> Forall (link_found_on w0 p) pg) ->
            forall pg, fut = Ok pg -> Forall (link_found_on w0' p) pg).
  { intros p fut w0 w0' Hg Hall pg Hpg. eapply Forall_impl; [by apply Hall|].
    intros l. by apply link_found_on_grows. }
  (* what the pool returned *)
  assert (Hfound : Forall2 (fun p fut => forall pg, fut = Ok pg ->
                              Forall (link_found_on w2 p) pg)
                     (as_completed E string page_urls) (Ok <$> pages)).
  { unfold pool_as_completed in Hpool.
    edestruct (wp_run _ _ _ _ _ _
                 (run_tasks_spec
                    (fun u => Sitewide.extract_links_from_page E u
                                (Sitewide.skip_domains site))
                    (fun _ _ => True)
                    (fun p fut w' => forall pg, fut = Ok pg ->
                                       Forall (link_found_on w' p) pg)
                    Hextract (fun _ _ _ _ _ => I) Hmono
                    (as_completed E string page_urls) w1
                    (proj2 (Forall_forall _ _) (fun _ _ => I))) Hpool)
      as (_ & futs & Heq & Hall).
    injection Heq as <-. exact Hall. }
  assert (Hpage : forall i pg, pages !! i = Some pg ->
            exists p, as_completed E string page_urls !! i = Some p /\
                      Forall (link_found_on w2 p) pg).
  { intros i pg Hi.
    assert (Hfut : (Ok <$> pages) !! i = Some (Ok pg)) by (by rewrite list_lookup_fmap, Hi).
    destruct (Forall2_lookup_r _ _ _ _ _ Hfound Hfut) as (p & Hp & Hall). eauto. }
  assert (Hlink : forall l, l ∈ concat pages ->
            exists href, field w2 l "url" = Some (VStr href)).
  { intros l (pg & Hpg & Hl)%elem_of_concat.
    apply list_elem_of_lookup in Hpg as [i Hi].
    destruct (Hpage i pg Hi) as (p & _ & Hall).
    eapply Forall_forall in Hall; [|exact Hl].
    by destruct (link_found_on_fields _ _ _ Hall) as [? _]. }
  (* the run *)
  assert (Hrun : wp (Sitewide.crawl_site E site)
            (fun r w3 => exists st, r = Ok st.1 /\
               merged w2 (Sitewide.name site) (concat pages) st w3) w).
  { unfold Sitewide.crawl_site.
    apply wp_bind, wp_print, wp_bind, wp_print, wp_bind, wp_print, wp_bind.
    eapply wp_exact; [exact Hindex|]. cbv beta iota.
    destruct page_urls as [|p0 ps]; [done|].
    apply wp_bind, wp_print, wp_bind.
    eapply wp_exact; [exact Hpool|]. cbv beta iota.
    apply wp_bind.
    eapply wp_conseq.
    { apply (crawl_merge_spec w2 (Sitewide.name site) (length (p0 :: ps)) pages).
      intros pg l Hpg Hl. destruct (Hlink l) as [href Hhref]; [|by eauto].
      apply elem_of_concat. eauto. }
    intros [st|e] w3 Hst; [|done].
    apply wp_bind, wp_print, wp_ret. eauto. }
  destruct (wp_total _ _ _ Hrun) as (r & w3 & out & Hcrawl & st & -> & Hmerged).
  destruct Hmerged as (Hst & _ & _ & Hsame & Hsite).
  fold (merge_links (url_key w2) (concat pages)) in Hst.
  destruct (merge_links_spec (url_key w2) (concat pages)) as (Hnd & Hall & Hfirst).
  rewrite <- Hst in Hnd, Hall, Hfirst.
  assert (Hurl : forall l, l ∈ concat pages ->
            field w3 l "url" = Some (url_key w2 l)).
  { intros l Hl. destruct (Hlink l Hl) as [href Hhref].
    rewrite Hsame by done. unfold url_key. by rewrite Hhref. }
  assert (Hkept : forall l, l ∈ st.1 -> l ∈ concat pages).
  { intros l Hl. destruct (Hfirst l Hl) as (pre & post & -> & _).
    apply elem_of_app. right. by left. }
  exists st.1, w3, out. split; [exact Hcrawl|]. split; [|split].
  - replace ((fun l => field w3 l "url") <$> st.1)
      with (Some <$> (url_key w2 <$> st.1)).
    { apply (NoDup_fmap_2 Some), Hnd. }
    rewrite <- list_fmap_compose. apply list_fmap_ext.
    intros i l Hl%list_elem_of_lookup_2. cbn. symmetry. by apply Hurl, Hkept.
  - intros l Hl. destruct (Hall l Hl) as (l' & Hl' & Hkey).
    exists l'. split; [done|]. rewrite !Hurl by auto. by rewrite Hkey.
  - intros l Hl. destruct (Hfirst l Hl) as (pre & post & Hcat & Hpre).
    destruct (concat_split pages pre l post Hcat) as (i & pg & Hi & Hlpg & Hbefore).
    destruct (Hpage i pg Hi) as (p & Hp & Hfoundp).
    eapply Forall_forall in Hfoundp; [|exact Hlpg].
    destruct (link_found_on_fields _ _ _ Hfoundp) as [_ Hpurl].
    exists i, p, pg. split; [done|]. split; [done|]. split; [done|].
    split; [by rewrite Hsame|]. split; [by apply Hsite|]. split; [by intros; apply Hsame|].
    intros j pg' l' Hj Hpg' Hl'.
    assert (Hin' : l' ∈ concat pages).
    { apply elem_of_concat. exists pg'. split; [|done].
      by eapply list_elem_of_lookup_2. }
    rewrite !Hurl by auto. intros [= Heq].
    eapply Hpre; [|exact Heq]. by eapply Hbefore.
Qed.

Lemma crawl_site_first_page_wins_witness :
  exists all_links w3 out,
    Sitewide.crawl_site env_two_pages site_eyehike (World [] []) = (Ok all_links, w3, out) /\
    NoDup ((fun l => field w3 l "url") <$> all_links) /\
    (forall l, l ∈ concat [[0%nat; 1%nat]; [2%nat]] ->
       exists l', l' ∈ all_links /\ field w3 l' "url" = field w3 l "url") /\
    (forall l, l ∈ all_links ->
       exists i p pg,
         as_completed env_two_pages string [url_hike_one; url_hike_two] !! i = Some p /\
         [[0%nat; 1%nat]; [2%nat]] !! i = Some pg /\
         l ∈ pg /\
         field w3 l "page_url" = Some (VStr p) /\
         field w3 l "site" = Some (VStr (Sitewide.name site_eyehike)) /\
         (forall k, k <> "site" -> field w3 l k = field two_pages_pool.1.2 l k) /\
         (forall j pg' l', (j < i)%nat -> [[0%nat; 1%nat]; [2%nat]] !! j = Some pg' ->
            l' ∈ pg' -> field w3 l' "url" <> field w3 l "url")).
Proof.
  eapply (crawl_site_first_page_wins env_two_pages site_eyehike (World [] [])
            [url_hike_one; url_hike_two] two_pages_index.1.2 two_pages_index.2
            [[0%nat; 1%nat]; [2%nat]] two_pages_pool.1.2 two_pages_pool.2).
  - vm_compute. reflexivity.
  - discriminate.
  - vm_compute. reflexivity.
Defined.

(** * Sorting *)

Lemma before_cons {A} (x : A) l a b :
  before (x :: l) a b <-> (a = x /\ b ∈ l) \/ before l a b.
Proof.
  unfold before. split.
  - intros ([|y l1] & l2 & l3 & H); cbn in H; injection H as -> ->.
    + left. split; [done|]. apply elem_of_app. right. by left.
    + right. eauto.
  - intros [[-> Hb]|(l1 & l2 & l3 & ->)].
    + apply list_elem_of_split in Hb as (l2 & l3 & ->). by exists [], l2, l3.
    + by exists (x :: l1), l2, l3.
Qed.

Lemma before_nil {A} (a b : A) : ~ before [] a b.
Proof. intros ([|? ?] & ? & ? & H); discriminate H. Qed.

Lemma before_elem_of {A} (l : list A) a b : before l a b -> a ∈ l /\ b ∈ l.
Proof.
  intros (l1 & l2 & l3 & ->). split.
  - apply elem_of_app. right. by left.
  - apply elem_of_app. right. right. apply elem_of_app. right. by left.
Qed.

Lemma StronglySorted_before {A} (R : A -> A -> Prop) l a b :
  StronglySorted R l -> before l a b -> R a b.
Proof.
  induction 1 as [|x l Hl IH Hx]; intros Hab.
  - by apply before_nil in Hab.
  - apply before_cons in Hab as [[-> Hb]|Hab]; [|by apply IH].
    by eapply Forall_forall in Hx.
Qed.

Section StableSort.
Context {A K : Type} (lt : K -> K -> bool) (key : A -> K).
Hypothesis lt_asym : forall x y, lt x y = true -> lt y x = false.
Hypothesis le_trans : forall x y z, lt y x = false -> lt z y = false -> lt z x = false.

(** [a] does not come after [b] in the order of the keys. *)
Let le (a b : A) : Prop := lt (key b) (key a) = false.

Lemma insert_sorted_perm x l : insert_sorted lt key x l ≡ₚ x :: l.
Proof.
  induction l as [|y l IH]; cbn; [done|].
  destruct (lt (key y) (key x)); [|done].
  rewrite IH. apply Permutation_swap.
Qed.

Lemma stable_sort_perm l : stable_sort lt key l ≡ₚ l.
Proof.
  induction l as [|x l IH]; cbn; [done|].
  by rewrite insert_sorted_perm, IH.
Qed.

Lemma insert_sorted_sorted x l :
  StronglySorted le l -> StronglySorted le (insert_sorted lt key x l).
Proof.
  induction 1 as [|y l Hl IH Hy]; cbn.
  - repeat constructor.
  - destruct (lt (key y) (key x)) eqn:Hyx.
    + constructor; [exact IH|].
      rewrite insert_sorted_perm. constructor; [|exact Hy].
      by apply lt_asym.
    + constructor; [by constructor|].
      constructor; [exact Hyx|].
      eapply Forall_impl; [exact Hy|]. intros z Hz. by eapply le_trans.
Qed.

Lemma stable_sort_sorted l : StronglySorted le (stable_sort lt key l).
Proof.
  induction l as [|x l IH]; cbn; [constructor|]. by apply insert_sorted_sorted.
Qed.

(** Where two elements of the list after an insertion come from. *)
Lemma before_insert_sorted x l a b :
  before (insert_sorted lt key x l) a b ->
  (a = x /\ b ∈ l) \/ before l a b \/ (b = x /\ a ∈ l /\ lt (key a) (key x) = true).
Proof.
  induction l as [|y l IH]; cbn.
  - intros [[_ []%elem_of_nil]|[]%before_nil]%before_cons.
  - destruct (lt (key y) (key x)) eqn:Hyx.
    + intros [[-> Hb]|Hab]%before_cons.
      * rewrite insert_sorted_perm in Hb. apply elem_of_cons in Hb as [->|Hb].
        -- right. right. split; [done|]. split; [by left|done].
        -- right. left. apply before_cons. by left.
      * destruct (IH Hab) as [[-> Hb]|[Hab'|(-> & Ha & Hlt)]].
        -- left. split; [done|]. by right.
        -- right. left. apply before_cons. by right.
        -- right. right. split; [done|]. split; [by right|done].
    + intros [[-> Hb]|Hab]%before_cons; [by left|by right; left].
Qed.

(** The sort is sorted, ... *)
Lemma stable_sort_before_le l a b :
  before (stable_sort lt key l) a b -> lt (key b) (key a) = false.
Proof. apply (StronglySorted_before le), stable_sort_sorted. Qed.

(** ... and stable: elements that the order does not separate keep their
    places relative to each other. *)
Lemma stable_sort_stable l a b :
  before (stable_sort lt key l) a b ->
  lt (key a) (key b) = false ->
  before l a b.
Proof.
  revert a b. induction l as [|x l IH]; intros a b; cbn.
  - by intros []%before_nil.
  - intros Hab Hle.
    destruct (before_insert_sorted _ _ _ _ Hab) as [[-> Hb]|[Hab'|(-> & Ha & Hlt)]].
    + apply before_cons. left. split; [done|]. by rewrite <- stable_sort_perm.
    + apply before_cons. right. by apply IH.
    + congruence.
Qed.

Lemma stable_sort_decorated l :
  stable_sort lt fst ((fun a => (key a, a)) <$> l)
  = (fun a => (key a, a)) <$> stable_sort lt key l.
Proof.
  induction l as [|x l IH]; cbn; [done|]. rewrite IH.
  generalize (stable_sort lt key l). intros s.
  induction s as [|y s IHs]; cbn; [done|].
  destruct (lt (key y) (key x)); cbn; [by rewrite IHs|done].
Qed.
End StableSort.

(** ** The order of the keys *)

Lemma ascii_compare_lt_trans a b c :
  Ascii.compare a b = Lt -> Ascii.compare b c = Lt -> Ascii.compare a c = Lt.
Proof.
  unfold Ascii.compare. rewrite !N.compare_lt_iff. apply N.lt_trans.
Qed.

Lemma string_compare_le_trans a : forall b c,
  String.compare a b <> Gt -> String.compare b c <> Gt -> String.compare a c <> Gt.
Proof.
  induction a as [|x a IH]; intros [|y b] [|z c]; cbn; try done.
  destruct (Ascii.compare x y) eqn:Hxy; [| |done].
  - apply Ascii.compare_eq_iff in Hxy as ->.
    destruct (Ascii.compare y z) eqn:Hyz; [apply IH|done|done].
  - destruct (Ascii.compare y z) eqn:Hyz; [| |done].
    + apply Ascii.compare_eq_iff in Hyz as ->. by rewrite Hxy.
    + by rewrite (ascii_compare_lt_trans _ _ _ Hxy Hyz).
Qed.

Lemma string_ltb_false a b : String.ltb a b = false <-> String.compare b a <> Gt.
Proof.
  unfold String.ltb. rewrite (String.compare_antisym b a).
  destruct (String.compare a b); cbn; split; done.
Qed.

Lemma string_ltb_false_leb a b : String.ltb b a = false <-> String.leb a b = true.
Proof.
  rewrite string_ltb_false. unfold String.leb.
  destruct (String.compare a b); split; done.
Qed.

Lemma string_compare_refl a : String.compare a a = Eq.
Proof.
  induction a as [|x a IH]; cbn; [done|].
  unfold Ascii.compare. by rewrite N.compare_refl.
Qed.

Lemma string_ltb_irrefl a : String.ltb a a = false.
Proof. unfold String.ltb. by rewrite string_compare_refl. Qed.

Lemma string_ltb_asym a b : String.ltb a b = true -> String.ltb b a = false.
Proof.
  unfold String.ltb. rewrite (String.compare_antisym b a).
  destruct (String.compare a b); cbn; done.
Qed.

Lemma string_ltb_eqb a b : String.ltb a b = true -> String.eqb a b = false.
Proof.
  intros Hlt. apply String.eqb_neq. intros ->. by rewrite string_ltb_irrefl in Hlt.
Qed.

Lemma key_lt_false a b :
  key_lt b a = false <->
  String.leb a.1 b.1 = true /\ (a.1 = b.1 -> a.2 <= b.2).
Proof.
  unfold key_lt. rewrite orb_false_iff, andb_false_iff, string_ltb_false_leb.
  rewrite String.eqb_neq, Z.ltb_ge. split.
  - intros [Hle [Hne|Hz]]; (split; [exact Hle|]); [intros Heq; congruence|done].
  - intros [Hle Hz]. split; [done|].
    destruct (decide (b.1 = a.1)) as [Heq|Hne]; [right; by apply Hz|by left].
Qed.

Lemma key_lt_asym a b : key_lt a b = true -> key_lt b a = false.
Proof.
  unfold key_lt. intros [Hlt|[Heq Hz]%andb_true_iff]%orb_true_iff.
  - rewrite (string_ltb_asym _ _ Hlt). rewrite String.eqb_sym.
    by rewrite (string_ltb_eqb _ _ Hlt).
  - apply String.eqb_eq in Heq. rewrite Heq, string_ltb_irrefl, String.eqb_refl. cbn.
    apply Z.ltb_lt in Hz. apply Z.ltb_ge. lia.
Qed.

Lemma key_le_trans a b c :
  key_lt b a = false -> key_lt c b = false -> key_lt c a = false.
Proof.
  rewrite !key_lt_false. intros [Hab Hzab] [Hbc Hzbc].
  assert (Hac : String.leb a.1 c.1 = true).
  { apply string_ltb_false_leb, string_ltb_false.
    apply string_ltb_false_leb, string_ltb_false in Hab, Hbc.
    by eapply string_compare_le_trans. }
  split; [exact Hac|]. intros Heq.
  assert (a.1 = b.1).
  { apply String.leb_antisym; [done|]. by rewrite Heq. }
  assert (b.1 = c.1) by congruence.
  specialize (Hzab ltac:(done)). specialize (Hzbc ltac:(done)). lia.
Qed.

Lemma before_or {A} (l : list A) a b :
  a ∈ l -> b ∈ l -> a <> b -> before l a b \/ before l b a.
Proof.
  induction l as [|x l IH]; [by intros ?%elem_of_nil|].
  intros [->|Ha]%elem_of_cons [->|Hb]%elem_of_cons Hne; try done.
  - left. apply before_cons. by left.
  - right. apply before_cons. by left.
  - destruct (IH Ha Hb Hne); [left|right]; apply before_cons; by right.
Qed.

(** ** Uniqueness of the result of a stable sort *)

Lemma before_NoDup_ne {A} (l : list A) a b : NoDup l -> before l a b -> a <> b.
Proof.
  intros Hnd (l1 & l2 & l3 & ->) <-.
  apply NoDup_app in Hnd as (_ & _ & Hnd). apply NoDup_cons in Hnd as [Hnot _].
  apply Hnot, elem_of_app. right. by left.
Qed.

Lemma before_NoDup_asym {A} (l : list A) a b :
  NoDup l -> before l a b -> ~ before l b a.
Proof.
  induction l as [|x l IH]; intros Hnd Hab Hba; [by apply before_nil in Hab|].
  apply NoDup_cons in Hnd as [Hx Hnd].
  apply before_cons in Hab as [[-> Hb]|Hab], Hba as [[-> Ha]|Hba]; try done.
  - by destruct (before_elem_of _ _ _ Hba) as [_ ?].
  - by destruct (before_elem_of _ _ _ Hab) as [_ ?].
  - by eapply IH.
Qed.

(** Two arrangements of the same distinct elements in which the elements
    follow each other the same way are equal. *)
Lemma before_eq {A} (l1 : list A) : forall l2,
  NoDup l1 -> l1 ≡ₚ l2 ->
  (forall a b, before l1 a b -> before l2 a b) ->
  l1 = l2.
Proof.
  induction l1 as [|x t IH]; intros l2 Hnd Hperm Hbefore.
  - by apply Permutation_nil_l in Hperm.
  - assert (Hnd2 : NoDup l2) by (by rewrite <- Hperm).
    apply NoDup_cons in Hnd as [Hx Hnd].
    destruct l2 as [|y q]; [by apply Permutation_nil_r in Hperm|].
    assert (Hxy : x = y).
    { assert (Hy : y ∈ x :: t) by (rewrite Hperm; by left).
      apply elem_of_cons in Hy as [->|Hy]; [done|].
      assert (Hxq : before (y :: q) x y).
      { apply Hbefore, before_cons. by left. }
      apply before_cons in Hxq as [[-> _]|Hxq]; [done|exfalso].
      apply NoDup_cons in Hnd2 as [Hyq _].
      by destruct (before_elem_of _ _ _ Hxq) as [_ ?]. }
    subst y. f_equal. apply IH; [done|by eapply Permutation_cons_inv|].
    intros a b Hab.
    assert (Hab2 : before (x :: q) a b) by (apply Hbefore, before_cons; by right).
    apply before_cons in Hab2 as [[-> _]|Hab2]; [|done].
    by destruct (before_elem_of _ _ _ Hab) as [? _].
Qed.

(** Any arrangement of distinct elements that is sorted by the keys and
    keeps the order of the elements that the keys do not separate is the one
    that [stable_sort] computes: the model does not depend on the sorting
    algorithm. *)
Lemma stable_sort_unique {A K} (lt : K -> K -> bool) (key : A -> K) (l l' : list A) :
  (forall x y, lt x y = true -> lt y x = false) ->
  (forall x y z, lt y x = false -> lt z y = false -> lt z x = false) ->
  NoDup l ->
  l' ≡ₚ l ->
  (forall a b, before l' a b -> lt (key b) (key a) = false) ->
  (forall a b, before l' a b -> lt (key a) (key b) = false -> before l a b) ->
  l' = stable_sort lt key l.
Proof.
  intros Hasym Htrans Hnd Hperm Hsorted Hstable.
  apply before_eq.
  - by rewrite Hperm.
  - by rewrite Hperm, stable_sort_perm.
  - intros a b Hab.
    assert (Hnd' : NoDup l') by (by rewrite Hperm).
    destruct (before_elem_of _ _ _ Hab) as [Ha Hb].
    destruct (before_or (stable_sort lt key l) a b) as [|Hba]; [| | |done|].
    + by rewrite stable_sort_perm, <- Hperm.
    + by rewrite stable_sort_perm, <- Hperm.
    + by eapply before_NoDup_ne.
    + exfalso.
      pose proof (stable_sort_before_le lt key Hasym Htrans _ _ _ Hba) as Hle1.
      pose proof (Hsorted _ _ Hab) as Hle2.
      pose proof (stable_sort_stable lt key _ _ _ Hba Hle2) as Hl1.
      pose proof (Hstable _ _ Hab Hle1) as Hl2.
      exact (before_NoDup_asym l a b Hnd Hl2 Hl1).
Qed.

(** * The verification orchestrator *)

Lemma wp_deref l (Q : result (gmap string value) -> world -> Prop) w d :
  heap w !! l = Some d -> Q (Ok d) w -> wp (deref l) Q w.
Proof.
  intros Hd H r w' out. destruct w as [h tr].
  erewrite deref_run by eassumption. intros [= <- <- _]. exact H.
Qed.

Lemma order_severity st : default 5 (Sitewide.order !! st) = severity st.
Proof.
  unfold severity, Sitewide.order.
  repeat (rewrite lookup_insert; case_decide;
          [subst st; reflexivity | rewrite (decide_False (P := st = _)) by congruence]).
  by rewrite lookup_empty.
Qed.

(** One check in the pool: the future holds a new object that is the
    result of the check of the entry. *)
Lemma check_link_pool_spec (s : script) E entry w :
  valid_entry s entry w ->
  wp (check_link_of s E entry) (fun r w' => grows w w' /\ check_of s entry r w') w.
Proof.
  intros (d & u & Hd & Hu & Hsite).
  destruct (check_link_run s E w entry d u Hd Hu) as [out Hrun].
  eapply wp_exact; [exact Hrun|]. split; [eexists [_]; reflexivity|].
  destruct (classify_status u
              (exchange E (trace w) (head_request s u) (get_request s u)).1)
    as (st & Hst & Hin).
  assert (Hsame : forall k, k ∉ outcome_keys ->
            checked d (utcnow_isoformat E (trace w))
              (classify u (exchange E (trace w) (head_request s u)
                             (get_request s u)).1) !! k = d !! k).
  { intros k Hk. by apply field_checked_other. }
  eexists _, d, _, st. cbn [heap].
  split; [reflexivity|]. split; [by apply lookup_app_l_Some|].
  split; [apply lookup_last|].
  split; [by rewrite field_checked_status, Hst|]. split; [exact Hin|].
  split; [|exact Hsame].
  assert (Hk : "site" ∉ outcome_keys).
  { unfold outcome_keys. intros Hk.
    repeat (apply elem_of_cons in Hk as [Hk|Hk]; [discriminate Hk|]).
    by apply elem_of_nil in Hk. }
  destruct s; cbn [site_ok] in *; by rewrite Hsame.
Qed.

Lemma valid_entry_grows s l w w' : grows w w' -> valid_entry s l w -> valid_entry s l w'.
Proof. intros Hg (d & u & Hd & H). exists d, u. eauto using grows_lookup. Qed.

Lemma check_of_grows s entry fut w w' :
  grows w w' -> check_of s entry fut w -> check_of s entry fut w'.
Proof.
  intros Hg (l & d & r & st & Hf & Hd & Hr & H). exists l, d, r, st.
  split; [exact Hf|]. split; [by eapply grows_lookup|].
  split; [by eapply grows_lookup|]. exact H.
Qed.

Lemma futures_all_ok {A} (P : A -> result loc -> Prop) xs futs :
  Forall2 P xs futs ->
  (forall x fut, P x fut -> exists l, fut = Ok l) ->
  exists ls, futs = Ok <$> ls.
Proof.
  intros Hall Hok. induction Hall as [|x fut xs futs Hx _ [ls ->]].
  - by exists [].
  - destruct (Hok x fut Hx) as [l ->]. by exists (l :: ls).
Qed.

Lemma fmap_Ok_inj {A} (l1 l2 : list A) :
  (Ok <$> l1 : list (result A)) = Ok <$> l2 -> l1 = l2.
Proof.
  revert l2. induction l1 as [|x l1 IH]; intros [|y l2]; cbn; try done.
  intros [= -> ?]. f_equal. by apply IH.
Qed.

(** The loop that collects the results of the futures. *)
Lemma collect_results_spec (collected : list loc) w :
  wp (for_each (Ok <$> collected) []
        (fun results future =>
           r <- future_result future ;; ret (results ++ [r])%list))
    (fun res w' => w' = w /\ res = Ok collected) w.
Proof.
  eapply (wp_for_each
            (fun done results w' => w' = w /\ done = Ok <$> results)
            (fun _ _ => False)).
  - done.
  - intros done fut rest results w' Hxs [-> ->].
    assert (Hfut : fut ∈ (Ok <$> collected : list (result loc))).
    { rewrite Hxs. apply elem_of_app. right. by left. }
    apply list_elem_of_fmap in Hfut as (l & -> & _).
    apply wp_bind, wp_lift, wp_ret. split; [done|]. by rewrite fmap_app.
  - intros results w' [-> Heq]. split; [done|]. f_equal. symmetry.
    by apply fmap_Ok_inj.
  - by intros e w' [].
Qed.

(** The loop that computes the keys of the sort. *)
Lemma sort_keys_spec {K} (sort_key : loc -> M K) (key : loc -> K) results w :
  (forall l, l ∈ results -> wp (sort_key l) (fun res w' => w' = w /\ res = Ok (key l)) w) ->
  wp (for_each results []
        (fun keyed r => k <- sort_key r ;; ret (keyed ++ [(k, r)])%list))
    (fun res w' => w' = w /\ res = Ok ((fun r => (key r, r)) <$> results)) w.
Proof.
  intros Hkey.
  eapply (wp_for_each
            (fun done keyed w' => w' = w /\ keyed = (fun r => (key r, r)) <$> done)
            (fun _ _ => False)).
  - done.
  - intros done l rest keyed w' Hxs [-> ->].
    apply wp_bind. eapply wp_conseq.
    { apply Hkey. rewrite Hxs. apply elem_of_app. right. by left. }
    intros res w' [-> ->]. apply wp_ret. split; [done|]. by rewrite fmap_app.
  - intros keyed w' [-> ->]. done.
  - by intros e w' [].
Qed.

Lemma sitewide_sort_key_spec l w r st :
  heap w !! l = Some r ->
  r !! "status" = Some (VStr st) ->
  site_ok sitewide r ->
  wp (Sitewide.sort_key l)
    (fun res w' => w' = w /\ res = Ok (site_of w l, rank_of w l)) w.
Proof.
  intros Hr Hst Hsite. unfold Sitewide.sort_key, dict_get.
  apply wp_bind, wp_bind. eapply wp_deref; [exact Hr|]. apply wp_ret.
  apply wp_bind. eapply wp_getitem; [exact Hr|exact Hst|].
  assert (Hsite_of : default (VStr "") (r !! "site") = VStr (site_of w l)).
  { unfold site_of, field. rewrite Hr. cbn.
    destruct (r !! "site") as [v|] eqn:Hv; [|done].
    destruct (Hsite v Hv) as [n ->]. done. }
  rewrite Hsite_of. apply wp_bind, wp_ret, wp_ret. split; [done|].
  unfold rank_of, field. rewrite Hr. cbn. rewrite Hst. cbn.
  by rewrite order_severity.
Qed.

Lemma webcam_sort_key_spec l w r st :
  heap w !! l = Some r ->
  r !! "status" = Some (VStr st) ->
  wp (Webcam.sort_key l) (fun res w' => w' = w /\ res = Ok (rank_of w l)) w.
Proof.
  intros Hr Hst. unfold Webcam.sort_key.
  apply wp_bind. eapply wp_getitem; [exact Hr|exact Hst|]. apply wp_ret.
  split; [done|]. unfold rank_of, field. rewrite Hr. cbn. rewrite Hst. cbn.
  change Webcam.order with Sitewide.order. by rewrite order_severity.
Qed.

Lemma map_snd_decorated {A K} (key : A -> K) (l : list A) :
  map snd ((fun a => (key a, a)) <$> l) = l.
Proof. induction l as [|x l IH]; cbn; [done|]. by rewrite IH. Qed.

Lemma sitewide_check_all_links_run E links w collected w' out1 :
  pool_as_completed E (Sitewide.check_link E) links w
    = (Ok (Ok <$> collected), w', out1) ->
  (forall l, l ∈ collected ->
     exists r st, heap w' !! l = Some r /\ r !! "status" = Some (VStr st) /\
                  site_ok sitewide r) ->
  exists out,
    Sitewide.check_all_links E links w
    = (Ok (stable_sort key_lt (fun l => (site_of w' l, rank_of w' l)) collected), w', out).
Proof.
  intros Hpool Hres.
  assert (Hwp : wp (Sitewide.check_all_links E links)
            (fun r w'' => w'' = w' /\
               r = Ok (stable_sort key_lt (fun l => (site_of w' l, rank_of w' l))
                         collected)) w).
  { unfold Sitewide.check_all_links.
    apply wp_bind, wp_print, wp_bind, wp_print, wp_bind, wp_print, wp_bind.
    eapply wp_exact; [exact Hpool|]. cbv beta iota.
    apply wp_bind. eapply wp_conseq; [apply collect_results_spec|].
    intros res w1 [-> ->]. apply wp_bind.
    eapply wp_conseq.
    { apply (sort_keys_spec _ (fun l => (site_of w' l, rank_of w' l))).
      intros l Hl. destruct (Hres l Hl) as (r & st & Hr & Hst & Hsite).
      by eapply sitewide_sort_key_spec. }
    intros res w1 [-> ->]. apply wp_ret. split; [done|].
    by rewrite stable_sort_decorated, map_snd_decorated. }
  destruct (wp_total _ _ _ Hwp) as (r & w'' & out & Hrun & -> & ->). eauto.
Qed.

Lemma webcam_check_all_links_run E links w collected w' out1 :
  pool_as_completed E (Webcam.check_link E) links w
    = (Ok (Ok <$> collected), w', out1) ->
  (forall l, l ∈ collected ->
     exists r st, heap w' !! l = Some r /\ r !! "status" = Some (VStr st)) ->
  exists out,
    Webcam.check_all_links E links w
    = (Ok (stable_sort Z.ltb (rank_of w') collected), w', out).
Proof.
  intros Hpool Hres.
  assert (Hwp : wp (Webcam.check_all_links E links)
            (fun r w'' => w'' = w' /\
               r = Ok (stable_sort Z.ltb (rank_of w') collected)) w).
  { unfold Webcam.check_all_links.
    apply wp_bind, wp_print, wp_bind.
    eapply wp_exact; [exact Hpool|]. cbv beta iota.
    apply wp_bind. eapply wp_conseq; [apply collect_results_spec|].
    intros res w1 [-> ->]. apply wp_bind.
    eapply wp_conseq.
    { apply (sort_keys_spec _ (rank_of w')).
      intros l Hl. destruct (Hres l Hl) as (r & st & Hr & Hst).
      by eapply webcam_sort_key_spec. }
    intros res w1 [-> ->]. apply wp_ret. split; [done|].
    by rewrite stable_sort_decorated, map_snd_decorated. }
  destruct (wp_total _ _ _ Hwp) as (r & w'' & out & Hrun & -> & ->). eauto.
Qed.

(** C6. [check_all_links] returns the collected results (one for each
    link) in the order of a stable sort: by site name ascending, then by
    severity rank with BROKEN < TIMEOUT < ERROR < REDIRECT < OK, and results
    of equal site and rank in the order in which they were collected. Of two
    results of one site with different ranks, the one with the lower rank
    comes first. *)
Theorem check_all_links_sorted (s : script) E w links :
  Forall (fun l => valid_entry s l w) links ->
  as_completed E loc links ≡ₚ links ->
  exists collected sorted w' out1 out,
    pool_as_completed E (check_link_of s E) links w
      = (Ok (Ok <$> collected), w', out1) /\
    check_all_links_of s E links w = (Ok sorted, w', out) /\
    sorted ≡ₚ collected /\
    length sorted = length links /\
    (forall l, l ∈ sorted ->
       exists st, field w' l "status" = Some (VStr st) /\ st ∈ statuses /\
                  rank_of w' l = severity st) /\
    (forall a b, before sorted a b ->
       String.leb (site_of w' a) (site_of w' b) = true /\
       (site_of w' a = site_of w' b -> rank_of w' a <= rank_of w' b)) /\
    (forall a b, before sorted a b ->
       site_of w' a = site_of w' b -> rank_of w' a = rank_of w' b ->
       before collected a b) /\
    (forall a b, a ∈ sorted -> b ∈ sorted ->
       site_of w' a = site_of w' b -> rank_of w' a < rank_of w' b ->
       before sorted a b).
Proof.
  intros Hvalid Hsched.
  assert (Hvalid' : Forall (fun l => valid_entry s l w) (as_completed E loc links))
    by (by rewrite Hsched).
  (* the pool *)
  destruct (pool_as_completed E (check_link_of s E) links w) as [[rp w'] out1] eqn:Hpool.
  assert (Hpool' := Hpool). unfold pool_as_completed in Hpool'.
  destruct (wp_run _ _ _ _ _ _
              (run_tasks_spec (check_link_of s E) (valid_entry s) (check_of s)
                 (check_link_pool_spec s E) (valid_entry_grows s) (check_of_grows s)
                 (as_completed E loc links) w Hvalid') Hpool')
    as (_ & futs & -> & Hchecks).
  destruct (futures_all_ok _ _ _ Hchecks) as [collected ->].
  { intros x fut (l & _ & _ & _ & -> & _). eauto. }
  assert (Hres : forall l, l ∈ collected ->
            exists r st, heap w' !! l = Some r /\ r !! "status" = Some (VStr st) /\
                         st ∈ statuses /\ site_ok s r).
  { intros l Hl.
    assert (Hfut : Ok l ∈ (Ok <$> collected : list (result loc)))
      by (apply list_elem_of_fmap; eauto).
    apply list_elem_of_lookup in Hfut as [i Hi].
    destruct (Forall2_lookup_r _ _ _ _ _ Hchecks Hi)
      as (x & _ & l0 & d & r & st & [= <-] & _ & Hr & Hst & Hin & Hsite & _).
    eauto 10. }
  assert (Hlen : length collected = length links).
  { apply Forall2_length in Hchecks. rewrite length_fmap in Hchecks.
    rewrite <- Hchecks. by rewrite Hsched. }
  assert (Hstatus : forall l, l ∈ collected ->
            exists st, field w' l "status" = Some (VStr st) /\ st ∈ statuses /\
                       rank_of w' l = severity st).
  { intros l Hl. destruct (Hres l Hl) as (r & st & Hr & Hst & Hin & _).
    exists st. unfold rank_of, field. rewrite Hr. cbn. by rewrite Hst. }
  destruct s; cbn [check_link_of check_all_links_of] in *.
  - (* sitewide: the key is the site, then the rank *)
    destruct (sitewide_check_all_links_run E links w collected w' out1 Hpool)
      as [out Hrun].
    { intros l Hl. destruct (Hres l Hl) as (r & st & ? & ? & _ & ?). eauto. }
    set (key := fun l => (site_of w' l, rank_of w' l)) in *.
    exists collected, (stable_sort key_lt key collected), w', out1, out.
    split; [done|]. split; [exact Hrun|].
    split; [apply stable_sort_perm|].
    split; [by rewrite stable_sort_perm|].
    split; [intros l Hl; apply Hstatus; by rewrite <- (stable_sort_perm key_lt key)|].
    assert (Hle : forall a b, before (stable_sort key_lt key collected) a b ->
              String.leb (site_of w' a) (site_of w' b) = true /\
              (site_of w' a = site_of w' b -> rank_of w' a <= rank_of w' b)).
    { intros a b Hab.
      apply (stable_sort_before_le key_lt key key_lt_asym key_le_trans) in Hab.
      by apply key_lt_false in Hab. }
    split; [exact Hle|]. split.
    + intros a b Hab Hsite Hrank. eapply stable_sort_stable; [exact Hab|].
      apply key_lt_false. subst key. cbn. rewrite Hsite.
      split; [|lia]. apply string_ltb_false_leb, string_ltb_irrefl.
    + intros a b Ha Hb Hsite Hrank.
      destruct (before_or _ a b Ha Hb) as [Hab|Hba]; [|done|].
      { intros ->. lia. }
      destruct (Hle b a Hba) as [_ Hr]. specialize (Hr (eq_sym Hsite)). lia.
  - (* webcam: no link has a site, the key is the rank *)
    destruct (webcam_check_all_links_run E links w collected w' out1 Hpool)
      as [out Hrun].
    { intros l Hl. destruct (Hres l Hl) as (r & st & ? & ? & _ & ?). eauto. }
    assert (Hsite : forall l, l ∈ collected -> site_of w' l = "").
    { intros l Hl. destruct (Hres l Hl) as (r & st & Hr & _ & _ & Hnone).
      unfold site_of, field. rewrite Hr. cbn. cbn in Hnone. by rewrite Hnone. }
    assert (Hasym : forall x y, Z.ltb x y = true -> Z.ltb y x = false).
    { intros x y. rewrite Z.ltb_lt, Z.ltb_ge. lia. }
    assert (Htrans : forall x y z, Z.ltb y x = false -> Z.ltb z y = false ->
                                   Z.ltb z x = false).
    { intros x y z. rewrite !Z.ltb_ge. lia. }
    exists collected, (stable_sort Z.ltb (rank_of w') collected), w', out1, out.
    split; [done|]. split; [exact Hrun|].
    split; [apply stable_sort_perm|].
    split; [by rewrite stable_sort_perm|].
    split; [intros l Hl; apply Hstatus; by rewrite <- (stable_sort_perm Z.ltb (rank_of w'))|].
    assert (Hle : forall a b, before (stable_sort Z.ltb (rank_of w') collected) a b ->
              String.leb (site_of w' a) (site_of w' b) = true /\
              (site_of w' a = site_of w' b -> rank_of w' a <= rank_of w' b)).
    { intros a b Hab.
      destruct (before_elem_of _ _ _ Hab) as [Ha Hb].
      rewrite stable_sort_perm in Ha, Hb.
      rewrite (Hsite a Ha), (Hsite b Hb). split; [done|]. intros _.
      apply (stable_sort_before_le Z.ltb (rank_of w') Hasym Htrans) in Hab.
      by apply Z.ltb_ge in Hab. }
    split; [exact Hle|]. split.
    + intros a b Hab _ Hrank. eapply stable_sort_stable; [exact Hab|].
      apply Z.ltb_ge. lia.
    + intros a b Ha Hb Hsiteab Hrank.
      destruct (before_or _ a b Ha Hb) as [Hab|Hba]; [|done|].
      { intros ->. lia. }
      destruct (Hle b a Hba) as [_ Hr]. specialize (Hr (eq_sym Hsiteab)). lia.
Qed.

Lemma check_all_links_sorted_witness :
  exists collected sorted w' out1 out,
    pool_as_completed env_three_links (check_link_of sitewide env_three_links)
      [0; 1; 2; 3]%nat world_three_links
      = (Ok (Ok <$> collected), w', out1) /\
    check_all_links_of sitewide env_three_links [0; 1; 2; 3]%nat world_three_links
      = (Ok sorted, w', out) /\
    sorted ≡ₚ collected /\
    length sorted = length [0; 1; 2; 3]%nat /\
    (forall l, l ∈ sorted ->
       exists st, field w' l "status" = Some (VStr st) /\ st ∈ statuses /\
                  rank_of w' l = severity st) /\
    (forall a b, before sorted a b ->
       String.leb (site_of w' a) (site_of w' b) = true /\
       (site_of w' a = site_of w' b -> rank_of w' a <= rank_of w' b)) /\
    (forall a b, before sorted a b ->
       site_of w' a = site_of w' b -> rank_of w' a = rank_of w' b ->
       before collected a b) /\
    (forall a b, a ∈ sorted -> b ∈ sorted ->
       site_of w' a = site_of w' b -> rank_of w' a < rank_of w' b ->
       before sorted a b).
Proof.
  apply (check_all_links_sorted sitewide env_three_links world_three_links
           [0; 1; 2; 3]%nat).
  - repeat constructor;
      (eexists _, _; split; [reflexivity|]; split; [vm_compute; reflexivity|];
       intros v Hv; vm_compute in Hv; injection Hv as <-; eauto).
  - exact (Permutation_sym (Permutation_rev [0; 1; 2; 3]%nat)).
Defined.

(** The run of the witness, evaluated: within the site "Eyehike" the broken
    link comes first, then the redirect, then the working link; the other
    site follows. *)
Example check_all_links_three_links :
  (Sitewide.check_all_links env_three_links [0; 1; 2; 3]%nat world_three_links).1.1
  = Ok [5; 6; 4; 7]%nat.
Proof. vm_compute. reflexivity. Qed.

(** * Further properties of the error paths *)

Lemma slice_to_length n s : (String.length (slice_to n s) <= n)%nat.
Proof.
  unfold slice_to. revert s. induction n as [|n IH]; intros [|a s]; cbn; try lia.
  specialize (IH s). lia.
Qed.

(** X1. The exception [e] ended the check: HEAD raised it, or HEAD was rejected
    and the fallback GET raised it. Then the status follows the handlers in
    their order: BROKEN for an instance of [ConnectionError], else TIMEOUT
    for an instance of [Timeout], else ERROR with the first 60 characters of
    [str(e)] as the code; [final_url] is empty. *)
Theorem check_link_exception_handlers (s : script) E w entry d u e :
  heap w !! entry = Some d ->
  d !! "url" = Some (VStr u) ->
  send E (trace w) (head_request s u) = Raise e \/
  (exists r0, send E (trace w) (head_request s u) = Ok r0 /\
              r_status_code r0 ∈ [405; 403; 501] /\
              send E (trace w ++ [head_request s u]) (get_request s u) = Raise e) ->
  exists result w' out status code,
    check_link_of s E entry w = (Ok result, w', out) /\
    field w' result "status" = Some (VStr status) /\
    field w' result "status_code" = Some (VStr code) /\
    field w' result "final_url" = Some (VStr "") /\
    (isinstance e ConnectionError = true ->
       status = "BROKEN" /\ code = "Connection Error") /\
    (isinstance e ConnectionError = false -> isinstance e Timeout = true ->
       status = "TIMEOUT" /\ code = "Timeout") /\
    (isinstance e ConnectionError = false -> isinstance e Timeout = false ->
       status = "ERROR" /\ code = slice_to 60 (exn_str e) /\
       (String.length code <= 60)%nat).
Proof.
  intros Hd Hu Hraise.
  destruct (check_link_run s E w entry d u Hd Hu) as [out Hrun].
  assert (Hlast : (exchange E (trace w) (head_request s u) (get_request s u)).1
                  = Raise e).
  { unfold exchange. destruct Hraise as [->|(r0 & -> & Hrej & Hget)]; [done|].
    by rewrite bool_decide_true. }
  rewrite Hlast in Hrun. unfold classify in Hrun.
  destruct (isinstance e ConnectionError) eqn:Hc;
    [|destruct (isinstance e Timeout) eqn:Ht];
    eexists _, _, out, _, _; (split; [exact Hrun|]);
    rewrite !field_last, field_checked_status, field_checked_status_code,
      field_checked_final_url; cbn [fst snd];
    (split; [reflexivity|]); (split; [reflexivity|]); (split; [reflexivity|]);
    repeat split; try done.
  apply slice_to_length.
Qed.

Lemma check_link_exception_handlers_witness :
  exists result w' out status code,
    check_link_of sitewide env_read_timeout 0%nat world_a = (Ok result, w', out) /\
    field w' result "status" = Some (VStr status) /\
    field w' result "status_code" = Some (VStr code) /\
    field w' result "final_url" = Some (VStr "") /\
    (isinstance (Exn ReadTimeout
                   "HTTPSConnectionPool(host='example.com', port=443): Read timed out.")
       ConnectionError = true ->
       status = "BROKEN" /\ code = "Connection Error") /\
    (isinstance (Exn ReadTimeout
                   "HTTPSConnectionPool(host='example.com', port=443): Read timed out.")
       ConnectionError = false ->
     isinstance (Exn ReadTimeout
                   "HTTPSConnectionPool(host='example.com', port=443): Read timed out.")
       Timeout = true ->
       status = "TIMEOUT" /\ code = "Timeout") /\
    (isinstance (Exn ReadTimeout
                   "HTTPSConnectionPool(host='example.com', port=443): Read timed out.")
       ConnectionError = false ->
     isinstance (Exn ReadTimeout
                   "HTTPSConnectionPool(host='example.com', port=443): Read timed out.")
       Timeout = false ->
       status = "ERROR" /\
       code = slice_to 60
                (exn_str (Exn ReadTimeout
                   "HTTPSConnectionPool(host='example.com', port=443): Read timed out.")) /\
       (String.length code <= 60)%nat).
Proof.
  eapply (check_link_exception_handlers sitewide env_read_timeout world_a 0%nat entry_a
            "https://example.com/a").
  - vm_compute; reflexivity.
  - vm_compute; reflexivity.
  - left. reflexivity.
Defined.

(** X2. When the fetch of the sitemap index fails, by an exception of the
    network or by a status in [400, 600), [parse_sitemap_index] prints the
    error and returns the empty list. *)
Theorem parse_sitemap_index_fetch_failure (E : environment) w sitemap_url filter_list :
  (exists e, send E (trace w)
               (Request GET sitemap_url Sitewide.HEADERS Sitewide.TIMEOUT true false)
             = Raise e) \/
  (exists r, send E (trace w)
               (Request GET sitemap_url Sitewide.HEADERS Sitewide.TIMEOUT true false)
             = Ok r /\ 400 <= r_status_code r < 600) ->
  exists w' out msg,
    Sitewide.parse_sitemap_index E sitemap_url filter_list w = (Ok [], w', out) /\
    ("  [ERROR] Could not fetch sitemap: " ++ msg) ∈ out.
Proof.
  intros Hfail. destruct w as [h tr]. cbn [trace] in Hfail.
  unfold Sitewide.parse_sitemap_index, Sitewide.requests_get.
  destruct Hfail as [[e Hsend]|(r & Hsend & Hcode)].
  - eexists _, _, (exn_str e). split.
    + eapply bind_run; [reflexivity|].
      eapply bind_run;
        [eapply try_raise;
           [eapply bind_raise, requests_request_run; exact Hsend
           |eapply bind_run; reflexivity]
        |reflexivity].
    + cbn. right. left.
  - assert (Hraise' : exists msg, forall w0,
              raise_for_status r w0 = (Raise (Exn HTTPError msg), w0, [])).
    { unfold raise_for_status.
      destruct ((400 <=? r_status_code r) && (r_status_code r <? 500)) eqn:H4;
        [by eexists|].
      destruct ((500 <=? r_status_code r) && (r_status_code r <? 600)) eqn:H5;
        [by eexists|].
      apply andb_false_iff in H4, H5. rewrite Z.leb_gt, Z.ltb_ge in H4, H5. lia. }
    destruct Hraise' as [msg Hraise].
    eexists _, _, msg. split.
    + eapply bind_run; [reflexivity|].
      eapply bind_run;
        [eapply try_raise;
           [eapply bind_run;
              [eapply requests_request_run; exact Hsend
              |eapply bind_raise; apply Hraise]
           |eapply bind_run; reflexivity]
        |reflexivity].
    + cbn. right. left.
Qed.

Lemma parse_sitemap_index_fetch_failure_witness :
  exists w' out msg,
    Sitewide.parse_sitemap_index env_index_down url_index
      ["post-sitemap.xml"; "page-sitemap.xml"] (World [] []) = (Ok [], w', out) /\
    ("  [ERROR] Could not fetch sitemap: " ++ msg) ∈ out.
Proof.
  eapply (parse_sitemap_index_fetch_failure env_index_down (World [] [])).
  right. eexists. split; [reflexivity|]. cbn. lia.
Defined.

(** X3. Once the index is fetched and parsed, [parse_sitemap_index] returns a
    list whatever happens to the sub-sitemaps: a failure there is caught in
    the loop. *)
Theorem parse_sitemap_index_sub_sitemaps_soft (E : environment) w
    sitemap_url filter_list r root :
  send E (trace w)
    (Request GET sitemap_url Sitewide.HEADERS Sitewide.TIMEOUT true false) = Ok r ->
  ~ (400 <= r_status_code r < 600) ->
  ET_fromstring E (r_text r) = Ok root ->
  exists page_urls w' out,
    Sitewide.parse_sitemap_index E sitemap_url filter_list w = (Ok page_urls, w', out).
Proof.
  intros Hsend Hcode Hroot. destruct w as [h tr]. cbn [trace] in Hsend.
  assert (Hwp : wp (Sitewide.parse_sitemap_index E sitemap_url filter_list)
            (fun res _ => exists page_urls, res = Ok page_urls) (World h tr)).
  { unfold Sitewide.parse_sitemap_index, Sitewide.requests_get.
    apply wp_bind, wp_print, wp_bind.
    eapply wp_exact.
    { eapply try_ok.
      eapply bind_run; [eapply requests_request_run; exact Hsend|].
      eapply bind_run; [apply raise_for_status_ok, Hcode|]. reflexivity. }
    cbv beta iota. apply wp_bind, wp_lift. rewrite Hroot.
    apply wp_bind, wp_print, wp_bind.
    eapply (wp_for_each (fun _ _ _ => True) (fun _ _ => False)); [done| | |done].
    - intros done sub_url rest page_urls w1 _ _.
      apply wp_bind, wp_print, wp_try, wp_bind, wp_requests_request.
      destruct (send E (trace w1) _) as [r2|e2].
      + apply wp_bind, wp_raise_for_status. intros [[]|e].
        * apply wp_bind, wp_lift.
          destruct (ET_fromstring E (r_text r2)) as [root2|e2].
          -- by apply wp_ret.
          -- by apply wp_bind, wp_print, wp_ret.
        * by apply wp_bind, wp_print, wp_ret.
      + by apply wp_bind, wp_print, wp_ret.
    - intros page_urls w1 _. apply wp_bind, wp_print, wp_ret. eauto. }
  destruct (wp_total _ _ _ Hwp) as (res & w' & out & Hrun & page_urls & ->). eauto.
Qed.

Lemma parse_sitemap_index_sub_sitemaps_soft_witness :
  exists page_urls w' out,
    Sitewide.parse_sitemap_index env_posts_down url_index
      ["post-sitemap.xml"; "page-sitemap.xml"] (World [] []) = (Ok page_urls, w', out).
Proof.
  eapply (parse_sitemap_index_sub_sitemaps_soft env_posts_down (World [] []) url_index
            ["post-sitemap.xml"; "page-sitemap.xml"]
            (Response 200 "OK" url_index url_index)).
  - reflexivity.
  - cbn. lia.
  - reflexivity.
Defined.

(** The first sub-sitemap answers 500: it is skipped, and the page of the
    second one is returned. *)
Example parse_sitemap_index_partial_results :
  (Sitewide.parse_sitemap_index env_posts_down url_index
     ["post-sitemap.xml"; "page-sitemap.xml"] (World [] [])).1.1
  = Ok [url_hike_one].
Proof. vm_compute. reflexivity. Qed.

(** Scenario E: of a matching and a non-matching sub-sitemap, only the pages
    of the matching one are resolved. *)
Example parse_sitemap_index_filter :
  (Sitewide.parse_sitemap_index env_two_pages url_index
     ["post-sitemap.xml"; "page-sitemap.xml"] (World [] [])).1.1
  = Ok [url_hike_one; url_hike_two].
Proof. vm_compute. reflexivity. Qed.

(** * Further properties of the link verifier *)

Lemma not_rejected_404 : (404 : Z) ∉ [405; 403; 501].
Proof.
  intros H. repeat (apply elem_of_cons in H as [H|H]; [discriminate H|]).
  by apply elem_of_nil in H.
Qed.

(** X4. A check sends HEAD first, and a GET of the same address after it
    exactly when HEAD was answered 405, 403 or 501. In every other case,
    whether HEAD was answered with another status (404, 500, ...) or ended
    in an exception, that one request is the only one: there is no retry, and
    the outcome fields are the classification of what HEAD gave. *)
Theorem check_link_requests (s : script) E w entry d u :
  heap w !! entry = Some d ->
  d !! "url" = Some (VStr u) ->
  exists result w' out,
    check_link_of s E entry w = (Ok result, w', out) /\
    ((exists r0, send E (trace w) (head_request s u) = Ok r0 /\
                 r_status_code r0 ∈ [405; 403; 501]) ->
       trace w' = (trace w ++ [head_request s u; get_request s u])%list) /\
    ((forall r0, send E (trace w) (head_request s u) = Ok r0 ->
                 r_status_code r0 ∉ [405; 403; 501]) ->
       let answer := send E (trace w) (head_request s u) in
       trace w' = (trace w ++ [head_request s u])%list /\
       field w' result "status" = Some (classify u answer).1.1 /\
       field w' result "status_code" = Some (classify u answer).1.2 /\
       field w' result "final_url" = Some (classify u answer).2).
Proof.
  intros Hd Hu.
  destruct (check_link_run s E w entry d u Hd Hu) as [out Hrun].
  eexists _, _, out. split; [exact Hrun|]. cbn [trace]. split.
  - intros (r0 & Hhead & Hrej). unfold exchange.
    rewrite Hhead, bool_decide_true by done. cbn [snd]. by rewrite <- app_assoc.
  - intros Hacc.
    assert (Hex : exchange E (trace w) (head_request s u) (get_request s u)
                  = (send E (trace w) (head_request s u),
                     (trace w ++ [head_request s u])%list)).
    { unfold exchange.
      destruct (send E (trace w) (head_request s u)) as [r0|e] eqn:Hhead; [|done].
      by rewrite bool_decide_false by (by apply Hacc). }
    rewrite Hex. cbn [fst snd]. split; [done|]. apply outcome_fields_run.
Qed.

Lemma check_link_requests_witness :
  exists result w' out,
    check_link_of sitewide env_three_links 2%nat world_three_links
      = (Ok result, w', out) /\
    ((exists r0, send env_three_links (trace world_three_links)
                   (head_request sitewide "https://example.com/gone") = Ok r0 /\
                 r_status_code r0 ∈ [405; 403; 501]) ->
       trace w' = (trace world_three_links
                   ++ [head_request sitewide "https://example.com/gone";
                       get_request sitewide "https://example.com/gone"])%list) /\
    ((forall r0, send env_three_links (trace world_three_links)
                   (head_request sitewide "https://example.com/gone") = Ok r0 ->
                 r_status_code r0 ∉ [405; 403; 501]) ->
       let answer := send env_three_links (trace world_three_links)
                       (head_request sitewide "https://example.com/gone") in
       trace w' = (trace world_three_links
                   ++ [head_request sitewide "https://example.com/gone"])%list /\
       field w' result "status"
         = Some (classify "https://example.com/gone" answer).1.1 /\
       field w' result "status_code"
         = Some (classify "https://example.com/gone" answer).1.2 /\
       field w' result "final_url"
         = Some (classify "https://example.com/gone" answer).2).
Proof.
  eapply (check_link_requests sitewide env_three_links world_three_links 2%nat
            (link_of "Eyehike" "https://example.com/gone") "https://example.com/gone");
    vm_compute; reflexivity.
Defined.

(** X5. When the answer that is classified (that of HEAD, or that of the
    fallback GET) has a status code outside [200, 400), the link is BROKEN
    with that code, and [final_url] is empty even if redirects were
    followed to another address. *)
Theorem check_link_broken_outside_success_range (s : script) E w entry d u r :
  heap w !! entry = Some d ->
  d !! "url" = Some (VStr u) ->
  (send E (trace w) (head_request s u) = Ok r /\ r_status_code r ∉ [405; 403; 501]) \/
  (exists r0, send E (trace w) (head_request s u) = Ok r0 /\
              r_status_code r0 ∈ [405; 403; 501] /\
              send E (trace w ++ [head_request s u]) (get_request s u) = Ok r) ->
  ~ (200 <= r_status_code r < 400) ->
  exists result w' out,
    check_link_of s E entry w = (Ok result, w', out) /\
    field w' result "status" = Some (VStr "BROKEN") /\
    field w' result "status_code" = Some (VInt (r_status_code r)) /\
    field w' result "final_url" = Some (VStr "").
Proof.
  intros Hd Hu Hfinal Hrange.
  destruct (check_link_run s E w entry d u Hd Hu) as [out Hrun].
  rewrite (exchange_final_response s E (trace w) u r Hfinal) in Hrun.
  unfold classify in Hrun.
  replace ((200 <=? r_status_code r) && (r_status_code r <? 400)) with false in Hrun.
  2:{ symmetry. apply andb_false_iff. rewrite Z.leb_gt, Z.ltb_ge. lia. }
  eexists _, _, out. split; [exact Hrun|]. apply outcome_fields_run.
Qed.

Lemma check_link_broken_outside_success_range_witness :
  exists result w' out,
    check_link_of sitewide env_three_links 2%nat world_three_links
      = (Ok result, w', out) /\
    field w' result "status" = Some (VStr "BROKEN") /\
    field w' result "status_code" = Some (VInt 404) /\
    field w' result "final_url" = Some (VStr "").
Proof.
  eapply (check_link_broken_outside_success_range sitewide env_three_links
            world_three_links 2%nat (link_of "Eyehike" "https://example.com/gone")
            "https://example.com/gone"
            (Response 404 "Not Found" "https://example.com/gone" "")).
  - vm_compute; reflexivity.
  - vm_compute; reflexivity.
  - left. split; [reflexivity|]. apply not_rejected_404.
  - cbn. lia.
Defined.

(** * Further properties of the link extractors *)

(** ** The fetch of a page *)

Lemma raise_for_status_raise r w :
  400 <= r_status_code r < 600 ->
  exists msg, raise_for_status r w = (Raise (Exn HTTPError msg), w, []).
Proof.
  intros Hcode. unfold raise_for_status.
  destruct ((400 <=? r_status_code r) && (r_status_code r <? 500)) eqn:H4;
    [by eexists|].
  destruct ((500 <=? r_status_code r) && (r_status_code r <? 600)) eqn:H5;
    [by eexists|].
  apply andb_false_iff in H4, H5. rewrite Z.leb_gt, Z.ltb_ge in H4, H5. lia.
Qed.

Lemma fetch_ok_run E rq (line : exn -> string) h tr r :
  send E tr rq = Ok r ->
  ~ (400 <= r_status_code r < 600) ->
  try_except (r <- requests_request E rq ;; raise_for_status r ;; ret (Some r))
    (fun e => print (line e) ;; ret None) (World h tr)
  = (Ok (Some r), World h (tr ++ [rq]), []).
Proof.
  intros Hsend Hcode. eapply try_ok.
  eapply (bind_run _ _ _ _ _ []); [eapply requests_request_run; exact Hsend|].
  eapply (bind_run _ _ _ _ _ []); [apply raise_for_status_ok, Hcode|]. reflexivity.
Qed.

Lemma fetch_fail_run E rq (line : exn -> string) h tr :
  (exists e, send E tr rq = Raise e) \/
  (exists r, send E tr rq = Ok r /\ 400 <= r_status_code r < 600) ->
  exists e,
    try_except (r <- requests_request E rq ;; raise_for_status r ;; ret (Some r))
      (fun e => print (line e) ;; ret None) (World h tr)
    = (Ok None, World h (tr ++ [rq]), [line e]).
Proof.
  intros [[e Hsend]|(r & Hsend & Hcode)].
  - exists e. eapply (try_raise _ _ _ _ _ []).
    + eapply bind_raise, requests_request_run. exact Hsend.
    + reflexivity.
  - destruct (raise_for_status_raise r (World h (tr ++ [rq])) Hcode) as [msg Hraise].
    exists (Exn HTTPError msg). eapply (try_raise _ _ _ _ _ []).
    + eapply (bind_run _ _ _ _ _ []); [eapply requests_request_run; exact Hsend|].
      eapply bind_raise. exact Hraise.
    + reflexivity.
Qed.

(** ** The loop over the elements *)

Lemma external_parses E skip tag : external E skip tag -> parses E tag.
Proof. intros [_ (n & Hn & _)] _. eauto. Qed.

Lemma extract_loop_spec E (skip : gset string) (mk : a_tag -> gmap string value)
    (body : list loc * gset string -> a_tag -> M (list loc * gset string)) tags w :
  (forall links seen tag,
     body (links, seen) tag =
     if negb (startswith (href_of tag) "http") then ret (links, seen)
     else
       netloc <- lift (urlparse_netloc E (href_of tag)) ;;
       if bool_decide (lower netloc ∈ skip) then ret (links, seen)
       else if bool_decide (href_of tag ∈ seen) then ret (links, seen)
       else
         link <- new_dict (mk tag) ;;
         ret ((links ++ [link])%list, seen ∪ {[ href_of tag ]})) ->
  wp (for_each tags ([], ∅) body)
    (fun r w' =>
       match r with
       | Ok st => exists kept, extracted E skip mk tags kept st w w'
       | Raise e =>
           heap w `prefix_of` heap w' /\ trace w' = trace w /\
           exists tag, tag ∈ tags /\ startswith (href_of tag) "http" = true /\
                       urlparse_netloc E (href_of tag) = Raise e
       end) w.
Proof.
  intros Hbody.
  eapply (wp_for_each
            (fun done st w' => exists kept, extracted E skip mk done kept st w w')
            (fun e w' =>
               heap w `prefix_of` heap w' /\ trace w' = trace w /\
               exists tag, tag ∈ tags /\ startswith (href_of tag) "http" = true /\
                           urlparse_netloc E (href_of tag) = Raise e)).
  - exists []. unfold extracted. cbn. rewrite app_nil_r.
    split_and!; try done; try constructor. by intros tag ?%elem_of_nil.
  - intros done tag rest [links seen] w1 Htags
      (kept & Hsub & Hext & Hparse & Hnd & Hseen & Hall & Hlinks & Hheap & Htrace).
    cbn [fst snd] in *. rewrite Hbody.
    assert (Hin : tag ∈ tags) by (rewrite Htags; apply elem_of_app; right; left).
    destruct (startswith (href_of tag) "http") eqn:Hhttp; cbn [negb].
    2:{ apply wp_ret. exists kept. unfold extracted. cbn [fst snd].
        split_and!; try done.
        - by apply sublist_inserts_r.
        - apply Forall_app. split; [done|]. constructor; [|constructor].
          intros Hs. congruence.
        - intros t [Ht|Ht]%elem_of_app Hx; [by apply Hall|].
          apply list_elem_of_singleton in Ht as ->. destruct Hx as [Hx _]. congruence. }
    apply wp_bind, wp_lift.
    destruct (urlparse_netloc E (href_of tag)) as [netloc|e] eqn:Hnet.
    2:{ split; [rewrite Hheap; by apply prefix_app_r|]. split; [done|]. eauto. }
    assert (Hp : parses E tag) by (intros _; eauto).
    case_bool_decide as Hskip.
    { apply wp_ret. exists kept. unfold extracted. cbn [fst snd].
      split_and!; try done.
      - by apply sublist_inserts_r.
      - apply Forall_app. split; [done|]. by constructor.
      - intros t [Ht|Ht]%elem_of_app Hx; [by apply Hall|].
        apply list_elem_of_singleton in Ht as ->.
        destruct Hx as [_ (n & Hn & Hnot)]. congruence. }
    case_bool_decide as Hdup.
    { apply wp_ret. exists kept. unfold extracted. cbn [fst snd].
      split_and!; try done.
      - by apply sublist_inserts_r.
      - apply Forall_app. split; [done|]. by constructor.
      - intros t [Ht|Ht]%elem_of_app Hx; [by apply Hall|].
        by apply list_elem_of_singleton in Ht as ->. }
    apply wp_bind, wp_new_dict, wp_ret.
    exists (kept ++ [tag])%list. unfold extracted. cbn [fst snd heap trace].
    assert (Hnew : href_of tag ∉ href_of <$> kept).
    { intros Hk. apply Hdup. rewrite Hseen. by apply elem_of_list_to_set. }
    split_and!.
    + by apply sublist_app.
    + apply Forall_app. split; [done|]. constructor; [|constructor].
      split; [done|]. eauto.
    + apply Forall_app. split; [done|]. by constructor.
    + rewrite fmap_app. apply NoDup_app. split; [done|]. split; [|apply NoDup_singleton].
      intros k Hk [->|[]%elem_of_nil]%elem_of_cons. done.
    + rewrite fmap_app, list_to_set_app_L, <- Hseen. f_equal. cbn.
      by rewrite (right_id_L ∅ (∪)).
    + intros t [Ht|Ht]%elem_of_app Hx.
      * apply elem_of_union. left. by apply Hall.
      * apply list_elem_of_singleton in Ht as ->. apply elem_of_union. right.
        by apply elem_of_singleton.
    + rewrite Hlinks, Hheap, length_app, length_app, length_fmap. cbn [length].
      rewrite Nat.add_1_r, seq_S. done.
    + rewrite Hheap, fmap_app, <- app_assoc. done.
    + done.
  - intros [links seen] w' Hinv. exact Hinv.
  - intros e w' H. exact H.
Qed.

(** The links of the loop are the new objects, one for each element kept. *)
Lemma extracted_links E skip mk done kept st w w' :
  extracted E skip mk done kept st w w' ->
  Forall2 (fun l tag => heap w' !! l = Some (mk tag)) st.1 kept.
Proof.
  intros (_ & _ & _ & _ & _ & _ & Hlinks & Hheap & _).
  apply Forall2_same_length_lookup. split.
  - by rewrite Hlinks, length_seq.
  - intros i l tag Hl Ht. rewrite Hlinks in Hl.
    apply lookup_seq in Hl as [-> Hi]. rewrite Hheap.
    rewrite lookup_app_r by lia.
    replace (length (heap w) + i - length (heap w))%nat with i by lia.
    by rewrite list_lookup_fmap, Ht.
Qed.

Lemma extracted_urls E skip mk done kept st w w' :
  (forall tag, mk tag !! "url" = Some (VStr (href_of tag))) ->
  extracted E skip mk done kept st w w' ->
  (fun l => field w' l "url") <$> st.1
  = (fun tag => Some (VStr (href_of tag))) <$> kept.
Proof.
  intros Hmk Hext. apply extracted_links in Hext.
  induction Hext as [|l tag ls ts Hl _ IH]; [done|].
  cbn. f_equal; [|exact IH]. unfold field. rewrite Hl. cbn. apply Hmk.
Qed.

(** What the loop of an extractor returns: links to pairwise distinct
    targets, one for each target of an external element. *)
Lemma extracted_unique_external E skip mk tags kept st w w' :
  (forall tag, mk tag !! "url" = Some (VStr (href_of tag))) ->
  extracted E skip mk tags kept st w w' ->
  NoDup ((fun l => field w' l "url") <$> st.1) /\
  (forall l, l ∈ st.1 ->
     exists tag, tag ∈ tags /\ field w' l "url" = Some (VStr (href_of tag)) /\
                 external E skip tag) /\
  (forall tag, tag ∈ tags -> external E skip tag ->
     exists l, l ∈ st.1 /\ field w' l "url" = Some (VStr (href_of tag))).
Proof.
  intros Hmk Hext.
  pose proof (extracted_urls _ _ _ _ _ _ _ _ Hmk Hext) as Hurls.
  pose proof (extracted_links _ _ _ _ _ _ _ _ Hext) as Hlinks.
  destruct Hext as (Hsub & Hkept & _ & Hnd & Hseen & Hall & _).
  split; [|split].
  - rewrite Hurls.
    replace ((fun tag => Some (VStr (href_of tag))) <$> kept)
      with ((fun h => Some (VStr h)) <$> (href_of <$> kept))
      by (by rewrite <- list_fmap_compose).
    apply NoDup_fmap_2; [|exact Hnd]. by intros h1 h2 [= ->].
  - intros l Hl. apply list_elem_of_lookup in Hl as [i Hi].
    destruct (Forall2_lookup_l _ _ _ _ _ Hlinks Hi) as (tag & Ht & Hd).
    exists tag. split.
    { eapply elem_of_sublist; [|exact Hsub]. by eapply list_elem_of_lookup_2. }
    split.
    { unfold field. rewrite Hd. cbn. apply Hmk. }
    eapply Forall_forall; [exact Hkept|]. by eapply list_elem_of_lookup_2.
  - intros tag Ht Hx. specialize (Hall tag Ht Hx). rewrite Hseen in Hall.
    apply elem_of_list_to_set, list_elem_of_fmap in Hall as (tag' & Heq & Hin).
    apply list_elem_of_lookup in Hin as [i Hi].
    destruct (Forall2_lookup_r _ _ _ _ _ Hlinks Hi) as (l & Hl & Hd).
    exists l. split; [by eapply list_elem_of_lookup_2|].
    unfold field. rewrite Hd. cbn. rewrite Hmk. by rewrite Heq.
Qed.

(** ** The two extractors *)

Lemma extract_links_from_page_fetched E page_url skip w r sp :
  send E (trace w)
    (Request GET page_url Sitewide.HEADERS Sitewide.TIMEOUT true false) = Ok r ->
  ~ (400 <= r_status_code r < 600) ->
  BeautifulSoup E (r_text r) = Ok sp ->
  wp (Sitewide.extract_links_from_page E page_url skip)
    (fun res w' =>
       trace w' = (trace w ++
                   [Request GET page_url Sitewide.HEADERS Sitewide.TIMEOUT true false])%list /\
       match res with
       | Ok links =>
           exists kept seen,
             extracted E (skip ∪ Sitewide.GLOBAL_SKIP_DOMAINS)
               (sitewide_link page_url (soup_title sp))
               (soup_find_all_a sp) kept (links, seen)
               (World (heap w) (trace w ++
                   [Request GET page_url Sitewide.HEADERS Sitewide.TIMEOUT true false]))
               w'
       | Raise e =>
           heap w `prefix_of` heap w' /\
           exists tag, tag ∈ soup_find_all_a sp /\
                       startswith (href_of tag) "http" = true /\
                       urlparse_netloc E (href_of tag) = Raise e
       end) w.
Proof.
  intros Hsend Hcode Hsoup. destruct w as [h tr]. cbn [trace heap] in *.
  unfold Sitewide.extract_links_from_page, Sitewide.requests_get.
  apply wp_bind. eapply wp_exact; [by apply fetch_ok_run|]. cbv beta iota.
  apply wp_bind, wp_lift. rewrite Hsoup.
  apply wp_bind. eapply wp_conseq.
  { eapply (extract_loop_spec E (skip ∪ Sitewide.GLOBAL_SKIP_DOMAINS)
              (sitewide_link page_url (soup_title sp))).
    intros links seen tag. reflexivity. }
  intros [[links seen]|e] w'; cbn [heap trace].
  - intros (kept & Hext). apply wp_ret. split; [apply Hext|]. by exists kept, seen.
  - intros (Hpre & Htr & Htag). done.
Qed.

Lemma scrape_links_fetched E url w r sp :
  send E (trace w)
    (Request GET url Webcam.HEADERS Webcam.TIMEOUT true false) = Ok r ->
  ~ (400 <= r_status_code r < 600) ->
  BeautifulSoup E (r_text r) = Ok sp ->
  wp (Webcam.scrape_links E url)
    (fun res w' =>
       trace w' = (trace w ++
                   [Request GET url Webcam.HEADERS Webcam.TIMEOUT true false])%list /\
       match res with
       | Ok links =>
           exists kept seen,
             extracted E Webcam.SKIP_DOMAINS webcam_link
               (soup_find_all_a sp) kept (links, seen)
               (World (heap w) (trace w ++
                   [Request GET url Webcam.HEADERS Webcam.TIMEOUT true false]))
               w'
       | Raise e =>
           heap w `prefix_of` heap w' /\
           exists tag, tag ∈ soup_find_all_a sp /\
                       startswith (href_of tag) "http" = true /\
                       urlparse_netloc E (href_of tag) = Raise e
       end) w.
Proof.
  intros Hsend Hcode Hsoup. destruct w as [h tr]. cbn [trace heap] in *.
  unfold Webcam.scrape_links, Webcam.requests_get.
  apply wp_bind, wp_print, wp_bind.
  eapply wp_exact; [eapply requests_request_run; exact Hsend|]. cbv beta iota.
  apply wp_bind.
  eapply wp_exact; [by apply raise_for_status_ok|]. cbv beta iota.
  apply wp_bind, wp_lift. rewrite Hsoup.
  apply wp_bind. eapply wp_conseq.
  { eapply (extract_loop_spec E Webcam.SKIP_DOMAINS webcam_link).
    intros links seen tag. reflexivity. }
  intros [[links seen]|e] w'; cbn [heap trace].
  - intros (kept & Hext). apply wp_bind, wp_print, wp_ret.
    split; [apply Hext|]. by exists kept, seen.
  - intros (Hpre & Htr & Htag). done.
Qed.

(** The parser is called outside the handler of the fetch: what it raises
    leaves the extractor. *)
Lemma extract_links_from_page_rejected_run E page_url skip h tr r e :
  send E tr (Request GET page_url Sitewide.HEADERS Sitewide.TIMEOUT true false) = Ok r ->
  ~ (400 <= r_status_code r < 600) ->
  BeautifulSoup E (r_text r) = Raise e ->
  Sitewide.extract_links_from_page E page_url skip (World h tr)
  = (Raise e,
     World h (tr ++ [Request GET page_url Sitewide.HEADERS Sitewide.TIMEOUT true false]),
     []).
Proof.
  intros Hsend Hcode Hsoup.
  unfold Sitewide.extract_links_from_page, Sitewide.requests_get.
  eapply (bind_run _ _ _ _ _ [] _ _ []); [by apply fetch_ok_run|]. cbv beta iota.
  apply bind_raise. unfold lift. by rewrite Hsoup.
Qed.

Lemma scrape_links_rejected_run E url h tr r e :
  send E tr (Request GET url Webcam.HEADERS Webcam.TIMEOUT true false) = Ok r ->
  ~ (400 <= r_status_code r < 600) ->
  BeautifulSoup E (r_text r) = Raise e ->
  Webcam.scrape_links E url (World h tr)
  = (Raise e,
     World h (tr ++ [Request GET url Webcam.HEADERS Webcam.TIMEOUT true false]),
     ["[+] Fetching page: " ++ url]).
Proof.
  intros Hsend Hcode Hsoup.
  unfold Webcam.scrape_links, Webcam.requests_get.
  eapply (bind_run _ _ _ _ _ [_] _ _ []); [reflexivity|].
  eapply (bind_run _ _ _ _ _ [] _ _ []);
    [eapply requests_request_run; exact Hsend|]. cbv beta iota.
  eapply (bind_run _ _ _ _ _ [] _ _ []); [by apply raise_for_status_ok|].
  apply bind_raise. unfold lift. by rewrite Hsoup.
Qed.

(** ** Failure of the fetch *)

(** X6. A page that cannot be fetched, because the request raises or is
    answered with a status in [400, 600), is skipped: after that one request
    [extract_links_from_page] prints the reason and returns no link, without
    raising and without creating any object. *)
Theorem extract_links_from_page_fetch_failure E w page_url (skip : gset string) :
  (exists e, send E (trace w)
               (Request GET page_url Sitewide.HEADERS Sitewide.TIMEOUT true false)
             = Raise e) \/
  (exists r, send E (trace w)
               (Request GET page_url Sitewide.HEADERS Sitewide.TIMEOUT true false)
             = Ok r /\ 400 <= r_status_code r < 600) ->
  exists msg,
    Sitewide.extract_links_from_page E page_url skip w
    = (Ok [],
       World (heap w)
         (trace w ++ [Request GET page_url Sitewide.HEADERS Sitewide.TIMEOUT true false]),
       ["  [SKIP] Could not fetch page " ++ slice_to 70 page_url ++ ": " ++ msg]).
Proof.
  intros Hfail. destruct w as [h tr]. cbn [heap trace] in *.
  destruct (fetch_fail_run E _
              (fun e => "  [SKIP] Could not fetch page " ++ slice_to 70 page_url
                        ++ ": " ++ exn_str e) h tr Hfail) as [e Hrun].
  exists (exn_str e).
  unfold Sitewide.extract_links_from_page, Sitewide.requests_get.
  eapply (bind_run _ _ _ _ _ [_] _ _ []); [exact Hrun|]. reflexivity.
Qed.

Lemma extract_links_from_page_fetch_failure_witness :
  exists msg,
    Sitewide.extract_links_from_page env_index_down url_hike_one
      {[ "www.eyehike.com"; "eyehike.com" ]} (World [] [])
    = (Ok [],
       World [] [Request GET url_hike_one Sitewide.HEADERS Sitewide.TIMEOUT true false],
       ["  [SKIP] Could not fetch page " ++ slice_to 70 url_hike_one ++ ": " ++ msg]).
Proof.
  apply (extract_links_from_page_fetch_failure env_index_down (World [] []) url_hike_one).
  right. eexists. split; [reflexivity|]. cbn. lia.
Defined.

(** X7. The extractor of the webcam script has no handler around its fetch:
    when the request for the page raises, or is answered with a status in
    [400, 600), [scrape_links] raises (the exception of the network, or an
    [HTTPError]) after that one request, and no link is made. *)
Theorem scrape_links_fetch_failure_raises E w url :
  (exists e, send E (trace w)
               (Request GET url Webcam.HEADERS Webcam.TIMEOUT true false)
             = Raise e) \/
  (exists r, send E (trace w)
               (Request GET url Webcam.HEADERS Webcam.TIMEOUT true false)
             = Ok r /\ 400 <= r_status_code r < 600) ->
  exists e,
    Webcam.scrape_links E url w
    = (Raise e,
       World (heap w)
         (trace w ++ [Request GET url Webcam.HEADERS Webcam.TIMEOUT true false]),
       ["[+] Fetching page: " ++ url]) /\
    (send E (trace w) (Request GET url Webcam.HEADERS Webcam.TIMEOUT true false)
     = Raise e \/ exn_class_of e = HTTPError).
Proof.
  intros Hfail. destruct w as [h tr]. cbn [heap trace] in *.
  unfold Webcam.scrape_links, Webcam.requests_get.
  destruct Hfail as [[e Hsend]|(r & Hsend & Hcode)].
  - exists e. split; [|by left].
    eapply (bind_run _ _ _ _ _ [_] _ _ []); [reflexivity|].
    eapply bind_raise, requests_request_run. exact Hsend.
  - destruct (raise_for_status_raise r
                (World h (tr ++ [Request GET url Webcam.HEADERS Webcam.TIMEOUT true false]))
                Hcode) as [msg Hraise].
    exists (Exn HTTPError msg). split; [|by right].
    eapply (bind_run _ _ _ _ _ [_] _ _ []); [reflexivity|].
    eapply (bind_run _ _ _ _ _ [] _ _ []);
      [eapply requests_request_run; exact Hsend|].
    eapply bind_raise. exact Hraise.
Qed.

Lemma scrape_links_fetch_failure_raises_witness :
  exists e,
    Webcam.scrape_links env_index_down Webcam.TARGET_URL (World [] [])
    = (Raise e,
       World [] [Request GET Webcam.TARGET_URL Webcam.HEADERS Webcam.TIMEOUT true false],
       ["[+] Fetching page: " ++ Webcam.TARGET_URL]) /\
    (send env_index_down []
       (Request GET Webcam.TARGET_URL Webcam.HEADERS Webcam.TIMEOUT true false)
     = Raise e \/ exn_class_of e = HTTPError).
Proof.
  apply (scrape_links_fetch_failure_raises env_index_down (World [] [])
           Webcam.TARGET_URL).
  right. eexists. split; [reflexivity|]. cbn. lia.
Defined.

(** ** Which links are extracted *)

Lemma sitewide_link_url page_url title tag :
  sitewide_link page_url title tag !! "url" = Some (VStr (href_of tag)).
Proof. unfold sitewide_link. by simplify_map_eq. Qed.

Lemma webcam_link_url tag : webcam_link tag !! "url" = Some (VStr (href_of tag)).
Proof. unfold webcam_link. by simplify_map_eq. Qed.

Lemma Forall_parses_no_error E tags e :
  Forall (parses E) tags ->
  ~ exists tag, tag ∈ tags /\ startswith (href_of tag) "http" = true /\
                urlparse_netloc E (href_of tag) = Raise e.
Proof.
  intros Hall (tag & Hin & Hhttp & Hraise).
  eapply Forall_forall in Hall; [|exact Hin].
  destruct (Hall Hhttp) as [n Hn]. congruence.
Qed.

(** X8. From a page that was fetched and that the HTML parser accepts,
    when [urlparse] accepts the targets it is called on,
    [extract_links_from_page] makes one request and returns links to pairwise
    distinct targets: exactly one for each target that some [<a href>]
    element of the page has, stripped of surrounding white space, that starts
    with "http" and whose lower-cased network location is neither in the skip
    set of the site nor in the global one. *)
Theorem extract_links_from_page_unique_external E w page_url (skip : gset string) r sp :
  send E (trace w)
    (Request GET page_url Sitewide.HEADERS Sitewide.TIMEOUT true false) = Ok r ->
  ~ (400 <= r_status_code r < 600) ->
  BeautifulSoup E (r_text r) = Ok sp ->
  Forall (parses E) (soup_find_all_a sp) ->
  exists links w' out,
    Sitewide.extract_links_from_page E page_url skip w = (Ok links, w', out) /\
    trace w' = (trace w ++
                [Request GET page_url Sitewide.HEADERS Sitewide.TIMEOUT true false])%list /\
    NoDup ((fun l => field w' l "url") <$> links) /\
    (forall l, l ∈ links ->
       exists tag,
         tag ∈ soup_find_all_a sp /\
         field w' l "url" = Some (VStr (href_of tag)) /\
         external E (skip ∪ Sitewide.GLOBAL_SKIP_DOMAINS) tag) /\
    (forall tag,
       tag ∈ soup_find_all_a sp ->
       external E (skip ∪ Sitewide.GLOBAL_SKIP_DOMAINS) tag ->
       exists l, l ∈ links /\ field w' l "url" = Some (VStr (href_of tag))).
Proof.
  intros Hsend Hcode Hsoup Hparse.
  destruct (wp_total _ _ _ (extract_links_from_page_fetched E page_url skip w r sp
                              Hsend Hcode Hsoup))
    as ([links|e] & w' & out & Hrun & Htrace & Hres).
  - destruct Hres as (kept & seen & Hext).
    exists links, w', out. split; [exact Hrun|]. split; [exact Htrace|].
    apply (extracted_unique_external _ _ _ _ _ _ _ _
             (sitewide_link_url page_url _) Hext).
  - destruct Hres as [_ Htag]. by apply Forall_parses_no_error in Htag.
Qed.

Lemma extract_links_from_page_unique_external_witness :
  exists links w' out,
    Sitewide.extract_links_from_page env_hikes "https://www.eyehike.com/2016/hikes/"
      {[ "www.eyehike.com"; "eyehike.com" ]} (World [] []) = (Ok links, w', out) /\
    trace w' = ([] ++
                [Request GET "https://www.eyehike.com/2016/hikes/" Sitewide.HEADERS
                   Sitewide.TIMEOUT true false])%list /\
    NoDup ((fun l => field w' l "url") <$> links) /\
    (forall l, l ∈ links ->
       exists tag,
         tag ∈ soup_find_all_a soup_hikes /\
         field w' l "url" = Some (VStr (href_of tag)) /\
         external env_hikes
           ({[ "www.eyehike.com"; "eyehike.com" ]} ∪ Sitewide.GLOBAL_SKIP_DOMAINS) tag) /\
    (forall tag,
       tag ∈ soup_find_all_a soup_hikes ->
       external env_hikes
         ({[ "www.eyehike.com"; "eyehike.com" ]} ∪ Sitewide.GLOBAL_SKIP_DOMAINS) tag ->
       exists l, l ∈ links /\ field w' l "url" = Some (VStr (href_of tag))).
Proof.
  apply (extract_links_from_page_unique_external env_hikes (World [] [])
           "https://www.eyehike.com/2016/hikes/" {[ "www.eyehike.com"; "eyehike.com" ]}
           (Response 200 "OK" "https://www.eyehike.com/2016/hikes/" "<html>") soup_hikes).
  - reflexivity.
  - cbn. lia.
  - reflexivity.
  - apply Forall_forall. intros tag _ _. by eexists.
Defined.

(** X9. The same for the webcam script: from the page that was fetched and
    that the HTML parser accepts, when [urlparse] accepts the targets it is
    called on, [scrape_links] returns links to pairwise distinct targets,
    exactly one for each stripped target of an [<a href>] element that starts
    with "http" and whose lower-cased network location is not in
    [SKIP_DOMAINS]. *)
Theorem scrape_links_unique_external E w url r sp :
  send E (trace w)
    (Request GET url Webcam.HEADERS Webcam.TIMEOUT true false) = Ok r ->
  ~ (400 <= r_status_code r < 600) ->
  BeautifulSoup E (r_text r) = Ok sp ->
  Forall (parses E) (soup_find_all_a sp) ->
  exists links w' out,
    Webcam.scrape_links E url w = (Ok links, w', out) /\
    trace w' = (trace w ++
                [Request GET url Webcam.HEADERS Webcam.TIMEOUT true false])%list /\
    NoDup ((fun l => field w' l "url") <$> links) /\
    (forall l, l ∈ links ->
       exists tag,
         tag ∈ soup_find_all_a sp /\
         field w' l "url" = Some (VStr (href_of tag)) /\
         external E Webcam.SKIP_DOMAINS tag) /\
    (forall tag,
       tag ∈ soup_find_all_a sp ->
       external E Webcam.SKIP_DOMAINS tag ->
       exists l, l ∈ links /\ field w' l "url" = Some (VStr (href_of tag))).
Proof.
  intros Hsend Hcode Hsoup Hparse.
  destruct (wp_total _ _ _ (scrape_links_fetched E url w r sp Hsend Hcode Hsoup))
    as ([links|e] & w' & out & Hrun & Htrace & Hres).
  - destruct Hres as (kept & seen & Hext).
    exists links, w', out. split; [exact Hrun|]. split; [exact Htrace|].
    apply (extracted_unique_external _ _ _ _ _ _ _ _ webcam_link_url Hext).
  - destruct Hres as [_ Htag]. by apply Forall_parses_no_error in Htag.
Qed.

Lemma scrape_links_unique_external_witness :
  exists links w' out,
    Webcam.scrape_links env_hikes Webcam.TARGET_URL (World [] []) = (Ok links, w', out) /\
    trace w' = ([] ++
                [Request GET Webcam.TARGET_URL Webcam.HEADERS Webcam.TIMEOUT true false])%list /\
    NoDup ((fun l => field w' l "url") <$> links) /\
    (forall l, l ∈ links ->
       exists tag,
         tag ∈ soup_find_all_a soup_hikes /\
         field w' l "url" = Some (VStr (href_of tag)) /\
         external env_hikes Webcam.SKIP_DOMAINS tag) /\
    (forall tag,
       tag ∈ soup_find_all_a soup_hikes ->
       external env_hikes Webcam.SKIP_DOMAINS tag ->
       exists l, l ∈ links /\ field w' l "url" = Some (VStr (href_of tag))).
Proof.
  apply (scrape_links_unique_external env_hikes (World [] []) Webcam.TARGET_URL
           (Response 200 "OK" Webcam.TARGET_URL "<html>") soup_hikes).
  - reflexivity.
  - cbn. lia.
  - reflexivity.
  - apply Forall_forall. intros tag _ _. by eexists.
Defined.

(** X10. The try block of [extract_links_from_page] covers the fetch only.
    When [urlparse] raises on a target of the parsed page that starts with
    "http", the extractor raises: the exception is one that [urlparse] raised
    on such a target, and nothing is returned for the page. *)
Theorem extract_links_from_page_urlparse_error E w page_url (skip : gset string) r sp :
  send E (trace w)
    (Request GET page_url Sitewide.HEADERS Sitewide.TIMEOUT true false) = Ok r ->
  ~ (400 <= r_status_code r < 600) ->
  BeautifulSoup E (r_text r) = Ok sp ->
  (exists tag e0,
     tag ∈ soup_find_all_a sp /\
     startswith (href_of tag) "http" = true /\
     urlparse_netloc E (href_of tag) = Raise e0) ->
  exists e w' out tag,
    Sitewide.extract_links_from_page E page_url skip w = (Raise e, w', out) /\
    tag ∈ soup_find_all_a sp /\
    startswith (href_of tag) "http" = true /\
    urlparse_netloc E (href_of tag) = Raise e.
Proof.
  intros Hsend Hcode Hsoup (tag0 & e0 & Hin0 & Hhttp0 & Hraise0).
  destruct (wp_total _ _ _ (extract_links_from_page_fetched E page_url skip w r sp
                              Hsend Hcode Hsoup))
    as ([links|e] & w' & out & Hrun & Htrace & Hres).
  - destruct Hres as (kept & seen & _ & _ & Hparse & _).
    eapply Forall_forall in Hparse; [|exact Hin0].
    destruct (Hparse Hhttp0) as [n Hn]. congruence.
  - destruct Hres as (_ & tag & Hin & Hhttp & Hraise).
    by exists e, w', out, tag.
Qed.

Lemma extract_links_from_page_urlparse_error_witness :
  exists e w' out tag,
    Sitewide.extract_links_from_page env_bad_link "https://www.eyehike.com/2016/hikes/"
      {[ "www.eyehike.com"; "eyehike.com" ]} (World [] []) = (Raise e, w', out) /\
    tag ∈ [ ATag "https://example.com/a" "Example" None;
            ATag "http://[oops" "Broken" None ] /\
    startswith (href_of tag) "http" = true /\
    urlparse_netloc env_bad_link (href_of tag) = Raise e.
Proof.
  apply (extract_links_from_page_urlparse_error env_bad_link (World [] [])
           "https://www.eyehike.com/2016/hikes/" {[ "www.eyehike.com"; "eyehike.com" ]}
           (Response 200 "OK" "https://www.eyehike.com/2016/hikes/" "<html>")
           (Soup (Some "Hikes")
              [ ATag "https://example.com/a" "Example" None;
                ATag "http://[oops" "Broken" None ])).
  - reflexivity.
  - cbn. lia.
  - reflexivity.
  - exists (ATag "http://[oops" "Broken" None), (Exn ValueError "Invalid IPv6 URL").
    split; [right; left|]. split; reflexivity.
Defined.

(** ** The fields of a link *)

Lemma startswith_http_nonempty s : startswith s "http" = true -> s <> "".
Proof. intros H ->. discriminate H. Qed.

Lemma slice_to_nonempty n s : s <> "" -> slice_to (S n) s <> "".
Proof. destruct s; [done|]. intros _. unfold slice_to. cbn. discriminate. Qed.

Lemma str_or_nonempty a b : b <> "" -> str_or a b <> "".
Proof. destruct a; [done|]. intros _. discriminate. Qed.

Lemma str_or_length a b n :
  (String.length a <= n)%nat -> (String.length b <= n)%nat ->
  (String.length (str_or a b) <= n)%nat.
Proof. destruct a; cbn [str_or]; auto. Qed.

Lemma sitewide_link_fields page_url title tag :
  startswith (href_of tag) "http" = true ->
  exists label page_title,
    (forall k, is_Some (sitewide_link page_url title tag !! k)
               <-> k ∈ ["url"; "label"; "page_url"; "page_title"]) /\
    sitewide_link page_url title tag !! "url" = Some (VStr (href_of tag)) /\
    sitewide_link page_url title tag !! "label" = Some (VStr label) /\
    label <> "" /\ (String.length label <= 80)%nat /\
    sitewide_link page_url title tag !! "page_url" = Some (VStr page_url) /\
    sitewide_link page_url title tag !! "page_title" = Some (VStr page_title) /\
    (page_title = page_url \/ (String.length page_title <= 80)%nat).
Proof.
  intros Hhttp. eexists _, _. split; [|split_and!].
  - intros k. unfold sitewide_link. split.
    + intros H.
      repeat (apply lookup_insert_is_Some in H as [<-|[? H]]; [set_solver|]).
      rewrite lookup_empty in H. by destruct H.
    + intros H.
      repeat (apply elem_of_cons in H as [->|H]; [by simplify_map_eq|]).
      by apply elem_of_nil in H.
  - apply sitewide_link_url.
  - unfold sitewide_link. by simplify_map_eq.
  - by apply str_or_nonempty, slice_to_nonempty, startswith_http_nonempty.
  - apply str_or_length; apply slice_to_length.
  - unfold sitewide_link. by simplify_map_eq.
  - unfold sitewide_link. by simplify_map_eq.
  - destruct title; [right; apply slice_to_length | by left].
Qed.


(** What a run of an extractor that returned links has done: nothing when
    the fetch failed, else the loop over the elements of the page. *)
Lemma extract_links_from_page_cases E page_url (skip : gset string) w :
  wp (Sitewide.extract_links_from_page E page_url skip)
    (fun res w' => forall links, res = Ok links ->
       (links = [] /\ heap w' = heap w) \/
       exists title tags kept seen tr,
         extracted E (skip ∪ Sitewide.GLOBAL_SKIP_DOMAINS)
           (sitewide_link page_url title) tags kept (links, seen)
           (World (heap w) tr) w') w.
Proof.
  unfold Sitewide.extract_links_from_page, Sitewide.requests_get.
  apply wp_bind, wp_fetch. intros [r|] tr.
  2:{ apply wp_ret. intros links [= <-]. by left. }
  apply wp_bind, wp_lift. destruct (BeautifulSoup E (r_text r)) as [soup|e];
    [|intros ? [=]].
  apply wp_bind. eapply wp_conseq.
  { eapply (extract_loop_spec E (skip ∪ Sitewide.GLOBAL_SKIP_DOMAINS)
              (sitewide_link page_url (soup_title soup))).
    intros links seen tag. reflexivity. }
  intros [[links seen]|e] w'; [|intros _ ? [=]].
  intros (kept & Hext). apply wp_ret. intros ? [= <-]. right. eauto 10.
Qed.


(** X11. Every link that [extract_links_from_page] returns is a new dict
    with exactly the fields [url], [label], [page_url] and [page_title]:
    the label is not empty and has at most 80 characters, [page_url] is the
    page that was fetched, and [page_title] is that address or a text of at
    most 80 characters. The objects that existed before are untouched. *)
Theorem extract_links_from_page_fields E w page_url (skip : gset string) links w' out :
  Sitewide.extract_links_from_page E page_url skip w = (Ok links, w', out) ->
  heap w `prefix_of` heap w' /\
  forall l, l ∈ links ->
    (length (heap w) <= l)%nat /\
    exists d href label page_title,
      heap w' !! l = Some d /\
      (forall k, is_Some (d !! k) <-> k ∈ ["url"; "label"; "page_url"; "page_title"]) /\
      d !! "url" = Some (VStr href) /\
      d !! "label" = Some (VStr label) /\
      label <> "" /\ (String.length label <= 80)%nat /\
      d !! "page_url" = Some (VStr page_url) /\
      d !! "page_title" = Some (VStr page_title) /\
      (page_title = page_url \/ (String.length page_title <= 80)%nat).
Proof.
  intros Hrun.
  destruct (wp_run _ _ _ _ _ _ (extract_links_from_page_cases E page_url skip w) Hrun
              links eq_refl)
    as [[-> Hheap]|(title & tags & kept & seen & tr & Hext)].
  { rewrite Hheap. split; [done|]. by intros l ?%elem_of_nil. }
  pose proof (extracted_links _ _ _ _ _ _ _ _ Hext) as Hlinks.
  destruct Hext as (_ & Hkept & _ & _ & _ & _ & Hseq & Hheap & _).
  cbn [fst snd heap] in *. split; [rewrite Hheap; by apply prefix_app_r|].
  intros l Hl. split.
  { rewrite Hseq in Hl. apply elem_of_seq in Hl. lia. }
  apply list_elem_of_lookup in Hl as [i Hi].
  destruct (Forall2_lookup_l _ _ _ _ _ Hlinks Hi) as (tag & Ht & Hd).
  assert (Hx : external E (skip ∪ Sitewide.GLOBAL_SKIP_DOMAINS) tag).
  { eapply Forall_forall; [exact Hkept|]. by eapply list_elem_of_lookup_2. }
  destruct (sitewide_link_fields page_url title tag (proj1 Hx))
    as (label & page_title & H).
  exists (sitewide_link page_url title tag), (href_of tag), label, page_title.
  split; [exact Hd | exact H].
Qed.

Lemma extract_links_from_page_fields_witness :
  heap (World [] []) `prefix_of`
    heap (Sitewide.extract_links_from_page env_hikes "https://www.eyehike.com/2016/hikes/"
            {[ "www.eyehike.com"; "eyehike.com" ]} (World [] [])).1.2 /\
  forall l, l ∈ [0%nat; 1%nat] ->
    (length (heap (World [] [])) <= l)%nat /\
    exists d href label page_title,
      heap (Sitewide.extract_links_from_page env_hikes
              "https://www.eyehike.com/2016/hikes/"
              {[ "www.eyehike.com"; "eyehike.com" ]} (World [] [])).1.2 !! l = Some d /\
      (forall k, is_Some (d !! k) <-> k ∈ ["url"; "label"; "page_url"; "page_title"]) /\
      d !! "url" = Some (VStr href) /\
      d !! "label" = Some (VStr label) /\
      label <> "" /\ (String.length label <= 80)%nat /\
      d !! "page_url" = Some (VStr "https://www.eyehike.com/2016/hikes/") /\
      d !! "page_title" = Some (VStr page_title) /\
      (page_title = "https://www.eyehike.com/2016/hikes/"
       \/ (String.length page_title <= 80)%nat).
Proof.
  eapply (extract_links_from_page_fields env_hikes (World [] [])
            "https://www.eyehike.com/2016/hikes/" {[ "www.eyehike.com"; "eyehike.com" ]}
            [0%nat; 1%nat]).
  vm_compute. reflexivity.
Defined.



(** * Further properties of the seed resolver and the page crawler *)

Lemma str_or_empty_r a : str_or a "" = a.
Proof. by destruct a. Qed.

Lemma sub_sitemaps_filter filter_list sitemaps : forall acc,
  fold_left
    (fun sub_sitemaps sitemap =>
       let loc := str_or (default "" (findtext sitemap (Sitewide.sm "loc"))) "" in
       if existsb (fun f => str_contains f loc) filter_list
       then (sub_sitemaps ++ [loc])%list
       else sub_sitemaps)
    sitemaps acc
  = (acc ++ List.filter (matches filter_list)
              ((fun sitemap => default "" (findtext sitemap (Sitewide.sm "loc")))
                 <$> sitemaps))%list.
Proof.
  induction sitemaps as [|s sitemaps IH]; intros acc; cbn [fold_left fmap list_fmap List.filter].
  - by rewrite app_nil_r.
  - rewrite IH, str_or_empty_r. unfold matches at 2.
    destruct (existsb _ filter_list); [|done]. by rewrite <- app_assoc.
Qed.

Lemma page_urls_nonempty url_els : forall page_urls,
  Forall (fun u => u <> "") page_urls ->
  Forall (fun u => u <> "")
    (fold_left
       (fun page_urls url_el =>
          match findtext url_el (Sitewide.sm "loc") with
          | Some loc =>
              if bool_decide (loc = "") then page_urls else (page_urls ++ [loc])%list
          | None => page_urls
          end)
       url_els page_urls).
Proof.
  induction url_els as [|el url_els IH]; intros page_urls Hall; cbn [fold_left]; [done|].
  apply IH. destruct (findtext el (Sitewide.sm "loc")) as [loc|]; [|done].
  case_bool_decide; [done|]. apply Forall_app. split; [done|]. by constructor.
Qed.

(** The loop over the matching sub-sitemaps: one request for each, whatever
    the outcome. *)
Lemma sub_sitemaps_loop_spec E (subs : list string) w :
  wp (for_each subs []
        (fun page_urls sub_url =>
           print ("  [sitemap] Fetching: " ++ sub_url) ;;
           try_except
             (r2 <- Sitewide.requests_get E sub_url ;;
              raise_for_status r2 ;;
              root2 <- lift (ET_fromstring E (r_text r2)) ;;
              ret (fold_left
                     (fun page_urls url_el =>
                        match findtext url_el (Sitewide.sm "loc") with
                        | Some loc =>
                            if bool_decide (loc = "") then page_urls
                            else (page_urls ++ [loc])%list
                        | None => page_urls
                        end)
                     (findall root2 (Sitewide.sm "url")) page_urls))
             (fun e =>
                print ("  [ERROR] Could not fetch sub-sitemap " ++ sub_url
                       ++ ": " ++ exn_str e) ;;
                ret page_urls)))
    (fun res w' =>
       exists page_urls,
         res = Ok page_urls /\ heap w' = heap w /\
         trace w' = (trace w ++ (page_request <$> subs))%list /\
         Forall (fun u => u <> "") page_urls /\
         (subs = [] -> page_urls = [])) w.
Proof.
  eapply (wp_for_each
            (fun done page_urls w' =>
               heap w' = heap w /\
               trace w' = (trace w ++ (page_request <$> done))%list /\
               Forall (fun u => u <> "") page_urls /\
               (done = [] -> page_urls = []))
            (fun _ _ => False)).
  - cbn. by rewrite app_nil_r.
  - intros done sub_url rest page_urls w1 _ (Hheap & Htrace & Hne & _).
    assert (Hnext : forall tr,
              tr = (trace w1 ++ [page_request sub_url])%list ->
              tr = (trace w ++ (page_request <$> (done ++ [sub_url])))%list).
    { intros tr ->. by rewrite Htrace, fmap_app, <- app_assoc. }
    assert (Hnil : (done ++ [sub_url])%list = [] -> page_urls = []).
    { by intros ?%app_nil_r_inv. }
    apply wp_bind, wp_print, wp_try, wp_bind, wp_requests_request.
    fold (page_request sub_url).
    destruct (send E (trace w1) (page_request sub_url)) as [r2|e2].
    + apply wp_bind, wp_raise_for_status. intros [[]|e].
      * apply wp_bind, wp_lift.
        destruct (ET_fromstring E (r_text r2)) as [root2|e2].
        -- apply wp_ret. cbn [heap trace]. split; [done|]. split; [by apply Hnext|].
           split; [by apply page_urls_nonempty|].
           by intros ?%app_nil_r_inv.
        -- apply wp_bind, wp_print, wp_ret. cbn [heap trace].
           split; [done|]. split; [by apply Hnext|]. done.
      * apply wp_bind, wp_print, wp_ret. cbn [heap trace].
        split; [done|]. split; [by apply Hnext|]. done.
    + apply wp_bind, wp_print, wp_ret. cbn [heap trace].
      split; [done|]. split; [by apply Hnext|]. done.
  - intros page_urls w' (Hheap & Htrace & Hne & Hnil). eauto 10.
  - by intros e w' [].
Qed.

(** The run of [parse_sitemap_index] after the index was fetched and
    parsed. *)
Lemma parse_sitemap_index_parsed (E : environment) h tr sitemap_url filter_list r root :
  send E tr (page_request sitemap_url) = Ok r ->
  ~ (400 <= r_status_code r < 600) ->
  ET_fromstring E (r_text r) = Ok root ->
  wp (Sitewide.parse_sitemap_index E sitemap_url filter_list)
    (fun res w' =>
       exists page_urls,
         res = Ok page_urls /\ heap w' = h /\
         trace w' = (tr ++ page_request sitemap_url
                       :: (page_request <$>
                           List.filter (matches filter_list) (index_locs root)))%list /\
         Forall (fun u => u <> "") page_urls /\
         (List.filter (matches filter_list) (index_locs root) = [] ->
          page_urls = [])) (World h tr).
Proof.
  intros Hsend Hcode Hroot.
  unfold Sitewide.parse_sitemap_index, Sitewide.requests_get.
  apply wp_bind, wp_print, wp_bind.
  eapply wp_exact; [by apply fetch_ok_run|]. cbv beta iota.
  apply wp_bind, wp_lift. rewrite Hroot.
  rewrite sub_sitemaps_filter. cbn [app]. fold (index_locs root).
  apply wp_bind, wp_print, wp_bind.
  eapply wp_conseq; [apply sub_sitemaps_loop_spec|].
  intros res w1 (page_urls & -> & Hheap & Htrace & Hne & Hnil).
  apply wp_bind, wp_print, wp_ret. exists page_urls.
  cbn [heap trace] in *. rewrite Htrace, <- app_assoc. done.
Qed.

(** X13. Once the sitemap index is fetched and parsed, [parse_sitemap_index]
    requests the sub-sitemaps whose address contains one of the filter
    strings, each once and in the order of the index, and nothing else: a
    sub-sitemap that matches no filter string is never fetched. The page
    addresses it returns are not empty, and there is none when no
    sub-sitemap matches. No object is created. *)
Theorem parse_sitemap_index_fetches_matching_only (E : environment) w
    sitemap_url filter_list r root :
  send E (trace w) (page_request sitemap_url) = Ok r ->
  ~ (400 <= r_status_code r < 600) ->
  ET_fromstring E (r_text r) = Ok root ->
  exists page_urls w' out,
    Sitewide.parse_sitemap_index E sitemap_url filter_list w = (Ok page_urls, w', out) /\
    heap w' = heap w /\
    trace w' = (trace w ++ page_request sitemap_url
                  :: (page_request <$> List.filter (matches filter_list) (index_locs root)))%list /\
    Forall (fun u => u <> "") page_urls /\
    (List.filter (matches filter_list) (index_locs root) = [] -> page_urls = []).
Proof.
  intros Hsend Hcode Hroot. destruct w as [h tr]. cbn [trace heap] in *.
  destruct (wp_total _ _ _
              (parse_sitemap_index_parsed E h tr sitemap_url filter_list r root
                 Hsend Hcode Hroot))
    as (res & w' & out & Hrun & page_urls & -> & H).
  by exists page_urls, w', out.
Qed.

Lemma parse_sitemap_index_fetches_matching_only_witness :
  exists page_urls w' out,
    Sitewide.parse_sitemap_index env_two_pages url_index
      ["post-sitemap.xml"; "page-sitemap.xml"] (World [] []) = (Ok page_urls, w', out) /\
    heap w' = heap (World [] []) /\
    trace w' = (trace (World [] []) ++ page_request url_index
                  :: (page_request <$>
                      List.filter (matches ["post-sitemap.xml"; "page-sitemap.xml"])
                        (index_locs
                           (Element (Sitewide.sm "sitemapindex") None
                              [Element (Sitewide.sm "sitemap") None [xml_loc url_posts];
                               Element (Sitewide.sm "sitemap") None
                                 [xml_loc url_categories]]))))%list /\
    Forall (fun u => u <> "") page_urls /\
    (List.filter (matches ["post-sitemap.xml"; "page-sitemap.xml"])
       (index_locs
          (Element (Sitewide.sm "sitemapindex") None
             [Element (Sitewide.sm "sitemap") None [xml_loc url_posts];
              Element (Sitewide.sm "sitemap") None [xml_loc url_categories]])) = [] ->
     page_urls = []).
Proof.
  apply (parse_sitemap_index_fetches_matching_only env_two_pages (World [] []) url_index
           ["post-sitemap.xml"; "page-sitemap.xml"]
           (Response 200 "OK" url_index url_index)).
  - reflexivity.
  - cbn. lia.
  - reflexivity.
Defined.

(** Of the two sub-sitemaps of the index, only the one for the posts is
    requested. *)
Example parse_sitemap_index_requests :
  trace (Sitewide.parse_sitemap_index env_two_pages url_index
           ["post-sitemap.xml"; "page-sitemap.xml"] (World [] [])).1.2
  = [page_request url_index; page_request url_posts].
Proof. vm_compute. reflexivity. Qed.

(** ** The page crawler *)

Lemma parse_sitemap_index_fetch_failure_run E h tr sitemap_url filter_list :
  (exists e, send E tr (page_request sitemap_url) = Raise e) \/
  (exists r, send E tr (page_request sitemap_url) = Ok r /\
             400 <= r_status_code r < 600) ->
  exists e,
    Sitewide.parse_sitemap_index E sitemap_url filter_list (World h tr)
    = (Ok [], World h (tr ++ [page_request sitemap_url]),
       ["  [sitemap] Fetching index: " ++ sitemap_url;
        "  [ERROR] Could not fetch sitemap: " ++ exn_str e]).
Proof.
  intros Hfail.
  destruct (fetch_fail_run E _
              (fun e => "  [ERROR] Could not fetch sitemap: " ++ exn_str e) h tr Hfail)
    as [e Hrun].
  exists e. unfold Sitewide.parse_sitemap_index, Sitewide.requests_get.
  eapply (bind_run _ _ _ _ _ [_] _ _ [_]); [reflexivity|].
  eapply (bind_run _ _ _ _ _ [_] _ _ []); [exact Hrun|]. reflexivity.
Qed.

(** X14. A site whose sitemap index cannot be fetched (the request raises,
    or is answered with a status in [400, 600)) gives no link:
    [crawl_site] makes that one request, prints the error and the warning,
    and returns the empty list without raising; no page is fetched and no
    object is created. *)
Theorem crawl_site_unreachable_index E (site : Sitewide.site_config) w :
  (exists e, send E (trace w) (page_request (Sitewide.sitemap_url site)) = Raise e) \/
  (exists r, send E (trace w) (page_request (Sitewide.sitemap_url site)) = Ok r /\
             400 <= r_status_code r < 600) ->
  exists msg,
    Sitewide.crawl_site E site w
    = (Ok [],
       World (heap w) (trace w ++ [page_request (Sitewide.sitemap_url site)]),
       [nl ++ Sitewide.rule60;
        "  📍 Crawling: " ++ Sitewide.name site;
        Sitewide.rule60;
        "  [sitemap] Fetching index: " ++ Sitewide.sitemap_url site;
        "  [ERROR] Could not fetch sitemap: " ++ msg;
        "  [WARN] No pages found for " ++ Sitewide.name site]).
Proof.
  intros Hfail. destruct w as [h tr]. cbn [heap trace] in *.
  destruct (parse_sitemap_index_fetch_failure_run E h tr (Sitewide.sitemap_url site)
              (Sitewide.sitemap_filter site) Hfail) as [e Hrun].
  exists (exn_str e). unfold Sitewide.crawl_site.
  eapply (bind_run _ _ _ _ _ [_] _ _ [_; _; _; _; _]); [reflexivity|].
  eapply (bind_run _ _ _ _ _ [_] _ _ [_; _; _; _]); [reflexivity|].
  eapply (bind_run _ _ _ _ _ [_] _ _ [_; _; _]); [reflexivity|].
  eapply (bind_run _ _ _ _ _ [_; _] _ _ [_]); [exact Hrun|]. reflexivity.
Qed.

Lemma crawl_site_unreachable_index_witness :
  exists msg,
    Sitewide.crawl_site env_index_down site_eyehike (World [] [])
    = (Ok [],
       World (heap (World [] []))
         (trace (World [] []) ++ [page_request (Sitewide.sitemap_url site_eyehike)]),
       [nl ++ Sitewide.rule60;
        "  📍 Crawling: " ++ Sitewide.name site_eyehike;
        Sitewide.rule60;
        "  [sitemap] Fetching index: " ++ Sitewide.sitemap_url site_eyehike;
        "  [ERROR] Could not fetch sitemap: " ++ msg;
        "  [WARN] No pages found for " ++ Sitewide.name site_eyehike]).
Proof.
  apply (crawl_site_unreachable_index env_index_down site_eyehike (World [] [])).
  right. eexists. split; [reflexivity|]. cbn. lia.
Defined.

(** ** Which failures a crawl survives *)

Lemma wp_and {A} (m : M A) (Q1 Q2 : result A -> world -> Prop) w :
  wp m Q1 w -> wp m Q2 w -> wp m (fun r w' => Q1 r w' /\ Q2 r w') w.
Proof. intros H1 H2 r w' out Hm. split; [eapply H1 | eapply H2]; exact Hm. Qed.


(** The resolver has one way to raise: the body of the index, fetched with
    a status that is accepted, is not XML. *)
Lemma parse_sitemap_index_spec E sitemap_url filter_list w :
  wp (Sitewide.parse_sitemap_index E sitemap_url filter_list)
    (fun res w' =>
       heap w' = heap w /\
       match res with
       | Ok _ => True
       | Raise e =>
           exists r, send E (trace w) (page_request sitemap_url) = Ok r /\
                     ~ (400 <= r_status_code r < 600) /\
                     ET_fromstring E (r_text r) = Raise e
       end) w.
Proof.
  destruct w as [h tr]. cbn [heap trace].
  destruct (send E tr (page_request sitemap_url)) as [r|e] eqn:Hsend.
  - destruct (decide (400 <= r_status_code r < 600)) as [Hcode|Hcode].
    + destruct (parse_sitemap_index_fetch_failure_run E h tr sitemap_url filter_list)
        as [e Hrun]; [right; eauto|].
      eapply wp_exact; [exact Hrun|]. done.
    + destruct (ET_fromstring E (r_text r)) as [root|e] eqn:Hroot.
      * eapply wp_conseq; [by eapply parse_sitemap_index_parsed|].
        intros res w' (page_urls & -> & Hheap & _). done.
      * eapply wp_exact.
        { unfold Sitewide.parse_sitemap_index, Sitewide.requests_get.
          eapply bind_run; [reflexivity|].
          eapply bind_run; [by apply fetch_ok_run|].
          cbv beta iota. eapply bind_raise. unfold lift. rewrite Hroot. reflexivity. }
        split; [done|]. eauto.
  - destruct (parse_sitemap_index_fetch_failure_run E h tr sitemap_url filter_list)
      as [e' Hrun]; [left; eauto|].
    eapply wp_exact; [exact Hrun|]. done.
Qed.






(** * The report stage and the two programs *)

(** ** Running the steps of a process *)

Lemma bindP_returned {A B} (m : MP A) (k : A -> MP B) p w a p1 w1 o1 r p2 w2 o2 :
  m p w = (Returned a, p1, w1, o1) -> k a p1 w1 = (r, p2, w2, o2) ->
  bindP m k p w = (r, p2, w2, (o1 ++ o2)%list).
Proof. intros Hm Hk. unfold bindP. rewrite Hm, Hk. reflexivity. Qed.

Lemma bindP_raised {A B} (m : MP A) (k : A -> MP B) p w e p1 w1 o1 :
  m p w = (Raised e, p1, w1, o1) -> bindP m k p w = (Raised e, p1, w1, o1).
Proof. intros Hm. unfold bindP. rewrite Hm. reflexivity. Qed.

Lemma liftM_run {A} (m : M A) p w r w1 o1 :
  m w = (r, w1, o1) -> liftM m p w = (outcome_of_result r, p, w1, o1).
Proof. intros Hm. unfold liftM. rewrite Hm. by destruct r. Qed.

Lemma try_exceptP_raised {A} (m : MP A) h p w e p1 w1 o1 r p2 w2 o2 :
  m p w = (Raised e, p1, w1, o1) -> h e p1 w1 = (r, p2, w2, o2) ->
  try_exceptP m h p w = (r, p2, w2, (o1 ++ o2)%list).
Proof. intros Hm Hh. unfold try_exceptP. rewrite Hm, Hh. reflexivity. Qed.

(** ** Reasoning about the steps of a process *)

Lemma wpP_run {A} (m : MP A) Q p w r p' w' out :
  wpP m Q p w -> m p w = (r, p', w', out) -> Q r p' w' out.
Proof. intros H. apply H. Qed.

Lemma wpP_total {A} (m : MP A) Q p w :
  wpP m Q p w -> exists r p' w' out, m p w = (r, p', w', out) /\ Q r p' w' out.
Proof.
  intros H. destruct (m p w) as [[[r p'] w'] out] eqn:Hm.
  exists r, p', w', out. split; [reflexivity|]. eapply H, Hm.
Qed.

Lemma wpP_conseq {A} (m : MP A) (Q Q' : outcome A -> process -> world -> list string -> Prop)
    p w :
  wpP m Q p w -> (forall r p' w' out, Q r p' w' out -> Q' r p' w' out) -> wpP m Q' p w.
Proof. intros H HQ r p' w' out Hm. eapply HQ, H, Hm. Qed.

Lemma wpP_ret {A} (a : A) (Q : outcome A -> process -> world -> list string -> Prop) p w :
  Q (Returned a) p w [] -> wpP (retP a) Q p w.
Proof. intros H r p' w' out [= <- <- <- <-]. exact H. Qed.

Lemma wpP_bind {A B} (m : MP A) (k : A -> MP B)
    (Q : outcome B -> process -> world -> list string -> Prop) p w :
  wpP m (fun r p1 w1 o1 =>
           match r with
           | Returned a => wpP (k a) (fun r2 p2 w2 o2 => Q r2 p2 w2 (o1 ++ o2)%list) p1 w1
           | Raised e => Q (Raised e) p1 w1 o1
           | Exited c => Q (Exited c) p1 w1 o1
           end) p w ->
  wpP (bindP m k) Q p w.
Proof.
  intros H r p' w' out. unfold bindP.
  destruct (m p w) as [[[[a|e|c] p1] w1] o1] eqn:Hm; specialize (H _ _ _ _ Hm).
  - simpl in H. destruct (k a p1 w1) as [[[r2 p2] w2] o2] eqn:Hk.
    intros [= <- <- <- <-]. eapply H, Hk.
  - intros [= <- <- <- <-]. exact H.
  - intros [= <- <- <- <-]. exact H.
Qed.

Lemma wpP_try {A} (m : MP A) (h : exn -> MP A)
    (Q : outcome A -> process -> world -> list string -> Prop) p w :
  wpP m (fun r p1 w1 o1 =>
           match r with
           | Returned a => Q (Returned a) p1 w1 o1
           | Raised e => wpP (h e) (fun r2 p2 w2 o2 => Q r2 p2 w2 (o1 ++ o2)%list) p1 w1
           | Exited c => Q (Exited c) p1 w1 o1
           end) p w ->
  wpP (try_exceptP m h) Q p w.
Proof.
  intros H r p' w' out. unfold try_exceptP.
  destruct (m p w) as [[[[a|e|c] p1] w1] o1] eqn:Hm; specialize (H _ _ _ _ Hm).
  - intros [= <- <- <- <-]. exact H.
  - simpl in H. destruct (h e p1 w1) as [[[r2 p2] w2] o2] eqn:Hh.
    intros [= <- <- <- <-]. eapply H, Hh.
  - intros [= <- <- <- <-]. exact H.
Qed.

Lemma wpP_liftM {A} (m : M A) (Q : outcome A -> process -> world -> list string -> Prop)
    p w :
  wpo m (fun r w' out => Q (outcome_of_result r) p w' out) w -> wpP (liftM m) Q p w.
Proof.
  intros H r p' w' out. unfold liftM.
  destruct (m w) as [[[a|e] w1] o1] eqn:Hm; specialize (H _ _ _ Hm);
    intros [= <- <- <- <-]; exact H.
Qed.

Lemma wpP_print_stderr line (Q : outcome unit -> process -> world -> list string -> Prop)
    p w :
  Q (Returned tt) (Process (files p) (stderr p ++ [line])) w [] ->
  wpP (print_stderr line) Q p w.
Proof. intros H r p' w' out [= <- <- <- <-]. exact H. Qed.

Lemma wpP_sys_exit {A} code (Q : outcome A -> process -> world -> list string -> Prop) p w :
  Q (Exited code) p w [] -> wpP (sys_exit code) Q p w.
Proof. intros H r p' w' out [= <- <- <- <-]. exact H. Qed.

Lemma wpP_with_open_w Ho path (content : M string)
    (Q : outcome unit -> process -> world -> list string -> Prop) p w :
  (forall e, open_w Ho (files p) path = Raise e -> Q (Raised e) p w []) ->
  (open_w Ho (files p) path = Ok tt ->
   wpo content
     (fun r w' out =>
        match r with
        | Ok text => Q (Returned tt) (Process (<[path := text]> (files p)) (stderr p)) w' out
        | Raise e => Q (Raised e) (Process (<[path := ""]> (files p)) (stderr p)) w' out
        end) w) ->
  wpP (with_open_w Ho path content) Q p w.
Proof.
  intros Hfail Hok r p' w' out. unfold with_open_w.
  destruct (open_w Ho (files p) path) as [[]|e] eqn:Hopen.
  - specialize (Hok eq_refl).
    destruct (content w) as [[[text|e] w1] o1] eqn:Hc; specialize (Hok _ _ _ Hc);
      intros [= <- <- <- <-]; exact Hok.
  - intros [= <- <- <- <-]. by apply Hfail.
Qed.

(** ** Computations with their output *)

Lemma wpo_of_wp {A} (m : M A) (Q : result A -> world -> Prop) w :
  wp m Q w -> wpo m (fun r w' _ => Q r w') w.
Proof. intros H r w' out Hm. eapply H, Hm. Qed.

Lemma wpo_conseq {A} (m : M A) (Q Q' : result A -> world -> list string -> Prop) w :
  wpo m Q w -> (forall r w' out, Q r w' out -> Q' r w' out) -> wpo m Q' w.
Proof. intros H HQ r w' out Hm. eapply HQ, H, Hm. Qed.

Lemma wpo_ret {A} (a : A) (Q : result A -> world -> list string -> Prop) w :
  Q (Ok a) w [] -> wpo (ret a) Q w.
Proof. intros H r w' out [= <- <- <-]. exact H. Qed.

Lemma wpo_print line (Q : result unit -> world -> list string -> Prop) w :
  Q (Ok tt) w [line] -> wpo (print line) Q w.
Proof. intros H r w' out [= <- <- <-]. exact H. Qed.

Lemma wpo_bind {A B} (m : M A) (k : A -> M B)
    (Q : result B -> world -> list string -> Prop) w :
  wpo m (fun r w1 o1 =>
           match r with
           | Ok a => wpo (k a) (fun r2 w2 o2 => Q r2 w2 (o1 ++ o2)%list) w1
           | Raise e => Q (Raise e) w1 o1
           end) w ->
  wpo (bind m k) Q w.
Proof.
  intros H r w' out. unfold bind.
  destruct (m w) as [[[a|e] w1] o1] eqn:Hm; specialize (H _ _ _ Hm).
  - simpl in H. destruct (k a w1) as [[r2 w2] o2] eqn:Hk.
    intros [= <- <- <-]. eapply H, Hk.
  - intros [= <- <- <-]. exact H.
Qed.

(** ** Computations that only read *)

Lemma readonly_run {A} (m : M A) w r w' out :
  readonly m -> m w = (r, w', out) -> w' = w.
Proof. intros H Hm. specialize (H w). rewrite Hm in H. exact H. Qed.

Lemma readonly_wp {A} (m : M A) w : readonly m -> wp m (fun _ w' => w' = w) w.
Proof. intros H r w' out Hm. by eapply readonly_run. Qed.

Lemma readonly_ret {A} (a : A) : readonly (ret a).
Proof. by intros w. Qed.

Lemma readonly_raise {A} e : readonly (@raise A e).
Proof. by intros w. Qed.

Lemma readonly_lift {A} (r : result A) : readonly (lift r).
Proof. by intros w. Qed.

Lemma readonly_print line : readonly (print line).
Proof. by intros w. Qed.

Lemma readonly_bind {A B} (m : M A) (k : A -> M B) :
  readonly m -> (forall a, readonly (k a)) -> readonly (bind m k).
Proof.
  intros Hm Hk w. unfold bind. specialize (Hm w).
  destruct (m w) as [[[a|e] w1] o1]; cbn in Hm; subst w1; [|done].
  specialize (Hk a w). by destruct (k a w) as [[r w2] o2].
Qed.

Lemma readonly_for_each {A B} (xs : list A) (body : B -> A -> M B) : forall acc,
  (forall acc x, readonly (body acc x)) -> readonly (for_each xs acc body).
Proof.
  induction xs as [|x xs IH]; intros acc Hbody; cbn [for_each].
  - apply readonly_ret.
  - apply readonly_bind; [apply Hbody|]. intros acc'. by apply IH.
Qed.

Lemma readonly_deref l : readonly (deref l).
Proof. intros w. unfold deref. by destruct (heap w !! l). Qed.

Lemma readonly_getitem l k : readonly (getitem l k).
Proof.
  apply readonly_bind; [apply readonly_deref|]. intros d.
  destruct (d !! k); [apply readonly_ret | apply readonly_raise].
Qed.

Lemma readonly_dict_get l k dflt : readonly (dict_get l k dflt).
Proof. apply readonly_bind; [apply readonly_deref|]. intros d. apply readonly_ret. Qed.

Lemma readonly_dict_get_opt l k : readonly (dict_get_opt l k).
Proof. apply readonly_bind; [apply readonly_deref|]. intros d. apply readonly_ret. Qed.

Lemma readonly_as_str v : readonly (as_str v).
Proof. destruct v; [apply readonly_ret | apply readonly_raise]. Qed.

Lemma readonly_slice_value n v : readonly (slice_value n v).
Proof. apply readonly_bind; [apply readonly_as_str|]. intros s. apply readonly_ret. Qed.

Lemma readonly_strftime_now Ho fmt : readonly (strftime_now Ho fmt).
Proof. by intros w. Qed.

Lemma readonly_count_if results cond :
  (forall r, readonly (cond r)) -> readonly (count_if results cond).
Proof.
  intros Hcond. apply readonly_for_each. intros n r.
  apply readonly_bind; [apply Hcond|]. intros b. apply readonly_ret.
Qed.

Lemma readonly_filter_if results cond :
  (forall r, readonly (cond r)) -> readonly (filter_if results cond).
Proof.
  intros Hcond. apply readonly_for_each. intros n r.
  apply readonly_bind; [apply Hcond|]. intros b. apply readonly_ret.
Qed.

Lemma readonly_status_is st r : readonly (status_is st r).
Proof. apply readonly_bind; [apply readonly_getitem|]. intros v. apply readonly_ret. Qed.

Lemma readonly_status_in sts r : readonly (status_in sts r).
Proof. apply readonly_bind; [apply readonly_getitem|]. intros v. apply readonly_ret. Qed.

Lemma readonly_site_is sname r : readonly (Sitewide.site_is sname r).
Proof. apply readonly_bind; [apply readonly_dict_get_opt|]. intros v. apply readonly_ret. Qed.

Create HintDb readonly.
#[export] Hint Resolve readonly_ret readonly_raise readonly_lift readonly_print
  readonly_deref readonly_getitem readonly_dict_get readonly_dict_get_opt readonly_as_str
  readonly_slice_value readonly_strftime_now readonly_status_is readonly_status_in
  readonly_site_is : readonly.

Ltac readonly :=
  repeat first
    [ progress intros
    | solve [auto with readonly]
    | apply readonly_bind
    | apply readonly_for_each
    | apply readonly_count_if
    | apply readonly_filter_if
    | match goal with
      | |- readonly ((let '(_, _) := ?x in _) _) => destruct x; cbv beta
      | |- readonly (let '(_, _) := ?x in _) => destruct x
      | |- readonly (match ?x with _ => _ end) => destruct x
      | |- readonly (if ?c then _ else _) => destruct c
      end ].

(** ** Exit and standard error *)

Lemma no_exit_liftM {A} (m : M A) : no_exit (liftM m).
Proof.
  intros p w r p' w' out. unfold liftM.
  destruct (m w) as [[[a|e] w1] o1]; intros [= <- <- <- <-]; done.
Qed.

Lemma no_exit_with_open_w Ho path content : no_exit (with_open_w Ho path content).
Proof.
  intros p w r p' w' out. unfold with_open_w.
  destruct (open_w Ho (files p) path) as [[]|e];
    [destruct (content w) as [[[text|e] w1] o1]|];
    intros [= <- <- <- <-]; done.
Qed.

Lemma no_exit_bindP {A B} (m : MP A) (k : A -> MP B) :
  no_exit m -> (forall a, no_exit (k a)) -> no_exit (bindP m k).
Proof.
  intros Hm Hk p w r p' w' out. unfold bindP.
  destruct (m p w) as [[[[a|e|c] p1] w1] o1] eqn:Hrun;
    destruct (Hm _ _ _ _ _ _ Hrun) as [Hne Herr].
  - destruct (k a p1 w1) as [[[r2 p2] w2] o2] eqn:Hrun2.
    destruct (Hk a _ _ _ _ _ _ Hrun2) as [Hne2 Herr2].
    intros [= <- <- <- <-]. split; [done|]. congruence.
  - intros [= <- <- <- <-]. done.
  - by destruct (Hne c).
Qed.

Lemma no_exit_webcam_generate_html_report Ho results report_path :
  no_exit (Webcam.generate_html_report Ho results report_path).
Proof.
  unfold Webcam.generate_html_report.
  apply no_exit_bindP; [apply no_exit_liftM|]. intros html.
  apply no_exit_bindP; [apply no_exit_with_open_w|]. intros _. apply no_exit_liftM.
Qed.

Lemma no_exit_webcam_save_json Ho results json_path :
  no_exit (Webcam.save_json Ho results json_path).
Proof.
  unfold Webcam.save_json.
  apply no_exit_bindP; [apply no_exit_with_open_w|]. intros _. apply no_exit_liftM.
Qed.

Lemma no_exit_wpP {A} (m : MP A) p w :
  no_exit m ->
  wpP m (fun r p' _ _ => (forall c, r <> Exited c) /\ stderr p' = stderr p) p w.
Proof. intros H r p' w' out Hm. eapply H, Hm. Qed.

(** X16. The webcam program never ends in an exception. A run of [main]
    either returns, having written nothing to standard error, or leaves
    through [sys.exit(1)] after one line "[ERROR] ..." on standard error
    that carries the text of the exception caught: scraping, checking,
    report and snapshot are all inside the [try] block. *)
Theorem webcam_main_exit_status (E : environment) (Ho : host) p w :
  exists p' w' out,
    (Webcam.main E Ho p w = (Returned tt, p', w', out) /\ stderr p' = stderr p) \/
    (exists e,
       Webcam.main E Ho p w = (Exited 1, p', w', out) /\
       stderr p' = (stderr p ++ [("[ERROR] " ++ exn_str e)%string])%list).
Proof.
  assert (Hwp : wpP (Webcam.main E Ho)
            (fun r p' _ _ =>
               (r = Returned tt /\ stderr p' = stderr p) \/
               (exists e, r = Exited 1 /\
                          stderr p' = (stderr p ++ [("[ERROR] " ++ exn_str e)%string])%list))
            p w).
  { unfold Webcam.main.
    apply wpP_bind, wpP_liftM. intros r w0 o0 [= <- <- <-]. cbn [outcome_of_result].
    cbv zeta. apply wpP_try.
    eapply wpP_conseq.
    { apply no_exit_wpP.
      apply no_exit_bindP; [apply no_exit_liftM|]. intros links.
      apply no_exit_bindP; [apply no_exit_liftM|]. intros results.
      apply no_exit_bindP; [apply no_exit_webcam_generate_html_report|]. intros _.
      apply no_exit_bindP; [apply no_exit_webcam_save_json|]. intros _.
      apply no_exit_liftM. }
    intros [[]|e|c] p1 w1 o1 [Hne Herr].
    - by left.
    - apply wpP_bind, wpP_print_stderr, wpP_sys_exit. right. exists e.
      cbn [stderr]. by rewrite Herr.
    - by destruct (Hne c). }
  destruct (wpP_total _ _ _ _ Hwp) as (r & p' & w' & out & Hrun & H).
  exists p', w', out. destruct H as [[-> Herr]|(e & -> & Herr)]; [by left|right; eauto].
Qed.

(** ** Fatal failures *)

Lemma liftM_ok {A} (m : M A) p w a w1 o1 :
  m w = (Ok a, w1, o1) -> liftM m p w = (Returned a, p, w1, o1).
Proof. intros Hm. unfold liftM. by rewrite Hm. Qed.

Lemma liftM_raise {A} (m : M A) p w e w1 o1 :
  m w = (Raise e, w1, o1) -> liftM m p w = (Raised e, p, w1, o1).
Proof. intros Hm. unfold liftM. by rewrite Hm. Qed.

Lemma scrape_links_fetch_failure_run E h tr url :
  (exists e, send E tr (Request GET url Webcam.HEADERS Webcam.TIMEOUT true false)
             = Raise e) \/
  (exists r, send E tr (Request GET url Webcam.HEADERS Webcam.TIMEOUT true false)
             = Ok r /\ 400 <= r_status_code r < 600) ->
  exists e,
    Webcam.scrape_links E url (World h tr)
    = (Raise e,
       World h (tr ++ [Request GET url Webcam.HEADERS Webcam.TIMEOUT true false]),
       ["[+] Fetching page: " ++ url]) /\
    (send E tr (Request GET url Webcam.HEADERS Webcam.TIMEOUT true false) = Raise e
     \/ exn_class_of e = HTTPError).
Proof.
  intros Hfail. unfold Webcam.scrape_links, Webcam.requests_get.
  destruct Hfail as [[e Hsend]|(r & Hsend & Hcode)].
  - exists e. split; [|by left].
    eapply (bind_run _ _ _ _ _ [_] _ _ []); [reflexivity|].
    eapply bind_raise, requests_request_run. exact Hsend.
  - destruct (raise_for_status_raise r
                (World h (tr ++ [Request GET url Webcam.HEADERS Webcam.TIMEOUT true false]))
                Hcode) as [msg Hraise].
    exists (Exn HTTPError msg). split; [|by right].
    eapply (bind_run _ _ _ _ _ [_] _ _ []); [reflexivity|].
    eapply (bind_run _ _ _ _ _ [] _ _ []);
      [eapply requests_request_run; exact Hsend|].
    eapply bind_raise. exact Hraise.
Qed.

(** X17. When the webcam page cannot be fetched (the request raises, or is
    answered with a status in [400, 600)), [main] makes that one request,
    prints the text of the exception on standard error as "[ERROR] ..." and
    leaves with status 1. No file is written: there is no partial report. *)
Theorem webcam_main_fetch_failure (E : environment) (Ho : host) p w :
  (exists e, send E (trace w)
               (Request GET Webcam.TARGET_URL Webcam.HEADERS Webcam.TIMEOUT true false)
             = Raise e) \/
  (exists r, send E (trace w)
               (Request GET Webcam.TARGET_URL Webcam.HEADERS Webcam.TIMEOUT true false)
             = Ok r /\ 400 <= r_status_code r < 600) ->
  exists e,
    Webcam.main E Ho p w
    = (Exited 1,
       Process (files p) (stderr p ++ [("[ERROR] " ++ exn_str e)%string]),
       World (heap w)
         (trace w ++
          [Request GET Webcam.TARGET_URL Webcam.HEADERS Webcam.TIMEOUT true false]),
       ["[+] Fetching page: " ++ Webcam.TARGET_URL]) /\
    (send E (trace w)
       (Request GET Webcam.TARGET_URL Webcam.HEADERS Webcam.TIMEOUT true false) = Raise e
     \/ exn_class_of e = HTTPError).
Proof.
  intros Hfail. destruct w as [h tr]. cbn [heap trace] in *.
  destruct (scrape_links_fetch_failure_run E h tr Webcam.TARGET_URL Hfail)
    as (e & Hrun & Hclass).
  exists e. split; [|exact Hclass]. unfold Webcam.main.
  eapply (bindP_returned _ _ _ _ _ _ _ [] _ _ _ [_]); [by apply liftM_ok|].
  cbv zeta.
  eapply (try_exceptP_raised _ _ _ _ _ _ _ [_] _ _ _ []).
  - eapply bindP_raised, liftM_raise. exact Hrun.
  - reflexivity.
Qed.

Lemma webcam_main_fetch_failure_witness :
  exists e,
    Webcam.main env_index_down host_ok (Process ∅ []) (World [] [])
    = (Exited 1,
       Process (files (Process ∅ []))
         (stderr (Process ∅ []) ++ [("[ERROR] " ++ exn_str e)%string]),
       World (heap (World [] []))
         (trace (World [] []) ++
          [Request GET Webcam.TARGET_URL Webcam.HEADERS Webcam.TIMEOUT true false]),
       ["[+] Fetching page: " ++ Webcam.TARGET_URL]) /\
    (send env_index_down (trace (World [] []))
       (Request GET Webcam.TARGET_URL Webcam.HEADERS Webcam.TIMEOUT true false) = Raise e
     \/ exn_class_of e = HTTPError).
Proof.
  apply (webcam_main_fetch_failure env_index_down host_ok (Process ∅ []) (World [] [])).
  right. eexists. split; [reflexivity|]. cbn. lia.
Defined.

Lemma wp_strftime_now Ho fmt (Q : result string -> world -> Prop) w :
  Q (Ok (now_strftime Ho (trace w) fmt)) w -> wp (strftime_now Ho fmt) Q w.
Proof. intros H r w' out [= <- <- _]. exact H. Qed.

Lemma crawl_site_malformed_index_run E (site : Sitewide.site_config) h tr r e :
  send E tr (page_request (Sitewide.sitemap_url site)) = Ok r ->
  ~ (400 <= r_status_code r < 600) ->
  ET_fromstring E (r_text r) = Raise e ->
  exists out,
    Sitewide.crawl_site E site (World h tr)
    = (Raise e, World h (tr ++ [page_request (Sitewide.sitemap_url site)]), out).
Proof.
  intros Hsend Hcode Hroot. eexists. unfold Sitewide.crawl_site.
  eapply bind_run; [reflexivity|].
  eapply bind_run; [reflexivity|].
  eapply bind_run; [reflexivity|].
  eapply bind_raise.
  unfold Sitewide.parse_sitemap_index, Sitewide.requests_get.
  eapply bind_run; [reflexivity|].
  eapply bind_run; [by apply fetch_ok_run|].
  cbv beta iota. eapply bind_raise. unfold lift. rewrite Hroot. reflexivity.
Qed.

(** X18. The sitewide program has no handler. When the sitemap index of the
    first site is fetched with an accepted status and its body is not XML,
    [main] ends in the exception of the parser after that one request:
    the second site is not crawled, no link is checked, and no file is
    written. *)
Theorem sitewide_main_malformed_index_aborts (E : environment) (Ho : host) p w r e :
  send E (trace w) (page_request eyehike_index) = Ok r ->
  ~ (400 <= r_status_code r < 600) ->
  ET_fromstring E (r_text r) = Raise e ->
  exists out,
    Sitewide.main E Ho p w
    = (Raised e, p, World (heap w) (trace w ++ [page_request eyehike_index]), out).
Proof.
  intros Hsend Hcode Hroot. destruct w as [h tr]. cbn [heap trace] in *.
  destruct (crawl_site_malformed_index_run E
              (Sitewide.SiteConfig "Eyehike" "https://www.eyehike.com" eyehike_index
                 ["post-sitemap.xml"; "page-sitemap.xml"]
                 {[ "www.eyehike.com"; "eyehike.com" ]}) h tr r e Hsend Hcode Hroot)
    as [out Hcrawl].
  eexists. unfold Sitewide.main.
  eapply (bindP_returned _ _ _ _ _ _ _ []); [by apply liftM_ok|].
  cbv zeta. eapply bindP_raised, liftM_raise.
  eapply bind_run; [reflexivity|].
  eapply bind_run; [reflexivity|].
  eapply bind_run; [reflexivity|].
  eapply bind_run; [reflexivity|].
  eapply bind_run; [reflexivity|].
  eapply bind_raise. unfold Sitewide.SITES. cbn [for_each].
  eapply bind_raise, bind_raise. exact Hcrawl.
Qed.

Lemma sitewide_main_malformed_index_aborts_witness :
  exists out,
    Sitewide.main env_maintenance host_ok (Process ∅ []) (World [] [])
    = (Raised (Exn ParseError "syntax error: line 1, column 0"), Process ∅ [],
       World (heap (World [] [])) (trace (World [] []) ++ [page_request eyehike_index]),
       out).
Proof.
  apply (sitewide_main_malformed_index_aborts env_maintenance host_ok (Process ∅ [])
           (World [] []) (Response 200 "OK" eyehike_index "Down for maintenance")).
  - reflexivity.
  - cbn. lia.
  - reflexivity.
Defined.

(** ** The results of the check, whatever the links are *)

Lemma field_grows w w' l k v : grows w w' -> field w l k = Some v -> field w' l k = Some v.
Proof.
  intros Hg Hf. apply field_Some in Hf as (d & Hd & Hk).
  assert (Hd' : heap w' !! l = Some d) by exact (grows_lookup _ _ _ _ Hg Hd).
  unfold field. by rewrite Hd'.
Qed.

Lemma has_status_grows w w' l : grows w w' -> has_status w l -> has_status w' l.
Proof. intros Hg (st & Hst & Hin). exists st. eauto using field_grows. Qed.

Lemma getitem_fail_run l k w :
  heap w !! l = None \/ (exists d, heap w !! l = Some d /\ d !! k = None) ->
  exists e, getitem l k w = (Raise e, w, []).
Proof.
  unfold getitem, bind, deref. intros [Hl|(d & Hl & Hk)]; rewrite Hl; cbn.
  - by eexists.
  - rewrite Hk. by eexists.
Qed.

(** A check that returns has made a result with one of the five statuses;
    a check of something that is no link raises and changes nothing. *)
Lemma check_link_any_spec (s : script) E entry w :
  wp (check_link_of s E entry)
    (fun r w' => grows w w' /\ forall l, r = Ok l -> has_status w' l) w.
Proof.
  destruct (heap w !! entry) as [d|] eqn:Hd;
    [destruct (d !! "url") as [[u|n]|] eqn:Hu|].
  - destruct (check_link_run s E w entry d u Hd Hu) as [out Hrun].
    eapply wp_exact; [exact Hrun|]. split; [eexists [_]; reflexivity|].
    intros l [= <-].
    destruct (classify_status u
                (exchange E (trace w) (head_request s u) (get_request s u)).1)
      as (st & Hst & Hin).
    exists st. split; [|exact Hin].
    by rewrite field_last, field_checked_status, Hst.
  - destruct s; cbn [check_link_of];
      [unfold Sitewide.check_link | unfold Webcam.check_link];
      (apply wp_bind; eapply wp_getitem; [exact Hd | exact Hu |]);
      apply wp_bind, wp_raise; (split; [apply grows_refl | intros ? [=]]).
  - destruct (getitem_fail_run entry "url" w) as [e Hrun]; [right; eauto|].
    destruct s; cbn [check_link_of];
      [unfold Sitewide.check_link | unfold Webcam.check_link];
      (eapply wp_exact; [eapply bind_raise; exact Hrun|]);
      (split; [apply grows_refl | intros ? [=]]).
  - destruct (getitem_fail_run entry "url" w) as [e Hrun]; [by left|].
    destruct s; cbn [check_link_of];
      [unfold Sitewide.check_link | unfold Webcam.check_link];
      (eapply wp_exact; [eapply bind_raise; exact Hrun|]);
      (split; [apply grows_refl | intros ? [=]]).
Qed.

Lemma collect_any_spec (futs : list (result loc)) w :
  wp (for_each futs []
        (fun results future =>
           r <- future_result future ;; ret (results ++ [r])%list))
    (fun res w' => w' = w /\ forall collected, res = Ok collected -> futs = Ok <$> collected) w.
Proof.
  eapply (wp_for_each
            (fun done results w' => w' = w /\ done = Ok <$> results)
            (fun _ w' => w' = w)).
  - done.
  - intros done fut rest results w' Hxs [-> ->].
    apply wp_bind, wp_lift. destruct fut as [l|e]; [|done].
    apply wp_ret. split; [done|]. by rewrite fmap_app.
  - intros results w' [-> Heq]. split; [done|]. by intros ? [= <-].
  - intros e w' ->. split; [done|]. intros ? [=].
Qed.

Lemma sort_keys_any_spec {K} (sort_key : loc -> M K) results w :
  (forall l, readonly (sort_key l)) ->
  wp (for_each results []
        (fun keyed r => k <- sort_key r ;; ret (keyed ++ [(k, r)])%list))
    (fun res w' => w' = w /\ forall keyed, res = Ok keyed -> map snd keyed = results) w.
Proof.
  intros Hro.
  eapply (wp_for_each
            (fun done keyed w' => w' = w /\ map snd keyed = done)
            (fun _ w' => w' = w)).
  - done.
  - intros done l rest keyed w' Hxs [-> Hkeyed].
    apply wp_bind. eapply wp_conseq; [apply readonly_wp, Hro|].
    intros [k|e] w' ->; [|done]. apply wp_ret. split; [done|].
    rewrite map_app, Hkeyed. done.
  - intros keyed w' [-> Heq]. split; [done|]. by intros ? [= <-].
  - intros e w' ->. split; [done|]. intros ? [=].
Qed.

Lemma readonly_sitewide_sort_key l : readonly (Sitewide.sort_key l).
Proof. unfold Sitewide.sort_key. readonly. Qed.

Lemma readonly_webcam_sort_key l : readonly (Webcam.sort_key l).
Proof. unfold Webcam.sort_key. readonly. Qed.

Lemma sorted_results_spec {K} (lt : K -> K -> bool) (sort_key : loc -> M K)
    (futs : list (result loc)) (P : loc -> Prop) w :
  (forall l, readonly (sort_key l)) ->
  (forall l, Ok l ∈ futs -> P l) ->
  wp (results <-
        for_each futs []
          (fun results future =>
             r <- future_result future ;; ret (results ++ [r])%list) ;;
      keyed <-
        for_each results []
          (fun keyed r => k <- sort_key r ;; ret (keyed ++ [(k, r)])%list) ;;
      ret (map snd (stable_sort lt fst keyed)))
    (fun res w' =>
       w' = w /\
       forall results, res = Ok results ->
         Forall P results /\ length results = length futs) w.
Proof.
  intros Hro HP. apply wp_bind.
  eapply wp_conseq; [apply collect_any_spec|].
  intros [collected|e] w1 [-> Hcol]; [|split; [done|intros ? [=]]].
  specialize (Hcol collected eq_refl). subst futs.
  apply wp_bind. eapply wp_conseq; [by apply sort_keys_any_spec|].
  intros [keyed|e] w1 [-> Hkeys]; [|split; [done|intros ? [=]]].
  specialize (Hkeys keyed eq_refl). apply wp_ret. split; [done|].
  intros results [= <-].
  assert (Hperm : map snd (stable_sort lt fst keyed) ≡ₚ collected).
  { rewrite <- Hkeys. apply Permutation_map, stable_sort_perm. }
  split.
  - rewrite Hperm. apply Forall_forall. intros l Hl. apply HP.
    apply list_elem_of_fmap. eauto.
  - rewrite Hperm. by rewrite length_fmap.
Qed.

(** The results that [check_all_links] returns, for any list of links and
    any scheduler: each has one of the five statuses. *)
Lemma check_all_links_statuses (s : script) E links w :
  wp (check_all_links_of s E links)
    (fun res w' =>
       grows w w' /\
       forall results, res = Ok results ->
         Forall (has_status w') results /\
         length results = length (as_completed E loc links)) w.
Proof.
  assert (Hpool : wp (pool_as_completed E (check_link_of s E) links)
            (fun r w' => grows w w' /\
               exists futs, r = Ok futs /\
                 length futs = length (as_completed E loc links) /\
                 forall l, Ok l ∈ futs -> has_status w' l) w).
  { unfold pool_as_completed. eapply wp_conseq.
    { apply (run_tasks_spec (check_link_of s E) (fun _ _ => True)
               (fun _ fut w' => forall l, fut = Ok l -> has_status w' l)).
      - intros x w0 _. apply check_link_any_spec.
      - done.
      - intros x fut w0 w0' Hg H l Hl. eapply has_status_grows; eauto.
      - apply Forall_forall. done. }
    intros r w' (Hg & futs & -> & Hall). split; [exact Hg|].
    exists futs. split; [done|]. split; [symmetry; by eapply Forall2_length|].
    intros l Hl. apply list_elem_of_lookup in Hl as [i Hi].
    destruct (Forall2_lookup_r _ _ _ _ _ Hall Hi) as (x & _ & H). by apply H. }
  destruct s; cbn [check_all_links_of check_link_of] in *.
  - unfold Sitewide.check_all_links.
    apply wp_bind, wp_print, wp_bind, wp_print, wp_bind, wp_print, wp_bind.
    eapply wp_conseq; [exact Hpool|].
    intros r w1 (Hg & futs & -> & Hlen & Hall).
    eapply wp_conseq.
    { apply (sorted_results_spec key_lt Sitewide.sort_key futs (has_status w1));
        [apply readonly_sitewide_sort_key | exact Hall]. }
    intros res w' [-> Hres]. split; [exact Hg|].
    intros results Hok. destruct (Hres results Hok). split; [done|]. congruence.
  - unfold Webcam.check_all_links.
    apply wp_bind, wp_print, wp_bind.
    eapply wp_conseq; [exact Hpool|].
    intros r w1 (Hg & futs & -> & Hlen & Hall).
    eapply wp_conseq.
    { apply (sorted_results_spec Z.ltb Webcam.sort_key futs (has_status w1));
        [apply readonly_webcam_sort_key | exact Hall]. }
    intros res w' [-> Hres]. split; [exact Hg|].
    intros results Hok. destruct (Hres results Hok). split; [done|]. congruence.
Qed.

(** ** Counting the results *)

Lemma count_status_app w sts l1 l2 :
  count_status w sts (l1 ++ l2) = (count_status w sts l1 + count_status w sts l2)%nat.
Proof. unfold count_status. by rewrite List.filter_app, length_app. Qed.

Lemma count_status_one w sts l :
  count_status w sts [l]
  = if bool_decide (field w l "status" ∈ (fun st => Some (VStr st)) <$> sts)
    then 1%nat else 0%nat.
Proof. unfold count_status. cbn. by case_bool_decide. Qed.

Lemma status_in_spec sts l w v :
  field w l "status" = Some v ->
  wp (status_in sts l)
    (fun r w' =>
       w' = w /\
       r = Ok (bool_decide (field w l "status" ∈ (fun st => Some (VStr st)) <$> sts))) w.
Proof.
  intros Hv. destruct (field_Some _ _ _ _ Hv) as (d & Hd & Hk).
  unfold status_in. apply wp_bind. eapply wp_getitem; [exact Hd | exact Hk |].
  apply wp_ret. split; [done|]. f_equal. rewrite Hv.
  apply bool_decide_ext. rewrite !list_elem_of_fmap. split.
  - intros (st & -> & Hin). eauto.
  - intros (st & [= ->] & Hin). eauto.
Qed.

Lemma status_is_spec st l w v :
  field w l "status" = Some v ->
  wp (status_is st l)
    (fun r w' =>
       w' = w /\
       r = Ok (bool_decide (field w l "status" ∈ (fun st => Some (VStr st)) <$> [st]))) w.
Proof.
  intros Hv. destruct (field_Some _ _ _ _ Hv) as (d & Hd & Hk).
  unfold status_is. apply wp_bind. eapply wp_getitem; [exact Hd | exact Hk |].
  apply wp_ret. split; [done|]. f_equal. rewrite Hv.
  apply bool_decide_ext. cbn. rewrite list_elem_of_singleton. split; congruence.
Qed.

Lemma count_if_spec (cond : loc -> M bool) sts results w :
  (forall l, l ∈ results ->
     wp (cond l)
       (fun r w' =>
          w' = w /\
          r = Ok (bool_decide (field w l "status" ∈ (fun st => Some (VStr st)) <$> sts)))
       w) ->
  wp (count_if results cond)
    (fun r w' => w' = w /\ r = Ok (count_status w sts results)) w.
Proof.
  intros Hcond. unfold count_if.
  eapply (wp_for_each
            (fun done n w' => w' = w /\ n = count_status w sts done)
            (fun _ _ => False)).
  - done.
  - intros done l rest n w' Hxs [-> ->]. apply wp_bind.
    eapply wp_conseq.
    { apply Hcond. rewrite Hxs. apply elem_of_app. right. by left. }
    intros r w' [-> ->]. apply wp_ret. split; [done|].
    rewrite count_status_app, count_status_one. case_bool_decide; lia.
  - intros n w' [-> ->]. done.
  - by intros e w' [].
Qed.

Lemma has_status_field w l : has_status w l -> exists v, field w l "status" = Some v.
Proof. intros (st & Hst & _). eauto. Qed.

Lemma string_eq_no_other (a b : string) : a <> b -> Some (VStr a) <> Some (VStr b).
Proof. congruence. Qed.

Ltac decide_status :=
  exfalso;
  repeat match goal with
    | H : _ ∈ _ :: _ |- _ => apply elem_of_cons in H as [H|H]; [discriminate H|]
    | H : _ ∈ [] |- _ => by apply elem_of_nil in H
    | H : ~ (_ ∈ _) |- _ => apply H; clear; solve [repeat first [by left | right]]
    end.

(** Every result counts once: as working, as redirected, or as broken. *)
Lemma count_status_total w results :
  Forall (has_status w) results ->
  (count_status w ["OK"] results + count_status w ["REDIRECT"] results
   + count_status w ["BROKEN"; "TIMEOUT"; "ERROR"] results)%nat
  = length results.
Proof.
  induction 1 as [|l results (st & Hst & Hin) _ IH]; [done|].
  change (l :: results) with ([l] ++ results)%list.
  rewrite !count_status_app, !count_status_one, length_app. cbn [length].
  rewrite <- IH, Hst. clear IH.
  unfold statuses in Hin. cbn [fmap list_fmap].
  repeat (apply elem_of_cons in Hin as [->|Hin];
          [repeat case_bool_decide; solve [lia | decide_status]|]).
  by apply elem_of_nil in Hin.
Qed.

(** The three counts of a report or of a summary. *)
Lemma counts_spec results w :
  Forall (has_status w) results ->
  wp (count_if results (status_is "OK")) (fun r w' =>
        w' = w /\ r = Ok (count_status w ["OK"] results)) w /\
  wp (count_if results (status_is "REDIRECT")) (fun r w' =>
        w' = w /\ r = Ok (count_status w ["REDIRECT"] results)) w /\
  wp (count_if results (status_in ["BROKEN"; "TIMEOUT"; "ERROR"])) (fun r w' =>
        w' = w /\ r = Ok (count_status w ["BROKEN"; "TIMEOUT"; "ERROR"] results)) w.
Proof.
  intros Hall.
  assert (Hv : forall l, l ∈ results -> exists v, field w l "status" = Some v).
  { intros l Hl. eapply has_status_field, Forall_forall; eauto. }
  split_and!; apply count_if_spec; intros l Hl; destruct (Hv l Hl) as [v Hf].
  - by eapply status_is_spec.
  - by eapply status_is_spec.
  - by eapply status_in_spec.
Qed.

(** ** The report and the snapshot *)

Lemma wp_trivial {A} (m : M A) w : wp m (fun _ _ => True) w.
Proof. by intros r w' out _. Qed.

Lemma webcam_generate_html_report_spec Ho results report_path p w :
  wpP (Webcam.generate_html_report Ho results report_path)
    (fun r p' w' _ =>
       w' = w /\ stderr p' = stderr p /\
       (r = Returned tt -> exists html, files p' = <[report_path := html]> (files p)))
    p w.
Proof.
  unfold Webcam.generate_html_report.
  apply wpP_bind, wpP_liftM.
  eapply wpo_conseq; [apply wpo_of_wp, readonly_wp; readonly|].
  intros [html|e] w1 o1 ->; cbn [outcome_of_result]; [|by split_and!].
  apply wpP_bind, wpP_with_open_w.
  - intros e He. by split_and!.
  - intros Hopen. apply wpo_ret, wpP_liftM, wpo_print. cbn.
    split_and!; [done..|]. eauto.
Qed.

Lemma with_open_w_json_spec Ho results json_path p w :
  wpP (with_open_w Ho json_path
         (dicts <- for_each results []
                     (fun dicts r => d <- deref r ;; ret (dicts ++ [d])%list) ;;
          ret (json_dumps Ho dicts)))
    (fun r p' w' _ =>
       w' = w /\ stderr p' = stderr p /\
       (r = Returned tt -> exists json, files p' = <[json_path := json]> (files p)))
    p w.
Proof.
  apply wpP_with_open_w.
  - intros e He. by split_and!.
  - intros Hopen.
    eapply wpo_conseq; [apply wpo_of_wp, readonly_wp; readonly|].
    intros [json|e] w1 o1 ->; cbn; split_and!; try done. eauto.
Qed.

Lemma webcam_save_json_spec Ho results json_path p w :
  wpP (Webcam.save_json Ho results json_path)
    (fun r p' w' _ =>
       w' = w /\ stderr p' = stderr p /\
       (r = Returned tt -> exists json, files p' = <[json_path := json]> (files p)))
    p w.
Proof.
  unfold Webcam.save_json. apply wpP_bind.
  eapply wpP_conseq; [apply with_open_w_json_spec|].
  intros [[]|e|c] p1 w1 o1 (-> & Herr & Hfiles); [|by split_and!..].
  apply wpP_liftM, wpo_print. cbn. split_and!; [done..|]. intros _. by apply Hfiles.
Qed.

(** The summary that ends the webcam program. *)
Lemma webcam_summary_spec results w :
  Forall (has_status w) results ->
  wpo (ok <- count_if results (status_is "OK") ;;
       redir <- count_if results (status_is "REDIRECT") ;;
       broke <- count_if results (status_in ["BROKEN"; "TIMEOUT"; "ERROR"]) ;;
       print (nl ++ str_repeat "─" 50) ;;
       print ("  Total links checked : " ++ pretty (length results)) ;;
       print ("  ✅  Working          : " ++ pretty ok) ;;
       print ("  ↪️  Redirected       : " ++ pretty redir) ;;
       print ("  ❌  Broken / Timeout : " ++ pretty broke) ;;
       print (str_repeat "─" 50 ++ nl))
    (fun r w' out =>
       w' = w /\ r = Ok tt /\
       exists ok redir broke,
         (ok + redir + broke)%nat = length results /\
         [ nl ++ str_repeat "─" 50;
           "  Total links checked : " ++ pretty (length results);
           "  ✅  Working          : " ++ pretty ok;
           "  ↪️  Redirected       : " ++ pretty redir;
           "  ❌  Broken / Timeout : " ++ pretty broke;
           str_repeat "─" 50 ++ nl ] `suffix_of` out) w.
Proof.
  intros Hall. destruct (counts_spec results w Hall) as (Hok & Hredir & Hbroke).
  apply wpo_bind. eapply wpo_conseq; [apply wpo_of_wp, Hok|].
  intros r w1 o1 [-> ->].
  apply wpo_bind. eapply wpo_conseq; [apply wpo_of_wp, Hredir|].
  intros r w1 o2 [-> ->].
  apply wpo_bind. eapply wpo_conseq; [apply wpo_of_wp, Hbroke|].
  intros r w1 o3 [-> ->].
  apply wpo_bind, wpo_print, wpo_bind, wpo_print, wpo_bind, wpo_print, wpo_bind, wpo_print,
    wpo_bind, wpo_print, wpo_print.
  split; [done|]. split; [done|].
  eexists _, _, _. split; [apply count_status_total, Hall|].
  exists (o1 ++ o2 ++ o3)%list. by rewrite <- !app_assoc.
Qed.

(** X19. When the webcam program returns, it has written two files in the
    directory of the script and nothing else: the report
    [webcam_report_<date>.html] and the snapshot [webcam_report_<date>.json],
    with the date as the local clock gave it when [main] started, and nothing
    on standard error. The summary it prints last adds up: every result is
    counted once, as working (OK), as redirected (REDIRECT) or as broken
    (BROKEN, TIMEOUT or ERROR), so the three counts sum to the total. *)
Theorem webcam_main_summary (E : environment) (Ho : host) p w p' w' out :
  Webcam.main E Ho p w = (Returned tt, p', w', out) ->
  exists total ok redir broke,
    (ok + redir + broke)%nat = total /\
    reports_written Ho "webcam_report_" p (trace w)
      [ nl ++ str_repeat "─" 50;
        "  Total links checked : " ++ pretty total;
        "  ✅  Working          : " ++ pretty ok;
        "  ↪️  Redirected       : " ++ pretty redir;
        "  ❌  Broken / Timeout : " ++ pretty broke;
        str_repeat "─" 50 ++ nl ] p' out.
Proof.
  intros Hrun.
  assert (Hwp : wpP (Webcam.main E Ho)
            (fun r p' w' out =>
               r = Returned tt ->
               exists total ok redir broke,
                 (ok + redir + broke)%nat = total /\
                 reports_written Ho "webcam_report_" p (trace w)
                   [ nl ++ str_repeat "─" 50;
                     "  Total links checked : " ++ pretty total;
                     "  ✅  Working          : " ++ pretty ok;
                     "  ↪️  Redirected       : " ++ pretty redir;
                     "  ❌  Broken / Timeout : " ++ pretty broke;
                     str_repeat "─" 50 ++ nl ] p' out) p w).
  { unfold Webcam.main.
    apply wpP_bind, wpP_liftM. intros r w0 o0 [= <- <- <-]. cbn [outcome_of_result].
    cbv zeta. apply wpP_try, wpP_bind, wpP_liftM.
    eapply wpo_conseq; [apply wpo_of_wp, wp_trivial|].
    intros [links|e] w1 o1 _; cbn [outcome_of_result].
    2:{ apply wpP_bind, wpP_print_stderr, wpP_sys_exit. intros [=]. }
    apply wpP_bind, wpP_liftM.
    eapply wpo_conseq; [apply wpo_of_wp, (check_all_links_statuses webcam)|].
    intros [results|e] w2 o2 [_ Hres]; cbn [outcome_of_result].
    2:{ apply wpP_bind, wpP_print_stderr, wpP_sys_exit. intros [=]. }
    destruct (Hres results eq_refl) as [Hall _].
    apply wpP_bind. eapply wpP_conseq; [apply webcam_generate_html_report_spec|].
    intros [[]|e|c] p3 w3 o3 (-> & Herr3 & Hfiles3).
    2:{ apply wpP_bind, wpP_print_stderr, wpP_sys_exit. intros [=]. }
    2:{ intros [=]. }
    destruct (Hfiles3 eq_refl) as [html Hhtml].
    apply wpP_bind. eapply wpP_conseq; [apply webcam_save_json_spec|].
    intros [[]|e|c] p4 w4 o4 (-> & Herr4 & Hfiles4).
    2:{ apply wpP_bind, wpP_print_stderr, wpP_sys_exit. intros [=]. }
    2:{ intros [=]. }
    destruct (Hfiles4 eq_refl) as [json Hjson].
    apply wpP_liftM.
    eapply wpo_conseq; [by apply webcam_summary_spec|].
    intros r w5 o5 (-> & -> & ok & redir & broke & Hsum & Hsuffix). intros _.
    exists (length results), ok, redir, broke. split; [exact Hsum|].
    exists html, json. cbv zeta. split; [by rewrite Hjson, Hhtml|].
    split; [congruence|].
    rewrite !app_assoc. by apply suffix_app_r. }
  by apply (wpP_run _ _ _ _ _ _ _ _ Hwp Hrun).
Qed.

Lemma webcam_main_summary_witness :
  exists total ok redir broke,
    (ok + redir + broke)%nat = total /\
    reports_written host_ok "webcam_report_" (Process ∅ []) (trace (World [] []))
      [ nl ++ str_repeat "─" 50;
        "  Total links checked : " ++ pretty total;
        "  ✅  Working          : " ++ pretty ok;
        "  ↪️  Redirected       : " ++ pretty redir;
        "  ❌  Broken / Timeout : " ++ pretty broke;
        str_repeat "─" 50 ++ nl ] webcam_run_hikes.1.1.2 webcam_run_hikes.2.
Proof.
  apply (webcam_main_summary env_hikes host_ok (Process ∅ []) (World [] [])
           webcam_run_hikes.1.1.2 webcam_run_hikes.1.2 webcam_run_hikes.2).
  vm_compute. reflexivity.
Defined.

Lemma sitewide_generate_html_report_spec Ho results report_path p w :
  wpP (Sitewide.generate_html_report Ho results report_path)
    (fun r p' w' _ =>
       w' = w /\ stderr p' = stderr p /\
       (r = Returned tt -> exists html, files p' = <[report_path := html]> (files p)))
    p w.
Proof.
  unfold Sitewide.generate_html_report.
  apply wpP_bind, wpP_liftM.
  eapply wpo_conseq; [apply wpo_of_wp, readonly_wp; readonly|].
  intros [html|e] w1 o1 ->; cbn [outcome_of_result]; [|by split_and!].
  apply wpP_bind, wpP_with_open_w.
  - intros e He. by split_and!.
  - intros Hopen. apply wpo_ret, wpP_liftM, wpo_print. cbn.
    split_and!; [done..|]. eauto.
Qed.

Lemma wpo_trivial {A} (m : M A) w : wpo m (fun _ _ _ => True) w.
Proof. by intros r w' out _. Qed.

(** The summary that ends the sitewide program. *)
Lemma sitewide_summary_spec json_path results w :
  Forall (has_status w) results ->
  wpo (print ("[+] JSON data saved  → " ++ json_path) ;;
       ok <- count_if results (status_is "OK") ;;
       redir <- count_if results (status_is "REDIRECT") ;;
       broke <- count_if results (status_in ["BROKEN"; "TIMEOUT"; "ERROR"]) ;;
       print (nl ++ Sitewide.rule60) ;;
       print "  FINAL SUMMARY" ;;
       print (str_repeat "─" 60) ;;
       for_each Sitewide.SITES tt
         (fun _ site =>
            s <- filter_if results (Sitewide.site_is (VStr (Sitewide.name site))) ;;
            s_broke <- count_if s (status_in ["BROKEN"; "TIMEOUT"; "ERROR"]) ;;
            print ("  " ++ Sitewide.name site ++ ": " ++ pretty (length s) ++ " links, "
                   ++ pretty s_broke ++ " broken")) ;;
       print (str_repeat "─" 60) ;;
       print ("  Total : " ++ pretty (length results) ++ "  ✅ " ++ pretty ok
              ++ "  ↪️ " ++ pretty redir ++ "  ❌ " ++ pretty broke) ;;
       print (Sitewide.rule60 ++ nl))
    (fun r w' out =>
       r = Ok tt ->
       exists ok redir broke,
         (ok + redir + broke)%nat = length results /\
         [ "  Total : " ++ pretty (length results) ++ "  ✅ " ++ pretty ok
           ++ "  ↪️ " ++ pretty redir ++ "  ❌ " ++ pretty broke;
           Sitewide.rule60 ++ nl ] `suffix_of` out) w.
Proof.
  intros Hall. destruct (counts_spec results w Hall) as (Hok & Hredir & Hbroke).
  apply wpo_bind, wpo_print.
  apply wpo_bind. eapply wpo_conseq; [apply wpo_of_wp, Hok|].
  intros r w1 o1 [-> ->].
  apply wpo_bind. eapply wpo_conseq; [apply wpo_of_wp, Hredir|].
  intros r w1 o2 [-> ->].
  apply wpo_bind. eapply wpo_conseq; [apply wpo_of_wp, Hbroke|].
  intros r w1 o3 [-> ->].
  apply wpo_bind, wpo_print, wpo_bind, wpo_print, wpo_bind, wpo_print, wpo_bind.
  eapply wpo_conseq; [apply wpo_trivial|].
  intros [[]|e] w1 o4 _; [|intros [=]].
  apply wpo_bind, wpo_print, wpo_bind, wpo_print, wpo_print. intros _.
  eexists _, _, _. split; [apply count_status_total, Hall|].
  cbn [app]. repeat first [reflexivity | apply suffix_cons_r | apply suffix_app_r].
Qed.

(** X20. When the sitewide program returns, it has written two files in the
    directory of the script and nothing else: the report
    [sitewide_report_<date>.html] and the snapshot
    [sitewide_report_<date>.json], with the date as the local clock gave it
    when [main] started. The line of totals it prints last adds up: every
    result is counted once, as working, as redirected or as broken. *)
Theorem sitewide_main_summary (E : environment) (Ho : host) p w p' w' out :
  Sitewide.main E Ho p w = (Returned tt, p', w', out) ->
  exists total ok redir broke,
    (ok + redir + broke)%nat = total /\
    reports_written Ho "sitewide_report_" p (trace w)
      [ "  Total : " ++ pretty total ++ "  ✅ " ++ pretty ok
        ++ "  ↪️ " ++ pretty redir ++ "  ❌ " ++ pretty broke;
        Sitewide.rule60 ++ nl ] p' out.
Proof.
  intros Hrun.
  assert (Hwp : wpP (Sitewide.main E Ho)
            (fun r p' w' out =>
               r = Returned tt ->
               exists total ok redir broke,
                 (ok + redir + broke)%nat = total /\
                 reports_written Ho "sitewide_report_" p (trace w)
                   [ "  Total : " ++ pretty total ++ "  ✅ " ++ pretty ok
                     ++ "  ↪️ " ++ pretty redir ++ "  ❌ " ++ pretty broke;
                     Sitewide.rule60 ++ nl ] p' out) p w).
  { unfold Sitewide.main.
    apply wpP_bind, wpP_liftM. intros r w0 o0 [= <- <- <-]. cbn [outcome_of_result].
    cbv zeta. apply wpP_bind, wpP_liftM.
    eapply (wpo_conseq _ (fun res w' _ =>
                            forall results, res = Ok results ->
                                            Forall (has_status w') results)).
    { apply (wpo_of_wp _ (fun res w' =>
                            forall results, res = Ok results ->
                                            Forall (has_status w') results)).
      apply wp_bind, wp_print, wp_bind, wp_print, wp_bind, wp_strftime_now,
        wp_bind, wp_print, wp_bind, wp_print, wp_bind.
      eapply wp_conseq; [apply wp_trivial|].
      intros [all_links|e] w1 _; [|intros ? [=]].
      eapply wp_conseq; [apply (check_all_links_statuses sitewide)|].
      intros res w2 [_ Hres] results Hok. by destruct (Hres results Hok). }
    intros [results|e] w2 o2 Hres; cbn [outcome_of_result]; [|intros [=]].
    pose proof (Hres results eq_refl) as Hall.
    apply wpP_bind. eapply wpP_conseq; [apply sitewide_generate_html_report_spec|].
    intros [[]|e|c] p3 w3 o3 (-> & Herr3 & Hfiles3); [|intros [=]..].
    destruct (Hfiles3 eq_refl) as [html Hhtml].
    apply wpP_bind. eapply wpP_conseq; [apply with_open_w_json_spec|].
    intros [[]|e|c] p4 w4 o4 (-> & Herr4 & Hfiles4); [|intros [=]..].
    destruct (Hfiles4 eq_refl) as [json Hjson].
    apply wpP_liftM.
    eapply wpo_conseq; [by apply sitewide_summary_spec|].
    intros [[]|e] w5 o5 Hsum; cbn [outcome_of_result]; [|intros [=]]. intros _.
    destruct (Hsum eq_refl) as (ok & redir & broke & Hadd & Hsuffix).
    exists (length results), ok, redir, broke. split; [exact Hadd|].
    exists html, json. cbv zeta. split; [by rewrite Hjson, Hhtml|].
    split; [congruence|].
    rewrite !app_assoc. by apply suffix_app_r. }
  by apply (wpP_run _ _ _ _ _ _ _ _ Hwp Hrun).
Qed.

Lemma sitewide_main_summary_witness :
  exists total ok redir broke,
    (ok + redir + broke)%nat = total /\
    reports_written host_ok "sitewide_report_" (Process ∅ []) (trace (World [] []))
      [ "  Total : " ++ pretty total ++ "  ✅ " ++ pretty ok
        ++ "  ↪️ " ++ pretty redir ++ "  ❌ " ++ pretty broke;
        Sitewide.rule60 ++ nl ] sitewide_run_two_sites.1.1.2 sitewide_run_two_sites.2.
Proof.
  apply (sitewide_main_summary env_two_sites host_ok (Process ∅ []) (World [] [])
           sitewide_run_two_sites.1.1.2 sitewide_run_two_sites.1.2
           sitewide_run_two_sites.2).
  vm_compute. reflexivity.
Defined.

(** The run on the two sites: the address linked from both sites is checked
    once for each site, and the broken link comes first within its site. *)
Example sitewide_two_sites_summary :
  sitewide_run_two_sites.1.1.1 = Returned tt /\
  [ "  Eyehike: 2 links, 1 broken";
    "  Unscripted6160: 2 links, 0 broken";
    str_repeat "─" 60;
    "  Total : 4  ✅ 3  ↪️ 0  ❌ 1";
    Sitewide.rule60 ++ nl ]
  = drop (length sitewide_run_two_sites.2 - 5) sitewide_run_two_sites.2.
Proof. split; vm_compute; reflexivity. Qed.

(** ** What the reports show *)

Lemma prefix_nil s : String.prefix "" s = true.
Proof. by destruct s. Qed.

Lemma prefix_cons_same c f s :
  String.prefix f s = true -> String.prefix (String c f) (String c s) = true.
Proof. intros H. cbn. by destruct (ascii_dec c c). Qed.

Lemma prefix_app_same u f s :
  String.prefix f s = true -> String.prefix (u ++ f) (u ++ s) = true.
Proof. intros H. induction u as [|c u IH]; [exact H|]. by apply prefix_cons_same. Qed.

Lemma prefix_app_l f : forall s b,
  String.prefix f s = true -> String.prefix f (s ++ b) = true.
Proof.
  induction f as [|c f IH]; intros s b H; [apply prefix_nil|].
  destruct s as [|c' s]; [discriminate|].
  change (String.prefix (String c f) (String c' (s ++ b)) = true). cbn in *.
  destruct (ascii_dec c c'); [by apply IH | discriminate].
Qed.

Lemma str_contains_prefix f s : String.prefix f s = true -> str_contains f s = true.
Proof. intros H. destruct s; cbn [str_contains]; by rewrite H. Qed.

Lemma str_contains_cons f c s :
  str_contains f s = true -> str_contains f (String c s) = true.
Proof. intros H. cbn [str_contains]. rewrite H. apply orb_true_r. Qed.

Lemma str_contains_app_r f a s :
  str_contains f s = true -> str_contains f (a ++ s) = true.
Proof. intros H. induction a as [|c a IH]; [exact H|]. by apply str_contains_cons. Qed.

Lemma str_contains_app_l f : forall s b,
  str_contains f s = true -> str_contains f (s ++ b) = true.
Proof.
  induction s as [|c s IH]; intros b H.
  - cbn in H. rewrite orb_false_r in H. destruct f; [|discriminate].
    apply str_contains_prefix, prefix_nil.
  - cbn [str_contains] in H. apply orb_true_iff in H as [H|H].
    + apply str_contains_prefix. by apply (prefix_app_l f (String c s)).
    + change (str_contains f (String c (s ++ b)) = true). by apply str_contains_cons, IH.
Qed.

(** The text [f] starts here. *)
Ltac starts_here :=
  apply str_contains_prefix;
  repeat first [ apply prefix_nil | apply prefix_cons_same | apply prefix_app_same ].

(** Looks for [f] from the left, character by character and piece by piece. *)
Ltac find_text :=
  cbn [append];
  repeat first
    [ solve [starts_here]
    | apply str_contains_cons
    | apply str_contains_app_r ].

(** Looks for the piece that holds [f]. *)
Ltac find_piece H :=
  repeat first [ exact H | apply str_contains_app_l; exact H | apply str_contains_app_r ].

Lemma webcam_row_html_anchor bg fg status status_code section_70 url final :
  str_contains (url_anchor url)
    (Webcam.row_html bg fg status status_code section_70 url final) = true.
Proof. unfold Webcam.row_html, url_anchor, dq. find_text. Qed.

Lemma sitewide_row_html_anchor bg fg status status_code pg_link label_50 url final :
  str_contains (url_anchor url)
    (Sitewide.row_html bg fg status status_code pg_link label_50 url final) = true.
Proof. unfold Sitewide.row_html, url_anchor, dq. find_text. Qed.

Lemma webcam_page_html_rows f now ok redir broke total rows :
  str_contains f rows = true ->
  str_contains f (Webcam.page_html now ok redir broke total rows) = true.
Proof. intros H. unfold Webcam.page_html. find_piece H. Qed.

Lemma sitewide_page_html_rows f now ok redir broke total site_summaries options rows :
  str_contains f rows = true ->
  str_contains f
    (Sitewide.page_html now ok redir broke total site_summaries options rows) = true.
Proof. intros H. unfold Sitewide.page_html. find_piece H. Qed.

(** Reading a key gives the field, or raises. *)
Lemma getitem_spec l k w :
  wp (getitem l k) (fun r w' => w' = w /\ forall v, r = Ok v -> field w l k = Some v) w.
Proof.
  intros r w' out. unfold getitem, bind, deref, field.
  destruct (heap w !! l) as [d|] eqn:Hd; cbn.
  - destruct (d !! k) as [v|] eqn:Hk; cbn; intros [= <- <- <-]; split; try done.
    by intros ? [= <-].
  - by intros [= <- <- <-].
Qed.

(** A step that only reads, whatever it gives. *)
Ltac step_ro x :=
  apply wp_bind; eapply wp_conseq; [apply readonly_wp; readonly|];
  intros [x|?] ? ->; [|done].

(** The report of the webcam script links every result. *)
Lemma webcam_report_spec Ho results report_path p w :
  wpP (Webcam.generate_html_report Ho results report_path)
    (fun res p' w' _ =>
       res = Returned tt ->
       exists html,
         files p' = <[report_path := html]> (files p) /\
         forall r v, r ∈ results -> field w r "url" = Some v ->
           str_contains (url_anchor (str_value v)) html = true)
    p w.
Proof.
  unfold Webcam.generate_html_report.
  apply wpP_bind, wpP_liftM.
  eapply (wpo_conseq _ (fun res w' _ =>
            w' = w /\
            forall html, res = Ok html ->
              forall r v, r ∈ results -> field w r "url" = Some v ->
                str_contains (url_anchor (str_value v)) html = true)).
  { apply (wpo_of_wp _ (fun res w' =>
            w' = w /\
            forall html, res = Ok html ->
              forall r v, r ∈ results -> field w r "url" = Some v ->
                str_contains (url_anchor (str_value v)) html = true)).
    apply wp_bind, wp_strftime_now. cbv zeta.
    step_ro ok. step_ro redir. step_ro broke.
    apply wp_bind.
    eapply (wp_for_each
              (fun done rows w' =>
                 w' = w /\
                 forall r v, r ∈ done -> field w r "url" = Some v ->
                   str_contains (url_anchor (str_value v)) rows = true)
              (fun _ w' => w' = w)).
    - split; [done|]. intros r v Hin. by apply elem_of_nil in Hin.
    - intros done x rest rows w1 Hxs [-> IH].
      step_ro status. cbv zeta. step_ro final_url. step_ro final. step_ro status'.
      step_ro status_code. step_ro section. step_ro section_70.
      apply wp_bind. eapply wp_conseq; [apply getitem_spec|].
      intros [url|e] w1 [-> Hurl]; [|done].
      apply wp_ret. split; [done|]. intros r v Hin Hv.
      apply elem_of_app in Hin as [Hin|Hin%list_elem_of_singleton].
      + apply str_contains_app_l. eauto.
      + subst r. rewrite (Hurl _ eq_refl) in Hv. injection Hv as <-.
        apply str_contains_app_r, webcam_row_html_anchor.
    - intros rows w' [-> H]. apply wp_ret. split; [done|].
      intros html [= <-] r v Hin Hv. apply webcam_page_html_rows. eauto.
    - intros e w' ->. split; [done|]. intros ? [=]. }
  intros [html|e] w1 o1 [-> Hhtml]; cbn [outcome_of_result]; [|intros [=]].
  apply wpP_bind, wpP_with_open_w.
  - intros e He [=].
  - intros Hopen. apply wpo_ret, wpP_liftM, wpo_print. cbn.
    intros _. exists html. split; [done|]. by apply Hhtml.
Qed.

(** X21. The report of the webcam script leaves no result out: for every
    result, the page written holds the link to its address,
    [<a href="URL" target="_blank" style="color:inherit">URL</a>], with the
    address as it is in the result (nothing in it is escaped). *)
Theorem webcam_report_links_every_result (Ho : host) results report_path p w p' w' out :
  Webcam.generate_html_report Ho results report_path p w = (Returned tt, p', w', out) ->
  exists html,
    files p' = <[report_path := html]> (files p) /\
    forall r v, r ∈ results -> field w r "url" = Some v ->
      str_contains (url_anchor (str_value v)) html = true.
Proof.
  intros Hrun.
  by apply (wpP_run _ _ _ _ _ _ _ _ (webcam_report_spec Ho results report_path p w) Hrun).
Qed.

Lemma webcam_report_links_every_result_witness :
  exists html,
    files (Webcam.generate_html_report host_ok (results_of checked_hikes) "report.html"
             (Process ∅ []) checked_hikes.1.2).1.1.2
    = <["report.html" := html]> (files (Process ∅ [])) /\
    forall r v, r ∈ results_of checked_hikes -> field checked_hikes.1.2 r "url" = Some v ->
      str_contains (url_anchor (str_value v)) html = true.
Proof.
  apply (webcam_report_links_every_result host_ok (results_of checked_hikes) "report.html"
           (Process ∅ []) checked_hikes.1.2
           (Webcam.generate_html_report host_ok (results_of checked_hikes) "report.html"
              (Process ∅ []) checked_hikes.1.2).1.1.2
           (Webcam.generate_html_report host_ok (results_of checked_hikes) "report.html"
              (Process ∅ []) checked_hikes.1.2).1.2
           (Webcam.generate_html_report host_ok (results_of checked_hikes) "report.html"
              (Process ∅ []) checked_hikes.1.2).2).
  vm_compute. reflexivity.
Defined.

(** The report of the sitewide script links every result. *)
Lemma sitewide_report_spec Ho results report_path p w :
  wpP (Sitewide.generate_html_report Ho results report_path)
    (fun res p' w' _ =>
       res = Returned tt ->
       exists html,
         files p' = <[report_path := html]> (files p) /\
         forall r v, r ∈ results -> field w r "url" = Some v ->
           str_contains (url_anchor (str_value v)) html = true)
    p w.
Proof.
  unfold Sitewide.generate_html_report.
  apply wpP_bind, wpP_liftM.
  eapply (wpo_conseq _ (fun res w' _ =>
            w' = w /\
            forall html, res = Ok html ->
              forall r v, r ∈ results -> field w r "url" = Some v ->
                str_contains (url_anchor (str_value v)) html = true)).
  { apply (wpo_of_wp _ (fun res w' =>
            w' = w /\
            forall html, res = Ok html ->
              forall r v, r ∈ results -> field w r "url" = Some v ->
                str_contains (url_anchor (str_value v)) html = true)).
    apply wp_bind, wp_strftime_now. cbv zeta.
    step_ro ok. step_ro redir. step_ro broke. step_ro sites. step_ro site_summaries.
    apply wp_bind.
    eapply (wp_for_each
              (fun done (st : string * option value) w' =>
                 w' = w /\
                 forall r v, r ∈ done -> field w r "url" = Some v ->
                   str_contains (url_anchor (str_value v)) st.1 = true)
              (fun _ w' => w' = w)).
    - split; [done|]. intros r v Hin. by apply elem_of_nil in Hin.
    - intros done x rest [rows current_site] w1 Hxs [-> IH]. cbn [fst] in IH.
      step_ro site.
      assert (Hrows : forall f,
                 str_contains f rows = true ->
                 str_contains f
                   (if bool_decide (Some site = current_site) then (rows, current_site)
                    else (rows ++ Sitewide.site_header_html (str_value site), Some site)).1
                 = true).
      { intros f Hf. case_bool_decide; cbn [fst]; [done|]. by apply str_contains_app_l. }
      destruct (if bool_decide (Some site = current_site) then (rows, current_site)
                else (rows ++ Sitewide.site_header_html (str_value site), Some site))
        as [rows1 current1].
      cbn [fst] in Hrows.
      step_ro status. cbv zeta. step_ro final_url. step_ro final. step_ro page_url.
      step_ro page_title. step_ro page_title_55. step_ro status'. step_ro status_code.
      step_ro label. step_ro label_50.
      apply wp_bind. eapply wp_conseq; [apply getitem_spec|].
      intros [url|e] w1 [-> Hurl]; [|done].
      apply wp_ret. split; [done|]. cbn [fst]. intros r v Hin Hv.
      apply elem_of_app in Hin as [Hin|Hin%list_elem_of_singleton].
      + apply str_contains_app_l, Hrows. eauto.
      + subst r. rewrite (Hurl _ eq_refl) in Hv. injection Hv as <-.
        apply str_contains_app_r, sitewide_row_html_anchor.
    - intros st w' [-> H]. cbv zeta. apply wp_ret. split; [done|].
      intros html [= <-] r v Hin Hv. apply sitewide_page_html_rows. eauto.
    - intros e w' ->. split; [done|]. intros ? [=]. }
  intros [html|e] w1 o1 [-> Hhtml]; cbn [outcome_of_result]; [|intros [=]].
  apply wpP_bind, wpP_with_open_w.
  - intros e He [=].
  - intros Hopen. apply wpo_ret, wpP_liftM, wpo_print. cbn.
    intros _. exists html. split; [done|]. by apply Hhtml.
Qed.

(** X22. The report of the sitewide script leaves no result out: for every
    result, the page written holds the link to its address,
    [<a href="URL" target="_blank" style="color:inherit">URL</a>], with the
    address as it is in the result (nothing in it is escaped). *)
Theorem sitewide_report_links_every_result (Ho : host) results report_path p w p' w' out :
  Sitewide.generate_html_report Ho results report_path p w = (Returned tt, p', w', out) ->
  exists html,
    files p' = <[report_path := html]> (files p) /\
    forall r v, r ∈ results -> field w r "url" = Some v ->
      str_contains (url_anchor (str_value v)) html = true.
Proof.
  intros Hrun.
  by apply (wpP_run _ _ _ _ _ _ _ _ (sitewide_report_spec Ho results report_path p w) Hrun).
Qed.

Lemma sitewide_report_links_every_result_witness :
  exists html,
    files (Sitewide.generate_html_report host_ok (results_of checked_two_sites) "report.html"
             (Process ∅ []) checked_two_sites.1.2).1.1.2
    = <["report.html" := html]> (files (Process ∅ [])) /\
    forall r v,
      r ∈ results_of checked_two_sites -> field checked_two_sites.1.2 r "url" = Some v ->
      str_contains (url_anchor (str_value v)) html = true.
Proof.
  apply (sitewide_report_links_every_result host_ok (results_of checked_two_sites)
           "report.html" (Process ∅ []) checked_two_sites.1.2
           (Sitewide.generate_html_report host_ok (results_of checked_two_sites)
              "report.html" (Process ∅ []) checked_two_sites.1.2).1.1.2
           (Sitewide.generate_html_report host_ok (results_of checked_two_sites)
              "report.html" (Process ∅ []) checked_two_sites.1.2).1.2
           (Sitewide.generate_html_report host_ok (results_of checked_two_sites)
              "report.html" (Process ∅ []) checked_two_sites.1.2).2).
  vm_compute. reflexivity.
Defined.

(** * Runs that reach their end *)

(** ** Steps that read and return *)

Lemma gives_conseq {A} (m : M A) (P P' : A -> Prop) w :
  gives m P w -> (forall a, P a -> P' a) -> gives m P' w.
Proof.
  intros H HP. eapply wp_conseq; [exact H|].
  intros r w' (-> & a & -> & Ha). eauto.
Qed.
















(** ** The results of the links of a script *)

Lemma classify_final_url u o : exists f, (classify u o).2 = VStr f.
Proof. unfold classify. destruct o as [r|e]; repeat case_match; cbn; eauto. Qed.

Lemma link_keys_kept s k : k ∈ link_keys s -> k ∉ outcome_keys.
Proof.
  unfold outcome_keys. intros Hk Hout.
  destruct s; cbn [link_keys] in Hk;
    repeat (apply elem_of_cons in Hk as [->|Hk];
            [repeat (apply elem_of_cons in Hout as [Hout|Hout]; [discriminate Hout|]);
             by apply elem_of_nil in Hout|]);
    by apply elem_of_nil in Hk.
Qed.

Lemma is_link_grows s l w w' : grows w w' -> is_link s l w -> is_link s l w'.
Proof. intros Hg (d & Hd & H). exists d. split; [by eapply grows_lookup|exact H]. Qed.

Lemma is_result_grows s l w w' : grows w w' -> is_result s l w -> is_result s l w'.
Proof.
  intros Hg (r & st & code & f & Hr & H). exists r, st, code, f.
  split; [by eapply grows_lookup|exact H].
Qed.

Lemma is_link_valid s l w : is_link s l w -> valid_entry s l w.
Proof.
  intros (d & Hd & Hsite & Hkeys). destruct (Hkeys "url") as [u Hu].
  { destruct s; cbn; by left. }
  by exists d, u.
Qed.

Lemma is_result_has_status s l w : is_result s l w -> has_status w l.
Proof.
  intros (r & st & code & f & Hr & _ & Hst & Hin & _). exists st.
  unfold field. by rewrite Hr.
Qed.

(** The check of a link gives a result. *)
Lemma check_link_result_spec (s : script) E entry w :
  is_link s entry w ->
  wp (check_link_of s E entry)
    (fun r w' => grows w w' /\ exists l, r = Ok l /\ is_result s l w') w.
Proof.
  intros (d & Hd & Hsite & Hkeys). destruct (Hkeys "url") as [u Hu].
  { destruct s; cbn; by left. }
  destruct (check_link_run s E w entry d u Hd Hu) as [out Hrun].
  eapply wp_exact; [exact Hrun|]. split; [eexists [_]; reflexivity|].
  destruct (classify_status u
              (exchange E (trace w) (head_request s u) (get_request s u)).1)
    as (st & Hst & Hin).
  destruct (classify_final_url u
              (exchange E (trace w) (head_request s u) (get_request s u)).1)
    as (f & Hf).
  eexists. split; [reflexivity|]. eexists _, st, _, f. cbn [heap].
  split; [apply lookup_last|].
  assert (Hsame : forall k, k ∉ outcome_keys ->
            checked d (utcnow_isoformat E (trace w))
              (classify u (exchange E (trace w) (head_request s u)
                             (get_request s u)).1) !! k = d !! k).
  { intros k Hk. by apply field_checked_other. }
  assert (Hk : "site" ∉ outcome_keys).
  { unfold outcome_keys. intros Hk.
    repeat (apply elem_of_cons in Hk as [Hk|Hk]; [discriminate Hk|]).
    by apply elem_of_nil in Hk. }
  split; [destruct s; cbn [site_ok] in *; by rewrite Hsame|].
  split; [by rewrite field_checked_status, Hst|]. split; [exact Hin|].
  split; [apply field_checked_status_code|].
  split; [by rewrite field_checked_final_url, Hf|].
  intros k Hin'. rewrite Hsame by (by eapply link_keys_kept). by apply Hkeys.
Qed.

(** The results of [check_all_links], one for each link: what the check
    of a link establishes of its result, and survives the growth of the heap,
    holds of every result. *)
Lemma check_all_links_inv (s : script) E links w (V R : loc -> world -> Prop) :
  (forall x w, V x w ->
     wp (check_link_of s E x)
       (fun r w' => grows w w' /\ exists l, r = Ok l /\ R l w') w) ->
  (forall x w w', grows w w' -> V x w -> V x w') ->
  (forall l w w', grows w w' -> R l w -> R l w') ->
  (forall l w, R l w -> is_result s l w) ->
  Forall (fun l => V l w) links ->
  as_completed E loc links ≡ₚ links ->
  wp (check_all_links_of s E links)
    (fun res w' =>
       grows w w' /\
       exists results,
         res = Ok results /\ length results = length links /\
         Forall (fun l => R l w') results) w.
Proof.
  intros Hcheck HV HR Hresult Hlinks Hsched.
  assert (Hlinks' : Forall (fun l => V l w) (as_completed E loc links))
    by (by rewrite Hsched).
  destruct (pool_as_completed E (check_link_of s E) links w) as [[rp w'] out1] eqn:Hpool.
  assert (Hpool' := Hpool). unfold pool_as_completed in Hpool'.
  destruct (wp_run _ _ _ _ _ _
              (run_tasks_spec (check_link_of s E) V
                 (fun _ fut w' => exists l, fut = Ok l /\ R l w')
                 Hcheck HV
                 (fun _ fut w1 w2 Hg '(ex_intro _ l (conj Hf Hr)) =>
                    ex_intro _ l (conj Hf (HR l w1 w2 Hg Hr)))
                 (as_completed E loc links) w Hlinks') Hpool')
    as (Hg & futs & -> & Hchecks).
  destruct (futures_all_ok _ _ _ Hchecks) as [collected ->].
  { intros x fut (l & -> & _). eauto. }
  assert (Hres : forall l, l ∈ collected -> R l w').
  { intros l Hl.
    assert (Hfut : Ok l ∈ (Ok <$> collected : list (result loc)))
      by (apply list_elem_of_fmap; eauto).
    apply list_elem_of_lookup in Hfut as [i Hi].
    by destruct (Forall2_lookup_r _ _ _ _ _ Hchecks Hi) as (x & _ & l0 & [= <-] & Hr). }
  assert (Hlen : length collected = length links).
  { apply Forall2_length in Hchecks. rewrite length_fmap in Hchecks.
    rewrite <- Hchecks. by rewrite Hsched. }
  destruct s; cbn [check_all_links_of check_link_of] in *.
  - destruct (sitewide_check_all_links_run E links w collected w' out1 Hpool)
      as [out Hrun].
    { intros l Hl.
      destruct (Hresult l w' (Hres l Hl)) as (r & st & code & f & Hr & Hsite & Hst & _).
      eauto. }
    eapply wp_exact; [exact Hrun|]. split; [exact Hg|]. eexists. split; [done|].
    split; [by rewrite stable_sort_perm|].
    apply Forall_forall. intros l Hl. apply Hres.
    by rewrite <- (stable_sort_perm key_lt (fun l => (site_of w' l, rank_of w' l))).
  - destruct (webcam_check_all_links_run E links w collected w' out1 Hpool)
      as [out Hrun].
    { intros l Hl.
      destruct (Hresult l w' (Hres l Hl)) as (r & st & code & f & Hr & Hsite & Hst & _).
      eauto. }
    eapply wp_exact; [exact Hrun|]. split; [exact Hg|]. eexists. split; [done|].
    split; [by rewrite stable_sort_perm|].
    apply Forall_forall. intros l Hl. apply Hres.
    by rewrite <- (stable_sort_perm Z.ltb (rank_of w')).
Qed.


(** ** The report and the snapshot of results *)








(** ** The webcam program *)






(** ** The links of a crawl *)

Lemma is_link_sitewide_fields l w :
  is_link sitewide l w <-> has_str_fields (link_keys sitewide) l w.
Proof.
  split.
  - intros (d & Hd & _ & Hkeys) k Hk. unfold field. rewrite Hd. by apply Hkeys.
  - intros Hkeys. destruct (Hkeys "url") as [u Hu]; [by left|].
    destruct (field_Some _ _ _ _ Hu) as (d & Hd & _).
    exists d. split; [exact Hd|].
    assert (H : forall k, k ∈ link_keys sitewide -> exists v, d !! k = Some (VStr v)).
    { intros k Hk. destruct (Hkeys k Hk) as [v Hv]. unfold field in Hv.
      rewrite Hd in Hv. eauto. }
    split; [|exact H]. cbn [site_ok]. intros v Hv.
    destruct (H "site") as [n Hn]; [cbn; repeat first [by left | right]|].
    exists n. congruence.
Qed.

Lemma has_str_fields_grows keys l w w' :
  grows w w' -> has_str_fields keys l w -> has_str_fields keys l w'.
Proof. intros Hg H k Hk. destruct (H k Hk) as [v Hv]. eauto using field_grows. Qed.

Lemma site_marks_refl n w : site_marks n w w.
Proof. intros l. split; [done|by left]. Qed.

Lemma site_marks_trans n w1 w2 w3 :
  site_marks n w1 w2 -> site_marks n w2 w3 -> site_marks n w1 w3.
Proof.
  intros H12 H23 l. destruct (H12 l) as [Hk12 Hs12], (H23 l) as [Hk23 Hs23]. split.
  - intros k Hk. by rewrite Hk23, Hk12.
  - destruct Hs23 as [Hs23|Hs23]; [|by right]. rewrite Hs23. exact Hs12.
Qed.

Lemma site_marks_is_link n w w' l :
  site_marks n w w' -> is_link sitewide l w -> is_link sitewide l w'.
Proof.
  rewrite !is_link_sitewide_fields. intros Hm Hkeys k Hk.
  destruct (Hm l) as [Hsame Hsite].
  destruct (decide (k = "site")) as [->|Hne].
  - destruct Hsite as [Hsite|Hsite]; [|by exists n]. rewrite Hsite. by apply Hkeys.
  - rewrite Hsame by done. by apply Hkeys.
Qed.

Lemma site_marks_site_in n names w w' l :
  n ∈ names -> site_marks n w w' -> site_in names l w -> site_in names l w'.
Proof.
  intros Hn Hm (n0 & Hn0 & Hsite). destruct (Hm l) as [_ [Hsame|Hnew]].
  - exists n0. by rewrite Hsame.
  - by exists n.
Qed.

Lemma site_in_grows names l w w' : grows w w' -> site_in names l w -> site_in names l w'.
Proof. intros Hg (n & Hn & Hsite). exists n. eauto using field_grows. Qed.

Lemma site_in_heap names l w w' : heap w' = heap w -> site_in names l w -> site_in names l w'.
Proof. intros Hheap (n & Hn & Hsite). exists n. unfold field in *. by rewrite Hheap. Qed.

(** Marking a link with its site. *)
Lemma setitem_site_marks w link d n :
  heap w !! link = Some d ->
  site_marks n w (World (<[link := <["site" := VStr n]> d]> (heap w)) (trace w)).
Proof.
  intros Hd l. unfold field, loc in *. cbn [heap].
  assert (Hlt : (link < length (heap w))%nat) by (eapply lookup_lt_Some; eauto).
  destruct (decide (l = link)) as [->|Hne].
  - rewrite list_lookup_insert_eq by done. rewrite Hd. cbn. split.
    + intros k Hk. by rewrite lookup_insert_ne.
    + right. by rewrite lookup_insert_eq.
  - rewrite list_lookup_insert_ne by done. split; [done|by left].
Qed.

Lemma wp_setitem_any l k v (Q : result unit -> world -> Prop) w :
  (forall d, heap w !! l = Some d ->
     Q (Ok tt) (World (<[l := <[k := v]> d]> (heap w)) (trace w))) ->
  (forall e, heap w !! l = None -> Q (Raise e) w) ->
  wp (setitem l k v) Q w.
Proof.
  intros Hok Hraise r w' out. unfold setitem.
  destruct (heap w !! l) as [d|] eqn:Hd; intros [= <- <- <-]; eauto.
Qed.

(** A link that the extractor made is a link of the site once it is
    marked. *)
Lemma marked_is_link w link d n :
  heap w !! link = Some d ->
  has_str_fields ["url"; "label"; "page_url"; "page_title"] link w ->
  is_link sitewide link (World (<[link := <["site" := VStr n]> d]> (heap w)) (trace w)).
Proof.
  intros Hd Hkeys. apply is_link_sitewide_fields. intros k Hk.
  assert (Hlt : (link < length (heap w))%nat) by (eapply lookup_lt_Some; eauto).
  unfold field, loc in *. cbn [heap]. rewrite list_lookup_insert_eq by done. cbn.
  destruct (decide (k = "site")) as [->|Hne].
  - exists n. by rewrite lookup_insert_eq.
  - rewrite lookup_insert_ne by done.
    destruct (Hkeys k) as [v Hv].
    { cbn [link_keys] in Hk.
      repeat (apply elem_of_cons in Hk as [->|Hk]; [first [done | set_solver]|]).
      by apply elem_of_nil in Hk. }
    unfold field, loc in *. rewrite Hd in Hv. eauto.
Qed.

Lemma marked_site_in w link d n :
  heap w !! link = Some d ->
  site_in [n] link (World (<[link := <["site" := VStr n]> d]> (heap w)) (trace w)).
Proof.
  intros Hd. exists n. split; [by left|].
  assert (Hlt : (link < length (heap w))%nat) by (eapply lookup_lt_Some; eauto).
  unfold field, loc in *. cbn [heap]. rewrite list_lookup_insert_eq by done. cbn.
  by rewrite lookup_insert_eq.
Qed.

(** The links that the extractor returns have their four fields. *)
Lemma extract_links_from_page_fields_spec E page_url (skip : gset string) w :
  wp (Sitewide.extract_links_from_page E page_url skip)
    (fun res w' =>
       grows w w' /\
       forall links, res = Ok links ->
         Forall (fun l => has_str_fields ["url"; "label"; "page_url"; "page_title"] l w')
           links) w.
Proof.
  eapply wp_conseq.
  { apply wp_and; [apply extract_links_from_page_spec
                  |apply extract_links_from_page_cases]. }
  intros res w' [[Hg _] Hcases]. split; [exact Hg|]. intros links ->.
  destruct (Hcases links eq_refl) as [[-> _]|(title & tags & kept & seen & tr & Hext)];
    [constructor|].
  pose proof (extracted_links _ _ _ _ _ _ _ _ Hext) as Hlinks.
  destruct Hext as (_ & Hkept & _). cbn [fst] in Hlinks.
  apply Forall_forall. intros l Hl.
  apply list_elem_of_lookup in Hl as [i Hi].
  destruct (Forall2_lookup_l _ _ _ _ _ Hlinks Hi) as (tag & Ht & Hd).
  eapply Forall_forall in Hkept; [|by eapply list_elem_of_lookup_2].
  destruct Hkept as [Hhttp _].
  destruct (sitewide_link_fields page_url title tag Hhttp)
    as (label & page_title & _ & Hurl & Hlabel & _ & _ & Hpage & Htitle & _).
  intros k Hk. unfold field. rewrite Hd. cbn.
  repeat (apply elem_of_cons in Hk as [->|Hk]; [eauto|]).
  by apply elem_of_nil in Hk.
Qed.

Lemma is_link_heap s l w w' : heap w' = heap w -> is_link s l w -> is_link s l w'.
Proof. intros Hheap (d & Hd & H). exists d. by rewrite Hheap. Qed.

(** The merge of one page: the links kept are links of the site, and
    nothing else has changed. *)
Lemma merge_page_spec w2 site_name (page_links : list loc) all_links
    (seen_urls : gset value) w :
  Forall (fun l => has_str_fields ["url"; "label"; "page_url"; "page_title"] l w2)
    page_links ->
  site_marks site_name w2 w ->
  Forall (fun l => is_link sitewide l w /\ site_in [site_name] l w) all_links ->
  wp (for_each page_links (all_links, seen_urls)
        (fun '(all_links, seen_urls) link =>
           u <- getitem link "url" ;;
           if bool_decide (u ∈ (seen_urls : gset value))
           then ret (all_links, seen_urls)
           else
             setitem link "site" (VStr site_name) ;;
             ret ((all_links ++ [link])%list, seen_urls ∪ {[ u ]})))
    (fun res w' =>
       forall st, res = Ok st ->
         site_marks site_name w2 w' /\
         Forall (fun l => is_link sitewide l w' /\ site_in [site_name] l w') st.1) w.
Proof.
  intros Hpage Hmarks Hlinks.
  eapply (wp_for_each
            (fun _ st w' =>
               site_marks site_name w2 w' /\
               Forall (fun l => is_link sitewide l w' /\ site_in [site_name] l w') st.1)
            (fun _ _ => True)).
  - done.
  - intros done link rest [links seen] w1 Hxs [Hm1 Hl1]. cbn [fst] in Hl1.
    apply wp_bind. eapply wp_conseq; [apply getitem_spec|].
    intros [u|e] w1' [-> _]; [|done].
    case_bool_decide; [by apply wp_ret|].
    apply wp_bind, wp_setitem_any; [|done]. intros d Hd. apply wp_ret.
    pose proof (setitem_site_marks w1 link d site_name Hd) as Hstep.
    split; [by eapply site_marks_trans|]. cbn [fst].
    apply Forall_app. split.
    + eapply Forall_impl; [exact Hl1|]. intros l [Hlink Hsite]. split.
      * by eapply site_marks_is_link.
      * eapply site_marks_site_in; [|exact Hstep|exact Hsite]. by left.
    + constructor; [|constructor]. split; [|by apply marked_site_in].
      apply marked_is_link; [exact Hd|].
      eapply Forall_forall in Hpage;
        [|rewrite Hxs; apply elem_of_app; right; by left].
      intros k Hk. destruct (Hpage k Hk) as [v Hv]. exists v.
      destruct (Hm1 link) as [Hsame _]. rewrite Hsame; [exact Hv|].
      intros ->. repeat (apply elem_of_cons in Hk as [Hk|Hk]; [discriminate Hk|]).
      by apply elem_of_nil in Hk.
  - intros st w' H ? [= <-]. exact H.
  - intros e w' _ ? [=].
Qed.

(** The links that [crawl_site] returns are links of the site, marked with
    its name, and the links of the sites crawled before stay links; the
    only mark that a crawl sets is the name of its site. *)
Lemma crawl_site_links_spec E (site : Sitewide.site_config) w :
  wp (Sitewide.crawl_site E site)
    (fun res w3 =>
       forall links, res = Ok links ->
         Forall (fun l => is_link sitewide l w3 /\ site_in [Sitewide.name site] l w3)
           links /\
         (forall l, is_link sitewide l w -> is_link sitewide l w3) /\
         (forall names l, Sitewide.name site ∈ names ->
            site_in names l w -> site_in names l w3)) w.
Proof.
  unfold Sitewide.crawl_site.
  apply wp_bind, wp_print, wp_bind, wp_print, wp_bind, wp_print, wp_bind.
  eapply wp_conseq; [apply parse_sitemap_index_spec|].
  intros [page_urls|e] w1 [Hheap _]; [|intros ? [=]].
  destruct page_urls as [|p0 ps].
  { apply wp_bind, wp_print, wp_ret. intros ? [= <-]. split; [constructor|]. split.
    - intros l. by apply is_link_heap.
    - intros names l _. by apply site_in_heap. }
  apply wp_bind, wp_print, wp_bind. unfold pool_as_completed.
  eapply wp_conseq.
  { apply (run_tasks_spec
             (fun u => Sitewide.extract_links_from_page E u (Sitewide.skip_domains site))
             (fun _ _ => True)
             (fun _ fut w' =>
                forall pg, fut = Ok pg ->
                  Forall (fun l =>
                            has_str_fields ["url"; "label"; "page_url"; "page_title"] l w')
                    pg)).
    - intros u w0 _. apply extract_links_from_page_fields_spec.
    - done.
    - intros p fut w0 w0' Hg Hall pg ->.
      eapply Forall_impl; [exact (Hall pg eq_refl)|].
      intros l. by apply has_str_fields_grows.
    - apply Forall_forall. done. }
  intros res w2 (Hg2 & futs & -> & Hall).
  apply wp_bind.
  eapply (wp_for_each
            (fun _ (st : list loc * gset value) w' =>
               site_marks (Sitewide.name site) w2 w' /\
               Forall (fun l => is_link sitewide l w' /\
                                site_in [Sitewide.name site] l w') st.1)
            (fun _ _ => True)).
  - split; [apply site_marks_refl|constructor].
  - intros done [i future] rest [all_links seen] w' Hxs [Hm Hl]. cbn [fst] in Hl.
    assert (Hfut : future ∈ futs).
    { eapply (elem_of_zip_r i). rewrite Hxs. apply elem_of_app. right. by left. }
    apply wp_bind, wp_lift. destruct future as [pg|e]; [|done].
    apply list_elem_of_lookup in Hfut as [j Hj].
    destruct (Forall2_lookup_r _ _ _ _ _ Hall Hj) as (u & _ & Hpg).
    apply wp_bind. eapply wp_conseq.
    { apply (merge_page_spec w2 (Sitewide.name site) pg all_links seen w');
        [exact (Hpg pg eq_refl) | exact Hm | exact Hl]. }
    intros [st|e] w'' Hst; [|done]. destruct (Hst st eq_refl) as [Hm' Hl'].
    apply wp_bind.
    destruct (bool_decide (i `mod` 10 = 0)%nat || bool_decide (i = length (p0 :: ps)));
      [apply wp_print|apply wp_ret]; by apply wp_ret.
  - intros st w3 [Hm Hl]. apply wp_bind, wp_print, wp_ret. intros ? [= <-].
    split; [exact Hl|]. split.
    + intros l Hlink.
      apply (site_marks_is_link (Sitewide.name site) w2); [exact Hm|].
      apply (is_link_grows _ _ w1); [exact Hg2|]. by apply (is_link_heap _ _ w).
    + intros names l Hn Hsite.
      apply (site_marks_site_in (Sitewide.name site) names w2); [exact Hn|exact Hm|].
      apply (site_in_grows _ _ w1); [exact Hg2|]. by apply (site_in_heap _ _ w).
  - intros e w' _ ? [=].
Qed.

(** ** The sitewide report *)







(** ** The sitewide program *)




(** * The requests of the verification *)







(** ** The sites of the sitewide report *)

Lemma prefix_refl f : String.prefix f f = true.
Proof. induction f as [|c f IH]; [done|]. by apply prefix_cons_same. Qed.

Lemma str_contains_refl f : str_contains f f = true.
Proof. apply str_contains_prefix, prefix_refl. Qed.

Lemma str_contains_concat f x (l : list string) :
  x ∈ l -> str_contains f x = true -> str_contains f (String.concat "" l) = true.
Proof.
  intros Hin Hf. induction l as [|y l IH]; [by apply elem_of_nil in Hin|].
  assert (Hcons : String.concat "" (y :: l) = y ++ String.concat "" l).
  { destruct l as [|z l]; cbn [String.concat]; [|done].
    clear. induction y as [|c y IHy]; [done|].
    change (String c y = String c (y ++ "")). by rewrite <- IHy. }
  rewrite Hcons. apply elem_of_cons in Hin as [->|Hin].
  - by apply str_contains_app_l.
  - by apply str_contains_app_r, IH.
Qed.

Lemma dict_fromkeys_step_mono (v : value) vs : forall keys : list value,
  v ∈ keys ->
  v ∈ fold_left
        (fun (keys : list value) v => if bool_decide (v ∈ keys) then keys else keys ++ [v])%list
        vs keys.
Proof.
  induction vs as [|x vs IH]; intros keys Hin; [exact Hin|].
  cbn [fold_left]. apply IH. case_bool_decide; [exact Hin|].
  apply elem_of_app. by left.
Qed.

Lemma dict_fromkeys_step_elem (v : value) vs : forall keys : list value,
  v ∈ vs ->
  v ∈ fold_left
        (fun (keys : list value) v => if bool_decide (v ∈ keys) then keys else keys ++ [v])%list
        vs keys.
Proof.
  induction vs as [|x vs IH]; intros keys Hin; [by apply elem_of_nil in Hin|].
  cbn [fold_left]. apply elem_of_cons in Hin as [->|Hin]; [|by apply IH].
  apply dict_fromkeys_step_mono. case_bool_decide; [done|].
  apply elem_of_app. right. by left.
Qed.

(** Every value has its key. *)
Lemma dict_fromkeys_elem v vs : v ∈ vs -> v ∈ dict_fromkeys vs.
Proof. apply dict_fromkeys_step_elem. Qed.

Lemma dict_get_spec l k dflt w :
  wp (dict_get l k dflt)
    (fun r w' => w' = w /\ forall v, r = Ok v -> v = default dflt (field w l k)) w.
Proof.
  intros r w' out. unfold dict_get, bind, deref, field.
  destruct (heap w !! l) as [d|] eqn:Hd; cbn; intros [= <- <- <-]; split; try done.
  by intros ? [= <-].
Qed.

Lemma site_card_html_name sname s_ok s_redir s_broke s_total :
  str_contains ("<h3>🌐 " ++ sname ++ "</h3>")
    (Sitewide.site_card_html sname s_ok s_redir s_broke s_total) = true.
Proof. unfold Sitewide.site_card_html, dq. find_text. Qed.

Lemma sitewide_page_html_site_summaries f now ok redir broke total site_summaries
    options rows :
  str_contains f site_summaries = true ->
  str_contains f
    (Sitewide.page_html now ok redir broke total site_summaries options rows) = true.
Proof. intros H. unfold Sitewide.page_html. find_piece H. Qed.

Lemma sitewide_page_html_options f now ok redir broke total site_summaries options rows :
  str_contains f options = true ->
  str_contains f
    (Sitewide.page_html now ok redir broke total site_summaries options rows) = true.
Proof. intros H. unfold Sitewide.page_html. find_piece H. Qed.

(** The report of the sitewide script shows the site of every result. *)
Lemma sitewide_report_sites_spec Ho results report_path p w :
  wpP (Sitewide.generate_html_report Ho results report_path)
    (fun res p' w' _ =>
       res = Returned tt ->
       exists html,
         files p' = <[report_path := html]> (files p) /\
         forall r v, r ∈ results -> field w r "site" = Some v ->
           str_contains ("<h3>🌐 " ++ str_value v ++ "</h3>") html = true /\
           str_contains (Sitewide.option_html (str_value v)) html = true /\
           str_contains (Sitewide.site_header_html (str_value v)) html = true)
    p w.
Proof.
  unfold Sitewide.generate_html_report.
  apply wpP_bind, wpP_liftM.
  eapply (wpo_conseq _ (fun res w' _ =>
            w' = w /\
            forall html, res = Ok html ->
              forall r v, r ∈ results -> field w r "site" = Some v ->
                str_contains ("<h3>🌐 " ++ str_value v ++ "</h3>") html = true /\
                str_contains (Sitewide.option_html (str_value v)) html = true /\
                str_contains (Sitewide.site_header_html (str_value v)) html = true)).
  { apply (wpo_of_wp _ (fun res w' =>
            w' = w /\
            forall html, res = Ok html ->
              forall r v, r ∈ results -> field w r "site" = Some v ->
                str_contains ("<h3>🌐 " ++ str_value v ++ "</h3>") html = true /\
                str_contains (Sitewide.option_html (str_value v)) html = true /\
                str_contains (Sitewide.site_header_html (str_value v)) html = true)).
    apply wp_bind, wp_strftime_now. cbv zeta.
    step_ro ok. step_ro redir. step_ro broke.
    (* the sites of the results *)
    apply wp_bind.
    eapply (wp_for_each
              (fun done (sites : list value) w' =>
                 w' = w /\
                 forall r v, r ∈ done -> field w r "site" = Some v -> v ∈ sites)
              (fun _ w' => w' = w)).
    { split; [done|]. intros r v Hin. by apply elem_of_nil in Hin. }
    { intros done x rest sites w1 Hxs [-> IH].
      apply wp_bind. eapply wp_conseq; [apply dict_get_spec|].
      intros [site|e] w1 [-> Hsite]; [|done].
      apply wp_ret. split; [done|]. intros r v Hin Hv.
      apply elem_of_app in Hin as [Hin|Hin%list_elem_of_singleton].
      - apply elem_of_app. left. eauto.
      - subst r. apply elem_of_app. right. rewrite (Hsite _ eq_refl), Hv. by left. }
    2:{ intros e w' ->. split; [done|]. intros ? [=]. }
    intros sites w' [-> Hsites].
    assert (Hnames : forall r v, r ∈ results -> field w r "site" = Some v ->
              v ∈ dict_fromkeys sites).
    { intros r v Hr Hv. eapply dict_fromkeys_elem, Hsites; eauto. }
    clear Hsites. generalize dependent (dict_fromkeys sites). intros site_names Hnames.
    (* the cards *)
    apply wp_bind.
    eapply (wp_for_each
              (fun done site_summaries w' =>
                 w' = w /\
                 forall sname, sname ∈ done ->
                   str_contains ("<h3>🌐 " ++ str_value sname ++ "</h3>") site_summaries
                   = true)
              (fun _ w' => w' = w)).
    { split; [done|]. intros sname Hin. by apply elem_of_nil in Hin. }
    { intros done sname rest site_summaries w1 Hxs [-> IH].
      step_ro site_results. step_ro s_ok. step_ro s_redir. step_ro s_broke.
      apply wp_ret. split; [done|]. intros sname' Hin.
      apply elem_of_app in Hin as [Hin|Hin%list_elem_of_singleton].
      - apply str_contains_app_l. eauto.
      - subst sname'. apply str_contains_app_r, site_card_html_name. }
    2:{ intros e w' ->. split; [done|]. intros ? [=]. }
    intros site_summaries w' [-> Hcards].
    (* the rows *)
    apply wp_bind.
    eapply (wp_for_each
              (fun done (st : string * option value) w' =>
                 w' = w /\
                 (forall site, st.2 = Some site ->
                    str_contains (Sitewide.site_header_html (str_value site)) st.1 = true) /\
                 forall r v, r ∈ done -> field w r "site" = Some v ->
                   str_contains (Sitewide.site_header_html (str_value v)) st.1 = true)
              (fun _ w' => w' = w)).
    - split; [done|]. split; [intros ? [=]|]. intros r v Hin. by apply elem_of_nil in Hin.
    - intros done x rest [rows current_site] w1 Hxs (-> & Hcur & IH). cbn [fst snd] in *.
      apply wp_bind. eapply wp_conseq; [apply dict_get_spec|].
      intros [site|e] w1 [-> Hsite]; [|done]. specialize (Hsite _ eq_refl).
      assert (Hrows :
                let st :=
                  if bool_decide (Some site = current_site) then (rows, current_site)
                  else (rows ++ Sitewide.site_header_html (str_value site), Some site) in
                st.2 = Some site /\
                str_contains (Sitewide.site_header_html (str_value site)) st.1 = true /\
                forall f, str_contains f rows = true -> str_contains f st.1 = true).
      { cbv zeta. case_bool_decide as Heq; cbn [fst snd].
        - split; [done|]. split; [by apply Hcur|done].
        - split; [done|]. split; [apply str_contains_app_r, str_contains_refl|].
          intros f Hf. by apply str_contains_app_l. }
      cbv zeta in Hrows.
      destruct (if bool_decide (Some site = current_site) then (rows, current_site)
                else (rows ++ Sitewide.site_header_html (str_value site), Some site))
        as [rows1 current1].
      cbn [fst snd] in Hrows. destruct Hrows as (-> & Hheader & Hmono).
      step_ro status. cbv zeta. step_ro final_url. step_ro final. step_ro page_url.
      step_ro page_title. step_ro page_title_55. step_ro status'. step_ro status_code.
      step_ro label. step_ro label_50. step_ro url.
      apply wp_ret. split; [done|]. cbn [fst snd]. split.
      + intros ? [= <-]. by apply str_contains_app_l.
      + intros r v Hin Hv.
        apply elem_of_app in Hin as [Hin|Hin%list_elem_of_singleton].
        * apply str_contains_app_l, Hmono. eauto.
        * subst r. rewrite Hv in Hsite. cbn in Hsite. subst site.
          by apply str_contains_app_l.
    - intros st w' (-> & _ & Hrows). cbv zeta. apply wp_ret. split; [done|].
      intros html [= <-] r v Hin Hv. split; [|split].
      + apply sitewide_page_html_site_summaries, Hcards. eauto.
      + apply sitewide_page_html_options.
        apply (str_contains_concat _ (Sitewide.option_html (str_value v)));
          [|apply str_contains_refl].
        apply list_elem_of_fmap. exists v. split; [done|]. eauto.
      + apply sitewide_page_html_rows. eauto.
    - intros e w' ->. split; [done|]. intros ? [=]. }
  intros [html|e] w1 o1 [-> Hhtml]; cbn [outcome_of_result]; [|intros [=]].
  apply wpP_bind, wpP_with_open_w.
  - intros e He [=].
  - intros Hopen. apply wpo_ret, wpP_liftM, wpo_print. cbn.
    intros _. exists html. split; [done|]. by apply Hhtml.
Qed.

(** X26. The report of the sitewide script shows the site of every result
    three times: a summary card headed by the name of the site, an entry
    for the site in the filter of the table, and a header row for the site
    in the table. *)
Theorem sitewide_report_shows_every_site (Ho : host) results report_path p w p' w' out :
  Sitewide.generate_html_report Ho results report_path p w = (Returned tt, p', w', out) ->
  exists html,
    files p' = <[report_path := html]> (files p) /\
    forall r v, r ∈ results -> field w r "site" = Some v ->
      str_contains ("<h3>🌐 " ++ str_value v ++ "</h3>") html = true /\
      str_contains (Sitewide.option_html (str_value v)) html = true /\
      str_contains (Sitewide.site_header_html (str_value v)) html = true.
Proof.
  intros Hrun.
  by apply (wpP_run _ _ _ _ _ _ _ _
              (sitewide_report_sites_spec Ho results report_path p w) Hrun).
Qed.

Lemma sitewide_report_shows_every_site_witness :
  exists html,
    files (Sitewide.generate_html_report host_ok (results_of checked_two_sites) "report.html"
             (Process ∅ []) checked_two_sites.1.2).1.1.2
    = <["report.html" := html]> (files (Process ∅ [])) /\
    forall r v,
      r ∈ results_of checked_two_sites -> field checked_two_sites.1.2 r "site" = Some v ->
      str_contains ("<h3>🌐 " ++ str_value v ++ "</h3>") html = true /\
      str_contains (Sitewide.option_html (str_value v)) html = true /\
      str_contains (Sitewide.site_header_html (str_value v)) html = true.
Proof.
  apply (sitewide_report_shows_every_site host_ok (results_of checked_two_sites)
           "report.html" (Process ∅ []) checked_two_sites.1.2
           (Sitewide.generate_html_report host_ok (results_of checked_two_sites)
              "report.html" (Process ∅ []) checked_two_sites.1.2).1.1.2
           (Sitewide.generate_html_report host_ok (results_of checked_two_sites)
              "report.html" (Process ∅ []) checked_two_sites.1.2).1.2
           (Sitewide.generate_html_report host_ok (results_of checked_two_sites)
              "report.html" (Process ∅ []) checked_two_sites.1.2).2).
  vm_compute. reflexivity.
Defined.

(** ** The sitewide program when no sitemap index can be fetched *)








(** * The lines of the sites in the final summary *)

(** ** Loops that read and print nothing *)

Lemma for_each_quiet {A B} (I : list A -> B -> Prop) (xs : list A)
    (body : B -> A -> M B) acc w :
  I [] acc ->
  (forall done x rest acc,
     xs = (done ++ x :: rest)%list -> I done acc ->
     exists acc', body acc x w = (Ok acc', w, []) /\ I (done ++ [x])%list acc') ->
  exists acc', for_each xs acc body w = (Ok acc', w, []) /\ I xs acc'.
Proof.
  intros Hinit Hbody.
  assert (Hgen : forall rest done acc,
             xs = (done ++ rest)%list -> I done acc ->
             exists acc', for_each rest acc body w = (Ok acc', w, []) /\ I xs acc').
  { induction rest as [|x rest IH]; intros done acc0 Hxs HI.
    - rewrite app_nil_r in Hxs. subst done. by exists acc0.
    - destruct (Hbody done x rest acc0 Hxs HI) as (acc1 & Hrun & HI1).
      destruct (IH (done ++ [x])%list acc1) as (acc2 & Hrest & HI2);
        [by rewrite <- app_assoc | exact HI1 |].
      exists acc2. split; [|exact HI2]. cbn [for_each].
      eapply (bind_run _ _ _ _ _ [] _ _ []); [exact Hrun | exact Hrest]. }
  by apply (Hgen xs []).
Qed.

Lemma count_if_quiet (cond : loc -> M bool) (f : loc -> bool) results w :
  (forall l, l ∈ results -> cond l w = (Ok (f l), w, [])) ->
  count_if results cond w = (Ok (length (List.filter f results)), w, []).
Proof.
  intros Hcond. unfold count_if.
  destruct (for_each_quiet (fun done n => n = length (List.filter f done)) results
              (fun n r => b <- cond r ;; ret (if b then S n else n)) 0%nat w)
    as (n & Hrun & ->); [done| |exact Hrun].
  intros done l rest n Hxs ->. eexists. split.
  - eapply (bind_run _ _ _ _ _ [] _ _ []); [|reflexivity].
    apply Hcond. rewrite Hxs. apply elem_of_app. right. by left.
  - rewrite List.filter_app, length_app. cbn. destruct (f l); cbn; lia.
Qed.

Lemma filter_if_quiet (cond : loc -> M bool) (f : loc -> bool) results w :
  (forall l, l ∈ results -> cond l w = (Ok (f l), w, [])) ->
  filter_if results cond w = (Ok (List.filter f results), w, []).
Proof.
  intros Hcond. unfold filter_if.
  destruct (for_each_quiet (fun done kept => kept = List.filter f done) results
              (fun kept r => b <- cond r ;; ret (if b then kept ++ [r] else kept)%list)
              [] w)
    as (kept & Hrun & ->); [done| |exact Hrun].
  intros done l rest kept Hxs ->. eexists. split.
  - eapply (bind_run _ _ _ _ _ [] _ _ []); [|reflexivity].
    apply Hcond. rewrite Hxs. apply elem_of_app. right. by left.
  - rewrite List.filter_app. cbn. destruct (f l); [done|by rewrite app_nil_r].
Qed.

Lemma site_is_quiet n l w d :
  heap w !! l = Some d ->
  Sitewide.site_is (VStr n) l w = (Ok (has_site w n l), w, []).
Proof.
  intros Hd. unfold Sitewide.site_is, dict_get_opt, has_site, field.
  eapply (bind_run _ _ _ _ _ [] _ _ []).
  - eapply (bind_run _ _ _ _ _ [] _ _ []); [|reflexivity].
    destruct w as [h tr]. by apply deref_run.
  - unfold loc in *. by rewrite Hd.
Qed.

Lemma status_in_quiet sts l w v :
  field w l "status" = Some v ->
  status_in sts l w = (Ok (has_status_in w sts l), w, []).
Proof.
  intros Hv. destruct (field_Some _ _ _ _ Hv) as (d & Hd & Hk).
  unfold status_in, has_status_in.
  eapply (bind_run _ _ _ _ _ [] _ _ []).
  - destruct w as [h tr]. by eapply getitem_run.
  - unfold ret. do 3 f_equal. rewrite Hv.
    apply bool_decide_ext. rewrite !list_elem_of_fmap. split.
    + intros (st & -> & Hin). eauto.
    + intros (st & [= ->] & Hin). eauto.
Qed.

Lemma status_is_quiet st l w v :
  field w l "status" = Some v ->
  status_is st l w = (Ok (has_status_in w [st] l), w, []).
Proof.
  intros Hv. destruct (field_Some _ _ _ _ Hv) as (d & Hd & Hk).
  unfold status_is, has_status_in.
  eapply (bind_run _ _ _ _ _ [] _ _ []).
  - destruct w as [h tr]. by eapply getitem_run.
  - unfold ret. do 3 f_equal. rewrite Hv.
    apply bool_decide_ext. cbn. rewrite list_elem_of_singleton. split; congruence.
Qed.

(** ** Two sites share the results between them *)

Lemma two_sites_partition w (a b : string) (f : loc -> bool) results :
  a <> b ->
  Forall (fun l => site_in [a; b] l w) results ->
  (length (List.filter f (List.filter (has_site w a) results))
   + length (List.filter f (List.filter (has_site w b) results)))%nat
  = length (List.filter f results).
Proof.
  intros Hab. induction 1 as [|l results (n & Hn & Hsite) _ IH]; [done|].
  assert (Hsites : has_site w a l = true /\ has_site w b l = false \/
                   has_site w a l = false /\ has_site w b l = true).
  { unfold has_site. rewrite Hsite.
    apply elem_of_cons in Hn as [->|Hn]; [|apply list_elem_of_singleton in Hn as ->].
    - left. split; [by apply bool_decide_true|apply bool_decide_false; congruence].
    - right. split; [apply bool_decide_false; congruence|by apply bool_decide_true]. }
  cbn [List.filter]. destruct Hsites as [[-> ->]|[-> ->]];
    cbn [List.filter]; destruct (f l); cbn [length]; lia.
Qed.

Lemma filter_true {A} (l : list A) : List.filter (fun _ => true) l = l.
Proof. induction l as [|x l IH]; [done|]. cbn. by rewrite IH. Qed.

(** A step whose run is known. *)
Lemma wpo_exact {A} (m : M A) (Q : result A -> world -> list string -> Prop) w r w' out :
  m w = (r, w', out) -> Q r w' out -> wpo m Q w.
Proof. intros Hm HQ r0 w0 out0 Hrun. rewrite Hm in Hrun. by injection Hrun as <- <- <-. Qed.

(** The summary that ends the sitewide program, for results that each
    belong to one of the two sites. *)
Lemma sitewide_summary_sites_spec json_path results w :
  Forall (fun l => is_result sitewide l w /\ site_in ["Eyehike"; "Unscripted6160"] l w)
    results ->
  wpo (print ("[+] JSON data saved  → " ++ json_path) ;;
       ok <- count_if results (status_is "OK") ;;
       redir <- count_if results (status_is "REDIRECT") ;;
       broke <- count_if results (status_in ["BROKEN"; "TIMEOUT"; "ERROR"]) ;;
       print (nl ++ Sitewide.rule60) ;;
       print "  FINAL SUMMARY" ;;
       print (str_repeat "─" 60) ;;
       for_each Sitewide.SITES tt
         (fun _ site =>
            s <- filter_if results (Sitewide.site_is (VStr (Sitewide.name site))) ;;
            s_broke <- count_if s (status_in ["BROKEN"; "TIMEOUT"; "ERROR"]) ;;
            print ("  " ++ Sitewide.name site ++ ": " ++ pretty (length s) ++ " links, "
                   ++ pretty s_broke ++ " broken")) ;;
       print (str_repeat "─" 60) ;;
       print ("  Total : " ++ pretty (length results) ++ "  ✅ " ++ pretty ok
              ++ "  ↪️ " ++ pretty redir ++ "  ❌ " ++ pretty broke) ;;
       print (Sitewide.rule60 ++ nl))
    (fun r w' out =>
       r = Ok tt /\ w' = w /\
       exists n1 n2 b1 b2 ok redir broke : nat,
         (n1 + n2)%nat = length results /\ (b1 + b2)%nat = broke /\
         [ "  Eyehike: " ++ pretty n1 ++ " links, " ++ pretty b1 ++ " broken";
           "  Unscripted6160: " ++ pretty n2 ++ " links, " ++ pretty b2 ++ " broken";
           str_repeat "─" 60;
           "  Total : " ++ pretty (length results) ++ "  ✅ " ++ pretty ok
           ++ "  ↪️ " ++ pretty redir ++ "  ❌ " ++ pretty broke;
           Sitewide.rule60 ++ nl ] `suffix_of` out) w.
Proof.
  intros Hres.
  assert (Hstatus : forall l, l ∈ results -> exists v, field w l "status" = Some v).
  { intros l Hl. eapply Forall_forall in Hres; [|exact Hl]. destruct Hres as [Hr _].
    destruct (is_result_has_status _ _ _ Hr) as (st & Hst & _). eauto. }
  assert (Hdict : forall l, l ∈ results -> exists d, heap w !! l = Some d).
  { intros l Hl. destruct (Hstatus l Hl) as [v Hv].
    destruct (field_Some _ _ _ _ Hv) as (d & Hd & _). eauto. }
  assert (Hcount : forall sts kept,
            (forall l, l ∈ kept -> l ∈ results) ->
            count_if kept (status_in sts) w
            = (Ok (length (List.filter (has_status_in w sts) kept)), w, [])).
  { intros sts kept Hkept. apply count_if_quiet. intros l Hl.
    destruct (Hstatus l (Hkept l Hl)) as [v Hv]. by eapply status_in_quiet. }
  assert (Hcount1 : forall st,
            count_if results (status_is st) w
            = (Ok (length (List.filter (has_status_in w [st]) results)), w, [])).
  { intros st. apply count_if_quiet. intros l Hl.
    destruct (Hstatus l Hl) as [v Hv]. by eapply status_is_quiet. }
  assert (Hfilter : forall n,
            filter_if results (Sitewide.site_is (VStr n)) w
            = (Ok (List.filter (has_site w n) results), w, [])).
  { intros n. apply filter_if_quiet. intros l Hl.
    destruct (Hdict l Hl) as [d Hd]. by eapply site_is_quiet. }
  assert (Hsub : forall n l, l ∈ List.filter (has_site w n) results -> l ∈ results).
  { intros n l Hl. apply list_elem_of_In, List.filter_In in Hl as [Hl _].
    by apply list_elem_of_In. }
  apply wpo_bind, wpo_print.
  apply wpo_bind. eapply wpo_exact; [apply Hcount1|].
  apply wpo_bind. eapply wpo_exact; [apply Hcount1|].
  apply wpo_bind. eapply wpo_exact; [by apply Hcount|].
  apply wpo_bind, wpo_print, wpo_bind, wpo_print, wpo_bind, wpo_print, wpo_bind.
  unfold Sitewide.SITES. cbn [for_each Sitewide.name].
  apply wpo_bind, wpo_bind. eapply wpo_exact; [apply Hfilter|].
  apply wpo_bind. eapply wpo_exact; [apply Hcount, Hsub|].
  apply wpo_print, wpo_bind, wpo_bind. eapply wpo_exact; [apply Hfilter|].
  apply wpo_bind. eapply wpo_exact; [apply Hcount, Hsub|].
  apply wpo_print, wpo_ret, wpo_bind, wpo_print, wpo_bind, wpo_print, wpo_print.
  split; [done|]. split; [done|].
  assert (Hsites : Forall (fun l => site_in ["Eyehike"; "Unscripted6160"] l w) results).
  { eapply Forall_impl; [exact Hres|]. by intros l [_ Hl]. }
  eexists _, _, _, _, _, _, _. split; [|split].
  - pose proof (two_sites_partition w "Eyehike" "Unscripted6160" (fun _ => true) results)
      as Hsum.
    rewrite !filter_true in Hsum. by apply Hsum.
  - by apply (two_sites_partition w "Eyehike" "Unscripted6160"
                (has_status_in w ["BROKEN"; "TIMEOUT"; "ERROR"]) results).
  - cbn [app]. repeat first [reflexivity | apply suffix_cons_r].
Qed.

(** The check of a link keeps its site. *)
Lemma check_link_site_spec (s : script) E names entry w :
  is_link s entry w -> site_in names entry w ->
  wp (check_link_of s E entry)
    (fun r w' => grows w w' /\ exists l, r = Ok l /\ is_result s l w' /\ site_in names l w')
    w.
Proof.
  intros Hlink (n & Hn & Hsite).
  eapply wp_conseq.
  { apply wp_and; [by apply check_link_result_spec|].
    destruct Hlink as (d & Hd & _ & Hkeys). destruct (Hkeys "url") as [u Hu].
    { destruct s; cbn; by left. }
    destruct (check_link_run s E w entry d u Hd Hu) as [out Hrun].
    eapply (wp_exact _ (fun r w' => forall l, r = Ok l -> site_in names l w'));
      [exact Hrun|].
    intros ? [= <-]. exists n. split; [exact Hn|].
    unfold field, loc in *. cbn [heap]. rewrite lookup_last. cbn.
    rewrite field_checked_other.
    - by rewrite Hd in Hsite.
    - unfold outcome_keys. intros Hk.
      repeat (apply elem_of_cons in Hk as [Hk|Hk]; [discriminate Hk|]).
      by apply elem_of_nil in Hk. }
  intros r w' [(Hg & l & -> & Hres) Hsite']. split; [exact Hg|].
  exists l. split; [done|]. split; [exact Hres|]. by apply Hsite'.
Qed.

(** The links of the sites, once all are crawled. *)
Lemma crawl_sites_spec E w :
  wp (for_each Sitewide.SITES []
        (fun all_links site =>
           links <- Sitewide.crawl_site E site ;;
           ret (all_links ++ links)%list))
    (fun res w' =>
       forall all_links, res = Ok all_links ->
         Forall (fun l => is_link sitewide l w' /\
                          site_in (Sitewide.name <$> Sitewide.SITES) l w') all_links) w.
Proof.
  eapply (wp_for_each
            (fun _ all_links w' =>
               Forall (fun l => is_link sitewide l w' /\
                                site_in (Sitewide.name <$> Sitewide.SITES) l w') all_links)
            (fun _ _ => True)).
  - constructor.
  - intros done site rest all_links w1 Hxs Hall.
    assert (Hsite : Sitewide.name site ∈ Sitewide.name <$> Sitewide.SITES).
    { apply list_elem_of_fmap. exists site. split; [done|].
      rewrite Hxs. apply elem_of_app. right. by left. }
    apply wp_bind. eapply wp_conseq; [apply crawl_site_links_spec|].
    intros [links|e] w3 Hlinks; [|done].
    destruct (Hlinks links eq_refl) as (Hnew & Hold & Hframe). apply wp_ret.
    apply Forall_app. split.
    + eapply Forall_impl; [exact Hall|]. intros l [Hl Hs]. split; [by apply Hold|].
      by apply Hframe.
    + eapply Forall_impl; [exact Hnew|]. intros l [Hl (n & Hn & Hs)]. split; [exact Hl|].
      apply list_elem_of_singleton in Hn as ->. by exists (Sitewide.name site).
  - intros all_links w' Hall ? [= <-]. exact Hall.
  - intros e w' _ ? [=].
Qed.

Lemma sitewide_main_sites_spec (E : environment) (Ho : host) p w :
  (forall links : list loc, as_completed E loc links ≡ₚ links) ->
  wpP (Sitewide.main E Ho)
    (fun res _ _ out =>
       res = Returned tt ->
       exists n1 n2 b1 b2 total ok redir broke : nat,
         (n1 + n2)%nat = total /\ (b1 + b2)%nat = broke /\
         [ "  Eyehike: " ++ pretty n1 ++ " links, " ++ pretty b1 ++ " broken";
           "  Unscripted6160: " ++ pretty n2 ++ " links, " ++ pretty b2 ++ " broken";
           str_repeat "─" 60;
           "  Total : " ++ pretty total ++ "  ✅ " ++ pretty ok
           ++ "  ↪️ " ++ pretty redir ++ "  ❌ " ++ pretty broke;
           Sitewide.rule60 ++ nl ] `suffix_of` out) p w.
Proof.
  intros Hsched. unfold Sitewide.main.
  apply wpP_bind, wpP_liftM. intros r0 w0 o0 [= <- <- <-]. cbn [outcome_of_result].
  cbv zeta. apply wpP_bind, wpP_liftM.
  eapply (wpo_conseq _ (fun res w' _ =>
            forall results, res = Ok results ->
              Forall (fun l => is_result sitewide l w' /\
                               site_in ["Eyehike"; "Unscripted6160"] l w') results)).
  { apply (wpo_of_wp _ (fun res w' =>
            forall results, res = Ok results ->
              Forall (fun l => is_result sitewide l w' /\
                               site_in ["Eyehike"; "Unscripted6160"] l w') results)).
    apply wp_bind, wp_print, wp_bind, wp_print, wp_bind, wp_strftime_now,
      wp_bind, wp_print, wp_bind, wp_print, wp_bind.
    eapply wp_conseq; [apply crawl_sites_spec|].
    intros [all_links|e] w1 Hall; [|intros ? [=]]. specialize (Hall all_links eq_refl).
    eapply wp_conseq.
    { apply (check_all_links_inv sitewide E all_links w1
               (fun l w => is_link sitewide l w /\
                           site_in ["Eyehike"; "Unscripted6160"] l w)
               (fun l w => is_result sitewide l w /\
                           site_in ["Eyehike"; "Unscripted6160"] l w)).
      - intros x w2 [Hl Hs]. by apply check_link_site_spec.
      - intros x w2 w3 Hg [Hl Hs]. split; [by eapply is_link_grows|by eapply site_in_grows].
      - intros x w2 w3 Hg [Hl Hs].
        split; [by eapply is_result_grows|by eapply site_in_grows].
      - by intros l w2 [Hl _].
      - exact Hall.
      - apply Hsched. }
    intros res w2 (_ & results & -> & _ & Hres) ? [= <-]. exact Hres. }
  intros [results|e] w2 o2 Hres; cbn [outcome_of_result]; [|intros [=]].
  specialize (Hres results eq_refl).
  apply wpP_bind. eapply wpP_conseq; [apply sitewide_generate_html_report_spec|].
  intros [[]|e|c] p3 w3 o3 (-> & _ & _); [|intros [=]..].
  apply wpP_bind. eapply wpP_conseq; [apply with_open_w_json_spec|].
  intros [[]|e|c] p4 w4 o4 (-> & _ & _); [|intros [=]..].
  apply wpP_liftM.
  eapply wpo_conseq; [by apply sitewide_summary_sites_spec|].
  intros r5 w5 o5 (-> & -> & n1 & n2 & b1 & b2 & ok & redir & broke & Hn & Hb & Hsuffix) _.
  exists n1, n2, b1, b2, (length results), ok, redir, broke.
  split; [exact Hn|]. split; [exact Hb|].
  rewrite !app_assoc. by apply suffix_app_r.
Qed.

(** X28. The lines of the sites in the final summary of the sitewide
    program account for every result: when the pool hands back every future
    it was given and [main] returns, the numbers of links of Eyehike and of
    Unscripted6160 add up to the total of the last line, and their numbers
    of broken links to its number of broken links. A link keeps the site
    that the crawl gave it through the check, and no result is without a
    site. *)
Theorem sitewide_main_site_lines (E : environment) (Ho : host) p w p' w' out :
  (forall links : list loc, as_completed E loc links ≡ₚ links) ->
  Sitewide.main E Ho p w = (Returned tt, p', w', out) ->
  exists n1 n2 b1 b2 total ok redir broke : nat,
    (n1 + n2)%nat = total /\ (b1 + b2)%nat = broke /\
    [ "  Eyehike: " ++ pretty n1 ++ " links, " ++ pretty b1 ++ " broken";
      "  Unscripted6160: " ++ pretty n2 ++ " links, " ++ pretty b2 ++ " broken";
      str_repeat "─" 60;
      "  Total : " ++ pretty total ++ "  ✅ " ++ pretty ok
      ++ "  ↪️ " ++ pretty redir ++ "  ❌ " ++ pretty broke;
      Sitewide.rule60 ++ nl ] `suffix_of` out.
Proof.
  intros Hsched Hrun.
  by apply (wpP_run _ _ _ _ _ _ _ _ (sitewide_main_sites_spec E Ho p w Hsched) Hrun).
Qed.

Lemma sitewide_main_site_lines_witness :
  exists n1 n2 b1 b2 total ok redir broke : nat,
    (n1 + n2)%nat = total /\ (b1 + b2)%nat = broke /\
    [ "  Eyehike: " ++ pretty n1 ++ " links, " ++ pretty b1 ++ " broken";
      "  Unscripted6160: " ++ pretty n2 ++ " links, " ++ pretty b2 ++ " broken";
      str_repeat "─" 60;
      "  Total : " ++ pretty total ++ "  ✅ " ++ pretty ok
      ++ "  ↪️ " ++ pretty redir ++ "  ❌ " ++ pretty broke;
      Sitewide.rule60 ++ nl ] `suffix_of` sitewide_run_two_sites.2.
Proof.
  apply (sitewide_main_site_lines env_two_sites host_ok (Process ∅ []) (World [] [])
           sitewide_run_two_sites.1.1.2 sitewide_run_two_sites.1.2
           sitewide_run_two_sites.2).
  - intros links. symmetry. apply Permutation_rev.
  - vm_compute. reflexivity.
Defined.

(** * The targets that pass the guard of the extractors *)

(** The links of a page that was fetched and parsed, for either script. *)
Lemma extract_of_fetched (s : script) E url skip w r sp :
  send E (trace w) (fetch_request s url) = Ok r ->
  ~ (400 <= r_status_code r < 600) ->
  BeautifulSoup E (r_text r) = Ok sp ->
  Forall (parses E) (soup_find_all_a sp) ->
  exists links w' out,
    extract_of s E url skip w = (Ok links, w', out) /\
    forall tag,
      tag ∈ soup_find_all_a sp -> external E (skipped_of s skip) tag ->
      exists l, l ∈ links /\ field w' l "url" = Some (VStr (href_of tag)).
Proof.
  intros Hsend Hcode Hsoup Hparse. destruct s; cbn [extract_of skipped_of].
  - destruct (wp_total _ _ _ (extract_links_from_page_fetched E url skip w r sp
                                Hsend Hcode Hsoup))
      as ([links|e] & w' & out & Hrun & Htrace & Hres).
    + destruct Hres as (kept & seen & Hext). exists links, w', out.
      split; [exact Hrun|].
      apply (extracted_unique_external _ _ _ _ _ _ _ _
               (sitewide_link_url url _) Hext).
    + destruct Hres as [_ Htag]. by apply Forall_parses_no_error in Htag.
  - destruct (wp_total _ _ _ (scrape_links_fetched E url w r sp Hsend Hcode Hsoup))
      as ([links|e] & w' & out & Hrun & Htrace & Hres).
    + destruct Hres as (kept & seen & Hext). exists links, w', out.
      split; [exact Hrun|].
      apply (extracted_unique_external _ _ _ _ _ _ _ _ webcam_link_url Hext).
    + destruct Hres as [_ Htag]. by apply Forall_parses_no_error in Htag.
Qed.

(** C8. The guard of both extractors tests the prefix "http", not a scheme:
    an element whose target starts with "http" but with neither "http://"
    nor "https://" (a relative target such as "http-status-codes.html", to
    which [urlparse] gives the empty network location) passes the guard and
    is returned as a link, against the claim. *)
Theorem extractors_return_relative_target (s : script) E url skip w r sp tag :
  send E (trace w) (fetch_request s url) = Ok r ->
  ~ (400 <= r_status_code r < 600) ->
  BeautifulSoup E (r_text r) = Ok sp ->
  Forall (parses E) (soup_find_all_a sp) ->
  tag ∈ soup_find_all_a sp ->
  external E (skipped_of s skip) tag ->
  startswith (href_of tag) "http://" = false ->
  startswith (href_of tag) "https://" = false ->
  exists links w' out l,
    extract_of s E url skip w = (Ok links, w', out) /\
    l ∈ links /\
    field w' l "url" = Some (VStr (href_of tag)) /\
    startswith (href_of tag) "http://" = false /\
    startswith (href_of tag) "https://" = false.
Proof.
  intros Hsend Hcode Hsoup Hparse Htag Hext Hhttp Hhttps.
  destruct (extract_of_fetched s E url skip w r sp Hsend Hcode Hsoup Hparse)
    as (links & w' & out & Hrun & Hall).
  destruct (Hall tag Htag Hext) as (l & Hl & Hurl).
  by exists links, w', out, l.
Qed.

Lemma extractors_return_relative_target_witness :
  exists links w' out l,
    extract_of webcam env_hikes Webcam.TARGET_URL ∅ (World [] []) = (Ok links, w', out) /\
    l ∈ links /\
    field w' l "url"
    = Some (VStr (href_of (ATag "http-status-codes.html" "HTTP status codes" None))) /\
    startswith (href_of (ATag "http-status-codes.html" "HTTP status codes" None))
      "http://" = false /\
    startswith (href_of (ATag "http-status-codes.html" "HTTP status codes" None))
      "https://" = false.
Proof.
  apply (extractors_return_relative_target webcam env_hikes Webcam.TARGET_URL ∅
           (World [] []) (Response 200 "OK" Webcam.TARGET_URL "<html>") soup_hikes
           (ATag "http-status-codes.html" "HTTP status codes" None)).
  - reflexivity.
  - cbn. lia.
  - reflexivity.
  - apply Forall_forall. intros tag _ _. by eexists.
  - right. right. by left.
  - split; [reflexivity|]. exists "". split; [reflexivity|].
    cbn [skipped_of]. vm_compute. by intros [=].
  - reflexivity.
  - reflexivity.
Defined.

(** The link of the relative target in the run of the webcam extractor. *)
Example scrape_links_relative_target :
  exists links w' out,
    Webcam.scrape_links env_hikes Webcam.TARGET_URL (World [] []) = (Ok links, w', out) /\
    (fun l => field w' l "url") <$> links
    = [Some (VStr "http-status-codes.html"); Some (VStr "https://example.com/a")].
Proof. eexists _, _, _. split; vm_compute; reflexivity. Qed.

(** * A page that the HTML parser rejects *)

(** X30. The HTML parser is called outside every handler: when the page is
    fetched with a status outside [400, 600) and the parser rejects its
    body, the extractor of either script raises what the parser raised,
    after that one request and without creating any object. *)
Theorem extractors_parser_rejection (s : script) E url skip w r e :
  send E (trace w) (fetch_request s url) = Ok r ->
  ~ (400 <= r_status_code r < 600) ->
  BeautifulSoup E (r_text r) = Raise e ->
  exists out,
    extract_of s E url skip w
    = (Raise e, World (heap w) (trace w ++ [fetch_request s url]), out).
Proof.
  intros Hsend Hcode Hsoup. destruct w as [h tr]. cbn [heap trace] in *.
  destruct s; cbn [extract_of]; eexists.
  - exact (extract_links_from_page_rejected_run E url skip h tr r e Hsend Hcode Hsoup).
  - exact (scrape_links_rejected_run E url h tr r e Hsend Hcode Hsoup).
Qed.

Lemma extractors_parser_rejection_witness :
  exists out,
    extract_of sitewide env_rejected_markup url_hike_one ∅ (World [] [])
    = (Raise (Exn ParserRejectedMarkup
                "The markup you provided was rejected by the parser."),
       World (heap (World [] []))
         (trace (World [] []) ++ [fetch_request sitewide url_hike_one]), out).
Proof.
  apply (extractors_parser_rejection sitewide env_rejected_markup url_hike_one ∅
           (World [] []) (Response 200 "OK" url_hike_one "<![sidebar]>")).
  - reflexivity.
  - cbn. lia.
  - reflexivity.
Defined.
